(** * The decompression coefficient buffer controller (jdcoefct.c)

    A shallow embedding of the coefficient buffer controller that sits
    between entropy decoding and the inverse DCT: the single-pass path
    ([decompress_onepass]), the multi-pass consumer and producer
    ([consume_data], [decompress_data]) and interblock smoothing
    ([smoothing_ok], [decompress_smooth_data]).

    Conventions of the embedding.
    - The build modelled has D_MULTISCAN_FILES_SUPPORTED and
      BLOCK_SMOOTHING_SUPPORTED defined and WITH_OPENCL_DECODING_SUPPORTED
      undefined: [decompress_onepass] is the portable loop of the source.
    - JDIMENSION is an unsigned 32-bit integer: its values are integers of
      [Z], reduced by [JDIM] wherever the source subtracts, adds or
      multiplies in that type.  INT32 is [long] and is taken wide enough
      for the smoothing products (LP64), so these stay unreduced.
    - A JBLOCK is the list of its DCTSIZE2 coefficients in natural order; a
      virtual block array is the list of its block rows.  Reads outside a
      list yield a zero coefficient or a zero block (the memory manager's
      range check is not part of this file).
    - Component arrays are lists; a loop [for (ci = 0; ci < n; ci++)] over
      an array walks the first [n] entries of the list.
    - A [for] loop runs the number of iterations its bounds give when it is
      entered: no loop body of this file changes a bound.  (A scan has at
      least one MCU per row; for MCUs_per_row = 0 the unsigned last_MCU_col
      is 2^32 - 1 and the column loops of the source would wrap around.)
    - The entropy decoder, the inverse DCT and the input controller are
      reached through method pointers in the source; here they are the
      variables of [Section Controller]. *)

From Stdlib Require Import ZArith Bool.
From stdpp Require Import base list strings.

Local Open Scope Z_scope.

(** ** Integer types *)

Definition JDIMENSION_MODULUS : Z := 2 ^ 32.

(** Reduction of an integer to JDIMENSION (unsigned int). *)
Definition JDIM (z : Z) : Z := z mod JDIMENSION_MODULUS.

(** The cast (JCOEF): JCOEF is a signed 16-bit integer. *)
Definition to_JCOEF (z : Z) : Z := (z + 32768) mod 65536 - 32768.

(** ** Blocks and block arrays *)

Abbreviation JCOEF := Z (only parsing).
Abbreviation JBLOCK := (list JCOEF) (only parsing).
Abbreviation JBLOCKROW := (list JBLOCK) (only parsing).
Abbreviation JBLOCKARRAY := (list JBLOCKROW) (only parsing).
Abbreviation jvirt_barray := (list JBLOCKROW) (only parsing).

Definition DCTSIZE2 : nat := 64.
Definition D_MAX_BLOCKS_IN_MCU : nat := 10.
Definition SAVED_COEFS : Z := 6.

Definition zero_block : JBLOCK := replicate DCTSIZE2 0.

(** [b[k]] for a block. *)
Definition coef_at (b : JBLOCK) (k : nat) : JCOEF := default 0 (b !! k).

(** [row[col]] for a block row. *)
Definition block_at (row : JBLOCKROW) (col : Z) : JBLOCK :=
  if col <? 0 then zero_block else default zero_block (row !! Z.to_nat col).

(** [a[i]] for an array of integers. *)
Definition int_at (a : list Z) (i : Z) : Z :=
  if i <? 0 then 0 else default 0 (a !! Z.to_nat i).

(** Natural-order array positions of the first 5 zigzag-order coefficients *)
Definition Q01_POS : nat := 1.
Definition Q10_POS : nat := 8.
Definition Q20_POS : nat := 16.
Definition Q11_POS : nat := 9.
Definition Q02_POS : nat := 2.

(** ** Return codes (jpeglib.h) *)

Inductive jpeg_code : Set :=
| JPEG_SUSPENDED
| JPEG_REACHED_SOS
| JPEG_REACHED_EOI
| JPEG_ROW_COMPLETED
| JPEG_SCAN_COMPLETED.

Definition is_suspended (r : jpeg_code) : bool :=
  match r with JPEG_SUSPENDED => true | _ => false end.

(** ** Loops *)

(** [for (i = i0; <n more iterations>; i++) s = body i s]. *)
Fixpoint for_loop {S : Type} (n : nat) (i : Z) (body : Z -> S -> S) (s : S) : S :=
  match n with
  | O => s
  | S n' => for_loop n' (i + 1) body (body i s)
  end.

(** [for (i = lo; i < hi; i++)]. *)
Definition for_range {S : Type} (lo hi : Z) (body : Z -> S -> S) (s : S) : S :=
  for_loop (Z.to_nat (hi - lo)) lo body s.

(** The same loop with a body that may leave the function ([inr]). *)
Fixpoint for_until {S R : Type} (n : nat) (i : Z) (body : Z -> S -> S + R)
    (s : S) : S + R :=
  match n with
  | O => inl s
  | S n' =>
      match body i s with
      | inl s' => for_until n' (i + 1) body s'
      | inr r => inr r
      end
  end.

(** [for (ci = i, p = l; ...; ci++, p++)] over the entries of an array. *)
Fixpoint foreach {A S : Type} (l : list A) (i : Z) (body : Z -> A -> S -> S)
    (s : S) : S :=
  match l with
  | [] => s
  | a :: l' => foreach l' (i + 1) body (body i a s)
  end.

Fixpoint foreach_until {A S R : Type} (l : list A) (i : Z)
    (body : Z -> A -> S -> S + R) (s : S) : S + R :=
  match l with
  | [] => inl s
  | a :: l' =>
      match body i a s with
      | inl s' => foreach_until l' (i + 1) body s'
      | inr r => inr r
      end
  end.

(** ** Data structures *)

Record JQUANT_TBL : Type := { quantval : list Z }.

Record jpeg_component_info : Type := {
  component_index : Z;
  h_samp_factor : Z;
  v_samp_factor : Z;
  width_in_blocks : Z;
  height_in_blocks : Z;
  DCT_scaled_size : Z;
  component_needed : bool;
  MCU_width : Z;
  MCU_height : Z;
  MCU_blocks : Z;
  MCU_sample_width : Z;
  last_col_width : Z;
  last_row_height : Z;
  quant_table : option JQUANT_TBL
}.

(** The two method pointers of the controller that change at run time. *)
Inductive consume_data_method : Set :=
| Dummy_consume_data
| Consume_data.

Inductive decompress_data_method : Set :=
| Decompress_onepass
| Decompress_data
| Decompress_smooth_data.

(** The private buffer controller object.  [pub_coef_arrays] tells whether
    pub.coef_arrays is non-NULL; [coef_bits_latch] is [None] for NULL.
    [MCU_buffer] holds the scratch blocks of the single-pass case; in the
    multi-pass case the source keeps pointers into the virtual arrays
    there, rebuilt for every MCU, which are [MCU_block_pointers] below. *)
Record my_coef_controller : Type := {
  pub_consume_data : consume_data_method;
  pub_decompress_data : decompress_data_method;
  pub_coef_arrays : bool;
  MCU_ctr : Z;
  MCU_vert_offset : Z;
  MCU_rows_per_iMCU_row : Z;
  MCU_buffer : list JBLOCK;
  workspace : JBLOCK;
  whole_image : list jvirt_barray;
  coef_bits_latch : option (list Z)
}.

(** The fields of the decompression object that the controller uses;
    [eoi_reached] is inputctl->eoi_reached, [entropy] the private state of
    the entropy decoder. *)
Record jpeg_decompress_struct (E : Type) : Type := {
  num_components : Z;
  comp_info : list jpeg_component_info;
  progressive_mode : bool;
  do_block_smoothing : bool;
  coef_bits : option (list (list Z));
  input_scan_number : Z;
  output_scan_number : Z;
  input_iMCU_row : Z;
  output_iMCU_row : Z;
  total_iMCU_rows : Z;
  comps_in_scan : Z;
  cur_comp_info : list jpeg_component_info;
  MCUs_per_row : Z;
  blocks_in_MCU : Z;
  Ss : Z;
  eoi_reached : bool;
  coef : my_coef_controller;
  entropy : E
}.

Arguments num_components {E} _.
Arguments comp_info {E} _.
Arguments progressive_mode {E} _.
Arguments do_block_smoothing {E} _.
Arguments coef_bits {E} _.
Arguments input_scan_number {E} _.
Arguments output_scan_number {E} _.
Arguments input_iMCU_row {E} _.
Arguments output_iMCU_row {E} _.
Arguments total_iMCU_rows {E} _.
Arguments comps_in_scan {E} _.
Arguments cur_comp_info {E} _.
Arguments MCUs_per_row {E} _.
Arguments blocks_in_MCU {E} _.
Arguments Ss {E} _.
Arguments eoi_reached {E} _.
Arguments coef {E} _.
Arguments entropy {E} _.

(** *** Field assignments *)

Definition set_pub_consume_data (m : consume_data_method) (c : my_coef_controller) :=
  {| pub_consume_data := m;
     pub_decompress_data := pub_decompress_data c;
     pub_coef_arrays := pub_coef_arrays c;
     MCU_ctr := MCU_ctr c;
     MCU_vert_offset := MCU_vert_offset c;
     MCU_rows_per_iMCU_row := MCU_rows_per_iMCU_row c;
     MCU_buffer := MCU_buffer c;
     workspace := workspace c;
     whole_image := whole_image c;
     coef_bits_latch := coef_bits_latch c |}.

Definition set_pub_decompress_data (m : decompress_data_method) (c : my_coef_controller) :=
  {| pub_consume_data := pub_consume_data c;
     pub_decompress_data := m;
     pub_coef_arrays := pub_coef_arrays c;
     MCU_ctr := MCU_ctr c;
     MCU_vert_offset := MCU_vert_offset c;
     MCU_rows_per_iMCU_row := MCU_rows_per_iMCU_row c;
     MCU_buffer := MCU_buffer c;
     workspace := workspace c;
     whole_image := whole_image c;
     coef_bits_latch := coef_bits_latch c |}.

Definition set_pub_coef_arrays (b : bool) (c : my_coef_controller) :=
  {| pub_consume_data := pub_consume_data c;
     pub_decompress_data := pub_decompress_data c;
     pub_coef_arrays := b;
     MCU_ctr := MCU_ctr c;
     MCU_vert_offset := MCU_vert_offset c;
     MCU_rows_per_iMCU_row := MCU_rows_per_iMCU_row c;
     MCU_buffer := MCU_buffer c;
     workspace := workspace c;
     whole_image := whole_image c;
     coef_bits_latch := coef_bits_latch c |}.

Definition set_MCU_ctr (v : Z) (c : my_coef_controller) :=
  {| pub_consume_data := pub_consume_data c;
     pub_decompress_data := pub_decompress_data c;
     pub_coef_arrays := pub_coef_arrays c;
     MCU_ctr := v;
     MCU_vert_offset := MCU_vert_offset c;
     MCU_rows_per_iMCU_row := MCU_rows_per_iMCU_row c;
     MCU_buffer := MCU_buffer c;
     workspace := workspace c;
     whole_image := whole_image c;
     coef_bits_latch := coef_bits_latch c |}.

Definition set_MCU_vert_offset (v : Z) (c : my_coef_controller) :=
  {| pub_consume_data := pub_consume_data c;
     pub_decompress_data := pub_decompress_data c;
     pub_coef_arrays := pub_coef_arrays c;
     MCU_ctr := MCU_ctr c;
     MCU_vert_offset := v;
     MCU_rows_per_iMCU_row := MCU_rows_per_iMCU_row c;
     MCU_buffer := MCU_buffer c;
     workspace := workspace c;
     whole_image := whole_image c;
     coef_bits_latch := coef_bits_latch c |}.

Definition set_MCU_rows_per_iMCU_row (v : Z) (c : my_coef_controller) :=
  {| pub_consume_data := pub_consume_data c;
     pub_decompress_data := pub_decompress_data c;
     pub_coef_arrays := pub_coef_arrays c;
     MCU_ctr := MCU_ctr c;
     MCU_vert_offset := MCU_vert_offset c;
     MCU_rows_per_iMCU_row := v;
     MCU_buffer := MCU_buffer c;
     workspace := workspace c;
     whole_image := whole_image c;
     coef_bits_latch := coef_bits_latch c |}.

Definition set_MCU_buffer (v : list JBLOCK) (c : my_coef_controller) :=
  {| pub_consume_data := pub_consume_data c;
     pub_decompress_data := pub_decompress_data c;
     pub_coef_arrays := pub_coef_arrays c;
     MCU_ctr := MCU_ctr c;
     MCU_vert_offset := MCU_vert_offset c;
     MCU_rows_per_iMCU_row := MCU_rows_per_iMCU_row c;
     MCU_buffer := v;
     workspace := workspace c;
     whole_image := whole_image c;
     coef_bits_latch := coef_bits_latch c |}.

Definition set_workspace (v : JBLOCK) (c : my_coef_controller) :=
  {| pub_consume_data := pub_consume_data c;
     pub_decompress_data := pub_decompress_data c;
     pub_coef_arrays := pub_coef_arrays c;
     MCU_ctr := MCU_ctr c;
     MCU_vert_offset := MCU_vert_offset c;
     MCU_rows_per_iMCU_row := MCU_rows_per_iMCU_row c;
     MCU_buffer := MCU_buffer c;
     workspace := v;
     whole_image := whole_image c;
     coef_bits_latch := coef_bits_latch c |}.

Definition set_whole_image (v : list jvirt_barray) (c : my_coef_controller) :=
  {| pub_consume_data := pub_consume_data c;
     pub_decompress_data := pub_decompress_data c;
     pub_coef_arrays := pub_coef_arrays c;
     MCU_ctr := MCU_ctr c;
     MCU_vert_offset := MCU_vert_offset c;
     MCU_rows_per_iMCU_row := MCU_rows_per_iMCU_row c;
     MCU_buffer := MCU_buffer c;
     workspace := workspace c;
     whole_image := v;
     coef_bits_latch := coef_bits_latch c |}.

Definition set_coef_bits_latch (v : option (list Z)) (c : my_coef_controller) :=
  {| pub_consume_data := pub_consume_data c;
     pub_decompress_data := pub_decompress_data c;
     pub_coef_arrays := pub_coef_arrays c;
     MCU_ctr := MCU_ctr c;
     MCU_vert_offset := MCU_vert_offset c;
     MCU_rows_per_iMCU_row := MCU_rows_per_iMCU_row c;
     MCU_buffer := MCU_buffer c;
     workspace := workspace c;
     whole_image := whole_image c;
     coef_bits_latch := v |}.

Section Fields.
Context {E : Type}.

Definition set_coef (v : my_coef_controller) (cinfo : jpeg_decompress_struct E) :=
  {| num_components := num_components cinfo;
     comp_info := comp_info cinfo;
     progressive_mode := progressive_mode cinfo;
     do_block_smoothing := do_block_smoothing cinfo;
     coef_bits := coef_bits cinfo;
     input_scan_number := input_scan_number cinfo;
     output_scan_number := output_scan_number cinfo;
     input_iMCU_row := input_iMCU_row cinfo;
     output_iMCU_row := output_iMCU_row cinfo;
     total_iMCU_rows := total_iMCU_rows cinfo;
     comps_in_scan := comps_in_scan cinfo;
     cur_comp_info := cur_comp_info cinfo;
     MCUs_per_row := MCUs_per_row cinfo;
     blocks_in_MCU := blocks_in_MCU cinfo;
     Ss := Ss cinfo;
     eoi_reached := eoi_reached cinfo;
     coef := v;
     entropy := entropy cinfo |}.

Definition set_entropy (v : E) (cinfo : jpeg_decompress_struct E) :=
  {| num_components := num_components cinfo;
     comp_info := comp_info cinfo;
     progressive_mode := progressive_mode cinfo;
     do_block_smoothing := do_block_smoothing cinfo;
     coef_bits := coef_bits cinfo;
     input_scan_number := input_scan_number cinfo;
     output_scan_number := output_scan_number cinfo;
     input_iMCU_row := input_iMCU_row cinfo;
     output_iMCU_row := output_iMCU_row cinfo;
     total_iMCU_rows := total_iMCU_rows cinfo;
     comps_in_scan := comps_in_scan cinfo;
     cur_comp_info := cur_comp_info cinfo;
     MCUs_per_row := MCUs_per_row cinfo;
     blocks_in_MCU := blocks_in_MCU cinfo;
     Ss := Ss cinfo;
     eoi_reached := eoi_reached cinfo;
     coef := coef cinfo;
     entropy := v |}.

Definition set_input_iMCU_row (v : Z) (cinfo : jpeg_decompress_struct E) :=
  {| num_components := num_components cinfo;
     comp_info := comp_info cinfo;
     progressive_mode := progressive_mode cinfo;
     do_block_smoothing := do_block_smoothing cinfo;
     coef_bits := coef_bits cinfo;
     input_scan_number := input_scan_number cinfo;
     output_scan_number := output_scan_number cinfo;
     input_iMCU_row := v;
     output_iMCU_row := output_iMCU_row cinfo;
     total_iMCU_rows := total_iMCU_rows cinfo;
     comps_in_scan := comps_in_scan cinfo;
     cur_comp_info := cur_comp_info cinfo;
     MCUs_per_row := MCUs_per_row cinfo;
     blocks_in_MCU := blocks_in_MCU cinfo;
     Ss := Ss cinfo;
     eoi_reached := eoi_reached cinfo;
     coef := coef cinfo;
     entropy := entropy cinfo |}.

Definition set_output_iMCU_row (v : Z) (cinfo : jpeg_decompress_struct E) :=
  {| num_components := num_components cinfo;
     comp_info := comp_info cinfo;
     progressive_mode := progressive_mode cinfo;
     do_block_smoothing := do_block_smoothing cinfo;
     coef_bits := coef_bits cinfo;
     input_scan_number := input_scan_number cinfo;
     output_scan_number := output_scan_number cinfo;
     input_iMCU_row := input_iMCU_row cinfo;
     output_iMCU_row := v;
     total_iMCU_rows := total_iMCU_rows cinfo;
     comps_in_scan := comps_in_scan cinfo;
     cur_comp_info := cur_comp_info cinfo;
     MCUs_per_row := MCUs_per_row cinfo;
     blocks_in_MCU := blocks_in_MCU cinfo;
     Ss := Ss cinfo;
     eoi_reached := eoi_reached cinfo;
     coef := coef cinfo;
     entropy := entropy cinfo |}.

(** [coef->f = v] through the pointer cinfo->coef. *)
Definition on_coef (f : my_coef_controller -> my_coef_controller)
    (cinfo : jpeg_decompress_struct E) :=
  set_coef (f (coef cinfo)) cinfo.

(** The array walked by [for (ci = 0; ci < cinfo->num_components; ci++)]. *)
Definition components (cinfo : jpeg_decompress_struct E) : list jpeg_component_info :=
  take (Z.to_nat (num_components cinfo)) (comp_info cinfo).

(** The array walked by [for (ci = 0; ci < cinfo->comps_in_scan; ci++)]. *)
Definition scan_components (cinfo : jpeg_decompress_struct E) : list jpeg_component_info :=
  take (Z.to_nat (comps_in_scan cinfo)) (cur_comp_info cinfo).
End Fields.

(** ** Memory: scratch blocks and virtual block arrays *)

(** The component read through a null or dangling pointer: all fields zero. *)
Definition no_component : jpeg_component_info :=
  {| component_index := 0; h_samp_factor := 0; v_samp_factor := 0;
     width_in_blocks := 0; height_in_blocks := 0; DCT_scaled_size := 0;
     component_needed := false; MCU_width := 0; MCU_height := 0;
     MCU_blocks := 0; MCU_sample_width := 0; last_col_width := 0;
     last_row_height := 0; quant_table := None |}.

(** [buffer[i]] for an array of block rows. *)
Definition buffer_row (buffer : JBLOCKARRAY) (i : Z) : JBLOCKROW :=
  if i <? 0 then [] else default [] (buffer !! Z.to_nat i).

(** [whole_image[ci]]. *)
Definition array_at (img : list jvirt_barray) (ci : Z) : jvirt_barray :=
  if ci <? 0 then [] else default [] (img !! Z.to_nat ci).

(** jzero_far on the first [n] blocks of the scratch buffer. *)
Definition jzero_far (n : Z) (buf : list JBLOCK) : list JBLOCK :=
  replicate (Nat.min (Z.to_nat n) (length buf)) zero_block ++ drop (Z.to_nat n) buf.

(** Modelled from the spec: jround_up of jutils.c, which is not among the
    sources; it pads a dimension up to a multiple of the sampling factor. *)
Definition jround_up (a b : Z) : Z :=
  let a' := a + b - 1 in a' - a' mod b.

(** Modelled from the spec: request_virt_barray of the memory manager with
    pre_zero set; a newly created array is zero-filled. *)
Definition request_virt_barray (blocksperrow numrows maxaccess : Z)
    : jvirt_barray :=
  replicate (Z.to_nat numrows) (replicate (Z.to_nat blocksperrow) zero_block).

(** Modelled from the spec: access_virt_barray of the memory manager; the
    window is the rows [start_row .. start_row + num_rows - 1] of the array. *)
Definition access_virt_barray (arr : jvirt_barray) (start_row num_rows : Z)
    : JBLOCKARRAY :=
  take (Z.to_nat num_rows) (drop (Z.to_nat start_row) arr).

(** A pointer to a block of a virtual array, as [consume_data] stores it in
    MCU_buffer: the array, the row and the column. *)
Record block_ptr : Type := { bp_array : Z; bp_row : Z; bp_col : Z }.

Definition load_block (img : list jvirt_barray) (p : block_ptr) : JBLOCK :=
  block_at (buffer_row (array_at img (bp_array p)) (bp_row p)) (bp_col p).

Definition store_block (img : list jvirt_barray) (p : block_ptr) (b : JBLOCK)
    : list jvirt_barray :=
  if (bp_array p <? 0) || (bp_row p <? 0) || (bp_col p <? 0) then img
  else
    alter (alter (fun row => <[Z.to_nat (bp_col p) := b]> row) (Z.to_nat (bp_row p)))
      (Z.to_nat (bp_array p)) img.

(** Writes the blocks of an MCU back through their pointers. *)
Fixpoint store_blocks (img : list jvirt_barray) (ps : list block_ptr)
    (bs : list JBLOCK) : list jvirt_barray :=
  match ps, bs with
  | p :: ps', b :: bs' => store_blocks (store_block img p b) ps' bs'
  | _, _ => img
  end.

(** ** Interblock smoothing arithmetic *)

(** The nine DC values of a block and its neighbours, held in the sliding
    registers DC1..DC9 of [decompress_smooth_data]. *)
Record dc_window : Type := {
  DC1 : Z; DC2 : Z; DC3 : Z;
  DC4 : Z; DC5 : Z; DC6 : Z;
  DC7 : Z; DC8 : Z; DC9 : Z
}.

(** The value [pred] computed from [num] for a coefficient with quantizer
    [Q] and latched coef_bits entry [Al]; the source repeats these lines
    for each of the five coefficients. *)
Definition smooth_pred (Q Al num : Z) : Z :=
  if 0 <=? num then
    let pred := Z.quot (Z.shiftl Q 7 + num) (Z.shiftl Q 8) in
    if (0 <? Al) && (Z.shiftl 1 Al <=? pred) then Z.shiftl 1 Al - 1 else pred
  else
    let pred := Z.quot (Z.shiftl Q 7 - num) (Z.shiftl Q 8) in
    let pred :=
      if (0 <? Al) && (Z.shiftl 1 Al <=? pred) then Z.shiftl 1 Al - 1 else pred in
    - pred.

(** [if ((Al=coef_bits[i]) != 0 && workspace[pos] == 0) { ...;
    workspace[pos] = (JCOEF) pred; }] *)
Definition estimate_coef (Al : Z) (pos : nat) (Q num : Z) (workspace : JBLOCK)
    : JBLOCK :=
  if negb (Al =? 0) && (coef_at workspace pos =? 0)
  then <[pos := to_JCOEF (smooth_pred Q Al num)]> workspace
  else workspace.

(** The numerators [num] of the five estimates. *)
Definition num_AC01 (Q00 : Z) (dc : dc_window) : Z := 36 * Q00 * (DC4 dc - DC6 dc).
Definition num_AC10 (Q00 : Z) (dc : dc_window) : Z := 36 * Q00 * (DC2 dc - DC8 dc).
Definition num_AC20 (Q00 : Z) (dc : dc_window) : Z :=
  9 * Q00 * (DC2 dc + DC8 dc - 2 * DC5 dc).
Definition num_AC11 (Q00 : Z) (dc : dc_window) : Z :=
  5 * Q00 * (DC1 dc - DC3 dc - DC7 dc + DC9 dc).
Definition num_AC02 (Q00 : Z) (dc : dc_window) : Z :=
  9 * Q00 * (DC4 dc + DC6 dc - 2 * DC5 dc).

(** The quantizers Q00, Q01, Q10, Q20, Q11, Q02 fetched per component. *)
Record smoothing_quantizers : Type := {
  Q00 : Z; Q01 : Z; Q10 : Z; Q20 : Z; Q11 : Z; Q02 : Z
}.

Definition quant_at (qt : option JQUANT_TBL) (pos : nat) : Z :=
  match qt with
  | Some t => default 0 (quantval t !! pos)
  | None => 0
  end.

Definition fetch_quantizers (compptr : jpeg_component_info) : smoothing_quantizers :=
  let quanttbl := quant_table compptr in
  {| Q00 := quant_at quanttbl 0;
     Q01 := quant_at quanttbl Q01_POS;
     Q10 := quant_at quanttbl Q10_POS;
     Q20 := quant_at quanttbl Q20_POS;
     Q11 := quant_at quanttbl Q11_POS;
     Q02 := quant_at quanttbl Q02_POS |}.

(** "Compute coefficient estimates per K.8": the five steps applied to the
    workspace copy of a block; [coef_bits] points at the component's six
    latched entries. *)
Definition smooth_workspace (coef_bits : list Z) (q : smoothing_quantizers)
    (dc : dc_window) (workspace : JBLOCK) : JBLOCK :=
  let workspace := estimate_coef (int_at coef_bits 1) 1 (Q01 q) (num_AC01 (Q00 q) dc) workspace in
  let workspace := estimate_coef (int_at coef_bits 2) 8 (Q10 q) (num_AC10 (Q00 q) dc) workspace in
  let workspace := estimate_coef (int_at coef_bits 3) 16 (Q20 q) (num_AC20 (Q00 q) dc) workspace in
  let workspace := estimate_coef (int_at coef_bits 4) 9 (Q11 q) (num_AC11 (Q00 q) dc) workspace in
  let workspace := estimate_coef (int_at coef_bits 5) 2 (Q02 q) (num_AC02 (Q00 q) dc) workspace in
  workspace.

(** ** The controller *)

Section Controller.
Context {E JSAMPIMAGE : Type}.

(** The method cinfo->entropy->decode_mcu: from the decoder state and the blocks
    MCU_buffer points at, whether an MCU was decoded, the new decoder
    state and the blocks as the decoder left them. *)
Variable decode_mcu : E -> list JBLOCK -> bool * E * list JBLOCK.

(** The method cinfo->idct->inverse_DCT[ci], called on (cinfo, compptr,
    coef_block, output_ptr, output_col): the method index [ci], which also selects the
    plane output_buf[ci], the component, the coefficient block, the sample
    planes, the row offset of output_ptr within the plane and the column;
    it yields the sample planes after the call. *)
Variable inverse_DCT :
  Z -> jpeg_component_info -> JBLOCK -> JSAMPIMAGE -> Z -> Z -> JSAMPIMAGE.

(** The methods cinfo->inputctl->consume_input and
    cinfo->inputctl->finish_input_pass. *)
Variable consume_input :
  jpeg_decompress_struct E -> jpeg_code * jpeg_decompress_struct E.
Variable finish_input_pass : jpeg_decompress_struct E -> jpeg_decompress_struct E.

Abbreviation cinfo_t := (jpeg_decompress_struct E).

(** Reset within-iMCU-row counters for a new row (input side) *)
Definition start_iMCU_row (cinfo : cinfo_t) : cinfo_t :=
  let rows :=
    if 1 <? comps_in_scan cinfo then 1
    else
      let compptr := default no_component (cur_comp_info cinfo !! 0%nat) in
      if input_iMCU_row cinfo <? JDIM (total_iMCU_rows cinfo - 1)
      then v_samp_factor compptr
      else last_row_height compptr in
  let cinfo := on_coef (set_MCU_rows_per_iMCU_row rows) cinfo in
  let cinfo := on_coef (set_MCU_ctr 0) cinfo in
  on_coef (set_MCU_vert_offset 0) cinfo.

(** Initialize for an input processing pass. *)
Definition start_input_pass (cinfo : cinfo_t) : cinfo_t :=
  start_iMCU_row (set_input_iMCU_row 0 cinfo).

(** *** Block smoothing eligibility *)

(** The latch area as alloc_small returns it; its contents are
    unspecified and every entry read later is written first. *)
Definition alloc_latch (cinfo : cinfo_t) : list Z :=
  replicate (Z.to_nat (num_components cinfo * SAVED_COEFS)) 0.

(** [for (coefi = 1; coefi <= 5; coefi++)] of [smoothing_ok], on the latch
    entries of component [ci]. *)
Definition latch_coef_bits (ci : Z) (coef_bits : list Z) (st : list Z * bool)
    : list Z * bool :=
  for_range 1 6
    (fun coefi '(latch, smoothing_useful) =>
       (<[Z.to_nat (ci * SAVED_COEFS + coefi) := int_at coef_bits coefi]> latch,
        if negb (int_at coef_bits coefi =? 0) then true else smoothing_useful))
    st.

(** Determine whether block smoothing is applicable and safe; the second
    component is the decompression object after the call. *)
Definition smoothing_ok (cinfo : cinfo_t) : bool * cinfo_t :=
  match progressive_mode cinfo, coef_bits cinfo with
  | false, _ | _, None => (false, cinfo)
  | true, Some all_coef_bits =>
        let coef_bits_latch :=
          match coef_bits_latch (coef cinfo) with
          | None => alloc_latch cinfo
          | Some latch => latch
          end in
        let latched latch := on_coef (set_coef_bits_latch (Some latch)) cinfo in
        match
          foreach_until (components cinfo) 0
            (fun ci compptr '(latch, smoothing_useful) =>
               match quant_table compptr with
               | None => inr (false, latched latch)
               | Some qtable =>
                   if (default 0 (quantval qtable !! 0%nat) =? 0)
                      || (default 0 (quantval qtable !! Q01_POS) =? 0)
                      || (default 0 (quantval qtable !! Q10_POS) =? 0)
                      || (default 0 (quantval qtable !! Q20_POS) =? 0)
                      || (default 0 (quantval qtable !! Q11_POS) =? 0)
                      || (default 0 (quantval qtable !! Q02_POS) =? 0)
                   then inr (false, latched latch)
                   else
                     let coef_bits :=
                       default [] (all_coef_bits !! Z.to_nat ci) in
                     if int_at coef_bits 0 <? 0 then inr (false, latched latch)
                     else inl (latch_coef_bits ci coef_bits (latch, smoothing_useful))
               end)
            (coef_bits_latch, false)
        with
        | inr r => r
        | inl (latch, smoothing_useful) => (smoothing_useful, latched latch)
        end
  end.

(** Initialize for an output processing pass. *)
Definition start_output_pass (cinfo : cinfo_t) : cinfo_t :=
  let cinfo :=
    if pub_coef_arrays (coef cinfo) then
      if do_block_smoothing cinfo then
        let '(ok, cinfo) := smoothing_ok cinfo in
        if ok then on_coef (set_pub_decompress_data Decompress_smooth_data) cinfo
        else on_coef (set_pub_decompress_data Decompress_data) cinfo
      else on_coef (set_pub_decompress_data Decompress_data) cinfo
    else cinfo in
  set_output_iMCU_row 0 cinfo.

(** *** The single-pass case *)

(** "Determine where data should go in output_buf and do the IDCT thing":
    the loop over the components of the scan for the MCU just decoded. *)
Definition onepass_output_MCU (cinfo : cinfo_t) (yoffset MCU_col_num : Z)
    (output_buf : JSAMPIMAGE) : JSAMPIMAGE :=
  let last_MCU_col := JDIM (MCUs_per_row cinfo - 1) in
  let last_iMCU_row := JDIM (total_iMCU_rows cinfo - 1) in
  snd
    (foreach (scan_components cinfo) 0
       (fun ci compptr '(blkn, output_buf) =>
          if negb (component_needed compptr)
          then (blkn + MCU_blocks compptr, output_buf)
          else
            let useful_width :=
              if MCU_col_num <? last_MCU_col then MCU_width compptr
              else last_col_width compptr in
            let output_ptr := yoffset * DCT_scaled_size compptr in
            let start_col := JDIM (MCU_col_num * MCU_sample_width compptr) in
            let '(blkn, output_buf, _) :=
              for_range 0 (MCU_height compptr)
                (fun yindex '(blkn, output_buf, output_ptr) =>
                   let output_buf :=
                     if (input_iMCU_row cinfo <? last_iMCU_row)
                        || (yoffset + yindex <? last_row_height compptr)
                     then
                       fst
                         (for_range 0 useful_width
                            (fun xindex '(output_buf, output_col) =>
                               (inverse_DCT (component_index compptr) compptr
                                  (block_at (MCU_buffer (coef cinfo)) (blkn + xindex))
                                  output_buf output_ptr output_col,
                                JDIM (output_col + DCT_scaled_size compptr)))
                            (output_buf, start_col))
                     else output_buf in
                   (blkn + MCU_width compptr, output_buf,
                    output_ptr + DCT_scaled_size compptr))
                (blkn, output_buf, output_ptr) in
            (blkn, output_buf))
       (0, output_buf)).

(** The body of the loop over MCU columns: fetch an MCU and transform it;
    [inr] is [return JPEG_SUSPENDED]. *)
Definition onepass_MCU (yoffset MCU_col_num : Z) (st : cinfo_t * JSAMPIMAGE)
    : cinfo_t * JSAMPIMAGE + jpeg_code * cinfo_t * JSAMPIMAGE :=
  let '(cinfo, output_buf) := st in
  let cinfo :=
    on_coef (fun c => set_MCU_buffer (jzero_far (blocks_in_MCU cinfo) (MCU_buffer c)) c)
      cinfo in
  let '(ok, e, blocks) := decode_mcu (entropy cinfo) (MCU_buffer (coef cinfo)) in
  let cinfo := set_entropy e (on_coef (set_MCU_buffer blocks) cinfo) in
  if negb ok then
    let cinfo := on_coef (set_MCU_vert_offset yoffset) cinfo in
    let cinfo := on_coef (set_MCU_ctr MCU_col_num) cinfo in
    inr (JPEG_SUSPENDED, cinfo, output_buf)
  else inl (cinfo, onepass_output_MCU cinfo yoffset MCU_col_num output_buf).

(** The body of the loop over the MCU rows of the iMCU row. *)
Definition onepass_MCU_row (last_MCU_col yoffset : Z) (st : cinfo_t * JSAMPIMAGE)
    : cinfo_t * JSAMPIMAGE + jpeg_code * cinfo_t * JSAMPIMAGE :=
  let MCU_ctr0 := MCU_ctr (coef (fst st)) in
  match
    for_until (Z.to_nat (last_MCU_col + 1 - MCU_ctr0)) MCU_ctr0 (onepass_MCU yoffset) st
  with
  | inl (cinfo, output_buf) => inl (on_coef (set_MCU_ctr 0) cinfo, output_buf)
  | inr r => inr r
  end.

(** Decompress and return some data in the single-pass case. *)
Definition decompress_onepass (cinfo : cinfo_t) (output_buf : JSAMPIMAGE)
    : jpeg_code * cinfo_t * JSAMPIMAGE :=
  let last_MCU_col := JDIM (MCUs_per_row cinfo - 1) in
  let yoffset0 := MCU_vert_offset (coef cinfo) in
  match
    for_until (Z.to_nat (MCU_rows_per_iMCU_row (coef cinfo) - yoffset0)) yoffset0
      (onepass_MCU_row last_MCU_col) (cinfo, output_buf)
  with
  | inr r => r
  | inl (cinfo, output_buf) =>
      let cinfo := set_output_iMCU_row (JDIM (output_iMCU_row cinfo + 1)) cinfo in
      let cinfo := set_input_iMCU_row (JDIM (input_iMCU_row cinfo + 1)) cinfo in
      if input_iMCU_row cinfo <? total_iMCU_rows cinfo
      then (JPEG_ROW_COMPLETED, start_iMCU_row cinfo, output_buf)
      else (JPEG_SCAN_COMPLETED, finish_input_pass cinfo, output_buf)
  end.

(** Dummy consume-input routine for single-pass operation. *)
Definition dummy_consume_data (cinfo : cinfo_t) : jpeg_code * cinfo_t :=
  (JPEG_SUSPENDED, cinfo).

(** *** The multi-pass case: input side *)

(** "Construct list of pointers to DCT blocks belonging to this MCU":
    buffer[ci] is the window at row input_iMCU_row * v_samp_factor of the
    component's virtual array. *)
Definition MCU_block_pointers (cinfo : cinfo_t) (yoffset MCU_col_num : Z)
    : list block_ptr :=
  foreach (scan_components cinfo) 0
    (fun ci compptr MCU_buffer =>
       let start_row := JDIM (input_iMCU_row cinfo * v_samp_factor compptr) in
       let start_col := JDIM (MCU_col_num * MCU_width compptr) in
       for_range 0 (MCU_height compptr)
         (fun yindex MCU_buffer =>
            for_range 0 (MCU_width compptr)
              (fun xindex MCU_buffer =>
                 MCU_buffer ++
                 [{| bp_array := component_index compptr;
                     bp_row := start_row + (yindex + yoffset);
                     bp_col := start_col + xindex |}])
              MCU_buffer)
         MCU_buffer)
    [].

(** The body of the loop over MCU columns of [consume_data]: the decoder
    writes through the pointers, straight into the virtual arrays. *)
Definition consume_MCU (yoffset MCU_col_num : Z) (cinfo : cinfo_t)
    : cinfo_t + jpeg_code * cinfo_t :=
  let ptrs := MCU_block_pointers cinfo yoffset MCU_col_num in
  let img := whole_image (coef cinfo) in
  let '(ok, e, blocks) := decode_mcu (entropy cinfo) (map (load_block img) ptrs) in
  let cinfo :=
    set_entropy e (on_coef (set_whole_image (store_blocks img ptrs blocks)) cinfo) in
  if negb ok then
    let cinfo := on_coef (set_MCU_vert_offset yoffset) cinfo in
    let cinfo := on_coef (set_MCU_ctr MCU_col_num) cinfo in
    inr (JPEG_SUSPENDED, cinfo)
  else inl cinfo.

Definition consume_MCU_row (yoffset : Z) (cinfo : cinfo_t)
    : cinfo_t + jpeg_code * cinfo_t :=
  let MCU_ctr0 := MCU_ctr (coef cinfo) in
  match
    for_until (Z.to_nat (MCUs_per_row cinfo - MCU_ctr0)) MCU_ctr0 (consume_MCU yoffset) cinfo
  with
  | inl cinfo => inl (on_coef (set_MCU_ctr 0) cinfo)
  | inr r => inr r
  end.

(** Consume input data and store it in the full-image coefficient buffer. *)
Definition consume_data (cinfo : cinfo_t) : jpeg_code * cinfo_t :=
  let yoffset0 := MCU_vert_offset (coef cinfo) in
  match
    for_until (Z.to_nat (MCU_rows_per_iMCU_row (coef cinfo) - yoffset0)) yoffset0
      consume_MCU_row cinfo
  with
  | inr r => r
  | inl cinfo =>
      let cinfo := set_input_iMCU_row (JDIM (input_iMCU_row cinfo + 1)) cinfo in
      if input_iMCU_row cinfo <? total_iMCU_rows cinfo
      then (JPEG_ROW_COMPLETED, start_iMCU_row cinfo)
      else (JPEG_SCAN_COMPLETED, finish_input_pass cinfo)
  end.

(** The call through the method pointer coef->pub.consume_data. *)
Definition call_consume_data (cinfo : cinfo_t) : jpeg_code * cinfo_t :=
  match pub_consume_data (coef cinfo) with
  | Dummy_consume_data => dummy_consume_data cinfo
  | Consume_data => consume_data cinfo
  end.

(** *** The multi-pass case: output side *)

(** The condition of the loop "Force some input to be done if we are
    getting ahead of the input" of [decompress_data]. *)
Definition output_ahead_of_input (cinfo : cinfo_t) : bool :=
  (input_scan_number cinfo <? output_scan_number cinfo)
  || ((input_scan_number cinfo =? output_scan_number cinfo)
      && (input_iMCU_row cinfo <=? output_iMCU_row cinfo)).

(** That loop; [fuel] bounds the number of consume_input calls, [inr] is
    [return JPEG_SUSPENDED], and [None] means the bound was reached. *)
Fixpoint data_force_input (fuel : nat) (cinfo : cinfo_t)
    : option (cinfo_t + jpeg_code * cinfo_t) :=
  if output_ahead_of_input cinfo then
    match fuel with
    | O => None
    | S fuel' =>
        let '(r, cinfo) := consume_input cinfo in
        if is_suspended r then Some (inr (JPEG_SUSPENDED, cinfo))
        else data_force_input fuel' cinfo
    end
  else Some (inl cinfo).

(** "Count non-dummy DCT block rows in this iMCU row." *)
Definition output_block_rows (cinfo : cinfo_t) (compptr : jpeg_component_info) : Z :=
  let last_iMCU_row := JDIM (total_iMCU_rows cinfo - 1) in
  if output_iMCU_row cinfo <? last_iMCU_row then v_samp_factor compptr
  else
    let block_rows := height_in_blocks compptr mod v_samp_factor compptr in
    if block_rows =? 0 then v_samp_factor compptr else block_rows.

(** "OK, output from the virtual arrays." *)
Definition data_output (cinfo : cinfo_t) (output_buf : JSAMPIMAGE) : JSAMPIMAGE :=
  foreach (components cinfo) 0
    (fun ci compptr output_buf =>
       if negb (component_needed compptr) then output_buf
       else
         let buffer :=
           access_virt_barray (array_at (whole_image (coef cinfo)) ci)
             (JDIM (output_iMCU_row cinfo * v_samp_factor compptr))
             (v_samp_factor compptr) in
         let block_rows := output_block_rows cinfo compptr in
         fst
           (for_range 0 block_rows
              (fun block_row '(output_buf, output_ptr) =>
                 let buffer_ptr := buffer_row buffer block_row in
                 (fst
                    (for_range 0 (width_in_blocks compptr)
                       (fun block_num '(output_buf, output_col) =>
                          (inverse_DCT ci compptr (block_at buffer_ptr block_num)
                             output_buf output_ptr output_col,
                           JDIM (output_col + DCT_scaled_size compptr)))
                       (output_buf, 0)),
                  output_ptr + DCT_scaled_size compptr))
              (output_buf, 0)))
    output_buf.

(** "if (++(cinfo->output_iMCU_row) < cinfo->total_iMCU_rows) return
    JPEG_ROW_COMPLETED; return JPEG_SCAN_COMPLETED;" *)
Definition advance_output (cinfo : cinfo_t) : jpeg_code * cinfo_t :=
  let cinfo := set_output_iMCU_row (JDIM (output_iMCU_row cinfo + 1)) cinfo in
  if output_iMCU_row cinfo <? total_iMCU_rows cinfo
  then (JPEG_ROW_COMPLETED, cinfo)
  else (JPEG_SCAN_COMPLETED, cinfo).

(** Decompress and return some data in the multi-pass case. *)
Definition decompress_data (fuel : nat) (cinfo : cinfo_t) (output_buf : JSAMPIMAGE)
    : option (jpeg_code * cinfo_t * JSAMPIMAGE) :=
  match data_force_input fuel cinfo with
  | None => None
  | Some (inr (r, cinfo)) => Some (r, cinfo, output_buf)
  | Some (inl cinfo) =>
      let output_buf := data_output cinfo output_buf in
      let '(r, cinfo) := advance_output cinfo in
      Some (r, cinfo, output_buf)
  end.

(** *** The multi-pass case with block smoothing *)

(** The loop "Force some input to be done if we are getting ahead of the
    input" of [decompress_smooth_data]. *)
Fixpoint smooth_force_input (fuel : nat) (cinfo : cinfo_t)
    : option (cinfo_t + jpeg_code * cinfo_t) :=
  if (input_scan_number cinfo <=? output_scan_number cinfo)
     && negb (eoi_reached cinfo)
  then
    let delta := if Ss cinfo =? 0 then 1 else 0 in
    if (input_scan_number cinfo =? output_scan_number cinfo)
       && (JDIM (output_iMCU_row cinfo + delta) <? input_iMCU_row cinfo)
    then Some (inl cinfo)
    else
      match fuel with
      | O => None
      | S fuel' =>
          let '(r, cinfo) := consume_input cinfo in
          if is_suspended r then Some (inr (JPEG_SUSPENDED, cinfo))
          else smooth_force_input fuel' cinfo
      end
  else Some (inl cinfo).

(** The loop over the blocks of one block row.  [base] is the index in
    [buffer] of the first row of the current iMCU row; the state is the
    DC registers, the workspace, the sample planes and output_col. *)
Definition smooth_block_row (ci : Z) (compptr : jpeg_component_info)
    (coef_bits : list Z) (q : smoothing_quantizers)
    (buffer : JBLOCKARRAY) (base : Z) (first_row last_row : bool)
    (block_rows block_row output_ptr : Z) (workspace : JBLOCK)
    (output_buf : JSAMPIMAGE) : JBLOCK * JSAMPIMAGE :=
  let buffer_ptr := buffer_row buffer (base + block_row) in
  let prev_block_row :=
    if first_row && (block_row =? 0) then buffer_ptr
    else buffer_row buffer (base + (block_row - 1)) in
  let next_block_row :=
    if last_row && (block_row =? block_rows - 1) then buffer_ptr
    else buffer_row buffer (base + (block_row + 1)) in
  let dc :=
    {| DC1 := coef_at (block_at prev_block_row 0) 0;
       DC2 := coef_at (block_at prev_block_row 0) 0;
       DC3 := coef_at (block_at prev_block_row 0) 0;
       DC4 := coef_at (block_at buffer_ptr 0) 0;
       DC5 := coef_at (block_at buffer_ptr 0) 0;
       DC6 := coef_at (block_at buffer_ptr 0) 0;
       DC7 := coef_at (block_at next_block_row 0) 0;
       DC8 := coef_at (block_at next_block_row 0) 0;
       DC9 := coef_at (block_at next_block_row 0) 0 |} in
  let last_block_column := JDIM (width_in_blocks compptr - 1) in
  let '(_, workspace, output_buf, _) :=
    for_loop (Z.to_nat (last_block_column + 1)) 0
      (fun block_num '(dc, workspace, output_buf, output_col) =>
         let workspace := block_at buffer_ptr block_num in
         let dc :=
           if block_num <? last_block_column then
             {| DC1 := DC1 dc; DC2 := DC2 dc;
                DC3 := coef_at (block_at prev_block_row (block_num + 1)) 0;
                DC4 := DC4 dc; DC5 := DC5 dc;
                DC6 := coef_at (block_at buffer_ptr (block_num + 1)) 0;
                DC7 := DC7 dc; DC8 := DC8 dc;
                DC9 := coef_at (block_at next_block_row (block_num + 1)) 0 |}
           else dc in
         let workspace := smooth_workspace coef_bits q dc workspace in
         let output_buf :=
           inverse_DCT ci compptr workspace output_buf output_ptr output_col in
         let dc :=
           {| DC1 := DC2 dc; DC2 := DC3 dc; DC3 := DC3 dc;
              DC4 := DC5 dc; DC5 := DC6 dc; DC6 := DC6 dc;
              DC7 := DC8 dc; DC8 := DC9 dc; DC9 := DC9 dc |} in
         (dc, workspace, output_buf, JDIM (output_col + DCT_scaled_size compptr)))
      (dc, workspace, output_buf, 0) in
  (workspace, output_buf).

(** The body of the loop over components of [decompress_smooth_data]. *)
Definition smooth_component (cinfo : cinfo_t) (ci : Z)
    (compptr : jpeg_component_info) (st : JBLOCK * JSAMPIMAGE)
    : JBLOCK * JSAMPIMAGE :=
  if negb (component_needed compptr) then st
  else
    let last_iMCU_row := JDIM (total_iMCU_rows cinfo - 1) in
    let v := v_samp_factor compptr in
    let '(block_rows, access_rows, last_row) :=
      if output_iMCU_row cinfo <? last_iMCU_row then (v, v * 2, false)
      else
        let block_rows := height_in_blocks compptr mod v in
        let block_rows := if block_rows =? 0 then v else block_rows in
        (block_rows, block_rows, true) in
    let arr := array_at (whole_image (coef cinfo)) ci in
    let '(buffer, base, first_row) :=
      if 0 <? output_iMCU_row cinfo then
        (access_virt_barray arr (JDIM ((output_iMCU_row cinfo - 1) * v))
           (access_rows + v), v, false)
      else (access_virt_barray arr 0 access_rows, 0, true) in
    let coef_bits :=
      drop (Z.to_nat (ci * SAVED_COEFS))
        (default [] (coef_bits_latch (coef cinfo))) in
    let q := fetch_quantizers compptr in
    let '(workspace, output_buf, _) :=
      for_range 0 block_rows
        (fun block_row '(workspace, output_buf, output_ptr) =>
           let '(workspace, output_buf) :=
             smooth_block_row ci compptr coef_bits q buffer base first_row last_row
               block_rows block_row output_ptr workspace output_buf in
           (workspace, output_buf, output_ptr + DCT_scaled_size compptr))
        (fst st, snd st, 0) in
    (workspace, output_buf).

(** "OK, output from the virtual arrays", with smoothing; the workspace
    is left holding the last block transformed. *)
Definition smooth_output (cinfo : cinfo_t) (output_buf : JSAMPIMAGE)
    : cinfo_t * JSAMPIMAGE :=
  let '(workspace, output_buf) :=
    foreach (components cinfo) 0 (smooth_component cinfo)
      (workspace (coef cinfo), output_buf) in
  (on_coef (set_workspace workspace) cinfo, output_buf).

(** Variant of decompress_data for use when doing block smoothing. *)
Definition decompress_smooth_data (fuel : nat) (cinfo : cinfo_t)
    (output_buf : JSAMPIMAGE) : option (jpeg_code * cinfo_t * JSAMPIMAGE) :=
  match smooth_force_input fuel cinfo with
  | None => None
  | Some (inr (r, cinfo)) => Some (r, cinfo, output_buf)
  | Some (inl cinfo) =>
      let '(cinfo, output_buf) := smooth_output cinfo output_buf in
      let '(r, cinfo) := advance_output cinfo in
      Some (r, cinfo, output_buf)
  end.

(** The call through the method pointer coef->pub.decompress_data. *)
Definition call_decompress_data (fuel : nat) (cinfo : cinfo_t)
    (output_buf : JSAMPIMAGE) : option (jpeg_code * cinfo_t * JSAMPIMAGE) :=
  match pub_decompress_data (coef cinfo) with
  | Decompress_onepass => Some (decompress_onepass cinfo output_buf)
  | Decompress_data => decompress_data fuel cinfo output_buf
  | Decompress_smooth_data => decompress_smooth_data fuel cinfo output_buf
  end.

(** *** Initialization *)

(** Initialize coefficient buffer controller.  The controller object is
    freshly allocated: the fields not assigned here keep the contents they
    are found with. *)
Definition jinit_d_coef_controller (cinfo : cinfo_t) (need_full_buffer : bool)
    : cinfo_t :=
  let cinfo := on_coef (set_coef_bits_latch None) cinfo in
  let cinfo :=
    if need_full_buffer then
      let arrays :=
        map
          (fun compptr =>
             let access_rows :=
               if progressive_mode cinfo then v_samp_factor compptr * 3
               else v_samp_factor compptr in
             request_virt_barray
               (JDIM (jround_up (width_in_blocks compptr) (h_samp_factor compptr)))
               (JDIM (jround_up (height_in_blocks compptr) (v_samp_factor compptr)))
             access_rows)
          (components cinfo) in
      let cinfo := on_coef (set_whole_image arrays) cinfo in
      let cinfo := on_coef (set_pub_consume_data Consume_data) cinfo in
      let cinfo := on_coef (set_pub_decompress_data Decompress_data) cinfo in
      on_coef (set_pub_coef_arrays true) cinfo
    else
      let buffer := replicate D_MAX_BLOCKS_IN_MCU zero_block in
      let cinfo := on_coef (set_MCU_buffer buffer) cinfo in
      let cinfo := on_coef (set_pub_consume_data Dummy_consume_data) cinfo in
      let cinfo := on_coef (set_pub_decompress_data Decompress_onepass) cinfo in
      on_coef (set_pub_coef_arrays false) cinfo in
  on_coef (set_workspace zero_block) cinfo.

End Controller.

(** ** Collaborators and drivers *)

(** Modelled from the spec: decode_mcu running out of input.  The entropy
    decoder is not among the sources; the spec has it return false when it
    "ran out of input, must be retried after more input arrives".  A stall
    schedule is put in front of a decoder: each call takes the next entry,
    [true] making the call fail with the decoder and the blocks as they
    were, [false] (or an exhausted schedule) passing the call on. *)
Definition stalling {E : Type} (decode_mcu : E -> list JBLOCK -> bool * E * list JBLOCK)
    (es : E * list bool) (blocks : list JBLOCK) : bool * (E * list bool) * list JBLOCK :=
  match snd es with
  | true :: sched => (false, (fst es, sched), blocks)
  | sched =>
      let '(ok, e, blocks) := decode_mcu (fst es) blocks in
      (ok, (e, tail sched), blocks)
  end.

(** The number of stalls a schedule injects. *)
Fixpoint stalls (sched : list bool) : nat :=
  match sched with
  | [] => O
  | true :: sched' => S (stalls sched')
  | false :: sched' => stalls sched'
  end.

(** Modelled from the spec: a successful decode_mcu.  "On success all
    blocks in the MCU are filled, honoring pre-zeroing": the decoder writes
    the coded coefficients and leaves the others as it finds them. *)
Definition fill_block (old new : JBLOCK) : JBLOCK :=
  zip_with (fun o n => if n =? 0 then o else n) old new.

Definition fill_blocks (blocks mcu : list JBLOCK) : list JBLOCK :=
  zip_with fill_block (take (length mcu) blocks) mcu ++ drop (length mcu) blocks.

(** Modelled from the spec: an entropy decoder that yields given
    coefficient blocks, [mcus k] being the blocks of the k-th MCU of the
    scan; its state is the number of MCUs decoded so far. *)
Definition decode_given (mcus : nat -> list JBLOCK) (k : nat) (blocks : list JBLOCK)
    : bool * nat * list JBLOCK :=
  (true, S k, fill_blocks blocks (mcus k)).

(** Modelled from the spec: finish_input_pass of the input controller,
    which is not among the sources; it "signals scan completion upstream"
    and touches no field of this state. *)
Definition finish_input_pass_upstream {E : Type} (cinfo : jpeg_decompress_struct E)
    : jpeg_decompress_struct E := cinfo.

(** Modelled from the spec: the driver of an output pass.  It "repeatedly
    calls the active producer until the image is exhausted"; after
    JPEG_SUSPENDED "the caller must retry" with the same sample planes.
    The planes of every completed row-group are collected in order; [fuel]
    bounds the number of calls. *)
Fixpoint output_pass {E JSAMPIMAGE : Type}
    (producer : jpeg_decompress_struct E -> JSAMPIMAGE ->
                option (jpeg_code * jpeg_decompress_struct E * JSAMPIMAGE))
    (fuel : nat) (cinfo : jpeg_decompress_struct E) (output_buf : JSAMPIMAGE)
    : option (list JSAMPIMAGE) :=
  match fuel with
  | O => None
  | S fuel' =>
      match producer cinfo output_buf with
      | None => None
      | Some (JPEG_SUSPENDED, cinfo, output_buf) =>
          output_pass producer fuel' cinfo output_buf
      | Some (JPEG_SCAN_COMPLETED, cinfo, output_buf) => Some [output_buf]
      | Some (_, cinfo, output_buf) =>
          match output_pass producer fuel' cinfo output_buf with
          | Some rows => Some (output_buf :: rows)
          | None => None
          end
      end
  end.

(** Modelled from the spec: the driver of an input pass, which "repeatedly
    calls the active consumer" until the scan is complete. *)
Fixpoint input_pass {E : Type}
    (consumer : jpeg_decompress_struct E -> jpeg_code * jpeg_decompress_struct E)
    (fuel : nat) (cinfo : jpeg_decompress_struct E)
    : option (jpeg_decompress_struct E) :=
  match fuel with
  | O => None
  | S fuel' =>
      match consumer cinfo with
      | (JPEG_SCAN_COMPLETED, cinfo) => Some cinfo
      | (_, cinfo) => input_pass consumer fuel' cinfo
      end
  end.

(** The single-pass decode of a scan with the decoder [decode_mcu]. *)
Definition decode_onepass {E JSAMPIMAGE : Type}
    (decode_mcu : E -> list JBLOCK -> bool * E * list JBLOCK)
    (inverse_DCT : Z -> jpeg_component_info -> JBLOCK -> JSAMPIMAGE -> Z -> Z -> JSAMPIMAGE)
    (finish_input_pass : jpeg_decompress_struct E -> jpeg_decompress_struct E)
    (fuel : nat) (cinfo : jpeg_decompress_struct E) (output_buf : JSAMPIMAGE)
    : option (list JSAMPIMAGE) :=
  output_pass
    (fun cinfo output_buf =>
       Some (decompress_onepass decode_mcu inverse_DCT finish_input_pass cinfo output_buf))
    fuel cinfo output_buf.

(** The decompression object with another stall schedule for its decoder. *)
Definition with_schedule {E : Type} (sched : list bool)
    (cinfo : jpeg_decompress_struct (E * list bool)) : jpeg_decompress_struct (E * list bool) :=
  set_entropy (fst (entropy cinfo), sched) cinfo.

(** ** The estimate as the specification words it *)

(** The specification's formula for a smoothed coefficient: the magnitude
    (Q<<7 + |num|) / (Q<<8), clamped to at most 2^Al - 1, negated when num
    is negative. *)
Definition specified_estimate (Q Al num : Z) : Z :=
  let magnitude :=
    Z.min (Z.quot (Z.shiftl Q 7 + Z.abs num) (Z.shiftl Q 8)) (2 ^ Al - 1) in
  if num <? 0 then - magnitude else magnitude.

(** What the code computes: the clamp applies for a positive Al only. *)
Definition guarded_estimate (Q Al num : Z) : Z :=
  let magnitude := Z.quot (Z.shiftl Q 7 + Z.abs num) (Z.shiftl Q 8) in
  let magnitude := if 0 <? Al then Z.min magnitude (2 ^ Al - 1) else magnitude in
  if num <? 0 then - magnitude else magnitude.

(** ** Scan geometry *)

(** Modelled from the spec: the value per_scan_setup (jdinput.c, not among
    the sources) leaves in last_row_height for the component of a
    single-component scan, "height_in_blocks mod v_samp_factor (or the
    factor itself if that remainder is 0)". *)
Definition noninterleaved_last_row_height (compptr : jpeg_component_info) : Z :=
  let tmp := height_in_blocks compptr mod v_samp_factor compptr in
  if tmp =? 0 then v_samp_factor compptr else tmp.

(** The luminance quantization table of Annex K of the JPEG standard. *)
Definition luminance_table : JQUANT_TBL :=
  {| quantval :=
       [16; 11; 10; 16; 24; 40; 51; 61;
        12; 12; 14; 19; 26; 58; 60; 55;
        14; 13; 16; 24; 40; 57; 69; 56;
        14; 17; 22; 29; 51; 87; 80; 62;
        18; 22; 37; 56; 68; 109; 103; 77;
        24; 35; 55; 64; 81; 104; 113; 92;
        49; 64; 78; 87; 103; 121; 120; 101;
        72; 92; 95; 98; 112; 100; 103; 99] |}.

(** A component of [w] by [h] blocks with vertical sampling factor [v], set
    up for a scan of its own: one block per MCU. *)
Definition lone_component (w h v : Z) : jpeg_component_info :=
  {| component_index := 0;
     h_samp_factor := 1;
     v_samp_factor := v;
     width_in_blocks := w;
     height_in_blocks := h;
     DCT_scaled_size := 8;
     component_needed := true;
     MCU_width := 1;
     MCU_height := 1;
     MCU_blocks := 1;
     MCU_sample_width := 8;
     last_col_width := 1;
     last_row_height := (let tmp := h mod v in if tmp =? 0 then v else tmp);
     quant_table := Some luminance_table |}.

(** A controller object as alloc_small may return it. *)
Definition raw_controller : my_coef_controller :=
  {| pub_consume_data := Dummy_consume_data;
     pub_decompress_data := Decompress_onepass;
     pub_coef_arrays := false;
     MCU_ctr := 0;
     MCU_vert_offset := 0;
     MCU_rows_per_iMCU_row := 0;
     MCU_buffer := [];
     workspace := [];
     whole_image := [];
     coef_bits_latch := None |}.

(** The decompression object at the start of the only scan of a
    one-component sequential image: [rows] iMCU rows of [w] MCUs. *)
Definition lone_scan {E : Type} (compptr : jpeg_component_info) (rows : Z) (e : E)
    : jpeg_decompress_struct E :=
  {| num_components := 1;
     comp_info := [compptr];
     progressive_mode := false;
     do_block_smoothing := true;
     coef_bits := None;
     input_scan_number := 1;
     output_scan_number := 1;
     input_iMCU_row := 0;
     output_iMCU_row := 0;
     total_iMCU_rows := rows;
     comps_in_scan := 1;
     cur_comp_info := [compptr];
     MCUs_per_row := width_in_blocks compptr;
     blocks_in_MCU := 1;
     Ss := 0;
     eoi_reached := false;
     coef := raw_controller;
     entropy := e |}.

(** ** A recording inverse DCT *)

(** One call of an inverse_DCT method: the method (and plane) index, the
    coefficient block, the row offset of output_ptr and output_col. *)
Record idct_call : Type := {
  idct_ci : Z;
  idct_coef_block : JBLOCK;
  idct_output_ptr : Z;
  idct_output_col : Z
}.

(** The inverse DCT that only records its calls, in order, in place of the
    sample planes: whatever a real method writes is a function of them. *)
Definition recording_inverse_DCT (ci : Z) (compptr : jpeg_component_info)
    (coef_block : JBLOCK) (calls : list idct_call) (output_ptr output_col : Z)
    : list idct_call :=
  calls ++ [{| idct_ci := ci; idct_coef_block := coef_block;
               idct_output_ptr := output_ptr; idct_output_col := output_col |}].

(** ** A 16x16 one-component image *)

(** Two by two blocks, one block per MCU, two iMCU rows of two MCUs. *)
Definition gray16_component : jpeg_component_info := lone_component 2 2 1.

(** The single-pass decoder set up for the image, before its first call of
    decompress_onepass. *)
Definition gray16_onepass {E : Type} (e : E) : jpeg_decompress_struct E :=
  start_output_pass
    (start_input_pass
       (jinit_d_coef_controller (lone_scan gray16_component 2 e) false)).

(** The multi-pass decoder set up for the image, before its first call of
    consume_data. *)
Definition gray16_buffered {E : Type} (e : E) : jpeg_decompress_struct E :=
  start_input_pass
    (jinit_d_coef_controller (lone_scan gray16_component 2 e) true).

(** ** A progressive image after its first scan *)

(** A block with the DC coefficient [d] and no other coefficient yet. *)
Definition dc_block (d : Z) : JBLOCK := d :: replicate 63 0.

(** coef_bits of a component after a scan that sent the DC coefficients in
    full and no AC coefficient: 0 for DC, -1 ("no data yet") elsewhere. *)
Definition dc_only_coef_bits : list Z := 0 :: replicate 63 (-1).

(** A progressive one-component image of two blocks in one row, with the
    quantization table [qtable], held in the virtual array after a DC-only
    first scan decoded the DC values 100 and 0; the input side has moved on
    to a second scan while the first one is displayed. *)
Definition after_dc_scan (qtable : JQUANT_TBL) : jpeg_decompress_struct unit :=
  let compptr :=
    {| component_index := 0;
       h_samp_factor := 1;
       v_samp_factor := 1;
       width_in_blocks := 2;
       height_in_blocks := 1;
       DCT_scaled_size := 8;
       component_needed := true;
       MCU_width := 1;
       MCU_height := 1;
       MCU_blocks := 1;
       MCU_sample_width := 8;
       last_col_width := 1;
       last_row_height := 1;
       quant_table := Some qtable |} in
  {| num_components := 1;
     comp_info := [compptr];
     progressive_mode := true;
     do_block_smoothing := true;
     coef_bits := Some [dc_only_coef_bits];
     input_scan_number := 2;
     output_scan_number := 1;
     input_iMCU_row := 0;
     output_iMCU_row := 0;
     total_iMCU_rows := 1;
     comps_in_scan := 1;
     cur_comp_info := [compptr];
     MCUs_per_row := 2;
     blocks_in_MCU := 1;
     Ss := 1;
     eoi_reached := false;
     coef :=
       {| pub_consume_data := Consume_data;
          pub_decompress_data := Decompress_data;
          pub_coef_arrays := true;
          MCU_ctr := 0;
          MCU_vert_offset := 0;
          MCU_rows_per_iMCU_row := 1;
          MCU_buffer := [];
          workspace := zero_block;
          whole_image := [[[dc_block 100; dc_block 0]]];
          coef_bits_latch := None |};
     entropy := tt |}.

(** The luminance table with the quantizer of the coefficient at natural
    position 8 (AC10) set to 0. *)
Definition table_with_zero : JQUANT_TBL :=
  {| quantval := <[Q10_POS := 0]> (quantval luminance_table) |}.

(** A progressive one-component image of two blocks per block row, with
    the luminance table, after a DC-only first scan stored the block rows
    [rows], one to an iMCU row; the input side reads the second scan, an
    AC scan, and is at its start; scan [shown] is displayed, and
    smoothing has been found applicable. *)
Definition after_dc_scan_of {E : Type} (e : E) (shown : Z)
    (rows : list JBLOCKROW) : jpeg_decompress_struct E :=
  let compptr :=
    {| component_index := 0;
       h_samp_factor := 1;
       v_samp_factor := 1;
       width_in_blocks := 2;
       height_in_blocks := Z.of_nat (length rows);
       DCT_scaled_size := 8;
       component_needed := true;
       MCU_width := 1;
       MCU_height := 1;
       MCU_blocks := 1;
       MCU_sample_width := 8;
       last_col_width := 1;
       last_row_height := 1;
       quant_table := Some luminance_table |} in
  snd (smoothing_ok
    {| num_components := 1;
       comp_info := [compptr];
       progressive_mode := true;
       do_block_smoothing := true;
       coef_bits := Some [dc_only_coef_bits];
       input_scan_number := 2;
       output_scan_number := shown;
       input_iMCU_row := 0;
       output_iMCU_row := 0;
       total_iMCU_rows := Z.of_nat (length rows);
       comps_in_scan := 1;
       cur_comp_info := [compptr];
       MCUs_per_row := 2;
       blocks_in_MCU := 1;
       Ss := 1;
       eoi_reached := false;
       coef :=
         {| pub_consume_data := Consume_data;
            pub_decompress_data := Decompress_smooth_data;
            pub_coef_arrays := true;
            MCU_ctr := 0;
            MCU_vert_offset := 0;
            MCU_rows_per_iMCU_row := 1;
            MCU_buffer := [];
            workspace := zero_block;
            whole_image := [rows];
            coef_bits_latch := None |};
       entropy := e |}).

(** Such an image of two iMCU rows, its first scan displayed. *)
Definition two_rows_after_dc_scan : jpeg_decompress_struct unit :=
  after_dc_scan_of tt 1 [[dc_block 100; dc_block 0]; [dc_block 50; dc_block 60]].

(** Modelled from the spec: the entropy decoder of an AC scan that codes
    the coefficient AC01 of every block as 7. *)
Definition decode_AC01 : nat -> list JBLOCK -> bool * nat * list JBLOCK :=
  decode_given (fun _ => [<[Q01_POS := 7]> zero_block]).

(** ** Vocabulary of the smoothing properties *)

(** The five estimated coefficients: the index of the latched coef_bits
    entry and the natural-order position (AC01, AC10, AC20, AC11, AC02). *)
Definition estimate_positions : list (Z * nat) :=
  [(1, Q01_POS); (2, Q10_POS); (3, Q20_POS); (4, Q11_POS); (5, Q02_POS)].

(** [passed] differs from [stored] only at estimated positions where the
    stored coefficient is zero and the latched coef_bits entry is not. *)
Definition only_unknown_zeros_replaced (coef_bits : list Z) (stored passed : JBLOCK)
    : Prop :=
  forall k : nat,
    coef_at passed k <> coef_at stored k ->
    exists i : Z,
      (i, k) ∈ estimate_positions /\ coef_at stored k = 0 /\ int_at coef_bits i <> 0.

(** The latched coef_bits entries of component [ci], as
    decompress_smooth_data addresses them. *)
Definition latched_coef_bits {E : Type} (cinfo : jpeg_decompress_struct E) (ci : Z)
    : list Z :=
  drop (Z.to_nat (ci * SAVED_COEFS)) (default [] (coef_bits_latch (coef cinfo))).

(** The block of component [ci] stored at block row [row] and column [col]
    of its virtual array. *)
Definition stored_block {E : Type} (cinfo : jpeg_decompress_struct E)
    (ci row col : Z) : JBLOCK :=
  block_at (buffer_row (array_at (whole_image (coef cinfo)) ci) row) col.

(** The block row of a component's virtual array at which the iMCU row
    output_iMCU_row starts, as decompress_smooth_data finds it: past the
    v_samp_factor rows of the prior iMCU row in a window that starts at
    block row (output_iMCU_row - 1) * v_samp_factor, and at the start of
    the array for the first iMCU row. *)
Definition output_row_start {E : Type} (cinfo : jpeg_decompress_struct E)
    (compptr : jpeg_component_info) : Z :=
  if 0 <? output_iMCU_row cinfo
  then JDIM ((output_iMCU_row cinfo - 1) * v_samp_factor compptr)
       + v_samp_factor compptr
  else 0.

(** The place of a call of the inverse DCT made for iMCU row
    output_iMCU_row: a needed component, one of the block rows counted for
    the iMCU row and one of the block columns of the component, with the
    sample position that belongs to them. *)
Definition call_at {E : Type} (cinfo : jpeg_decompress_struct E) (call : idct_call)
    (compptr : jpeg_component_info) (block_row block_num : Z) : Prop :=
  0 <= idct_ci call
  /\ components cinfo !! Z.to_nat (idct_ci call) = Some compptr
  /\ component_needed compptr = true
  /\ 0 <= block_row < output_block_rows cinfo compptr
  /\ 0 <= block_num <= JDIM (width_in_blocks compptr - 1)
  /\ idct_output_ptr call = block_row * DCT_scaled_size compptr
  /\ idct_output_col call = JDIM (block_num * DCT_scaled_size compptr).

(** A call of the inverse DCT on the workspace: the coefficient block is
    the stored block at the place of the call, copied and with the
    estimates of some window of DC values applied to the copy. *)
Definition workspace_call {E : Type} (cinfo : jpeg_decompress_struct E)
    (call : idct_call) : Prop :=
  exists (compptr : jpeg_component_info) (block_row block_num : Z) (dc : dc_window),
    call_at cinfo call compptr block_row block_num
    /\ idct_coef_block call
       = smooth_workspace (latched_coef_bits cinfo (idct_ci call))
           (fetch_quantizers compptr) dc
           (stored_block cinfo (idct_ci call)
              (output_row_start cinfo compptr + block_row) block_num).

(** A call of the inverse DCT whose coefficient block is the stored block
    at the place of the call with nothing but unknown zeros replaced: a
    coefficient differs from the stored one only at one of the five
    estimated positions, where the stored coefficient is zero and the
    latched coef_bits entry is not; a stored coefficient that is not zero,
    or whose latched entry is zero, is passed on as it is. *)
Definition smoothed_block_call {E : Type} (cinfo : jpeg_decompress_struct E)
    (call : idct_call) : Prop :=
  exists (compptr : jpeg_component_info) (block_row block_num : Z),
    call_at cinfo call compptr block_row block_num
    /\ let stored :=
         stored_block cinfo (idct_ci call)
           (output_row_start cinfo compptr + block_row) block_num in
       let latched := latched_coef_bits cinfo (idct_ci call) in
       only_unknown_zeros_replaced latched stored (idct_coef_block call)
       /\ forall (i : Z) (pos : nat),
            (i, pos) ∈ estimate_positions ->
            coef_at stored pos <> 0 \/ int_at latched i = 0 ->
            coef_at (idct_coef_block call) pos = coef_at stored pos.

(** What the output part of decompress_smooth_data leaves, having started
    with the workspace [workspace0] and the recorded calls [calls]: the
    calls it added were made on the workspace, and the workspace holds the
    block of the last of them. *)
Definition smoothing_trace {E : Type} (cinfo : jpeg_decompress_struct E)
    (workspace0 : JBLOCK) (calls : list idct_call) (workspace : JBLOCK)
    (log : list idct_call) : Prop :=
  exists new : list idct_call,
    log = calls ++ new
    /\ Forall (workspace_call cinfo) new
    /\ workspace = default workspace0 (idct_coef_block <$> last new).

(** The recorded calls [log] are [calls] followed by calls that all
    satisfy [good]. *)
Definition extends_with (good : idct_call -> Prop) (calls log : list idct_call)
    : Prop :=
  exists new : list idct_call, log = calls ++ new /\ Forall good new.

(** The inverse DCT calls of the output pass over [after_dc_scan] with the
    luminance table, smoothing having been found applicable. *)
Definition smoothed_dc_scan_calls : list idct_call :=
  snd (smooth_output recording_inverse_DCT
         (snd (smoothing_ok (after_dc_scan luminance_table))) []).

(** [n] successive calls of a producer, each on the state and the sample
    planes the previous one left. *)
Fixpoint repeat_producer {E JSAMPIMAGE : Type}
    (producer : jpeg_decompress_struct E -> JSAMPIMAGE ->
                option (jpeg_code * jpeg_decompress_struct E * JSAMPIMAGE))
    (n : nat) (cinfo : jpeg_decompress_struct E) (output_buf : JSAMPIMAGE)
    : option (jpeg_decompress_struct E * JSAMPIMAGE) :=
  match n with
  | O => Some (cinfo, output_buf)
  | S n' =>
      match producer cinfo output_buf with
      | Some (_, cinfo, output_buf) => repeat_producer producer n' cinfo output_buf
      | None => None
      end
  end.

(** The input side needs no forcing by decompress_smooth_data: the end of
    the image was read, or the input is in a later scan than the output. *)
Definition input_beyond_output {E : Type} (cinfo : jpeg_decompress_struct E) : Prop :=
  eoi_reached cinfo = true \/ output_scan_number cinfo < input_scan_number cinfo.

(** The input is strictly past the output: in a later scan, or in the same
    scan on a later iMCU row. *)
Definition input_past_output {E : Type} (cinfo : jpeg_decompress_struct E) : Prop :=
  input_scan_number cinfo > output_scan_number cinfo
  \/ (input_scan_number cinfo = output_scan_number cinfo
      /\ input_iMCU_row cinfo > output_iMCU_row cinfo).

(** ** Vocabulary of the suspension properties *)

(** The part of decompress_onepass after its loops ("Completed the iMCU
    row, advance counters for next one"), applied to what the loops left:
    [inr] is the pending [return JPEG_SUSPENDED]. *)
Definition onepass_complete {E JSAMPIMAGE : Type}
    (finish_input_pass : jpeg_decompress_struct E -> jpeg_decompress_struct E)
    (res : jpeg_decompress_struct E * JSAMPIMAGE
           + jpeg_code * jpeg_decompress_struct E * JSAMPIMAGE)
    : jpeg_code * jpeg_decompress_struct E * JSAMPIMAGE :=
  match res with
  | inr r => r
  | inl (cinfo, output_buf) =>
      let cinfo := set_output_iMCU_row (JDIM (output_iMCU_row cinfo + 1)) cinfo in
      let cinfo := set_input_iMCU_row (JDIM (input_iMCU_row cinfo + 1)) cinfo in
      if input_iMCU_row cinfo <? total_iMCU_rows cinfo
      then (JPEG_ROW_COMPLETED, start_iMCU_row cinfo, output_buf)
      else (JPEG_SCAN_COMPLETED, finish_input_pass cinfo, output_buf)
  end.

(** The loop over MCU columns with its local variables given: [m] more
    columns from [MCU_col_num] in MCU row [yoffset], then MCU_ctr = 0. *)
Definition onepass_columns_from {E JSAMPIMAGE : Type}
    (decode_mcu : E -> list JBLOCK -> bool * E * list JBLOCK)
    (inverse_DCT : Z -> jpeg_component_info -> JBLOCK -> JSAMPIMAGE -> Z -> Z -> JSAMPIMAGE)
    (m : nat) (yoffset MCU_col_num : Z) (st : jpeg_decompress_struct E * JSAMPIMAGE)
    : jpeg_decompress_struct E * JSAMPIMAGE
      + jpeg_code * jpeg_decompress_struct E * JSAMPIMAGE :=
  match for_until m MCU_col_num (onepass_MCU decode_mcu inverse_DCT yoffset) st with
  | inl (cinfo, output_buf) => inl (on_coef (set_MCU_ctr 0) cinfo, output_buf)
  | inr r => inr r
  end.

(** decompress_onepass continued from the local variables [yoffset] and
    [MCU_col_num]: the rest of that MCU row, the MCU rows after it up to
    [rows], and the part after the loops. *)
Definition onepass_from {E JSAMPIMAGE : Type}
    (decode_mcu : E -> list JBLOCK -> bool * E * list JBLOCK)
    (inverse_DCT : Z -> jpeg_component_info -> JBLOCK -> JSAMPIMAGE -> Z -> Z -> JSAMPIMAGE)
    (finish_input_pass : jpeg_decompress_struct E -> jpeg_decompress_struct E)
    (last_MCU_col rows yoffset MCU_col_num : Z)
    (st : jpeg_decompress_struct E * JSAMPIMAGE)
    : jpeg_code * jpeg_decompress_struct E * JSAMPIMAGE :=
  onepass_complete finish_input_pass
    (match
       onepass_columns_from decode_mcu inverse_DCT
         (Z.to_nat (last_MCU_col + 1 - MCU_col_num)) yoffset MCU_col_num st
     with
     | inl st' =>
         for_until (Z.to_nat (rows - (yoffset + 1))) (yoffset + 1)
           (onepass_MCU_row decode_mcu inverse_DCT last_MCU_col) st'
     | inr r => inr r
     end).

(** The saved position moved to (yoffset, MCU_col_num). *)
Definition reposition {E : Type} (yoffset MCU_col_num : Z)
    (cinfo : jpeg_decompress_struct E) : jpeg_decompress_struct E :=
  on_coef (set_MCU_ctr MCU_col_num) (on_coef (set_MCU_vert_offset yoffset) cinfo).

(** The saved position moved past one MCU: to the next column, or to the
    first column of the next MCU row after the last column. *)
Definition advance_position {E : Type} (cinfo : jpeg_decompress_struct E)
    : jpeg_decompress_struct E :=
  if MCU_ctr (coef cinfo) <? JDIM (MCUs_per_row cinfo - 1)
  then reposition (MCU_vert_offset (coef cinfo)) (MCU_ctr (coef cinfo) + 1) cinfo
  else reposition (MCU_vert_offset (coef cinfo) + 1) 0 cinfo.

(** The scratch buffer zeroed for the next MCU. *)
Definition zeroed {E : Type} (cinfo : jpeg_decompress_struct E)
    : jpeg_decompress_struct E :=
  on_coef (set_MCU_buffer (jzero_far (blocks_in_MCU cinfo) (MCU_buffer (coef cinfo))))
    cinfo.

(** The state after decode_mcu left the decoder state [e] and the blocks
    [blocks]; the stall schedule stays. *)
Definition decoded {E : Type} (e : E) (blocks : list JBLOCK)
    (cinfo : jpeg_decompress_struct (E * list bool))
    : jpeg_decompress_struct (E * list bool) :=
  set_entropy (e, snd (entropy cinfo)) (on_coef (set_MCU_buffer blocks) cinfo).

(** Two results of a call that a driver cannot tell apart: the same code
    and sample planes, and the same state unless the scan is complete. *)
Definition same_outcome {E JSAMPIMAGE : Type}
    (r r' : jpeg_code * jpeg_decompress_struct E * JSAMPIMAGE) : Prop :=
  fst (fst r) = fst (fst r') /\ snd r = snd r'
  /\ (fst (fst r) <> JPEG_SCAN_COMPLETED -> snd (fst r) = snd (fst r')).

(** A state at which decompress_onepass can be entered: the saved column
    is a column of the image. *)
Definition resumable {E : Type} (cinfo : jpeg_decompress_struct E) : Prop :=
  MCU_ctr (coef cinfo) <= JDIM (MCUs_per_row cinfo - 1).

(** What the MCU loops of a call leave as they find it: the iMCU row
    counters and the geometry of the scan. *)
Definition same_scan {E : Type} (c c' : jpeg_decompress_struct E) : Prop :=
  input_iMCU_row c' = input_iMCU_row c
  /\ output_iMCU_row c' = output_iMCU_row c
  /\ total_iMCU_rows c' = total_iMCU_rows c
  /\ MCUs_per_row c' = MCUs_per_row c
  /\ blocks_in_MCU c' = blocks_in_MCU c
  /\ comps_in_scan c' = comps_in_scan c
  /\ cur_comp_info c' = cur_comp_info c
  /\ MCU_rows_per_iMCU_row (coef c') = MCU_rows_per_iMCU_row (coef c).

(** The quantizers smoothing divides by or scales with: DC and the first
    five AC coefficients in zigzag order. *)
Definition has_zero_smoothing_quantizer (qtable : JQUANT_TBL) : Prop :=
  quant_at (Some qtable) 0 = 0
  \/ quant_at (Some qtable) Q01_POS = 0
  \/ quant_at (Some qtable) Q10_POS = 0
  \/ quant_at (Some qtable) Q20_POS = 0
  \/ quant_at (Some qtable) Q11_POS = 0
  \/ quant_at (Some qtable) Q02_POS = 0.

(** Membership in an explicit list. *)
Ltac in_list :=
  repeat first [apply list_elem_of_here | apply list_elem_of_further].

(** ** Vocabulary of the further properties *)

(** The conditions [smoothing_ok] checks on the component at index [ci]:
    a quantization table with nonzero DC and first five AC quantizers, and
    a DC coefficient at least partly known. *)
Definition smoothing_safe (all_coef_bits : list (list Z)) (ci : Z)
    (compptr : jpeg_component_info) : Prop :=
  (exists qtable : JQUANT_TBL,
     quant_table compptr = Some qtable /\ ~ has_zero_smoothing_quantizer qtable)
  /\ 0 <= int_at (default [] (all_coef_bits !! Z.to_nat ci)) 0.

(** One of the first five AC coefficients of component [ci] is not yet known
    to full precision. *)
Definition smoothing_helps (all_coef_bits : list (list Z)) (ci : Z) : Prop :=
  exists coefi : Z,
    1 <= coefi <= 5 /\ int_at (default [] (all_coef_bits !! Z.to_nat ci)) coefi <> 0.

(** The input is far enough ahead for [decompress_smooth_data] to output an
    iMCU row: the end of the image was read, or the input is in a later
    scan than the output, or it is in the output's scan and past iMCU row
    output_iMCU_row + delta, delta being 1 while the scan read is a DC scan
    (Ss = 0) and 0 otherwise. *)
Definition input_ahead_for_smoothing {E : Type} (cinfo : jpeg_decompress_struct E)
    : Prop :=
  eoi_reached cinfo = true
  \/ output_scan_number cinfo < input_scan_number cinfo
  \/ (input_scan_number cinfo = output_scan_number cinfo
      /\ JDIM (output_iMCU_row cinfo + (if Ss cinfo =? 0 then 1 else 0))
         < input_iMCU_row cinfo).

(** The nine DC values of the window are equal. *)
Definition flat_window (dc : dc_window) : Prop :=
  DC1 dc = DC5 dc /\ DC2 dc = DC5 dc /\ DC3 dc = DC5 dc /\ DC4 dc = DC5 dc
  /\ DC6 dc = DC5 dc /\ DC7 dc = DC5 dc /\ DC8 dc = DC5 dc /\ DC9 dc = DC5 dc.

(** The geometry the master control sets up for a component of an image of
    total_iMCU_rows iMCU rows: each iMCU row has v_samp_factor block rows
    of the component, and together they cover its height_in_blocks block
    rows, the last iMCU row possibly in part. *)
Definition rows_cover_component {E : Type} (cinfo : jpeg_decompress_struct E)
    (compptr : jpeg_component_info) : Prop :=
  0 < v_samp_factor compptr
  /\ (total_iMCU_rows cinfo - 1) * v_samp_factor compptr < height_in_blocks compptr
  /\ height_in_blocks compptr <= total_iMCU_rows cinfo * v_samp_factor compptr
  /\ total_iMCU_rows cinfo * v_samp_factor compptr <= 2 ^ 32.

(** A call of the inverse DCT on a block as stored: the block in row
    output_iMCU_row * v_samp_factor + block_row and column block_num of the
    virtual array of a needed component, a row and a column of the
    component proper, with the sample position that belongs to it. *)
Definition stored_block_call {E : Type} (cinfo : jpeg_decompress_struct E)
    (call : idct_call) : Prop :=
  exists (compptr : jpeg_component_info) (block_row block_num : Z),
    0 <= idct_ci call
    /\ components cinfo !! Z.to_nat (idct_ci call) = Some compptr
    /\ component_needed compptr = true
    /\ 0 <= block_row < v_samp_factor compptr
    /\ output_iMCU_row cinfo * v_samp_factor compptr + block_row
       < height_in_blocks compptr
    /\ 0 <= block_num < width_in_blocks compptr
    /\ idct_coef_block call
       = block_at
           (buffer_row (array_at (whole_image (coef cinfo)) (idct_ci call))
              (output_iMCU_row cinfo * v_samp_factor compptr + block_row))
           block_num
    /\ idct_output_ptr call = block_row * DCT_scaled_size compptr
    /\ idct_output_col call = JDIM (block_num * DCT_scaled_size compptr).

(** The dimensions of the coefficient store: for every virtual array, the
    number of blocks in each of its rows. *)
Definition store_shape (img : list jvirt_barray) : list (list nat) :=
  map (map length) img.

(** Block row [row] of the virtual array of component [ci] lies outside
    the rows of the iMCU row being read: for every component of the scan
    stored in that array, it is above row input_iMCU_row * v_samp_factor
    or at least MCU_rows_per_iMCU_row + MCU_height - 1 rows below it. *)
Definition outside_input_rows {E : Type} (cinfo : jpeg_decompress_struct E)
    (ci row : Z) : Prop :=
  forall compptr : jpeg_component_info,
    compptr ∈ scan_components cinfo ->
    component_index compptr = ci ->
    row < JDIM (input_iMCU_row cinfo * v_samp_factor compptr)
    \/ JDIM (input_iMCU_row cinfo * v_samp_factor compptr)
       + (MCU_rows_per_iMCU_row (coef cinfo) + MCU_height compptr - 1) <= row.

(** What the MCU loops of consume_data keep of the state [c0] they are
    entered with. *)
Definition consume_frame {E : Type} (c0 c : jpeg_decompress_struct E) : Prop :=
  scan_components c = scan_components c0
  /\ input_iMCU_row c = input_iMCU_row c0
  /\ MCU_rows_per_iMCU_row (coef c) = MCU_rows_per_iMCU_row (coef c0)
  /\ store_shape (whole_image (coef c)) = store_shape (whole_image (coef c0))
  /\ forall ci row : Z,
       outside_input_rows c0 ci row ->
       buffer_row (array_at (whole_image (coef c)) ci) row
       = buffer_row (array_at (whole_image (coef c0)) ci) row.

(** The part of consume_data after its loops ("Completed the iMCU row,
    advance counters for next one"), applied to what the loops left: [inr]
    is the pending [return JPEG_SUSPENDED]. *)
Definition consume_complete {E : Type}
    (finish_input_pass : jpeg_decompress_struct E -> jpeg_decompress_struct E)
    (res : jpeg_decompress_struct E + jpeg_code * jpeg_decompress_struct E)
    : jpeg_code * jpeg_decompress_struct E :=
  match res with
  | inr r => r
  | inl cinfo =>
      let cinfo := set_input_iMCU_row (JDIM (input_iMCU_row cinfo + 1)) cinfo in
      if input_iMCU_row cinfo <? total_iMCU_rows cinfo
      then (JPEG_ROW_COMPLETED, start_iMCU_row cinfo)
      else (JPEG_SCAN_COMPLETED, finish_input_pass cinfo)
  end.

(** The loop over MCU columns of consume_data with its local variables
    given: [m] more columns from [MCU_col_num] in MCU row [yoffset], then
    MCU_ctr = 0. *)
Definition consume_columns_from {E : Type}
    (decode_mcu : E -> list JBLOCK -> bool * E * list JBLOCK)
    (m : nat) (yoffset MCU_col_num : Z) (cinfo : jpeg_decompress_struct E)
    : jpeg_decompress_struct E + jpeg_code * jpeg_decompress_struct E :=
  match for_until m MCU_col_num (consume_MCU decode_mcu yoffset) cinfo with
  | inl cinfo => inl (on_coef (set_MCU_ctr 0) cinfo)
  | inr r => inr r
  end.

(** consume_data continued from the local variables [yoffset] and
    [MCU_col_num], in a scan of [per_row] MCUs per row: the rest of that
    MCU row, the MCU rows after it up to [rows], and the part after the
    loops. *)
Definition consume_from {E : Type}
    (decode_mcu : E -> list JBLOCK -> bool * E * list JBLOCK)
    (finish_input_pass : jpeg_decompress_struct E -> jpeg_decompress_struct E)
    (per_row rows yoffset MCU_col_num : Z) (cinfo : jpeg_decompress_struct E)
    : jpeg_code * jpeg_decompress_struct E :=
  consume_complete finish_input_pass
    (match
       consume_columns_from decode_mcu (Z.to_nat (per_row - MCU_col_num))
         yoffset MCU_col_num cinfo
     with
     | inl cinfo' =>
         for_until (Z.to_nat (rows - (yoffset + 1))) (yoffset + 1)
           (consume_MCU_row decode_mcu) cinfo'
     | inr r => inr r
     end).

(** The saved input position moved past one MCU: to the next column, or to
    the first column of the next MCU row after the last column. *)
Definition advance_input_position {E : Type} (cinfo : jpeg_decompress_struct E)
    : jpeg_decompress_struct E :=
  if MCU_ctr (coef cinfo) + 1 <? MCUs_per_row cinfo
  then reposition (MCU_vert_offset (coef cinfo)) (MCU_ctr (coef cinfo) + 1) cinfo
  else reposition (MCU_vert_offset (coef cinfo) + 1) 0 cinfo.

(** A state at which consume_data can be entered: the saved column is a
    column of the scan. *)
Definition input_resumable {E : Type} (cinfo : jpeg_decompress_struct E) : Prop :=
  0 <= MCU_ctr (coef cinfo) < MCUs_per_row cinfo.

(** Two results of consume_data that a driver cannot tell apart: the same
    code and coefficient store, and the same state unless the scan is
    complete. *)
Definition same_consumed {E : Type}
    (r r' : jpeg_code * jpeg_decompress_struct E) : Prop :=
  fst r = fst r'
  /\ whole_image (coef (snd r)) = whole_image (coef (snd r'))
  /\ (fst r <> JPEG_SCAN_COMPLETED -> snd r = snd r').

(** The state after decode_mcu, called on the blocks of the MCU at
    ([yoffset], [MCU_col_num]), left the decoder state [e] and the blocks
    [blocks]; the stall schedule stays. *)
Definition consumed {E : Type} (e : E) (blocks : list JBLOCK)
    (yoffset MCU_col_num : Z) (cinfo : jpeg_decompress_struct (E * list bool))
    : jpeg_decompress_struct (E * list bool) :=
  set_entropy (e, snd (entropy cinfo))
    (on_coef
       (set_whole_image
          (store_blocks (whole_image (coef cinfo))
             (MCU_block_pointers cinfo yoffset MCU_col_num) blocks))
       cinfo).

(** The coefficient store an input pass leaves: the driver calls the
    consumer until the scan is complete, at most [fuel] times. *)
Definition consumed_store {E : Type}
    (consumer : jpeg_decompress_struct E -> jpeg_code * jpeg_decompress_struct E)
    (fuel : nat) (cinfo : jpeg_decompress_struct E) : option (list jvirt_barray) :=
  match input_pass consumer fuel cinfo with
  | Some cinfo' => Some (whole_image (coef cinfo'))
  | None => None
  end.

(** The sample planes after each of [n] successive iMCU rows from row
    [row] on are transformed out of the store of [cinfo], each on top of
    the planes the row before left. *)
Fixpoint output_rows {E JSAMPIMAGE : Type}
    (inverse_DCT : Z -> jpeg_component_info -> JBLOCK -> JSAMPIMAGE -> Z -> Z -> JSAMPIMAGE)
    (n : nat) (row : Z) (cinfo : jpeg_decompress_struct E) (output_buf : JSAMPIMAGE)
    : list JSAMPIMAGE :=
  match n with
  | O => []
  | S n' =>
      let output_buf := data_output inverse_DCT (set_output_iMCU_row row cinfo) output_buf in
      output_buf :: output_rows inverse_DCT n' (row + 1) cinfo output_buf
  end.

(** The number of blocks the components [comps] of a scan have in an MCU. *)
Definition blocks_of_components (comps : list jpeg_component_info) : Z :=
  foldr (fun compptr blocks => MCU_blocks compptr + blocks) 0 comps.

(** A call of the inverse DCT on a block of the MCU at ([yoffset],
    [MCU_col_num]) as decode_mcu left it: the block in row [yindex] and
    column [xindex] of the blocks of a needed component of the scan, which
    follow the blocks of the components before it, not a dummy block past
    the right or the bottom edge of the image, with the sample position
    that belongs to it. *)
Definition MCU_block_call {E : Type} (cinfo : jpeg_decompress_struct E)
    (yoffset MCU_col_num : Z) (call : idct_call) : Prop :=
  exists (k : nat) (compptr : jpeg_component_info) (yindex xindex : Z),
    scan_components cinfo !! k = Some compptr
    /\ component_needed compptr = true
    /\ idct_ci call = component_index compptr
    /\ 0 <= yindex < MCU_height compptr
    /\ 0 <= xindex
    /\ xindex < (if MCU_col_num <? JDIM (MCUs_per_row cinfo - 1)
                 then MCU_width compptr else last_col_width compptr)
    /\ (input_iMCU_row cinfo < JDIM (total_iMCU_rows cinfo - 1)
        \/ yoffset + yindex < last_row_height compptr)
    /\ idct_coef_block call
       = block_at (MCU_buffer (coef cinfo))
           (blocks_of_components (take k (scan_components cinfo))
            + yindex * MCU_width compptr + xindex)
    /\ idct_output_ptr call = (yoffset + yindex) * DCT_scaled_size compptr
    /\ idct_output_col call
       = JDIM (MCU_col_num * MCU_sample_width compptr + xindex * DCT_scaled_size compptr).

(** * The Java binding of the TurboJPEG API (turbojpeg-jni.c)

    Conventions of the embedding.
    - jint, jsize and int are signed 32-bit integers: their values are
      integers of [Z], reduced by [to_jint] where the source casts to them.
      Signed overflow is undefined in C; the products of ints that size a
      buffer are taken as the machine computes them, wrapping around
      ([int_mul]).  unsigned long and size_t are taken 64 bits wide (LP64).
    - References, field and class identifiers, handles and C pointers are
      integers, 0 being NULL.
    - The functions of the JNI environment and of the TurboJPEG library are
      not among the sources: a native method is run against a [JNIEnv] and
      a [turbojpeg], which give the answers of the functions it calls, and
      what it does to the outside is recorded, in order, as a list of
      [jni_event]s. *)

(** The cast (jint). *)
Definition to_jint (z : Z) : Z := (z + 2 ^ 31) mod 2 ^ 32 - 2 ^ 31.

(** The product of two ints, computed in int. *)
Definition int_mul (a b : Z) : Z := to_jint (a * b).

(** The cast (unsigned long). *)
Definition to_ulong (z : Z) : Z := z mod 2 ^ 64.

(** The functions of the JNI environment that answer: the answer of each
    is what it returns during the one call of a native method.  AllocObject
    is called in a loop and yields an object per call: its second argument
    is the number of the call. *)
Record JNIEnv : Type := {
  FindClass : string -> Z;
  GetObjectClass : Z -> Z;
  GetFieldID : Z -> string -> string -> Z;
  GetLongField : Z -> Z -> Z;
  GetIntField : Z -> Z -> Z;
  GetArrayLength : Z -> Z;
  GetPrimitiveArrayCritical : Z -> Z;
  NewObjectArray : Z -> Z -> Z -> Z;
  AllocObject : Z -> Z -> Z
}.

(** A scaling factor (tjscalingfactor of turbojpeg.h). *)
Record tjscalingfactor : Type := { num : Z; denom : Z }.

(** The TurboJPEG library (turbojpeg.h): the value of TJBUFSIZE and
    TJBUFSIZEYUV (unsigned long), the message tjGetErrorStr returns, and
    for each function called its return value, together with what it
    stores through the pointers it is given: for tjCompress the size, for
    tjDecompressHeader2 the width, the height and the subsampling, for
    tjGetScalingFactors the count. *)
Record turbojpeg : Type := {
  TJBUFSIZE : Z -> Z -> Z;
  TJBUFSIZEYUV : Z -> Z -> Z -> Z;
  tjGetErrorStr : string;
  tjInitCompress : Z;
  tjInitDecompress : Z;
  tjCompress : Z -> Z -> Z -> Z -> Z -> Z -> Z -> Z -> Z -> Z -> Z * Z;
  tjEncodeYUV : Z -> Z -> Z -> Z -> Z -> Z -> Z -> Z -> Z -> Z;
  tjDecompressHeader2 : Z -> Z -> Z -> Z * (Z * Z * Z);
  tjDecompress : Z -> Z -> Z -> Z -> Z -> Z -> Z -> Z -> Z -> Z;
  tjDecompressToYUV : Z -> Z -> Z -> Z -> Z -> Z;
  tjDestroy : Z -> Z;
  tjGetScalingFactors : option (list tjscalingfactor) * Z
}.

(** What a native method does to the outside: the exceptions it throws,
    the arrays it pins ([Pinned], a GetPrimitiveArrayCritical with the
    pointer it returned) and releases, the fields and array elements it
    sets, and its calls of the library. *)
Inductive jni_event : Type :=
| ThrowNew (cls : Z) (msg : string)
| Pinned (array carray : Z)
| ReleasePrimitiveArrayCritical (array carray mode : Z)
| SetLongField (obj fid value : Z)
| SetIntField (obj fid value : Z)
| SetObjectArrayElement (array index value : Z)
| Called_tjInitCompress
| Called_tjInitDecompress
| Called_tjCompress
    (handle srcbuf width pitch height pixelsize dstbuf jpegsubsamp jpegqual flags : Z)
| Called_tjEncodeYUV (handle srcbuf width pitch height pixelsize dstbuf subsamp flags : Z)
| Called_tjDecompressHeader2 (handle srcbuf size : Z)
| Called_tjDecompress
    (handle srcbuf size dstbuf width pitch height pixelsize flags : Z)
| Called_tjDecompressToYUV (handle srcbuf size dstbuf flags : Z)
| Called_tjDestroy (handle : Z)
| Called_tjGetScalingFactors.

(** The part of a native method's frame that its bailout label reads: the
    events so far and the local variables srcbuf, dstbuf, size and sfjava. *)
Record jni_frame : Type := {
  events : list jni_event;
  srcbuf : Z;
  dstbuf : Z;
  size : Z;
  sfjava : Z
}.

(** A frame on entry: nothing done, the locals as initialized. *)
Definition entry_frame : jni_frame :=
  {| events := []; srcbuf := 0; dstbuf := 0; size := 0; sfjava := 0 |}.

(** The statements of a native method up to its bailout label: a step
    yields a value, or [None] for [goto bailout]. *)
Definition native (A : Type) : Type := jni_frame -> option A * jni_frame.

Definition native_ret {A : Type} (a : A) : native A := fun fr => (Some a, fr).

Definition native_bind {A B : Type} (c : native A) (k : A -> native B) : native B :=
  fun fr =>
    match c fr with
    | (Some a, fr') => k a fr'
    | (None, fr') => (None, fr')
    end.

Declare Scope native_scope.
Delimit Scope native_scope with native.
Notation "x <- c ;; k" := (native_bind c (fun x => k))
  (at level 100, c at next level, right associativity) : native_scope.
Notation "c ;; k" := (native_bind c (fun _ => k))
  (at level 100, right associativity) : native_scope.

(** [goto bailout]. *)
Definition goto_bailout {A : Type} : native A := fun fr => (None, fr).

Definition record_event (ev : jni_event) : native unit :=
  fun fr =>
    (Some tt,
     {| events := events fr ++ [ev]; srcbuf := srcbuf fr; dstbuf := dstbuf fr;
        size := size fr; sfjava := sfjava fr |}).

Definition set_srcbuf (v : Z) : native unit :=
  fun fr =>
    (Some tt,
     {| events := events fr; srcbuf := v; dstbuf := dstbuf fr; size := size fr;
        sfjava := sfjava fr |}).

Definition set_dstbuf (v : Z) : native unit :=
  fun fr =>
    (Some tt,
     {| events := events fr; srcbuf := srcbuf fr; dstbuf := v; size := size fr;
        sfjava := sfjava fr |}).

Definition set_size (v : Z) : native unit :=
  fun fr =>
    (Some tt,
     {| events := events fr; srcbuf := srcbuf fr; dstbuf := dstbuf fr; size := v;
        sfjava := sfjava fr |}).

Definition set_sfjava (v : Z) : native unit :=
  fun fr =>
    (Some tt,
     {| events := events fr; srcbuf := srcbuf fr; dstbuf := dstbuf fr;
        size := size fr; sfjava := v |}).

(** [if (cond) stmt]. *)
Definition when (cond : bool) (stmt : native unit) : native unit :=
  if cond then stmt else native_ret tt.

(** The macro _throw(msg). *)
Definition _throw {A : Type} (env : JNIEnv) (msg : string) : native A :=
  (let _exccls := FindClass env "java/lang/Exception" in
   if _exccls =? 0 then goto_bailout
   else (record_event (ThrowNew _exccls msg) ;; goto_bailout))%native.

(** The macro bailif0(f), [f] having the value [v]. *)
Definition bailif0 (v : Z) : native unit :=
  if v =? 0 then goto_bailout else native_ret tt.

(** The variables the macro gethandle() declares or assigns. *)
Record handle_vars : Type := { the_handle : Z; the_cls : Z; the_fid : Z }.

(** The macro gethandle(). *)
Definition gethandle (env : JNIEnv) (obj : Z) : native handle_vars :=
  (let _cls := GetObjectClass env obj in
   if _cls =? 0 then goto_bailout
   else
     let _fid := GetFieldID env _cls "handle" "J" in
     bailif0 _fid ;;
     let handle := GetLongField env obj _fid in
     native_ret {| the_handle := handle; the_cls := _cls; the_fid := _fid |})%native.

(** A call of GetPrimitiveArrayCritical on [array], recorded with the
    pointer it returns. *)
Definition pin (env : JNIEnv) (array : Z) : native Z :=
  (let carray := GetPrimitiveArrayCritical env array in
   record_event (Pinned array carray) ;;
   native_ret carray)%native.

(** The two statements after the label bailout of the methods that pin
    two arrays. *)
Definition release_at_bailout (src dst : Z) (fr : jni_frame) : jni_frame :=
  let fr :=
    if dstbuf fr =? 0 then fr
    else snd (record_event (ReleasePrimitiveArrayCritical dst (dstbuf fr) 0) fr) in
  if srcbuf fr =? 0 then fr
  else snd (record_event (ReleasePrimitiveArrayCritical src (srcbuf fr) 0) fr).

Section Binding.

(** TJ_BGR and TJ_ALPHAFIRST of turbojpeg.h, and
    org_libjpegturbo_turbojpeg_TJ_NUMPFOPT of the generated header. *)
Variables TJ_BGR TJ_ALPHAFIRST NUMPFOPT : Z.

Variable env : JNIEnv.
Variable tj : turbojpeg.

(** The tables _pixelsize and _flags; entries past the initializers are 0. *)
Definition _pixelsize (pf : Z) : Z := int_at [3; 3; 4; 4; 4; 4; 1] pf.

Definition _flags (pf : Z) : Z :=
  int_at [0; TJ_BGR; 0; TJ_BGR; Z.lor TJ_BGR TJ_ALPHAFIRST; TJ_ALPHAFIRST; 0] pf.

(** sizeof(jint). *)
Definition sizeof_jint : Z := 4.

Definition Java_org_libjpegturbo_turbojpeg_TJ_bufSize (cls width height : Z)
    : Z * list jni_event :=
  let retval := to_jint (TJBUFSIZE tj width height) in
  let '(_, fr) :=
    (when (retval =? -1) (_throw env (tjGetErrorStr tj)))%native entry_frame in
  (retval, events fr).

Definition Java_org_libjpegturbo_turbojpeg_TJ_bufSizeYUV (cls width height subsamp : Z)
    : Z * list jni_event :=
  let retval := to_jint (TJBUFSIZEYUV tj width height subsamp) in
  let '(_, fr) :=
    (when (retval =? -1) (_throw env (tjGetErrorStr tj)))%native entry_frame in
  (retval, events fr).

Definition Java_org_libjpegturbo_turbojpeg_TJCompressor_init (obj : Z)
    : list jni_event :=
  let '(_, fr) :=
    (record_event Called_tjInitCompress ;;
     let handle := tjInitCompress tj in
     when (handle =? 0) (_throw env (tjGetErrorStr tj)) ;;
     let cls := GetObjectClass env obj in
     bailif0 cls ;;
     let fid := GetFieldID env cls "handle" "J" in
     bailif0 fid ;;
     record_event (SetLongField obj fid handle))%native entry_frame in
  events fr.

Definition Java_org_libjpegturbo_turbojpeg_TJCompressor_compress___3BIIII_3BIII
    (obj src width pitch height pf dst jpegsubsamp jpegqual flags : Z)
    : Z * list jni_event :=
  let '(_, fr) :=
    (vars <- gethandle env obj ;;
     let handle := the_handle vars in
     when ((pf <? 0) || (NUMPFOPT <=? pf) || (width <? 1) || (height <? 1)
           || (pitch <? 0))
       (_throw env "Invalid argument in compress()") ;;
     let flags := Z.lor flags (_flags pf) in
     let pixelsize := _pixelsize pf in
     let arraysize :=
       if pitch =? 0 then int_mul (int_mul width pixelsize) height
       else int_mul pitch height in
     when (GetArrayLength env src <? arraysize)
       (_throw env "Source buffer is not large enough") ;;
     when (GetArrayLength env dst <? to_jint (TJBUFSIZE tj width height))
       (_throw env "Destination buffer is not large enough") ;;
     srcbuf <- pin env src ;; set_srcbuf srcbuf ;; bailif0 srcbuf ;;
     dstbuf <- pin env dst ;; set_dstbuf dstbuf ;; bailif0 dstbuf ;;
     record_event
       (Called_tjCompress handle srcbuf width pitch height pixelsize dstbuf
          jpegsubsamp jpegqual flags) ;;
     let '(status, size) :=
       tjCompress tj handle srcbuf width pitch height pixelsize dstbuf
         jpegsubsamp jpegqual flags in
     set_size size ;;
     when (status =? -1)
       (record_event (ReleasePrimitiveArrayCritical dst dstbuf 0) ;;
        record_event (ReleasePrimitiveArrayCritical src srcbuf 0) ;;
        _throw env (tjGetErrorStr tj)))%native entry_frame in
  let fr := release_at_bailout src dst fr in
  (to_jint (size fr), events fr).

Definition Java_org_libjpegturbo_turbojpeg_TJCompressor_compress___3IIIII_3BIII
    (obj src width pitch height pf dst jpegsubsamp jpegqual flags : Z)
    : Z * list jni_event :=
  let '(_, fr) :=
    (vars <- gethandle env obj ;;
     let handle := the_handle vars in
     when ((pf <? 0) || (NUMPFOPT <=? pf) || (width <? 1) || (height <? 1)
           || (pitch <? 0))
       (_throw env "Invalid argument in compress()") ;;
     when (negb (_pixelsize pf =? sizeof_jint))
       (_throw env
          "Pixel format must be 32-bit when compressing from an integer buffer.") ;;
     let flags := Z.lor flags (_flags pf) in
     let arraysize :=
       if pitch =? 0 then int_mul width height else int_mul pitch height in
     when (GetArrayLength env src <? arraysize)
       (_throw env "Source buffer is not large enough") ;;
     when (GetArrayLength env dst <? to_jint (TJBUFSIZE tj width height))
       (_throw env "Destination buffer is not large enough") ;;
     srcbuf <- pin env src ;; set_srcbuf srcbuf ;; bailif0 srcbuf ;;
     dstbuf <- pin env dst ;; set_dstbuf dstbuf ;; bailif0 dstbuf ;;
     record_event
       (Called_tjCompress handle srcbuf width (to_jint (pitch * sizeof_jint)) height
          sizeof_jint dstbuf jpegsubsamp jpegqual flags) ;;
     let '(status, size) :=
       tjCompress tj handle srcbuf width (to_jint (pitch * sizeof_jint)) height
         sizeof_jint dstbuf jpegsubsamp jpegqual flags in
     set_size size ;;
     when (status =? -1)
       (record_event (ReleasePrimitiveArrayCritical dst dstbuf 0) ;;
        record_event (ReleasePrimitiveArrayCritical src srcbuf 0) ;;
        _throw env (tjGetErrorStr tj)))%native entry_frame in
  let fr := release_at_bailout src dst fr in
  (to_jint (size fr), events fr).

Definition Java_org_libjpegturbo_turbojpeg_TJCompressor_encodeYUV___3BIIII_3BII
    (obj src width pitch height pf dst subsamp flags : Z) : list jni_event :=
  let '(_, fr) :=
    (vars <- gethandle env obj ;;
     let handle := the_handle vars in
     when ((pf <? 0) || (NUMPFOPT <=? pf) || (width <? 1) || (height <? 1)
           || (pitch <? 0))
       (_throw env "Invalid argument in encodeYUV()") ;;
     let flags := Z.lor flags (_flags pf) in
     let pixelsize := _pixelsize pf in
     let arraysize :=
       if pitch =? 0 then int_mul (int_mul width pixelsize) height
       else int_mul pitch height in
     when (GetArrayLength env src <? arraysize)
       (_throw env "Source buffer is not large enough") ;;
     when (GetArrayLength env dst <? to_jint (TJBUFSIZEYUV tj width height subsamp))
       (_throw env "Destination buffer is not large enough") ;;
     srcbuf <- pin env src ;; set_srcbuf srcbuf ;; bailif0 srcbuf ;;
     dstbuf <- pin env dst ;; set_dstbuf dstbuf ;; bailif0 dstbuf ;;
     record_event
       (Called_tjEncodeYUV handle srcbuf width pitch height pixelsize dstbuf
          subsamp flags) ;;
     when (tjEncodeYUV tj handle srcbuf width pitch height pixelsize dstbuf
             subsamp flags =? -1)
       (record_event (ReleasePrimitiveArrayCritical dst dstbuf 0) ;;
        record_event (ReleasePrimitiveArrayCritical src srcbuf 0) ;;
        _throw env (tjGetErrorStr tj)))%native entry_frame in
  events (release_at_bailout src dst fr).

Definition Java_org_libjpegturbo_turbojpeg_TJCompressor_encodeYUV___3IIIII_3BII
    (obj src width pitch height pf dst subsamp flags : Z) : list jni_event :=
  let '(_, fr) :=
    (vars <- gethandle env obj ;;
     let handle := the_handle vars in
     when ((pf <? 0) || (NUMPFOPT <=? pf) || (width <? 1) || (height <? 1)
           || (pitch <? 0))
       (_throw env "Invalid argument in compress()") ;;
     when (negb (_pixelsize pf =? sizeof_jint))
       (_throw env
          "Pixel format must be 32-bit when encoding from an integer buffer.") ;;
     let flags := Z.lor flags (_flags pf) in
     let arraysize :=
       if pitch =? 0 then int_mul width height else int_mul pitch height in
     when (GetArrayLength env src <? arraysize)
       (_throw env "Source buffer is not large enough") ;;
     when (GetArrayLength env dst <? to_jint (TJBUFSIZEYUV tj width height subsamp))
       (_throw env "Destination buffer is not large enough") ;;
     srcbuf <- pin env src ;; set_srcbuf srcbuf ;; bailif0 srcbuf ;;
     dstbuf <- pin env dst ;; set_dstbuf dstbuf ;; bailif0 dstbuf ;;
     record_event
       (Called_tjEncodeYUV handle srcbuf width (to_jint (pitch * sizeof_jint)) height
          sizeof_jint dstbuf subsamp flags) ;;
     when (tjEncodeYUV tj handle srcbuf width (to_jint (pitch * sizeof_jint)) height
             sizeof_jint dstbuf subsamp flags =? -1)
       (record_event (ReleasePrimitiveArrayCritical dst dstbuf 0) ;;
        record_event (ReleasePrimitiveArrayCritical src srcbuf 0) ;;
        _throw env (tjGetErrorStr tj)))%native entry_frame in
  events (release_at_bailout src dst fr).

Definition Java_org_libjpegturbo_turbojpeg_TJCompressor_destroy (obj : Z)
    : list jni_event :=
  let '(_, fr) :=
    (vars <- gethandle env obj ;;
     let handle := the_handle vars in
     let _fid := the_fid vars in
     record_event (Called_tjDestroy handle) ;;
     when (tjDestroy tj handle =? -1) (_throw env (tjGetErrorStr tj)) ;;
     record_event (SetLongField obj _fid 0))%native entry_frame in
  events fr.

Definition Java_org_libjpegturbo_turbojpeg_TJDecompressor_init (obj : Z)
    : list jni_event :=
  let '(_, fr) :=
    (record_event Called_tjInitDecompress ;;
     let handle := tjInitDecompress tj in
     when (handle =? 0) (_throw env (tjGetErrorStr tj)) ;;
     let cls := GetObjectClass env obj in
     bailif0 cls ;;
     let fid := GetFieldID env cls "handle" "J" in
     bailif0 fid ;;
     record_event (SetLongField obj fid handle))%native entry_frame in
  events fr.

(** The body of the loop of getScalingFactors; [None] is [goto bailout]. *)
Definition set_scaling_factor (sf : list tjscalingfactor) (sfcls sfjava i : Z)
    : native unit :=
  (let sfobj := AllocObject env sfcls i in
   bailif0 sfobj ;;
   let fid := GetFieldID env sfcls "num" "I" in
   bailif0 fid ;;
   record_event
     (SetIntField sfobj fid (num (default {| num := 0; denom := 0 |} (sf !! Z.to_nat i)))) ;;
   let fid := GetFieldID env sfcls "denom" "I" in
   bailif0 fid ;;
   record_event
     (SetIntField sfobj fid
        (denom (default {| num := 0; denom := 0 |} (sf !! Z.to_nat i)))) ;;
   record_event (SetObjectArrayElement sfjava i sfobj))%native.

(** [for (i = i0; <n more iterations>; i++)] over statements. *)
Fixpoint native_for (n : nat) (i : Z) (body : Z -> native unit) : native unit :=
  match n with
  | O => native_ret tt
  | S n' => (body i ;; native_for n' (i + 1) body)%native
  end.

Definition Java_org_libjpegturbo_turbojpeg_TJ_getScalingFactors (cls : Z)
    : Z * list jni_event :=
  let '(_, fr) :=
    (record_event Called_tjGetScalingFactors ;;
     let '(sf, n) := tjGetScalingFactors tj in
     when (match sf with None => true | Some _ => false end || (n =? 0))
       (_throw env (tjGetErrorStr tj)) ;;
     let sfcls := FindClass env "org/libjpegturbo/turbojpeg/TJ$ScalingFactor" in
     bailif0 sfcls ;;
     let sfjava := NewObjectArray env n sfcls 0 in
     set_sfjava sfjava ;;
     bailif0 sfjava ;;
     native_for (Z.to_nat n) 0 (set_scaling_factor (default [] sf) sfcls sfjava))%native
      entry_frame in
  (sfjava fr, events fr).

Definition Java_org_libjpegturbo_turbojpeg_TJDecompressor_decompressHeader
    (obj src size : Z) : list jni_event :=
  let '(_, fr) :=
    (vars <- gethandle env obj ;;
     let handle := the_handle vars in
     let _cls := the_cls vars in
     when (GetArrayLength env src <? size)
       (_throw env "Source buffer is not large enough") ;;
     srcbuf <- pin env src ;; set_srcbuf srcbuf ;; bailif0 srcbuf ;;
     record_event (Called_tjDecompressHeader2 handle srcbuf (to_ulong size)) ;;
     let '(status, (width, height, jpegsubsamp)) :=
       tjDecompressHeader2 tj handle srcbuf (to_ulong size) in
     when (status =? -1)
       (record_event (ReleasePrimitiveArrayCritical src srcbuf 0) ;;
        _throw env (tjGetErrorStr tj)) ;;
     record_event (ReleasePrimitiveArrayCritical src srcbuf 0) ;;
     set_srcbuf 0 ;;
     let _fid := GetFieldID env _cls "jpegSubsamp" "I" in
     bailif0 _fid ;;
     record_event (SetIntField obj _fid jpegsubsamp) ;;
     let _fid := GetFieldID env _cls "jpegWidth" "I" in
     bailif0 _fid ;;
     record_event (SetIntField obj _fid width) ;;
     let _fid := GetFieldID env _cls "jpegHeight" "I" in
     bailif0 _fid ;;
     record_event (SetIntField obj _fid height))%native entry_frame in
  events fr.

Definition Java_org_libjpegturbo_turbojpeg_TJDecompressor_decompress___3BI_3BIIIII
    (obj src size dst width pitch height pf flags : Z) : list jni_event :=
  let '(_, fr) :=
    (vars <- gethandle env obj ;;
     let handle := the_handle vars in
     when ((pf <? 0) || (NUMPFOPT <=? pf))
       (_throw env "Invalid argument in decompress()") ;;
     let flags := Z.lor flags (_flags pf) in
     let pixelsize := _pixelsize pf in
     when (GetArrayLength env src <? size)
       (_throw env "Source buffer is not large enough") ;;
     let arraysize :=
       if pitch =? 0 then int_mul (int_mul width pixelsize) height
       else int_mul pitch height in
     when (GetArrayLength env dst <? arraysize)
       (_throw env "Destination buffer is not large enough") ;;
     srcbuf <- pin env src ;; set_srcbuf srcbuf ;; bailif0 srcbuf ;;
     dstbuf <- pin env dst ;; set_dstbuf dstbuf ;; bailif0 dstbuf ;;
     record_event
       (Called_tjDecompress handle srcbuf (to_ulong size) dstbuf width pitch height
          pixelsize flags) ;;
     when (tjDecompress tj handle srcbuf (to_ulong size) dstbuf width pitch height
             pixelsize flags =? -1)
       (record_event (ReleasePrimitiveArrayCritical dst dstbuf 0) ;;
        record_event (ReleasePrimitiveArrayCritical src srcbuf 0) ;;
        _throw env (tjGetErrorStr tj)))%native entry_frame in
  events (release_at_bailout src dst fr).

Definition Java_org_libjpegturbo_turbojpeg_TJDecompressor_decompress___3BI_3IIIIII
    (obj src size dst width pitch height pf flags : Z) : list jni_event :=
  let '(_, fr) :=
    (vars <- gethandle env obj ;;
     let handle := the_handle vars in
     when ((pf <? 0) || (NUMPFOPT <=? pf))
       (_throw env "Invalid argument in decompress()") ;;
     when (negb (_pixelsize pf =? sizeof_jint))
       (_throw env
          "Pixel format must be 32-bit when decompressing to an integer buffer.") ;;
     let flags := Z.lor flags (_flags pf) in
     when (GetArrayLength env src <? size)
       (_throw env "Source buffer is not large enough") ;;
     let arraysize :=
       if pitch =? 0 then int_mul width height else int_mul pitch height in
     when (GetArrayLength env dst <? arraysize)
       (_throw env "Destination buffer is not large enough") ;;
     srcbuf <- pin env src ;; set_srcbuf srcbuf ;; bailif0 srcbuf ;;
     dstbuf <- pin env dst ;; set_dstbuf dstbuf ;; bailif0 dstbuf ;;
     record_event
       (Called_tjDecompress handle srcbuf (to_ulong size) dstbuf width
          (to_jint (pitch * sizeof_jint)) height sizeof_jint flags) ;;
     when (tjDecompress tj handle srcbuf (to_ulong size) dstbuf width
             (to_jint (pitch * sizeof_jint)) height sizeof_jint flags =? -1)
       (record_event (ReleasePrimitiveArrayCritical dst dstbuf 0) ;;
        record_event (ReleasePrimitiveArrayCritical src srcbuf 0) ;;
        _throw env (tjGetErrorStr tj)))%native entry_frame in
  events (release_at_bailout src dst fr).

Definition Java_org_libjpegturbo_turbojpeg_TJDecompressor_decompressToYUV
    (obj src size dst flags : Z) : list jni_event :=
  let '(_, fr) :=
    (vars <- gethandle env obj ;;
     let handle := the_handle vars in
     let _cls := the_cls vars in
     when (GetArrayLength env src <? size)
       (_throw env "Source buffer is not large enough") ;;
     let _fid := GetFieldID env _cls "jpegSubsamp" "I" in
     bailif0 _fid ;;
     let jpegSubsamp := GetIntField env obj _fid in
     let _fid := GetFieldID env _cls "jpegWidth" "I" in
     bailif0 _fid ;;
     let jpegWidth := GetIntField env obj _fid in
     let _fid := GetFieldID env _cls "jpegHeight" "I" in
     bailif0 _fid ;;
     let jpegHeight := GetIntField env obj _fid in
     when (GetArrayLength env dst
           <? to_jint (TJBUFSIZEYUV tj jpegWidth jpegHeight jpegSubsamp))
       (_throw env "Destination buffer is not large enough") ;;
     srcbuf <- pin env src ;; set_srcbuf srcbuf ;; bailif0 srcbuf ;;
     dstbuf <- pin env dst ;; set_dstbuf dstbuf ;; bailif0 dstbuf ;;
     record_event (Called_tjDecompressToYUV handle srcbuf (to_ulong size) dstbuf flags) ;;
     when (tjDecompressToYUV tj handle srcbuf (to_ulong size) dstbuf flags =? -1)
       (record_event (ReleasePrimitiveArrayCritical dst dstbuf 0) ;;
        record_event (ReleasePrimitiveArrayCritical src srcbuf 0) ;;
        _throw env (tjGetErrorStr tj)))%native entry_frame in
  events (release_at_bailout src dst fr).

Definition Java_org_libjpegturbo_turbojpeg_TJDecompressor_destroy (obj : Z)
    : list jni_event :=
  Java_org_libjpegturbo_turbojpeg_TJCompressor_destroy obj.

End Binding.

(** ** Vocabulary of the properties of the Java binding *)

(** What the macro _throw(msg) does to the outside: it throws a
    java.lang.Exception with the message, unless that class is not found. *)
Definition thrown (env : JNIEnv) (msg : string) : list jni_event :=
  if FindClass env "java/lang/Exception" =? 0 then []
  else [ThrowNew (FindClass env "java/lang/Exception") msg].

(** The macro gethandle() finds the class of the object and its field
    "handle". *)
Definition handle_found (env : JNIEnv) (obj : Z) : Prop :=
  GetObjectClass env obj <> 0
  /\ GetFieldID env (GetObjectClass env obj) "handle" "J" <> 0.

(** The handle gethandle() reads. *)
Definition handle_of (env : JNIEnv) (obj : Z) : Z :=
  GetLongField env obj (GetFieldID env (GetObjectClass env obj) "handle" "J").

(** The number of events that satisfy [p]. *)
Fixpoint count_events (p : jni_event -> bool) (evs : list jni_event) : nat :=
  match evs with
  | [] => O
  | ev :: evs' => if p ev then S (count_events p evs') else count_events p evs'
  end.

(** The releases of [array], and the calls of GetPrimitiveArrayCritical that
    pinned it (returned a pointer). *)
Definition is_release_of (array : Z) (ev : jni_event) : bool :=
  match ev with
  | ReleasePrimitiveArrayCritical a _ _ => a =? array
  | _ => false
  end.

Definition is_pin_of (array : Z) (ev : jni_event) : bool :=
  match ev with
  | Pinned a carray => (a =? array) && negb (carray =? 0)
  | _ => false
  end.

Definition releases_of (array : Z) (evs : list jni_event) : nat :=
  count_events (is_release_of array) evs.

Definition pins_of (array : Z) (evs : list jni_event) : nat :=
  count_events (is_pin_of array) evs.

(** The calls of the TurboJPEG library. *)
Definition is_library_call (ev : jni_event) : bool :=
  match ev with
  | Called_tjInitCompress | Called_tjInitDecompress | Called_tjCompress _ _ _ _ _ _ _ _ _ _
  | Called_tjEncodeYUV _ _ _ _ _ _ _ _ _ | Called_tjDecompressHeader2 _ _ _
  | Called_tjDecompress _ _ _ _ _ _ _ _ _ | Called_tjDecompressToYUV _ _ _ _ _
  | Called_tjDestroy _ | Called_tjGetScalingFactors => true
  | _ => false
  end.

(** The value a call of the library returned (for tjCompress and
    tjDecompressHeader2, with what they store, the first component). *)
Definition library_status (tj : turbojpeg) (ev : jni_event) : Z :=
  match ev with
  | Called_tjCompress handle srcbuf width pitch height pixelsize dstbuf jpegsubsamp
      jpegqual flags =>
      fst (tjCompress tj handle srcbuf width pitch height pixelsize dstbuf jpegsubsamp
             jpegqual flags)
  | Called_tjEncodeYUV handle srcbuf width pitch height pixelsize dstbuf subsamp flags =>
      tjEncodeYUV tj handle srcbuf width pitch height pixelsize dstbuf subsamp flags
  | Called_tjDecompressHeader2 handle srcbuf size =>
      fst (tjDecompressHeader2 tj handle srcbuf size)
  | Called_tjDecompress handle srcbuf size dstbuf width pitch height pixelsize flags =>
      tjDecompress tj handle srcbuf size dstbuf width pitch height pixelsize flags
  | Called_tjDecompressToYUV handle srcbuf size dstbuf flags =>
      tjDecompressToYUV tj handle srcbuf size dstbuf flags
  | Called_tjDestroy handle => tjDestroy tj handle
  | _ => 0
  end.

(** The number of calls of the library that returned -1. *)
Definition failed_calls (tj : turbojpeg) (evs : list jni_event) : nat :=
  count_events (fun ev => is_library_call ev && (library_status tj ev =? -1)) evs.

(** Each of the two arrays is released as often as it was pinned, and once
    more for a call of the library that failed. *)
Definition released_once_more_on_failure (tj : turbojpeg) (src dst : Z)
    (evs : list jni_event) : Prop :=
  releases_of src evs = (pins_of src evs + failed_calls tj evs)%nat
  /\ releases_of dst evs = (pins_of dst evs + failed_calls tj evs)%nat.

(** What getScalingFactors does for the scaling factor [i] when every
    function answers: it sets the fields num and denom of a new object and
    stores the object at index [i] of the array. *)
Definition scaling_factor_events (env : JNIEnv) (sf : list tjscalingfactor)
    (sfcls sfjava : Z) (i : nat) : list jni_event :=
  let sfobj := AllocObject env sfcls (Z.of_nat i) in
  let factor := default {| num := 0; denom := 0 |} (sf !! i) in
  [SetIntField sfobj (GetFieldID env sfcls "num" "I") (num factor);
   SetIntField sfobj (GetFieldID env sfcls "denom" "I") (denom factor);
   SetObjectArrayElement sfjava (Z.of_nat i) sfobj].

(** A Java environment in which every function answers: classes, fields
    and objects are found, arrays have 100 elements and can be pinned. *)
Definition answering_env : JNIEnv :=
  {| FindClass := fun _ => 1;
     GetObjectClass := fun _ => 2;
     GetFieldID := fun _ _ _ => 3;
     GetLongField := fun _ _ => 4;
     GetIntField := fun _ _ => 0;
     GetArrayLength := fun _ => 100;
     GetPrimitiveArrayCritical := fun array => array + 10;
     NewObjectArray := fun _ _ _ => 5;
     AllocObject := fun _ i => 6 + i |}.

(** A library whose compressing and decompressing calls all fail, and
    which has the scaling factors 1/1 and 1/2. *)
Definition failing_library : turbojpeg :=
  {| TJBUFSIZE := fun _ _ => 0;
     TJBUFSIZEYUV := fun _ _ _ => 0;
     tjGetErrorStr := "failed";
     tjInitCompress := 0;
     tjInitDecompress := 0;
     tjCompress := fun _ _ _ _ _ _ _ _ _ _ => (-1, 0);
     tjEncodeYUV := fun _ _ _ _ _ _ _ _ _ => -1;
     tjDecompressHeader2 := fun _ _ _ => (-1, (0, 0, 0));
     tjDecompress := fun _ _ _ _ _ _ _ _ _ => -1;
     tjDecompressToYUV := fun _ _ _ _ _ => -1;
     tjDestroy := fun _ => -1;
     tjGetScalingFactors :=
       (Some [{| num := 1; denom := 1 |}; {| num := 1; denom := 2 |}], 2) |}.

(** The arguments fail the test every compressing method starts with. *)
Definition invalid_compress_arguments (NUMPFOPT width pitch height pf : Z) : Prop :=
  pf < 0 \/ NUMPFOPT <= pf \/ width < 1 \/ height < 1 \/ pitch < 0.

(** * Properties *)

(** ** Loops *)

Lemma for_until_invariant {S R : Type} (P : S -> Prop) (Q : R -> Prop)
    (body : Z -> S -> S + R) :
  (forall i s, P s -> match body i s with inl s' => P s' | inr r => Q r end) ->
  forall n i s, P s ->
    match for_until n i body s with inl s' => P s' | inr r => Q r end.
Proof.
  intros Hbody n. induction n as [|n IH]; intros i s Hs; simpl; [exact Hs|].
  specialize (Hbody i s Hs). destruct (body i s) as [s'|r]; [|exact Hbody].
  apply IH, Hbody.
Qed.

Lemma foreach_until_invariant {A S R : Type} (P : S -> Prop) (Q : R -> Prop)
    (body : Z -> A -> S -> S + R) (l : list A) :
  (forall i a s, a ∈ l -> P s ->
     match body i a s with inl s' => P s' | inr r => Q r end) ->
  forall i s, P s ->
    match foreach_until l i body s with inl s' => P s' | inr r => Q r end.
Proof.
  induction l as [|a l IH]; intros Hbody i s Hs; simpl; [exact Hs|].
  assert (Ha := Hbody i a s (list_elem_of_here a l) Hs).
  destruct (body i a s) as [s'|r]; [|exact Ha].
  apply IH; [|exact Ha].
  intros j b t Hb. apply Hbody. by apply list_elem_of_further.
Qed.

Lemma for_loop_invariant {S : Type} (P : S -> Prop) (body : Z -> S -> S) :
  (forall i s, P s -> P (body i s)) ->
  forall n i s, P s -> P (for_loop n i body s).
Proof.
  intros Hbody n. induction n as [|n IH]; intros i s Hs; simpl; [exact Hs|].
  apply IH, Hbody, Hs.
Qed.

Lemma foreach_invariant {A S : Type} (P : S -> Prop) (body : Z -> A -> S -> S)
    (l : list A) :
  (forall i a s, a ∈ l -> P s -> P (body i a s)) ->
  forall i s, P s -> P (foreach l i body s).
Proof.
  induction l as [|a l IH]; intros Hbody i s Hs; simpl; [exact Hs|].
  apply IH.
  - intros j b t Hb. apply Hbody. by apply list_elem_of_further.
  - apply Hbody; [apply list_elem_of_here | exact Hs].
Qed.

(** ** Loops with their index *)

Lemma for_loop_indexed_invariant {St : Type} (P : Z -> St -> Prop)
    (body : Z -> St -> St) :
  forall (n : nat) (lo : Z) (s : St),
    (forall i s, lo <= i < lo + Z.of_nat n -> P i s -> P (i + 1) (body i s)) ->
    P lo s -> P (lo + Z.of_nat n) (for_loop n lo body s).
Proof.
  induction n as [|n IH]; intros lo s Hbody Hs; simpl for_loop.
  - replace (lo + Z.of_nat 0) with lo by lia. exact Hs.
  - replace (lo + Z.of_nat (S n)) with (lo + 1 + Z.of_nat n) by lia.
    apply IH.
    + intros i t Hi. apply Hbody. lia.
    + apply Hbody; [lia|exact Hs].
Qed.

Lemma foreach_indexed_invariant {A St : Type} (P : St -> Prop)
    (body : Z -> A -> St -> St) :
  forall (l : list A) (i0 : Z) (s : St),
    (forall (k : nat) a s, l !! k = Some a -> P s -> P (body (i0 + Z.of_nat k) a s)) ->
    P s -> P (foreach l i0 body s).
Proof.
  induction l as [|a l IH]; intros i0 s Hbody Hs; simpl; [exact Hs|].
  apply IH.
  - intros k b t Hk Ht.
    replace (i0 + 1 + Z.of_nat k) with (i0 + Z.of_nat (S k)) by lia.
    by apply Hbody.
  - replace i0 with (i0 + Z.of_nat 0) at 1 by lia. by apply Hbody.
Qed.

Lemma for_until_indexed_invariant {St R : Type} (P : St -> Prop) (Q : R -> Prop)
    (body : Z -> St -> St + R) :
  forall (n : nat) (lo : Z) (s : St),
    (forall i s, lo <= i < lo + Z.of_nat n -> P s ->
       match body i s with inl s' => P s' | inr r => Q r end) ->
    P s ->
    match for_until n lo body s with inl s' => P s' | inr r => Q r end.
Proof.
  induction n as [|n IH]; intros lo s Hbody Hs; simpl; [exact Hs|].
  pose proof (Hbody lo s ltac:(lia) Hs) as Hstep.
  destruct (body lo s) as [s'|r]; [|exact Hstep].
  apply IH; [|exact Hstep]. intros i t Hi. apply Hbody. lia.
Qed.

(** ** Integer reductions *)

Lemma JDIM_small z : 0 <= z < 2 ^ 32 -> JDIM z = z.
Proof. intros Hz. unfold JDIM, JDIMENSION_MODULUS. by apply Z.mod_small. Qed.

Lemma to_JCOEF_small z : -32768 <= z < 32768 -> to_JCOEF z = z.
Proof. intros Hz. unfold to_JCOEF. rewrite Z.mod_small; lia. Qed.

(** ** C10: the dummy consumer of the single-pass case *)

(** C10.  In single-pass mode (jinit_d_coef_controller called with
    need_full_buffer false) the consume_data method installed is
    dummy_consume_data; it returns JPEG_SUSPENDED for every state and
    leaves the state, hence the controller and the input, exactly as it
    was, whether called directly or through the method pointer. *)
Theorem dummy_consume_data_suspends :
  forall (E : Type) (decode_mcu : E -> list JBLOCK -> bool * E * list JBLOCK)
    (finish_input_pass : jpeg_decompress_struct E -> jpeg_decompress_struct E)
    (cinfo0 cinfo : jpeg_decompress_struct E),
    pub_consume_data (coef (jinit_d_coef_controller cinfo0 false)) = Dummy_consume_data
    /\ pub_coef_arrays (coef (jinit_d_coef_controller cinfo0 false)) = false
    /\ dummy_consume_data cinfo = (JPEG_SUSPENDED, cinfo)
    /\ call_consume_data decode_mcu finish_input_pass
         (jinit_d_coef_controller cinfo0 false)
       = (JPEG_SUSPENDED, jinit_d_coef_controller cinfo0 false)
    /\ call_consume_data decode_mcu finish_input_pass
         (on_coef (set_pub_consume_data Dummy_consume_data) cinfo)
       = (JPEG_SUSPENDED, on_coef (set_pub_consume_data Dummy_consume_data) cinfo).
Proof.
  intros E decode_mcu finish_input_pass cinfo0 cinfo.
  repeat split; reflexivity.
Qed.

(** ** C3: the height of an iMCU row *)

Lemma JDIM_pred_total {E : Type} (cinfo : jpeg_decompress_struct E) :
  0 < total_iMCU_rows cinfo <= 2 ^ 32 ->
  JDIM (total_iMCU_rows cinfo - 1) = total_iMCU_rows cinfo - 1.
Proof. intros H. apply JDIM_small. lia. Qed.

(** C3.  start_iMCU_row sets the number of MCU rows per iMCU row to 1 when
    the scan has more than one component.  For a scan of one component
    (whose last_row_height is the value per_scan_setup gives it) it is the
    component's v_samp_factor on every iMCU row before the last, and on the
    last one height_in_blocks mod v_samp_factor, or v_samp_factor when that
    remainder is 0.  The output side of decompress_data counts its block
    rows by the same rule. *)
Theorem start_iMCU_row_height :
  forall (E : Type) (cinfo : jpeg_decompress_struct E)
    (compptr : jpeg_component_info) (others : list jpeg_component_info),
    cur_comp_info cinfo = compptr :: others ->
    0 <= input_iMCU_row cinfo < total_iMCU_rows cinfo ->
    total_iMCU_rows cinfo <= 2 ^ 32 ->
    last_row_height compptr = noninterleaved_last_row_height compptr ->
    let rows := MCU_rows_per_iMCU_row (coef (start_iMCU_row cinfo)) in
    let remainder := height_in_blocks compptr mod v_samp_factor compptr in
    (1 < comps_in_scan cinfo -> rows = 1)
    /\ (comps_in_scan cinfo <= 1 ->
        input_iMCU_row cinfo < total_iMCU_rows cinfo - 1 ->
        rows = v_samp_factor compptr)
    /\ (comps_in_scan cinfo <= 1 ->
        input_iMCU_row cinfo = total_iMCU_rows cinfo - 1 ->
        rows = if remainder =? 0 then v_samp_factor compptr else remainder)
    /\ output_block_rows cinfo compptr
       = if output_iMCU_row cinfo <? total_iMCU_rows cinfo - 1
         then v_samp_factor compptr
         else if remainder =? 0 then v_samp_factor compptr else remainder.
Proof.
  intros E cinfo compptr others Hcur Hrow Htotal Hlast rows remainder.
  assert (Hpred : JDIM (total_iMCU_rows cinfo - 1) = total_iMCU_rows cinfo - 1)
    by (apply JDIM_pred_total; lia).
  subst rows remainder. unfold start_iMCU_row, output_block_rows. simpl.
  rewrite Hcur, Hpred. simpl.
  repeat split.
  - intros Hn. apply Z.ltb_lt in Hn. by rewrite Hn.
  - intros Hn Hlt. apply Z.ltb_ge in Hn. apply Z.ltb_lt in Hlt. by rewrite Hn, Hlt.
  - intros Hn Heq. apply Z.ltb_ge in Hn. rewrite Hn.
    assert (Hge : (input_iMCU_row cinfo <? total_iMCU_rows cinfo - 1) = false)
      by (apply Z.ltb_ge; lia).
    rewrite Hge. exact Hlast.
Qed.

(** The last of the two iMCU rows of a component three block rows high
    with v_samp_factor 2 holds one MCU row. *)
Lemma start_iMCU_row_height_witness :
  MCU_rows_per_iMCU_row
    (coef (start_iMCU_row (set_input_iMCU_row 1 (lone_scan (lone_component 5 3 2) 2 tt))))
  = 1.
Proof.
  refine (proj1 (proj2 (proj2
    (start_iMCU_row_height unit
       (set_input_iMCU_row 1 (lone_scan (lone_component 5 3 2) 2 tt))
       (lone_component 5 3 2) [] _ _ _ _))) _ _);
    first [reflexivity | (simpl; lia)].
Defined.

(** ** C9: completing an iMCU row in the single-pass case *)

Section Onepass.
Context {E JSAMPIMAGE : Type}.
Variable decode_mcu : E -> list JBLOCK -> bool * E * list JBLOCK.
Variable inverse_DCT :
  Z -> jpeg_component_info -> JBLOCK -> JSAMPIMAGE -> Z -> Z -> JSAMPIMAGE.
Variable finish_input_pass : jpeg_decompress_struct E -> jpeg_decompress_struct E.

Lemma same_scan_refl (c : jpeg_decompress_struct E) : same_scan c c.
Proof. by repeat split. Qed.

Lemma onepass_MCU_same_scan c0 yoffset MCU_col_num st :
  same_scan c0 (fst st) ->
  match onepass_MCU decode_mcu inverse_DCT yoffset MCU_col_num st with
  | inl st' => same_scan c0 (fst st')
  | inr (r, c', _) => r = JPEG_SUSPENDED /\ same_scan c0 c'
  end.
Proof.
  destruct st as [c out]. unfold onepass_MCU. simpl. intros Hc.
  destruct (decode_mcu _ _) as [[ok e] blocks]. destruct ok; simpl; [exact Hc|].
  split; [reflexivity | exact Hc].
Qed.

Lemma onepass_MCU_row_same_scan c0 last_MCU_col yoffset st :
  same_scan c0 (fst st) ->
  match onepass_MCU_row decode_mcu inverse_DCT last_MCU_col yoffset st with
  | inl st' => same_scan c0 (fst st')
  | inr (r, c', _) => r = JPEG_SUSPENDED /\ same_scan c0 c'
  end.
Proof.
  intros Hc. unfold onepass_MCU_row.
  pose proof (for_until_invariant
    (fun st : jpeg_decompress_struct E * JSAMPIMAGE => same_scan c0 (fst st))
    (fun r : jpeg_code * jpeg_decompress_struct E * JSAMPIMAGE =>
       let '(r, c', _) := r in r = JPEG_SUSPENDED /\ same_scan c0 c')
    (onepass_MCU decode_mcu inverse_DCT yoffset)
    (fun i s => onepass_MCU_same_scan c0 yoffset i s)
    (Z.to_nat (last_MCU_col + 1 - MCU_ctr (coef (fst st))))
    (MCU_ctr (coef (fst st))) st Hc) as H.
  destruct (for_until _ _ _ st) as [[c out]|r]; [exact H | exact H].
Qed.

(** The two loops of decompress_onepass as one step: either the iMCU row
    was completed, or the call returns JPEG_SUSPENDED. *)
Lemma onepass_loops_same_scan c out :
  match
    for_until (Z.to_nat (MCU_rows_per_iMCU_row (coef c) - MCU_vert_offset (coef c)))
      (MCU_vert_offset (coef c))
      (onepass_MCU_row decode_mcu inverse_DCT (JDIM (MCUs_per_row c - 1))) (c, out)
  with
  | inl st' => same_scan c (fst st')
  | inr (r, c', _) => r = JPEG_SUSPENDED /\ same_scan c c'
  end.
Proof.
  apply (for_until_invariant
    (fun st : jpeg_decompress_struct E * JSAMPIMAGE => same_scan c (fst st))
    (fun r : jpeg_code * jpeg_decompress_struct E * JSAMPIMAGE =>
       let '(r, c', _) := r in r = JPEG_SUSPENDED /\ same_scan c c')).
  - intros i s. apply onepass_MCU_row_same_scan.
  - apply same_scan_refl.
Qed.

(** C9.  A call of decompress_onepass that does not suspend has finished an
    iMCU row.  It advances the input and the output iMCU row counters by
    one each; then, if further iMCU rows remain, it resets the row
    sequencer with start_iMCU_row and returns JPEG_ROW_COMPLETED, and if
    this was the last iMCU row it calls finish_input_pass and returns
    JPEG_SCAN_COMPLETED.  [advanced] is the state between the counter
    updates and that last step. *)
Theorem decompress_onepass_row_completed :
  forall (cinfo cinfo' : jpeg_decompress_struct E) (output_buf output_buf' : JSAMPIMAGE)
    (r : jpeg_code),
    0 <= input_iMCU_row cinfo < total_iMCU_rows cinfo ->
    total_iMCU_rows cinfo < 2 ^ 32 ->
    0 <= output_iMCU_row cinfo < 2 ^ 32 - 1 ->
    decompress_onepass decode_mcu inverse_DCT finish_input_pass cinfo output_buf
      = (r, cinfo', output_buf') ->
    r <> JPEG_SUSPENDED ->
    exists advanced : jpeg_decompress_struct E,
      input_iMCU_row advanced = input_iMCU_row cinfo + 1
      /\ output_iMCU_row advanced = output_iMCU_row cinfo + 1
      /\ total_iMCU_rows advanced = total_iMCU_rows cinfo
      /\ (input_iMCU_row cinfo + 1 < total_iMCU_rows cinfo ->
          r = JPEG_ROW_COMPLETED /\ cinfo' = start_iMCU_row advanced
          /\ input_iMCU_row cinfo' = input_iMCU_row cinfo + 1
          /\ output_iMCU_row cinfo' = output_iMCU_row cinfo + 1
          /\ MCU_ctr (coef cinfo') = 0 /\ MCU_vert_offset (coef cinfo') = 0)
      /\ (input_iMCU_row cinfo + 1 = total_iMCU_rows cinfo ->
          r = JPEG_SCAN_COMPLETED /\ cinfo' = finish_input_pass advanced).
Proof.
  intros cinfo cinfo' output_buf output_buf' r Hin Htot Hout Hcall Hr.
  unfold decompress_onepass in Hcall.
  pose proof (onepass_loops_same_scan cinfo output_buf) as Hloops.
  destruct (for_until _ _ _ (cinfo, output_buf)) as [[c out]|[[r0 c0] out0]].
  - simpl in Hloops. destruct Hloops as (Hi & Ho & Ht & _).
    simpl in Hcall. rewrite Hi, Ho, Ht in Hcall.
    rewrite (JDIM_small (input_iMCU_row cinfo + 1)) in Hcall by lia.
    rewrite (JDIM_small (output_iMCU_row cinfo + 1)) in Hcall by lia.
    exists (set_input_iMCU_row (input_iMCU_row cinfo + 1)
              (set_output_iMCU_row (output_iMCU_row cinfo + 1) c)).
    simpl. repeat split; try done.
    + destruct (Z.ltb_spec (input_iMCU_row cinfo + 1) (total_iMCU_rows cinfo));
        [congruence | lia].
    + destruct (Z.ltb_spec (input_iMCU_row cinfo + 1) (total_iMCU_rows cinfo));
        [|lia]. by inversion Hcall.
    + destruct (Z.ltb_spec (input_iMCU_row cinfo + 1) (total_iMCU_rows cinfo));
        [|lia]. by inversion Hcall.
    + destruct (Z.ltb_spec (input_iMCU_row cinfo + 1) (total_iMCU_rows cinfo));
        [|lia]. by inversion Hcall.
    + destruct (Z.ltb_spec (input_iMCU_row cinfo + 1) (total_iMCU_rows cinfo));
        [|lia]. by inversion Hcall.
    + destruct (Z.ltb_spec (input_iMCU_row cinfo + 1) (total_iMCU_rows cinfo));
        [|lia]. by inversion Hcall.
    + destruct (Z.ltb_spec (input_iMCU_row cinfo + 1) (total_iMCU_rows cinfo));
        [lia | congruence].
    + destruct (Z.ltb_spec (input_iMCU_row cinfo + 1) (total_iMCU_rows cinfo));
        [lia|]. by inversion Hcall.
  - destruct Hloops as [-> _]. inversion Hcall. congruence.
Qed.

End Onepass.

(** The first call on the 16x16 image completes the first of two iMCU rows. *)
Lemma decompress_onepass_row_completed_witness :
  exists advanced : jpeg_decompress_struct nat,
    input_iMCU_row advanced = 1 /\ output_iMCU_row advanced = 1.
Proof.
  pose (call :=
    decompress_onepass (decode_given (fun _ => [zero_block])) recording_inverse_DCT
      finish_input_pass_upstream (gray16_onepass 0%nat) []).
  destruct (decompress_onepass_row_completed
              (decode_given (fun _ => [zero_block])) recording_inverse_DCT
              finish_input_pass_upstream (gray16_onepass 0%nat)
              (snd (fst call)) [] (snd call) (fst (fst call)))
    as (advanced & Hi & Ho & _).
  - simpl. lia.
  - vm_compute. reflexivity.
  - simpl. lia.
  - vm_compute. reflexivity.
  - vm_compute. discriminate.
  - exists advanced. split; [exact Hi | exact Ho].
Defined.

(** ** C4: smoothing is refused on a zero quantizer *)

Lemma foreach_until_exit {A S R : Type} (Q : R -> Prop)
    (body : Z -> A -> S -> S + R) (l : list A) (a : A) :
  a ∈ l ->
  (forall i s, match body i a s with inr r => Q r | inl _ => False end) ->
  (forall i b s, b ∈ l -> match body i b s with inr r => Q r | inl _ => True end) ->
  forall i s, match foreach_until l i body s with inr r => Q r | inl _ => False end.
Proof.
  induction l as [|b l IH]; intros Ha Hexit Hany i s.
  - by apply elem_of_nil in Ha.
  - simpl. apply elem_of_cons in Ha as [<-|Ha].
    + specialize (Hexit i s). by destruct (body i a s).
    + assert (Hb := Hany i b s (list_elem_of_here b l)).
      destruct (body i b s) as [s'|r]; [|exact Hb].
      apply IH; [exact Ha | exact Hexit |].
      intros j c t Hc. apply Hany. by apply list_elem_of_further.
Qed.

(** C4.  If the quantization table of any component has the value 0 at the
    DC position or at one of the first five AC zigzag positions,
    smoothing_ok returns FALSE, whatever the other fields of the decoder
    are; start_output_pass then installs decompress_data and not
    decompress_smooth_data, so no smoothing division is evaluated. *)
Theorem smoothing_ok_zero_quantizer :
  forall (E : Type) (cinfo : jpeg_decompress_struct E)
    (compptr : jpeg_component_info) (qtable : JQUANT_TBL),
    compptr ∈ components cinfo ->
    quant_table compptr = Some qtable ->
    has_zero_smoothing_quantizer qtable ->
    fst (smoothing_ok cinfo) = false
    /\ (pub_coef_arrays (coef cinfo) = true ->
        pub_decompress_data (coef (start_output_pass cinfo)) = Decompress_data).
Proof.
  intros E cinfo compptr qtable Hin Hqt Hzero.
  assert (Hok : fst (smoothing_ok cinfo) = false).
  { unfold smoothing_ok.
    destruct (progressive_mode cinfo); [|reflexivity].
    destruct (coef_bits cinfo) as [all_coef_bits|]; [|reflexivity].
    match goal with
    | |- fst (match foreach_until ?l ?i ?body ?s with _ => _ end) = false =>
        pose proof (foreach_until_exit
          (fun r : bool * jpeg_decompress_struct E => fst r = false)
          body l compptr Hin) as Hexit;
        specialize (fun H1 H2 => Hexit H1 H2 i s);
        destruct (foreach_until l i body s) as [[latch useful]|r]
    end.
    - exfalso. apply Hexit.
      + intros i [latch' useful']. rewrite Hqt.
        unfold has_zero_smoothing_quantizer, quant_at in Hzero.
        destruct Hzero as [H|[H|[H|[H|[H|H]]]]]; rewrite H; simpl;
          rewrite ?orb_true_r; reflexivity.
      + intros i b [latch' useful'] _.
        destruct (quant_table b) as [qt|]; [|reflexivity].
        repeat (match goal with
                | |- context [if ?c then _ else _] => destruct c
                end; try reflexivity).
    - apply Hexit.
      + intros i [latch' useful']. rewrite Hqt.
        unfold has_zero_smoothing_quantizer, quant_at in Hzero.
        destruct Hzero as [H|[H|[H|[H|[H|H]]]]]; rewrite H; simpl;
          rewrite ?orb_true_r; reflexivity.
      + intros i b [latch' useful'] _.
        destruct (quant_table b) as [qt|]; [|reflexivity].
        repeat (match goal with
                | |- context [if ?c then _ else _] => destruct c
                end; try reflexivity). }
  split; [exact Hok|].
  intros Harrays. unfold start_output_pass. rewrite Harrays.
  destruct (do_block_smoothing cinfo); [|reflexivity].
  destruct (smoothing_ok cinfo) as [ok cinfo']. simpl in Hok. subst ok.
  reflexivity.
Qed.

(** With every other condition for smoothing met, a zero quantizer for
    AC10 alone makes smoothing_ok refuse. *)
Lemma smoothing_ok_zero_quantizer_witness :
  fst (smoothing_ok (after_dc_scan table_with_zero)) = false
  /\ fst (smoothing_ok (after_dc_scan luminance_table)) = true.
Proof.
  split; [|reflexivity].
  refine (proj1 (smoothing_ok_zero_quantizer unit (after_dc_scan table_with_zero)
                   (default no_component (comp_info (after_dc_scan table_with_zero) !! 0%nat))
                   table_with_zero _ _ _)).
  - apply list_elem_of_here.
  - reflexivity.
  - right. right. left. reflexivity.
Defined.

(** ** C5: smoothing replaces unknown zeros only *)


Lemma coef_at_insert_ne (b : JBLOCK) (pos k : nat) (v : Z) :
  k <> pos -> coef_at (<[pos := v]> b) k = coef_at b k.
Proof. intros Hne. unfold coef_at. by rewrite list_lookup_insert_ne. Qed.

Lemma coef_at_insert_eq (b : JBLOCK) (pos : nat) (v : Z) :
  (pos < length b)%nat -> coef_at (<[pos := v]> b) pos = v.
Proof. intros Hlt. unfold coef_at. by rewrite list_lookup_insert_eq. Qed.

Lemma estimate_coef_changes Al pos Q num (workspace : JBLOCK) (k : nat) :
  coef_at (estimate_coef Al pos Q num workspace) k = coef_at workspace k
  \/ (k = pos /\ Al <> 0 /\ coef_at workspace pos = 0).
Proof.
  unfold estimate_coef.
  destruct (Z.eqb_spec Al 0) as [HAl|HAl]; simpl; [by left|].
  destruct (Z.eqb_spec (coef_at workspace pos) 0) as [Hz|Hz]; [|by left].
  destruct (decide (k = pos)) as [->|Hne]; [by right|].
  left. by apply coef_at_insert_ne.
Qed.

Lemma smooth_workspace_only_unknown_zeros coef_bits q dc (stored : JBLOCK) :
  only_unknown_zeros_replaced coef_bits stored (smooth_workspace coef_bits q dc stored).
Proof.
  intros k Hk. unfold smooth_workspace in Hk.
  set (w1 := estimate_coef (int_at coef_bits 1) 1 (Q01 q) (num_AC01 (Q00 q) dc) stored) in *.
  set (w2 := estimate_coef (int_at coef_bits 2) 8 (Q10 q) (num_AC10 (Q00 q) dc) w1) in *.
  set (w3 := estimate_coef (int_at coef_bits 3) 16 (Q20 q) (num_AC20 (Q00 q) dc) w2) in *.
  set (w4 := estimate_coef (int_at coef_bits 4) 9 (Q11 q) (num_AC11 (Q00 q) dc) w3) in *.
  cbv zeta in Hk.
  destruct (estimate_coef_changes (int_at coef_bits 1) 1 (Q01 q) (num_AC01 (Q00 q) dc) stored k)
    as [H1|(-> & HAl & Hz)].
  2: { exists 1. split; [|done]. by in_list. }
  fold w1 in H1.
  destruct (estimate_coef_changes (int_at coef_bits 2) 8 (Q10 q) (num_AC10 (Q00 q) dc) w1 k)
    as [H2|(-> & HAl & Hz)].
  2: { exists 2. rewrite H1 in Hz. split; [|done].
       by in_list. }
  fold w2 in H2.
  destruct (estimate_coef_changes (int_at coef_bits 3) 16 (Q20 q) (num_AC20 (Q00 q) dc) w2 k)
    as [H3|(-> & HAl & Hz)].
  2: { exists 3. rewrite H2, H1 in Hz. split; [|done].
       by in_list. }
  fold w3 in H3.
  destruct (estimate_coef_changes (int_at coef_bits 4) 9 (Q11 q) (num_AC11 (Q00 q) dc) w3 k)
    as [H4|(-> & HAl & Hz)].
  2: { exists 4. rewrite H3, H2, H1 in Hz. split; [|done].
       by in_list. }
  fold w4 in H4.
  destruct (estimate_coef_changes (int_at coef_bits 5) 2 (Q02 q) (num_AC02 (Q00 q) dc) w4 k)
    as [H5|(-> & HAl & Hz)].
  2: { exists 5. rewrite H4, H3, H2, H1 in Hz. split; [|done].
       by in_list. }
  exfalso. apply Hk. by rewrite H5, H4, H3, H2, H1.
Qed.

Lemma extends_with_refl good calls : extends_with good calls calls.
Proof. exists []. split; [by rewrite app_nil_r | constructor]. Qed.

Lemma extends_with_record good calls log ci compptr coef_block output_ptr output_col :
  extends_with good calls log ->
  good {| idct_ci := ci; idct_coef_block := coef_block;
          idct_output_ptr := output_ptr; idct_output_col := output_col |} ->
  extends_with good calls
    (recording_inverse_DCT ci compptr coef_block log output_ptr output_col).
Proof.
  intros (new & -> & Hnew) Hgood. unfold recording_inverse_DCT.
  eexists (new ++ [_]). split; [by rewrite app_assoc|].
  apply Forall_app. split; [exact Hnew|]. by constructor.
Qed.

(** *** The rows of an iMCU row in a virtual array *)

Lemma buffer_row_window (arr : jvirt_barray) (start_row num_rows i : Z) :
  0 <= start_row -> 0 <= i < num_rows ->
  buffer_row (access_virt_barray arr start_row num_rows) i = buffer_row arr (start_row + i).
Proof.
  intros Hs Hi. unfold buffer_row, access_virt_barray.
  destruct (Z.ltb_spec i 0) as [?|_]; [lia|].
  destruct (Z.ltb_spec (start_row + i) 0) as [?|_]; [lia|].
  rewrite lookup_take_lt by lia. rewrite lookup_drop.
  replace (Z.to_nat start_row + Z.to_nat i)%nat with (Z.to_nat (start_row + i)) by lia.
  reflexivity.
Qed.

Lemma JDIM_add_l a b : JDIM (JDIM a + b) = JDIM (a + b).
Proof. unfold JDIM. apply Z.add_mod_idemp_l. unfold JDIMENSION_MODULUS. lia. Qed.

Lemma output_block_rows_within {E : Type} (cinfo : jpeg_decompress_struct E) compptr :
  rows_cover_component cinfo compptr ->
  0 <= output_iMCU_row cinfo < total_iMCU_rows cinfo ->
  0 < output_block_rows cinfo compptr <= v_samp_factor compptr
  /\ output_iMCU_row cinfo * v_samp_factor compptr + output_block_rows cinfo compptr
     <= height_in_blocks compptr
  /\ (output_iMCU_row cinfo = total_iMCU_rows cinfo - 1 ->
      output_iMCU_row cinfo * v_samp_factor compptr + output_block_rows cinfo compptr
      = height_in_blocks compptr).
Proof.
  intros (Hv & Hlo & Hhi & Hmax) Hrow. unfold output_block_rows.
  rewrite JDIM_small by nia.
  destruct (Z.ltb_spec (output_iMCU_row cinfo) (total_iMCU_rows cinfo - 1)) as [Hin|Hlast].
  - split; [lia|]. split; [nia|lia].
  - assert (output_iMCU_row cinfo = total_iMCU_rows cinfo - 1) as -> by lia.
    pose proof (Z.mod_pos_bound (height_in_blocks compptr) (v_samp_factor compptr) Hv) as Hm.
    pose proof (Z.div_mod (height_in_blocks compptr) (v_samp_factor compptr)
                  ltac:(lia)) as Hdm.
    destruct (Z.eqb_spec (height_in_blocks compptr mod v_samp_factor compptr) 0)
      as [Hz|Hnz].
    + assert (height_in_blocks compptr / v_samp_factor compptr = total_iMCU_rows cinfo)
        by nia.
      split; [lia|]. split; [nia|]. intros _. nia.
    + assert (height_in_blocks compptr / v_samp_factor compptr = total_iMCU_rows cinfo - 1)
        by nia.
      split; [lia|]. split; [nia|]. intros _. nia.
Qed.

(** *** The calls of the output part *)

Lemma unknown_zeros_kept coef_bits (stored passed : JBLOCK) (i : Z) (pos : nat) :
  only_unknown_zeros_replaced coef_bits stored passed ->
  (i, pos) ∈ estimate_positions ->
  coef_at stored pos <> 0 \/ int_at coef_bits i = 0 ->
  coef_at passed pos = coef_at stored pos.
Proof.
  intros Honly Hpos Hknown.
  destruct (decide (coef_at passed pos = coef_at stored pos)) as [Heq|Hne];
    [exact Heq|].
  destruct (Honly pos Hne) as (j & Hj & Hz & HAl).
  assert (j = i) as ->.
  { unfold estimate_positions, Q01_POS, Q10_POS, Q20_POS, Q11_POS, Q02_POS in *.
    repeat (apply elem_of_cons in Hpos as [Hpos|Hpos]);
      repeat (apply elem_of_cons in Hj as [Hj|Hj]);
      try (by apply elem_of_nil in Hpos); try (by apply elem_of_nil in Hj);
      inversion Hpos; inversion Hj; subst; congruence. }
  destruct Hknown; congruence.
Qed.

Lemma workspace_call_smoothed {E : Type} (cinfo : jpeg_decompress_struct E) call :
  workspace_call cinfo call -> smoothed_block_call cinfo call.
Proof.
  intros (compptr & block_row & block_num & dc & Hat & Hblock).
  exists compptr, block_row, block_num. split; [exact Hat|]. cbv zeta.
  rewrite Hblock. split.
  - apply smooth_workspace_only_unknown_zeros.
  - intros i pos. apply unknown_zeros_kept, smooth_workspace_only_unknown_zeros.
Qed.

(** In an image laid out in iMCU rows, the iMCU row output_iMCU_row of a
    component starts at block row output_iMCU_row * v_samp_factor, and the
    block rows counted for it are rows of the component. *)
Lemma output_row_start_within {E : Type} (cinfo : jpeg_decompress_struct E)
    (compptr : jpeg_component_info) :
  rows_cover_component cinfo compptr ->
  0 <= output_iMCU_row cinfo < total_iMCU_rows cinfo ->
  output_row_start cinfo compptr
  = output_iMCU_row cinfo * v_samp_factor compptr
  /\ output_row_start cinfo compptr + output_block_rows cinfo compptr
     <= height_in_blocks compptr.
Proof.
  intros Hgeo Hrow.
  destruct (output_block_rows_within cinfo compptr Hgeo Hrow) as (_ & Hheight & _).
  destruct Hgeo as (Hv & _ & _ & Hmax). unfold output_row_start.
  destruct (Z.ltb_spec 0 (output_iMCU_row cinfo)) as [Hpos|Hzero].
  - rewrite JDIM_small by nia. split; [ring|]. nia.
  - assert (output_iMCU_row cinfo = 0) as Hz by lia. rewrite Hz in *. lia.
Qed.

(** The rows decompress_smooth_data goes through for a component, and the
    window on its virtual array it reads them from: row [base + block_row]
    of the window is block row [block_row] of the current iMCU row. *)
Lemma smoothing_window {E : Type} (cinfo : jpeg_decompress_struct E)
    (compptr : jpeg_component_info) (arr : jvirt_barray) :
  let v := v_samp_factor compptr in
  let '(block_rows, access_rows, last_row) :=
    if output_iMCU_row cinfo <? JDIM (total_iMCU_rows cinfo - 1)
    then (v, v * 2, false)
    else
      let block_rows := height_in_blocks compptr mod v in
      let block_rows := if block_rows =? 0 then v else block_rows in
      (block_rows, block_rows, true) in
  let '(buffer, base, first_row) :=
    if 0 <? output_iMCU_row cinfo
    then (access_virt_barray arr (JDIM ((output_iMCU_row cinfo - 1) * v))
            (access_rows + v), v, false)
    else (access_virt_barray arr 0 access_rows, 0, true) in
  block_rows = output_block_rows cinfo compptr
  /\ forall block_row : Z,
       0 <= block_row < block_rows ->
       buffer_row buffer (base + block_row)
       = buffer_row arr (output_row_start cinfo compptr + block_row).
Proof.
  cbv zeta. unfold output_block_rows, output_row_start.
  set (v := v_samp_factor compptr).
  assert (Hstart : 0 <= JDIM ((output_iMCU_row cinfo - 1) * v)).
  { unfold JDIM, JDIMENSION_MODULUS. apply Z.mod_pos_bound. lia. }
  assert (Hmod : v < 0 -> height_in_blocks compptr mod v <= 0).
  { intros Hneg. apply Z.mod_neg_bound. exact Hneg. }
  destruct (output_iMCU_row cinfo <? JDIM (total_iMCU_rows cinfo - 1));
    destruct (Z.ltb_spec 0 (output_iMCU_row cinfo)) as [Hpos|Hzero];
    (split; [reflexivity|]; intros block_row Hblock_row).
  - rewrite buffer_row_window by lia. f_equal. ring.
  - rewrite buffer_row_window by lia. reflexivity.
  - destruct (height_in_blocks compptr mod v =? 0);
      rewrite buffer_row_window by lia; f_equal; ring.
  - destruct (height_in_blocks compptr mod v =? 0);
      rewrite buffer_row_window by lia; reflexivity.
Qed.

Section SmoothingTrace.
Context {E : Type}.
Variable cinfo : jpeg_decompress_struct E.
Variable workspace0 : JBLOCK.
Variable calls : list idct_call.

Lemma smoothing_trace_refl : smoothing_trace cinfo workspace0 calls workspace0 calls.
Proof. exists []. split; [by rewrite app_nil_r|]. split; [constructor|reflexivity]. Qed.

Lemma smoothing_trace_record ws log ci compptr coef_block output_ptr output_col :
  smoothing_trace cinfo workspace0 calls ws log ->
  workspace_call cinfo
    {| idct_ci := ci; idct_coef_block := coef_block;
       idct_output_ptr := output_ptr; idct_output_col := output_col |} ->
  smoothing_trace cinfo workspace0 calls coef_block
    (recording_inverse_DCT ci compptr coef_block log output_ptr output_col).
Proof.
  intros (new & -> & Hnew & _) Hcall. unfold recording_inverse_DCT.
  eexists (new ++ [_]). split; [by rewrite app_assoc|]. split.
  - apply Forall_app. split; [exact Hnew|]. by constructor.
  - by rewrite last_snoc.
Qed.

Lemma smooth_block_row_trace (k : nat) compptr buffer base first_row last_row
    block_rows block_row ws log :
  components cinfo !! k = Some compptr ->
  component_needed compptr = true ->
  0 <= block_row < output_block_rows cinfo compptr ->
  buffer_row buffer (base + block_row)
  = buffer_row (array_at (whole_image (coef cinfo)) (Z.of_nat k))
      (output_row_start cinfo compptr + block_row) ->
  smoothing_trace cinfo workspace0 calls ws log ->
  smoothing_trace cinfo workspace0 calls
    (fst (smooth_block_row recording_inverse_DCT (Z.of_nat k) compptr
            (latched_coef_bits cinfo (Z.of_nat k)) (fetch_quantizers compptr)
            buffer base first_row last_row block_rows block_row
            (block_row * DCT_scaled_size compptr) ws log))
    (snd (smooth_block_row recording_inverse_DCT (Z.of_nat k) compptr
            (latched_coef_bits cinfo (Z.of_nat k)) (fetch_quantizers compptr)
            buffer base first_row last_row block_rows block_row
            (block_row * DCT_scaled_size compptr) ws log)).
Proof.
  intros Hk Hneeded Hbr Hrow Htrace. unfold smooth_block_row.
  rewrite Hrow.
  match goal with
  | |- context [for_loop ?n ?i ?body ?s] =>
      pose proof (for_loop_indexed_invariant
        (fun block_num (st : dc_window * JBLOCK * list idct_call * Z) =>
           smoothing_trace cinfo workspace0 calls (snd (fst (fst st))) (snd (fst st))
           /\ snd st = JDIM (block_num * DCT_scaled_size compptr))
        body n i s) as Hloop;
      destruct (for_loop n i body s) as [[[dc' ws'] log'] col']
  end.
  simpl. apply Hloop; [|by split]. clear Hloop.
  intros block_num [[[dc ws1] log1] col] Hbn [Hlog Hcol]. simpl in Hlog, Hcol.
  subst col. cbn [fst snd]. split; [|rewrite JDIM_add_l; f_equal; ring].
  apply smoothing_trace_record with (ws := ws1); [exact Hlog|].
  eexists compptr, block_row, block_num, _. split; [|reflexivity].
  unfold call_at. simpl. rewrite Nat2Z.id.
  split; [lia|]. split; [exact Hk|]. split; [exact Hneeded|].
  split; [lia|]. split; [lia|]. by split.
Qed.

Lemma smooth_component_trace (k : nat) compptr (st : JBLOCK * list idct_call) :
  components cinfo !! k = Some compptr ->
  smoothing_trace cinfo workspace0 calls (fst st) (snd st) ->
  smoothing_trace cinfo workspace0 calls
    (fst (smooth_component recording_inverse_DCT cinfo (0 + Z.of_nat k) compptr st))
    (snd (smooth_component recording_inverse_DCT cinfo (0 + Z.of_nat k) compptr st)).
Proof.
  intros Hk Hst.
  replace (0 + Z.of_nat k) with (Z.of_nat k) by lia.
  unfold smooth_component.
  destruct (component_needed compptr) eqn:Hneeded; simpl; [|exact Hst].
  set (arr := array_at (whole_image (coef cinfo)) (Z.of_nat k)).
  set (v := v_samp_factor compptr).
  set (latch := drop _ _).
  pose proof (smoothing_window cinfo compptr arr) as Hwindow.
  cbv zeta in Hwindow. fold v in Hwindow.
  destruct (if output_iMCU_row cinfo <? JDIM (total_iMCU_rows cinfo - 1)
            then (v, v * 2, false)
            else (let block_rows := height_in_blocks compptr mod v in
                  let block_rows := if block_rows =? 0 then v else block_rows in
                  (block_rows, block_rows, true)))
    as [[block_rows access_rows] last_row].
  destruct (if 0 <? output_iMCU_row cinfo
            then (access_virt_barray arr (JDIM ((output_iMCU_row cinfo - 1) * v))
                    (access_rows + v), v, false)
            else (access_virt_barray arr 0 access_rows, 0, true))
    as [[buffer base] first_row].
  destruct Hwindow as (Hbrs & Hrowof).
  unfold for_range.
  match goal with
  | |- context [for_loop ?n ?i ?body ?s] =>
      pose proof (for_loop_indexed_invariant
        (fun block_row (st : JBLOCK * list idct_call * Z) =>
           smoothing_trace cinfo workspace0 calls (fst (fst st)) (snd (fst st))
           /\ snd st = block_row * DCT_scaled_size compptr)
        body n i s) as Hloop;
      destruct (for_loop n i body s) as [[ws' log'] ptr']
  end.
  simpl. apply Hloop; [|by split]. clear Hloop.
  intros block_row [[ws log] ptr] Hblock_row [Hlog Hptr]. simpl in Hlog, Hptr.
  subst ptr.
  pose proof (smooth_block_row_trace k compptr buffer base first_row last_row
                block_rows block_row ws log Hk Hneeded) as Hstep.
  unfold latched_coef_bits in Hstep. fold latch in Hstep. fold v in Hstep.
  fold arr in Hstep.
  destruct (smooth_block_row _ _ _ _ _ _ _ _ _ _ _ _ _ _) as [ws1 log1].
  cbn [fst snd] in *. split; [|ring].
  apply Hstep; [lia|apply Hrowof; lia|exact Hlog].
Qed.

End SmoothingTrace.

Lemma smooth_output_trace {E : Type} (cinfo : jpeg_decompress_struct E)
    (calls : list idct_call) :
  smoothing_trace cinfo (workspace (coef cinfo)) calls
    (workspace (coef (fst (smooth_output recording_inverse_DCT cinfo calls))))
    (snd (smooth_output recording_inverse_DCT cinfo calls)).
Proof.
  unfold smooth_output.
  pose proof (foreach_indexed_invariant
    (fun st : JBLOCK * list idct_call =>
       smoothing_trace cinfo (workspace (coef cinfo)) calls (fst st) (snd st))
    (smooth_component recording_inverse_DCT cinfo) (components cinfo) 0
    (workspace (coef cinfo), calls)) as Hloop.
  destruct (foreach _ _ _ _) as [ws log]. simpl. apply Hloop.
  - intros k compptr st Hk Hst. by apply smooth_component_trace.
  - apply smoothing_trace_refl.
Qed.

Section SmoothingCalls.
Context {E : Type}.
Variable consume_input :
  jpeg_decompress_struct E -> jpeg_code * jpeg_decompress_struct E.

(** C5.  Every call of the inverse DCT that decompress_smooth_data makes
    is for a block of the iMCU row it outputs, and the block it passes
    differs from the block stored at that row and column (the store being
    as the forced input left it) only in coefficients at the five
    smoothable AC positions whose stored value is exactly zero and whose
    latched coef_bits entry is nonzero.  A stored coefficient that is
    nonzero, or whose latched entry is zero, is passed on unmodified. *)
Theorem smoothing_modifies_unknown_zeros_only :
  forall (fuel : nat) (cinfo fed : jpeg_decompress_struct E) (calls : list idct_call),
    smooth_force_input consume_input fuel cinfo = Some (inl fed) ->
    exists (r : jpeg_code) (cinfo' : jpeg_decompress_struct E) (log : list idct_call),
      decompress_smooth_data recording_inverse_DCT consume_input fuel cinfo calls
        = Some (r, cinfo', log)
      /\ extends_with (smoothed_block_call fed) calls log.
Proof.
  intros fuel cinfo fed calls Hfed. unfold decompress_smooth_data.
  rewrite Hfed.
  destruct (smooth_output_trace fed calls) as (new & Hlog & Hnew & _).
  destruct (smooth_output recording_inverse_DCT fed calls) as [c1 log].
  simpl in Hlog. destruct (advance_output c1) as [r c2].
  exists r, c2, log. split; [reflexivity|].
  exists new. split; [exact Hlog|].
  eapply Forall_impl; [exact Hnew|]. apply workspace_call_smoothed.
Qed.

End SmoothingCalls.

(** The blocks of the first iMCU row of the image of two iMCU rows are
    passed on with nothing but unknown zeros replaced. *)
Lemma smoothing_modifies_unknown_zeros_only_witness :
  exists (r : jpeg_code) (cinfo' : jpeg_decompress_struct unit) (log : list idct_call),
    decompress_smooth_data recording_inverse_DCT (fun cinfo => (JPEG_SUSPENDED, cinfo))
      0 two_rows_after_dc_scan []
      = Some (r, cinfo', log)
    /\ extends_with (smoothed_block_call two_rows_after_dc_scan) [] log.
Proof.
  apply (smoothing_modifies_unknown_zeros_only (fun cinfo => (JPEG_SUSPENDED, cinfo))
           0 two_rows_after_dc_scan two_rows_after_dc_scan []).
  reflexivity.
Defined.

(** ** C6: the estimate *)

Lemma estimate_coef_other Al pos Q num (workspace : JBLOCK) (k : nat) :
  k <> pos -> coef_at (estimate_coef Al pos Q num workspace) k = coef_at workspace k.
Proof.
  intros Hne. destruct (estimate_coef_changes Al pos Q num workspace k) as [H|[H _]];
    [exact H | contradiction].
Qed.

Lemma estimate_coef_length Al pos Q num (workspace : JBLOCK) :
  length (estimate_coef Al pos Q num workspace) = length workspace.
Proof.
  unfold estimate_coef. destruct (_ && _); [apply length_insert | reflexivity].
Qed.

Lemma estimate_coef_written Al pos Q num (workspace : JBLOCK) :
  Al <> 0 -> coef_at workspace pos = 0 -> (pos < length workspace)%nat ->
  coef_at (estimate_coef Al pos Q num workspace) pos = to_JCOEF (smooth_pred Q Al num).
Proof.
  intros HAl Hz Hlen. unfold estimate_coef.
  destruct (Z.eqb_spec Al 0) as [|_]; [contradiction|].
  rewrite Hz. simpl. by apply coef_at_insert_eq.
Qed.

Lemma smooth_pred_guarded Q Al num : smooth_pred Q Al num = guarded_estimate Q Al num.
Proof.
  unfold smooth_pred, guarded_estimate.
  assert (Hclamp : forall pred,
    (if (0 <? Al) && (Z.shiftl 1 Al <=? pred) then Z.shiftl 1 Al - 1 else pred)
    = (if 0 <? Al then Z.min pred (2 ^ Al - 1) else pred)).
  { intros pred. destruct (Z.ltb_spec 0 Al) as [HAl|HAl]; simpl; [|reflexivity].
    rewrite Z.shiftl_1_l.
    destruct (Z.leb_spec (2 ^ Al) pred); lia. }
  destruct (Z.leb_spec 0 num) as [Hnum|Hnum].
  - assert (Hneg : (num <? 0) = false) by (apply Z.ltb_ge; lia).
    rewrite Hneg, Z.abs_eq by lia. apply Hclamp.
  - assert (Hneg : (num <? 0) = true) by (apply Z.ltb_lt; lia).
    rewrite Hneg, Z.abs_neq by lia.
    replace (Z.shiftl Q 7 - num) with (Z.shiftl Q 7 + - num) by lia.
    f_equal. apply Hclamp.
Qed.

Lemma guarded_estimate_specified Q Al num :
  0 < Q -> 0 < Al <= 15 ->
  guarded_estimate Q Al num = specified_estimate Q Al num
  /\ -32768 <= guarded_estimate Q Al num < 32768.
Proof.
  intros HQ HAl. unfold guarded_estimate, specified_estimate.
  assert (H0 : (0 <? Al) = true) by (apply Z.ltb_lt; lia). rewrite H0.
  split; [reflexivity|].
  assert (Hquot : 0 <= Z.quot (Z.shiftl Q 7 + Z.abs num) (Z.shiftl Q 8)).
  { rewrite !Z.shiftl_mul_pow2 by lia. apply Z.quot_pos; lia. }
  assert (Hpow : 2 <= 2 ^ Al <= 2 ^ 15).
  { split; [|apply Z.pow_le_mono_r; lia].
    change 2 with (2 ^ 1) at 1. apply Z.pow_le_mono_r; lia. }
  change (2 ^ 15) with 32768 in Hpow.
  destruct (num <? 0); lia.
Qed.

(** C6, as amended.  When one of the five AC positions is smoothed (its
    stored coefficient is zero and its latched coef_bits entry Al is not),
    the value written is, converted to the 16-bit JCOEF, the estimate whose
    numerator num is the weighted DC difference with weights 36, 36, 9, 5,
    9 (for AC01, AC10, AC20, AC11, AC02) times the DC quantizer Q00, whose
    magnitude is (Q<<7 + |num|) / (Q<<8) in truncating division by the
    position's quantizer Q, clamped to at most 2^Al - 1 when Al is positive
    and left unclamped when Al is negative, and negated when num is
    negative.  For 0 < Al <= 15 and a positive quantizer this is the
    specification's formula and the conversion changes nothing. *)
Theorem smoothing_estimate_formula :
  forall (coef_bits : list Z) (q : smoothing_quantizers) (dc : dc_window)
    (stored : JBLOCK),
    length stored = DCTSIZE2 ->
    let smoothed := smooth_workspace coef_bits q dc stored in
    let written (i : Z) (pos : nat) (Q num : Z) :=
      int_at coef_bits i <> 0 -> coef_at stored pos = 0 ->
      coef_at smoothed pos = to_JCOEF (guarded_estimate Q (int_at coef_bits i) num) in
    written 1 Q01_POS (Q01 q) (36 * Q00 q * (DC4 dc - DC6 dc))
    /\ written 2 Q10_POS (Q10 q) (36 * Q00 q * (DC2 dc - DC8 dc))
    /\ written 3 Q20_POS (Q20 q) (9 * Q00 q * (DC2 dc + DC8 dc - 2 * DC5 dc))
    /\ written 4 Q11_POS (Q11 q) (5 * Q00 q * (DC1 dc - DC3 dc - DC7 dc + DC9 dc))
    /\ written 5 Q02_POS (Q02 q) (9 * Q00 q * (DC4 dc + DC6 dc - 2 * DC5 dc))
    /\ (forall Q Al num : Z, 0 < Q -> 0 < Al <= 15 ->
        to_JCOEF (guarded_estimate Q Al num) = specified_estimate Q Al num)
    /\ (forall Q Al num : Z, Al < 0 ->
        guarded_estimate Q Al num
        = if num <? 0 then - Z.quot (Z.shiftl Q 7 + Z.abs num) (Z.shiftl Q 8)
          else Z.quot (Z.shiftl Q 7 + Z.abs num) (Z.shiftl Q 8)).
Proof.
  intros coef_bits q dc stored Hlen smoothed written.
  subst smoothed written. unfold smooth_workspace, DCTSIZE2 in *.
  unfold Q01_POS, Q10_POS, Q20_POS, Q11_POS, Q02_POS.
  repeat split.
  - intros HAl Hz.
    rewrite !estimate_coef_other by discriminate.
    rewrite estimate_coef_written, smooth_pred_guarded; [reflexivity | done | done |].
    rewrite Hlen. lia.
  - intros HAl Hz.
    rewrite !(estimate_coef_other _ _ _ _ _ 8) by discriminate.
    rewrite estimate_coef_written, smooth_pred_guarded; [reflexivity | done | |].
    + by rewrite estimate_coef_other by discriminate.
    + rewrite !estimate_coef_length, Hlen. lia.
  - intros HAl Hz.
    rewrite !(estimate_coef_other _ _ _ _ _ 16) by discriminate.
    rewrite estimate_coef_written, smooth_pred_guarded; [reflexivity | done | |].
    + by rewrite !estimate_coef_other by discriminate.
    + rewrite !estimate_coef_length, Hlen. lia.
  - intros HAl Hz.
    rewrite !(estimate_coef_other _ _ _ _ _ 9) by discriminate.
    rewrite estimate_coef_written, smooth_pred_guarded; [reflexivity | done | |].
    + by rewrite !estimate_coef_other by discriminate.
    + rewrite !estimate_coef_length, Hlen. lia.
  - intros HAl Hz.
    rewrite estimate_coef_written, smooth_pred_guarded; [reflexivity | done | |].
    + by rewrite !estimate_coef_other by discriminate.
    + rewrite !estimate_coef_length, Hlen. lia.
  - intros Q Al num HQ HAl.
    destruct (guarded_estimate_specified Q Al num HQ HAl) as [<- Hrange].
    by apply to_JCOEF_small.
  - intros Q Al num HAl. unfold guarded_estimate.
    assert (H0 : (0 <? Al) = false) by (apply Z.ltb_ge; lia). by rewrite H0.
Qed.

(** With the luminance table and the DC values 100 and 0 side by side, the
    AC01 estimate for a coefficient of which no bit is known yet (Al = -1)
    is written unclamped. *)
Lemma smoothing_estimate_formula_witness :
  coef_at
    (smooth_workspace dc_only_coef_bits (fetch_quantizers gray16_component)
       {| DC1 := 100; DC2 := 100; DC3 := 0; DC4 := 100; DC5 := 100; DC6 := 0;
          DC7 := 100; DC8 := 100; DC9 := 0 |}
       (dc_block 100))
    Q01_POS
  = 20.
Proof.
  refine (eq_trans
    (proj1 (smoothing_estimate_formula dc_only_coef_bits
              (fetch_quantizers gray16_component)
              {| DC1 := 100; DC2 := 100; DC3 := 0; DC4 := 100; DC5 := 100; DC6 := 0;
                 DC7 := 100; DC8 := 100; DC9 := 0 |}
              (dc_block 100) _) _ _) _).
  - reflexivity.
  - vm_compute. lia.
  - reflexivity.
  - vm_compute. reflexivity.
Defined.

(** The conversion to JCOEF matters for an unclamped estimate: with the
    quantizers Q00 = 255 and Q01 = 1 and DC values 2047 apart the estimate
    73404 is stored as 7868. *)
Example unclamped_estimate_wraps :
  guarded_estimate 1 (-1) (36 * 255 * (2047 - 0)) = 73404
  /\ coef_at
       (estimate_coef (-1) Q01_POS 1 (36 * 255 * (2047 - 0)) (dc_block 2047))
       Q01_POS
     = 7868.
Proof. split; vm_compute; reflexivity. Qed.

(** C6 as stated fails.  After a DC-only first scan the latched coef_bits
    entries of the AC coefficients are -1; smoothing_ok accepts them and
    decompress_smooth_data writes the AC01 estimate 20 for both blocks,
    where the stated clamp to 2^Al - 1 allows no such value. *)
Lemma smoothing_estimate_exceeds_stated_clamp :
  fst (smoothing_ok (after_dc_scan luminance_table)) = true
  /\ int_at (latched_coef_bits (snd (smoothing_ok (after_dc_scan luminance_table))) 0) 1
     = -1
  /\ quant_at (Some luminance_table) 0 = 16
  /\ quant_at (Some luminance_table) Q01_POS = 11
  /\ map (fun call => coef_at (idct_coef_block call) Q01_POS) smoothed_dc_scan_calls
     = [20; 20]
  /\ specified_estimate 11 (-1) (36 * 16 * (100 - 0)) = -1
  /\ ~ (20 <= 2 ^ (-1) - 1).
Proof.
  repeat split; try (vm_compute; reflexivity). simpl. lia.
Qed.

(** ** C7: smoothing leaves the coefficient store alone *)

Section SmoothingStore.
Context {E JSAMPIMAGE : Type}.
Variable inverse_DCT :
  Z -> jpeg_component_info -> JBLOCK -> JSAMPIMAGE -> Z -> Z -> JSAMPIMAGE.
Variable consume_input :
  jpeg_decompress_struct E -> jpeg_code * jpeg_decompress_struct E.

Lemma smooth_output_store (cinfo : jpeg_decompress_struct E) output_buf :
  whole_image (coef (fst (smooth_output inverse_DCT cinfo output_buf)))
  = whole_image (coef cinfo)
  /\ eoi_reached (fst (smooth_output inverse_DCT cinfo output_buf)) = eoi_reached cinfo
  /\ input_scan_number (fst (smooth_output inverse_DCT cinfo output_buf))
     = input_scan_number cinfo
  /\ output_scan_number (fst (smooth_output inverse_DCT cinfo output_buf))
     = output_scan_number cinfo.
Proof. unfold smooth_output. by destruct (foreach _ _ _ _). Qed.

Lemma advance_output_store (cinfo : jpeg_decompress_struct E) :
  coef (snd (advance_output cinfo)) = coef cinfo
  /\ eoi_reached (snd (advance_output cinfo)) = eoi_reached cinfo
  /\ input_scan_number (snd (advance_output cinfo)) = input_scan_number cinfo
  /\ output_scan_number (snd (advance_output cinfo)) = output_scan_number cinfo.
Proof. unfold advance_output. simpl. by destruct (_ <? _). Qed.

Lemma smooth_force_input_beyond fuel (cinfo : jpeg_decompress_struct E) :
  input_beyond_output cinfo ->
  smooth_force_input consume_input fuel cinfo = Some (inl cinfo).
Proof.
  intros [Heoi|Hscan]; destruct fuel; simpl.
  all: try (rewrite Heoi, andb_false_r; reflexivity).
  all: assert (Hle : (input_scan_number cinfo <=? output_scan_number cinfo) = false)
         by (apply Z.leb_gt; lia); by rewrite Hle.
Qed.

Lemma decompress_smooth_data_beyond fuel (cinfo : jpeg_decompress_struct E) output_buf :
  input_beyond_output cinfo ->
  exists r cinfo' output_buf',
    decompress_smooth_data inverse_DCT consume_input fuel cinfo output_buf
      = Some (r, cinfo', output_buf')
    /\ whole_image (coef cinfo') = whole_image (coef cinfo)
    /\ input_beyond_output cinfo'.
Proof.
  intros Hdone. unfold decompress_smooth_data.
  rewrite (smooth_force_input_beyond fuel cinfo Hdone).
  destruct (smooth_output_store cinfo output_buf) as (Hw & He & Hi & Ho).
  destruct (smooth_output inverse_DCT cinfo output_buf) as [c1 out1]. simpl in *.
  destruct (advance_output_store c1) as (Hc & He' & Hi' & Ho').
  destruct (advance_output c1) as [r c2]. simpl in *.
  exists r, c2, out1. split; [reflexivity|]. split.
  - by rewrite Hc, Hw.
  - unfold input_beyond_output in *. rewrite He', Hi', Ho', He, Hi, Ho. exact Hdone.
Qed.

(** C7, as amended.  The output part of decompress_smooth_data does not
    write to the coefficient store.  For every block of the iMCU row it
    outputs it copies the stored block to the workspace, applies the
    estimates to the workspace and hands the workspace to the inverse DCT:
    every call gets the stored block of its row and column with the
    estimates applied, the workspace ends up holding the block of the last
    call, and every virtual array is left as it was.  The store after a
    call of decompress_smooth_data is therefore the store as the
    consume_input calls it forced left it; and calls that force no input
    (the end of the image was read, or the input is in a later scan than
    the output) leave every stored block unchanged, however many of them
    are made. *)
Theorem decompress_smooth_data_preserves_store :
  forall (cinfo : jpeg_decompress_struct E) (output_buf : JSAMPIMAGE)
    (calls : list idct_call),
    smoothing_trace cinfo (workspace (coef cinfo)) calls
      (workspace (coef (fst (smooth_output recording_inverse_DCT cinfo calls))))
      (snd (smooth_output recording_inverse_DCT cinfo calls))
    /\ whole_image (coef (fst (smooth_output inverse_DCT cinfo output_buf)))
       = whole_image (coef cinfo)
    /\ (forall fuel : nat,
          match decompress_smooth_data inverse_DCT consume_input fuel cinfo output_buf with
          | Some (_, cinfo', _) =>
              exists fed : jpeg_decompress_struct E,
                (smooth_force_input consume_input fuel cinfo = Some (inl fed)
                 \/ smooth_force_input consume_input fuel cinfo
                    = Some (inr (JPEG_SUSPENDED, fed)))
                /\ whole_image (coef cinfo') = whole_image (coef fed)
          | None => smooth_force_input consume_input fuel cinfo = None
          end)
    /\ (input_beyond_output cinfo ->
        forall n fuel : nat,
          exists cinfo' output_buf',
            repeat_producer (decompress_smooth_data inverse_DCT consume_input fuel)
              n cinfo output_buf = Some (cinfo', output_buf')
            /\ whole_image (coef cinfo') = whole_image (coef cinfo)).
Proof.
  intros cinfo output_buf calls.
  split; [apply smooth_output_trace|].
  split; [apply smooth_output_store|]. split.
  - intros fuel. unfold decompress_smooth_data.
    assert (Hcode : forall r c,
      smooth_force_input consume_input fuel cinfo = Some (inr (r, c)) ->
      r = JPEG_SUSPENDED).
    { clear. revert cinfo. induction fuel as [|fuel IH]; intros cinfo r c; simpl.
      - repeat (match goal with
                | |- context [if ?b then _ else _] => destruct b
                end; try discriminate).
      - repeat (match goal with
                | |- context [if ?b then _ else _] => destruct b
                end; try discriminate).
        destruct (consume_input cinfo) as [r0 c0].
        destruct (is_suspended r0); [intros H; by inversion H | apply IH]. }
    destruct (smooth_force_input consume_input fuel cinfo) as [[fed|[r fed]]|] eqn:Hforce;
      [| |reflexivity].
    + destruct (smooth_output_store fed output_buf) as (Hw & _).
      destruct (smooth_output inverse_DCT fed output_buf) as [c1 out1]. simpl in *.
      destruct (advance_output_store c1) as (Hc & _).
      destruct (advance_output c1) as [r c2]. simpl in *.
      exists fed. split; [by left|]. by rewrite Hc, Hw.
    + exists fed. rewrite (Hcode r fed eq_refl). split; [by right | reflexivity].
  - intros Hdone n fuel. revert cinfo output_buf Hdone.
    induction n as [|n IH]; intros cinfo output_buf Hdone; simpl.
    + by exists cinfo, output_buf.
    + destruct (decompress_smooth_data_beyond fuel cinfo output_buf Hdone)
        as (r & c1 & out1 & -> & Hw & Hdone1).
      destruct (IH c1 out1 Hdone1) as (c2 & out2 & Hrun & Hw2).
      exists c2, out2. split; [exact Hrun|]. by rewrite Hw2, Hw.
Qed.

End SmoothingStore.

(** The two smoothing calls that output the image of two iMCU rows, the
    input being in a later scan, leave the four stored blocks as they
    were. *)
Lemma decompress_smooth_data_preserves_store_witness :
  input_beyond_output two_rows_after_dc_scan
  /\ exists cinfo' calls,
       repeat_producer
         (decompress_smooth_data recording_inverse_DCT
            (fun cinfo => (JPEG_SUSPENDED, cinfo)) 0)
         2 two_rows_after_dc_scan []
       = Some (cinfo', calls)
       /\ whole_image (coef cinfo') = whole_image (coef two_rows_after_dc_scan).
Proof.
  assert (Hbeyond : input_beyond_output two_rows_after_dc_scan)
    by (right; simpl; lia).
  split; [exact Hbeyond|].
  exact (proj2 (proj2 (proj2 (decompress_smooth_data_preserves_store
            recording_inverse_DCT (fun cinfo => (JPEG_SUSPENDED, cinfo))
            two_rows_after_dc_scan [] [])))
           Hbeyond 2%nat 0%nat).
Defined.

(** C7 as stated fails.  While the scan that is displayed is still being
    read, decompress_smooth_data forces input: the call on the image of one
    block row shown during its second scan has consume_data read that
    scan's iMCU row, which stores the coefficient AC01 = 7 in both blocks
    before they are output. *)
Lemma forced_input_writes_store :
  whole_image (coef (after_dc_scan_of 0%nat 2 [[dc_block 100; dc_block 0]]))
  = [[[dc_block 100; dc_block 0]]]
  /\ exists (cinfo' : jpeg_decompress_struct nat) (calls : list idct_call),
       decompress_smooth_data recording_inverse_DCT
         (consume_data decode_AC01 finish_input_pass_upstream) 1
         (after_dc_scan_of 0%nat 2 [[dc_block 100; dc_block 0]]) []
       = Some (JPEG_SCAN_COMPLETED, cinfo', calls)
       /\ whole_image (coef cinfo')
          = [[[<[Q01_POS := 7]> (dc_block 100); <[Q01_POS := 7]> (dc_block 0)]]]
       /\ map (fun call => coef_at (idct_coef_block call) Q01_POS) calls = [7; 7].
Proof.
  split; [reflexivity|]. eexists _, _.
  split; [vm_compute; reflexivity|]. split; vm_compute; reflexivity.
Qed.

(** ** C2: decompress_data waits for the input *)

Section ForcedInput.
Context {E JSAMPIMAGE : Type}.
Variable inverse_DCT :
  Z -> jpeg_component_info -> JBLOCK -> JSAMPIMAGE -> Z -> Z -> JSAMPIMAGE.
Variable consume_input :
  jpeg_decompress_struct E -> jpeg_code * jpeg_decompress_struct E.

Lemma output_ahead_of_input_false (cinfo : jpeg_decompress_struct E) :
  output_ahead_of_input cinfo = false <-> input_past_output cinfo.
Proof.
  unfold output_ahead_of_input, input_past_output.
  destruct (Z.ltb_spec (input_scan_number cinfo) (output_scan_number cinfo));
    destruct (Z.eqb_spec (input_scan_number cinfo) (output_scan_number cinfo));
    destruct (Z.leb_spec (input_iMCU_row cinfo) (output_iMCU_row cinfo));
    simpl; split; intros Hcond; try discriminate; try lia; try reflexivity.
Qed.

Lemma is_suspended_true r : is_suspended r = true -> r = JPEG_SUSPENDED.
Proof. by destruct r. Qed.

(** The loop leaves either with the input past the output, or because the
    consume_input call just made returned JPEG_SUSPENDED. *)
Lemma data_force_input_result fuel (cinfo : jpeg_decompress_struct E) :
  match data_force_input consume_input fuel cinfo with
  | Some (inl fed) => input_past_output fed
  | Some (inr (r, cinfo')) =>
      r = JPEG_SUSPENDED
      /\ exists waiting,
           output_ahead_of_input waiting = true
           /\ consume_input waiting = (JPEG_SUSPENDED, cinfo')
  | None => True
  end.
Proof.
  revert cinfo. induction fuel as [|fuel IH]; intros cinfo; simpl.
  - destruct (output_ahead_of_input cinfo) eqn:Hahead; [exact I|].
    by apply output_ahead_of_input_false.
  - destruct (output_ahead_of_input cinfo) eqn:Hahead;
      [|by apply output_ahead_of_input_false].
    destruct (consume_input cinfo) as [r c] eqn:Hcall.
    destruct (is_suspended r) eqn:Hr; [|apply IH].
    apply is_suspended_true in Hr. subst r.
    split; [reflexivity|]. by exists cinfo.
Qed.

(** C2.  decompress_data reads the coefficient store (in data_output) only
    in a state [fed] that the forced consume_input calls have brought
    strictly past the output: input_scan_number > output_scan_number, or
    equal scan numbers with input_iMCU_row > output_iMCU_row.  If a forced
    call returns JPEG_SUSPENDED, decompress_data returns JPEG_SUSPENDED
    with the state exactly as that call left it and the sample planes
    untouched: nothing was read and the output counter did not advance. *)
Theorem decompress_data_waits_for_input :
  forall (fuel : nat) (cinfo : jpeg_decompress_struct E) (output_buf : JSAMPIMAGE),
    match decompress_data inverse_DCT consume_input fuel cinfo output_buf with
    | Some (r, cinfo', output_buf') =>
        (r = JPEG_SUSPENDED /\ output_buf' = output_buf
         /\ exists waiting,
              output_ahead_of_input waiting = true
              /\ consume_input waiting = (JPEG_SUSPENDED, cinfo'))
        \/ (exists fed,
              data_force_input consume_input fuel cinfo = Some (inl fed)
              /\ input_past_output fed
              /\ output_buf' = data_output inverse_DCT fed output_buf
              /\ (r, cinfo') = advance_output fed
              /\ r <> JPEG_SUSPENDED)
    | None => data_force_input consume_input fuel cinfo = None
    end
    /\ (output_ahead_of_input cinfo = true ->
        fst (consume_input cinfo) = JPEG_SUSPENDED ->
        decompress_data inverse_DCT consume_input (S fuel) cinfo output_buf
        = Some (JPEG_SUSPENDED, snd (consume_input cinfo), output_buf))
    /\ (input_past_output cinfo ->
        decompress_data inverse_DCT consume_input fuel cinfo output_buf
        = Some (fst (advance_output cinfo), snd (advance_output cinfo),
                data_output inverse_DCT cinfo output_buf)).
Proof.
  intros fuel cinfo output_buf. split; [|split].
  - unfold decompress_data.
    pose proof (data_force_input_result fuel cinfo) as Hforce.
    destruct (data_force_input consume_input fuel cinfo) as [[fed|[r c]]|];
      [| |reflexivity].
    + destruct (advance_output fed) as [r c] eqn:Hadv. right. exists fed.
      repeat split; try done.
      unfold advance_output in Hadv. destruct (_ <? _); inversion Hadv; discriminate.
    + left. destruct Hforce as [-> Hwait]. by repeat split.
  - intros Hahead Hcall. unfold decompress_data. simpl. rewrite Hahead.
    destruct (consume_input cinfo) as [r c]. simpl in *. subst r. reflexivity.
  - intros Hpast. apply output_ahead_of_input_false in Hpast.
    unfold decompress_data. destruct fuel; simpl; rewrite Hpast;
      by destruct (advance_output cinfo).
Qed.

End ForcedInput.

(** With no coefficient buffered yet and an input that suspends,
    decompress_data on the 16x16 image suspends and records no call. *)
Lemma decompress_data_waits_for_input_witness :
  decompress_data recording_inverse_DCT (fun cinfo => (JPEG_SUSPENDED, cinfo)) 1
    (start_output_pass (gray16_buffered 0%nat)) []
  = Some (JPEG_SUSPENDED, start_output_pass (gray16_buffered 0%nat), []).
Proof.
  refine (proj1 (proj2 (decompress_data_waits_for_input recording_inverse_DCT
            (fun cinfo => (JPEG_SUSPENDED, cinfo)) 0
            (start_output_pass (gray16_buffered 0%nat)) [])) _ _).
  - vm_compute. reflexivity.
  - reflexivity.
Defined.

(** ** C8: single-pass and buffered decoding of a 16x16 image agree *)

(** C8.  For the one-component, non-progressive 16x16 image (two iMCU rows
    of two one-block MCUs) and any four entropy-decoded blocks, any inverse
    DCT and any sample planes to start from: decoding with
    decompress_onepass, no call suspending, yields for both row-groups the
    sample planes that buffering the scan with consume_data into the
    virtual arrays and then producing with decompress_data yields.  Both
    transform the four decoded blocks, in order, at columns 0 and 8. *)
Theorem gray16_onepass_agrees_with_buffered :
  forall (JSAMPIMAGE : Type)
    (inverse_DCT : Z -> jpeg_component_info -> JBLOCK -> JSAMPIMAGE -> Z -> Z -> JSAMPIMAGE)
    (consume_input : jpeg_decompress_struct nat -> jpeg_code * jpeg_decompress_struct nat)
    (b0 b1 b2 b3 : JBLOCK) (output_buf : JSAMPIMAGE),
    let decode_mcu :=
      decode_given (fun k => [default zero_block ([b0; b1; b2; b3] !! k)]) in
    let transform b planes col :=
      inverse_DCT 0 gray16_component (fill_block zero_block b) planes 0 col in
    let first_rows := transform b1 (transform b0 output_buf 0) 8 in
    let second_rows := transform b3 (transform b2 first_rows 0) 8 in
    decode_onepass decode_mcu inverse_DCT finish_input_pass_upstream 2
      (gray16_onepass 0%nat) output_buf
    = Some [first_rows; second_rows]
    /\ exists buffered : jpeg_decompress_struct nat,
         input_pass (consume_data decode_mcu finish_input_pass_upstream) 2
           (gray16_buffered 0%nat)
         = Some buffered
         /\ output_pass (decompress_data inverse_DCT consume_input 0) 2
              (start_output_pass buffered) output_buf
            = Some [first_rows; second_rows].
Proof.
  intros JSAMPIMAGE inverse_DCT consume_input b0 b1 b2 b3 output_buf.
  cbv zeta. split.
  - vm_compute. reflexivity.
  - eexists. split.
    + vm_compute. reflexivity.
    + vm_compute. reflexivity.
Qed.

(** ** C1: suspension and resumption in the single-pass case *)

Lemma for_until_map {S R : Type} (f : S -> S) (body : Z -> S -> S + R) :
  (forall i s,
     body i (f s) = match body i s with inl s' => inl (f s') | inr r => inr r end) ->
  forall n i s,
    for_until n i body (f s)
    = match for_until n i body s with inl s' => inl (f s') | inr r => inr r end.
Proof.
  intros Hbody n. induction n as [|n IH]; intros i s; simpl; [reflexivity|].
  rewrite Hbody. destruct (body i s) as [s'|r]; [apply IH | reflexivity].
Qed.

Lemma same_outcome_refl {E JSAMPIMAGE : Type}
    (r : jpeg_code * jpeg_decompress_struct E * JSAMPIMAGE) : same_outcome r r.
Proof. by repeat split. Qed.

Lemma same_outcome_trans {E JSAMPIMAGE : Type}
    (r1 r2 r3 : jpeg_code * jpeg_decompress_struct E * JSAMPIMAGE) :
  same_outcome r1 r2 -> same_outcome r2 r3 -> same_outcome r1 r3.
Proof.
  intros (Hc & Ho & Hs) (Hc' & Ho' & Hs'). repeat split; [congruence.. |].
  intros Hne. rewrite Hs by exact Hne. apply Hs'. congruence.
Qed.

Lemma same_outcome_sym {E JSAMPIMAGE : Type}
    (r1 r2 : jpeg_code * jpeg_decompress_struct E * JSAMPIMAGE) :
  same_outcome r1 r2 -> same_outcome r2 r1.
Proof.
  intros (Hc & Ho & Hs). repeat split; [congruence.. |].
  intros Hne. symmetry. apply Hs. congruence.
Qed.

(** Setting the saved position to what it already is changes nothing. *)
Lemma reposition_same {E : Type} (cinfo : jpeg_decompress_struct E) :
  reposition (MCU_vert_offset (coef cinfo)) (MCU_ctr (coef cinfo)) cinfo = cinfo.
Proof. destruct cinfo as [? ? ? ? ? ? ? ? ? ? ? ? ? ? ? ? c ?]. by destruct c. Qed.

Lemma JDIM_nonneg z : 0 <= JDIM z.
Proof. unfold JDIM, JDIMENSION_MODULUS. apply Z.mod_pos_bound. lia. Qed.

Section Resumption.
Context {E JSAMPIMAGE : Type}.
Variable decode_mcu : E -> list JBLOCK -> bool * E * list JBLOCK.
Variable inverse_DCT :
  Z -> jpeg_component_info -> JBLOCK -> JSAMPIMAGE -> Z -> Z -> JSAMPIMAGE.
Variable finish_input_pass : jpeg_decompress_struct E -> jpeg_decompress_struct E.

Abbreviation call := (decompress_onepass decode_mcu inverse_DCT finish_input_pass).
Abbreviation from := (onepass_from decode_mcu inverse_DCT finish_input_pass).
Abbreviation columns_from := (onepass_columns_from decode_mcu inverse_DCT).
Abbreviation MCU_row := (onepass_MCU_row decode_mcu inverse_DCT).
Abbreviation MCU := (onepass_MCU decode_mcu inverse_DCT).
Abbreviation complete := (onepass_complete (JSAMPIMAGE := JSAMPIMAGE) finish_input_pass).

Lemma onepass_MCU_row_columns last_MCU_col yoffset (st : jpeg_decompress_struct E * JSAMPIMAGE) :
  MCU_row last_MCU_col yoffset st
  = columns_from (Z.to_nat (last_MCU_col + 1 - MCU_ctr (coef (fst st)))) yoffset
      (MCU_ctr (coef (fst st))) st.
Proof. reflexivity. Qed.

(** Entering decompress_onepass is continuing from the saved position. *)
Lemma onepass_enter (cinfo : jpeg_decompress_struct E) (output_buf : JSAMPIMAGE) :
  MCU_vert_offset (coef cinfo) < MCU_rows_per_iMCU_row (coef cinfo) ->
  call cinfo output_buf
  = from (JDIM (MCUs_per_row cinfo - 1)) (MCU_rows_per_iMCU_row (coef cinfo))
      (MCU_vert_offset (coef cinfo)) (MCU_ctr (coef cinfo)) (cinfo, output_buf).
Proof.
  intros Hrow. unfold decompress_onepass, onepass_from.
  replace (Z.to_nat (MCU_rows_per_iMCU_row (coef cinfo) - MCU_vert_offset (coef cinfo)))
    with (S (Z.to_nat (MCU_rows_per_iMCU_row (coef cinfo)
                       - (MCU_vert_offset (coef cinfo) + 1)))) by lia.
  reflexivity.
Qed.

(** With no MCU row left, the call goes straight to the part after the loops. *)
Lemma onepass_enter_done (cinfo : jpeg_decompress_struct E) (output_buf : JSAMPIMAGE) :
  MCU_rows_per_iMCU_row (coef cinfo) <= MCU_vert_offset (coef cinfo) ->
  call cinfo output_buf = complete (inl (cinfo, output_buf)).
Proof.
  intros Hrow. unfold decompress_onepass.
  replace (Z.to_nat (MCU_rows_per_iMCU_row (coef cinfo) - MCU_vert_offset (coef cinfo)))
    with O by lia.
  reflexivity.
Qed.

(** One MCU of the continued call. *)
Lemma onepass_from_step last_MCU_col rows yoffset MCU_col_num
    (st : jpeg_decompress_struct E * JSAMPIMAGE) :
  MCU_col_num <= last_MCU_col ->
  from last_MCU_col rows yoffset MCU_col_num st
  = match MCU yoffset MCU_col_num st with
    | inl st' => from last_MCU_col rows yoffset (MCU_col_num + 1) st'
    | inr r => r
    end.
Proof.
  intros Hcol. unfold onepass_from, onepass_columns_from.
  replace (Z.to_nat (last_MCU_col + 1 - MCU_col_num))
    with (S (Z.to_nat (last_MCU_col + 1 - (MCU_col_num + 1)))) by lia.
  simpl. by destruct (MCU yoffset MCU_col_num st).
Qed.

(** The continued call at the end of an MCU row. *)
Lemma onepass_from_row_end last_MCU_col rows yoffset MCU_col_num
    (cinfo : jpeg_decompress_struct E) (output_buf : JSAMPIMAGE) :
  last_MCU_col < MCU_col_num ->
  from last_MCU_col rows yoffset MCU_col_num (cinfo, output_buf)
  = if yoffset + 1 <? rows
    then from last_MCU_col rows (yoffset + 1) 0
           (on_coef (set_MCU_ctr 0) cinfo, output_buf)
    else complete (inl (on_coef (set_MCU_ctr 0) cinfo, output_buf)).
Proof.
  intros Hcol. unfold onepass_from at 1, onepass_columns_from.
  replace (Z.to_nat (last_MCU_col + 1 - MCU_col_num)) with O by lia. simpl.
  destruct (Z.ltb_spec (yoffset + 1) rows) as [Hrow|Hrow].
  - replace (Z.to_nat (rows - (yoffset + 1)))
      with (S (Z.to_nat (rows - (yoffset + 1 + 1)))) by lia.
    reflexivity.
  - replace (Z.to_nat (rows - (yoffset + 1))) with O by lia. reflexivity.
Qed.

(** The MCU loops do not read the saved position. *)
Lemma onepass_MCU_reposition v k yoffset MCU_col_num
    (cinfo : jpeg_decompress_struct E) (output_buf : JSAMPIMAGE) :
  MCU yoffset MCU_col_num (reposition v k cinfo, output_buf)
  = match MCU yoffset MCU_col_num (cinfo, output_buf) with
    | inl st' => inl (reposition v k (fst st'), snd st')
    | inr r => inr r
    end.
Proof.
  unfold onepass_MCU. simpl.
  destruct (decode_mcu _ _) as [[ok e] blocks]. by destruct ok.
Qed.

Lemma onepass_columns_reposition v k m yoffset MCU_col_num
    (cinfo : jpeg_decompress_struct E) (output_buf : JSAMPIMAGE) :
  columns_from m yoffset MCU_col_num (reposition v k cinfo, output_buf)
  = match columns_from m yoffset MCU_col_num (cinfo, output_buf) with
    | inl st' => inl (on_coef (set_MCU_vert_offset v) (fst st'), snd st')
    | inr r => inr r
    end.
Proof.
  unfold onepass_columns_from.
  pose proof (for_until_map
    (fun st : jpeg_decompress_struct E * JSAMPIMAGE => (reposition v k (fst st), snd st))
    (MCU yoffset)) as Hmap.
  specialize (Hmap ltac:(intros i [c o]; apply onepass_MCU_reposition)
                m MCU_col_num (cinfo, output_buf)).
  simpl in Hmap. rewrite Hmap.
  by destruct (for_until m MCU_col_num (MCU yoffset) (cinfo, output_buf)) as [[c o]|r].
Qed.

Lemma revoff_reposition v (cinfo : jpeg_decompress_struct E) :
  on_coef (set_MCU_vert_offset v) cinfo = reposition v (MCU_ctr (coef cinfo)) cinfo.
Proof. destruct cinfo as [? ? ? ? ? ? ? ? ? ? ? ? ? ? ? ? c ?]. by destruct c. Qed.

Lemma onepass_MCU_row_revoff v last_MCU_col yoffset
    (cinfo : jpeg_decompress_struct E) (output_buf : JSAMPIMAGE) :
  MCU_row last_MCU_col yoffset (on_coef (set_MCU_vert_offset v) cinfo, output_buf)
  = match MCU_row last_MCU_col yoffset (cinfo, output_buf) with
    | inl st' => inl (on_coef (set_MCU_vert_offset v) (fst st'), snd st')
    | inr r => inr r
    end.
Proof.
  rewrite !onepass_MCU_row_columns. simpl.
  rewrite revoff_reposition. apply onepass_columns_reposition.
Qed.

Lemma onepass_rows_revoff v last_MCU_col n yoffset
    (cinfo : jpeg_decompress_struct E) (output_buf : JSAMPIMAGE) :
  for_until n yoffset (MCU_row last_MCU_col)
    (on_coef (set_MCU_vert_offset v) cinfo, output_buf)
  = match for_until n yoffset (MCU_row last_MCU_col) (cinfo, output_buf) with
    | inl st' => inl (on_coef (set_MCU_vert_offset v) (fst st'), snd st')
    | inr r => inr r
    end.
Proof.
  pose proof (for_until_map
    (fun st : jpeg_decompress_struct E * JSAMPIMAGE =>
       (on_coef (set_MCU_vert_offset v) (fst st), snd st))
    (MCU_row last_MCU_col)) as Hmap.
  specialize (Hmap ltac:(intros i [c o]; apply onepass_MCU_row_revoff)
                n yoffset (cinfo, output_buf)).
  exact Hmap.
Qed.

(** The part after the loops does not depend on the saved row, except in
    the state handed to finish_input_pass. *)
Lemma onepass_complete_revoff v (cinfo : jpeg_decompress_struct E)
    (output_buf : JSAMPIMAGE) :
  same_outcome
    (complete (inl (on_coef (set_MCU_vert_offset v) cinfo, output_buf)))
    (complete (inl (cinfo, output_buf))).
Proof.
  unfold onepass_complete. simpl.
  destruct (_ <? _); repeat split; simpl; congruence.
Qed.

(** The continued call does not depend on the saved position. *)
Lemma onepass_from_reposition v k last_MCU_col rows yoffset MCU_col_num
    (cinfo : jpeg_decompress_struct E) (output_buf : JSAMPIMAGE) :
  same_outcome
    (from last_MCU_col rows yoffset MCU_col_num (reposition v k cinfo, output_buf))
    (from last_MCU_col rows yoffset MCU_col_num (cinfo, output_buf)).
Proof.
  unfold onepass_from. rewrite onepass_columns_reposition.
  destruct (columns_from _ yoffset MCU_col_num (cinfo, output_buf)) as [[c o]|r];
    [|apply same_outcome_refl].
  simpl. rewrite onepass_rows_revoff.
  destruct (for_until _ _ _ (c, o)) as [[c' o']|r]; [|apply same_outcome_refl].
  apply onepass_complete_revoff.
Qed.

Lemma onepass_MCU_inl_position yoffset MCU_col_num
    (cinfo cinfo' : jpeg_decompress_struct E) (output_buf output_buf' : JSAMPIMAGE) :
  MCU yoffset MCU_col_num (cinfo, output_buf) = inl (cinfo', output_buf') ->
  MCU_vert_offset (coef cinfo') = MCU_vert_offset (coef cinfo)
  /\ MCU_ctr (coef cinfo') = MCU_ctr (coef cinfo)
  /\ MCUs_per_row cinfo' = MCUs_per_row cinfo
  /\ MCU_rows_per_iMCU_row (coef cinfo') = MCU_rows_per_iMCU_row (coef cinfo).
Proof.
  unfold onepass_MCU. simpl.
  destruct (decode_mcu _ _) as [[ok e] blocks].
  destruct ok; simpl; intros Heq; inversion Heq; subst; by repeat split.
Qed.

(** Resuming after one more MCU: a call entered at a position where the
    decoder delivers an MCU is a call entered at the next position, in the
    state and with the sample planes that MCU leaves. *)
Lemma onepass_resume_after_MCU
    (cinfo cinfo' : jpeg_decompress_struct E) (output_buf output_buf' : JSAMPIMAGE) :
  MCU_vert_offset (coef cinfo) < MCU_rows_per_iMCU_row (coef cinfo) ->
  resumable cinfo ->
  MCU (MCU_vert_offset (coef cinfo)) (MCU_ctr (coef cinfo)) (cinfo, output_buf)
    = inl (cinfo', output_buf') ->
  same_outcome (call cinfo output_buf) (call (advance_position cinfo') output_buf').
Proof.
  intros Hrow Hcol Hmcu.
  destruct (onepass_MCU_inl_position _ _ _ _ _ _ Hmcu) as (Hv & Hk & Hper & Hrows).
  rewrite (onepass_enter cinfo output_buf Hrow).
  rewrite onepass_from_step by exact Hcol. rewrite Hmcu.
  unfold advance_position. rewrite Hv, Hk, Hper.
  set (L := JDIM (MCUs_per_row cinfo - 1)) in *.
  set (R := MCU_rows_per_iMCU_row (coef cinfo)) in *.
  set (y := MCU_vert_offset (coef cinfo)) in *.
  set (k := MCU_ctr (coef cinfo)) in *.
  unfold resumable in Hcol. fold L k in Hcol.
  destruct (Z.ltb_spec k L) as [Hlt|Hge].
  - rewrite onepass_enter by (simpl; rewrite Hrows; exact Hrow).
    simpl. rewrite Hper, Hrows. fold L R.
    apply same_outcome_sym. apply onepass_from_reposition.
  - rewrite onepass_from_row_end by lia.
    assert (Hzero : on_coef (set_MCU_ctr 0) cinfo' = reposition y 0 cinfo').
    { rewrite <- Hv.
      destruct cinfo' as [? ? ? ? ? ? ? ? ? ? ? ? ? ? ? ? c ?]. by destruct c. }
    destruct (Z.ltb_spec (y + 1) R) as [Hnext|Hlast].
    + rewrite onepass_enter by (simpl; rewrite Hrows; exact Hnext).
      simpl. rewrite Hper, Hrows. fold L R. rewrite Hzero.
      eapply same_outcome_trans; [apply onepass_from_reposition|].
      apply same_outcome_sym. apply onepass_from_reposition.
    + rewrite onepass_enter_done by (simpl; rewrite Hrows; exact Hlast).
      apply same_outcome_sym.
      exact (onepass_complete_revoff (y + 1) (on_coef (set_MCU_ctr 0) cinfo') output_buf').
Qed.

(** When the loop body leaves the function, it is with JPEG_SUSPENDED, the
    loop variables saved and the sample planes as they were. *)
Lemma onepass_MCU_inr_position yoffset MCU_col_num
    (cinfo cinfo' : jpeg_decompress_struct E) (output_buf output_buf' : JSAMPIMAGE) r :
  MCU yoffset MCU_col_num (cinfo, output_buf) = inr (r, cinfo', output_buf') ->
  r = JPEG_SUSPENDED /\ output_buf' = output_buf
  /\ MCU_vert_offset (coef cinfo') = yoffset /\ MCU_ctr (coef cinfo') = MCU_col_num
  /\ input_iMCU_row cinfo' = input_iMCU_row cinfo
  /\ output_iMCU_row cinfo' = output_iMCU_row cinfo.
Proof.
  unfold onepass_MCU. simpl.
  destruct (decode_mcu _ _) as [[ok e] blocks].
  destruct ok; simpl; intros Heq; inversion Heq; subst; by repeat split.
Qed.

(** A call entered at a position where the decoder fails returns at once. *)
Lemma onepass_suspend_at_entry (cinfo : jpeg_decompress_struct E)
    (output_buf : JSAMPIMAGE) r :
  MCU_vert_offset (coef cinfo) < MCU_rows_per_iMCU_row (coef cinfo) ->
  resumable cinfo ->
  MCU (MCU_vert_offset (coef cinfo)) (MCU_ctr (coef cinfo)) (cinfo, output_buf) = inr r ->
  call cinfo output_buf = r.
Proof.
  intros Hrow Hcol Hmcu. rewrite (onepass_enter cinfo output_buf Hrow).
  rewrite onepass_from_step by exact Hcol. by rewrite Hmcu.
Qed.

Lemma jzero_far_idempotent n (buf : list JBLOCK) :
  jzero_far n (jzero_far n buf) = jzero_far n buf.
Proof.
  unfold jzero_far.
  destruct (decide (Z.to_nat n <= length buf)%nat) as [Hle|Hgt].
  - rewrite !Nat.min_l; [| exact Hle |].
    + rewrite drop_app_length'; [reflexivity | by rewrite length_replicate].
    + rewrite length_app, length_replicate, length_drop. lia.
  - rewrite (drop_ge buf) by lia. rewrite !app_nil_r, length_replicate.
    rewrite drop_ge by (rewrite length_replicate; lia).
    rewrite app_nil_r. f_equal. lia.
Qed.

(** Zeroing the scratch buffer before a call that will zero it anyway. *)
Lemma onepass_MCU_zeroed yoffset MCU_col_num (cinfo : jpeg_decompress_struct E)
    (output_buf : JSAMPIMAGE) :
  MCU yoffset MCU_col_num (zeroed cinfo, output_buf)
  = MCU yoffset MCU_col_num (cinfo, output_buf).
Proof.
  unfold onepass_MCU, zeroed. simpl. rewrite jzero_far_idempotent. reflexivity.
Qed.

Lemma onepass_call_zeroed (cinfo : jpeg_decompress_struct E) (output_buf : JSAMPIMAGE) :
  MCU_vert_offset (coef cinfo) < MCU_rows_per_iMCU_row (coef cinfo) ->
  resumable cinfo ->
  call (zeroed cinfo) output_buf = call cinfo output_buf.
Proof.
  intros Hrow Hcol.
  rewrite (onepass_enter cinfo output_buf Hrow).
  rewrite (onepass_enter (zeroed cinfo) output_buf) by exact Hrow.
  change (from (JDIM (MCUs_per_row cinfo - 1)) (MCU_rows_per_iMCU_row (coef cinfo))
            (MCU_vert_offset (coef cinfo)) (MCU_ctr (coef cinfo))
            (zeroed cinfo, output_buf)
          = from (JDIM (MCUs_per_row cinfo - 1)) (MCU_rows_per_iMCU_row (coef cinfo))
              (MCU_vert_offset (coef cinfo)) (MCU_ctr (coef cinfo))
              (cinfo, output_buf)).
  rewrite !onepass_from_step by exact Hcol.
  by rewrite onepass_MCU_zeroed.
Qed.

End Resumption.

Section Stalls.
Context {E JSAMPIMAGE : Type}.
Variable decode_mcu : E -> list JBLOCK -> bool * E * list JBLOCK.
Variable inverse_DCT :
  Z -> jpeg_component_info -> JBLOCK -> JSAMPIMAGE -> Z -> Z -> JSAMPIMAGE.
Variable finish_input_pass :
  jpeg_decompress_struct (E * list bool) -> jpeg_decompress_struct (E * list bool).

Abbreviation stalling_call :=
  (decompress_onepass (stalling decode_mcu) inverse_DCT finish_input_pass).
Abbreviation stalling_MCU := (onepass_MCU (stalling decode_mcu) inverse_DCT).
Abbreviation run := (decode_onepass (stalling decode_mcu) inverse_DCT finish_input_pass).

(** A scheduled stall: the decoder fails, the position is saved. *)
Lemma onepass_MCU_stall yoffset MCU_col_num sched
    (cinfo : jpeg_decompress_struct (E * list bool)) (output_buf : JSAMPIMAGE) :
  stalling_MCU yoffset MCU_col_num (with_schedule (true :: sched) cinfo, output_buf)
  = inr (JPEG_SUSPENDED,
         reposition yoffset MCU_col_num (with_schedule sched (zeroed cinfo)),
         output_buf).
Proof. reflexivity. Qed.

(** No stall scheduled: the call is passed on to the decoder. *)
Lemma onepass_MCU_pass yoffset MCU_col_num sched
    (cinfo : jpeg_decompress_struct (E * list bool)) (output_buf : JSAMPIMAGE) :
  sched = [] \/ (exists rest, sched = false :: rest) ->
  stalling_MCU yoffset MCU_col_num (with_schedule sched cinfo, output_buf)
  = match
      decode_mcu (fst (entropy cinfo))
        (jzero_far (blocks_in_MCU cinfo) (MCU_buffer (coef cinfo)))
    with
    | (true, e, blocks) =>
        inl (with_schedule (tail sched) (decoded e blocks cinfo),
             onepass_output_MCU inverse_DCT (decoded e blocks cinfo)
               yoffset MCU_col_num output_buf)
    | (false, e, blocks) =>
        inr (JPEG_SUSPENDED,
             reposition yoffset MCU_col_num
               (with_schedule (tail sched) (decoded e blocks cinfo)),
             output_buf)
    end.
Proof.
  intros [->|[rest ->]]; unfold onepass_MCU, stalling; simpl;
    destruct (decode_mcu _ _) as [[ok e] blocks]; by destruct ok.
Qed.

Lemma run_step fuel (cinfo : jpeg_decompress_struct (E * list bool))
    (output_buf : JSAMPIMAGE) :
  run (S fuel) cinfo output_buf
  = match stalling_call cinfo output_buf with
    | (JPEG_SUSPENDED, cinfo', output_buf') => run fuel cinfo' output_buf'
    | (JPEG_SCAN_COMPLETED, _, output_buf') => Some [output_buf']
    | (_, cinfo', output_buf') =>
        match run fuel cinfo' output_buf' with
        | Some rows => Some (output_buf' :: rows)
        | None => None
        end
    end.
Proof. reflexivity. Qed.

(** The driver cannot tell two calls with the same outcome apart. *)
Lemma run_same_outcome fuel (cinfo cinfo' : jpeg_decompress_struct (E * list bool))
    (output_buf output_buf' : JSAMPIMAGE) :
  same_outcome (stalling_call cinfo output_buf) (stalling_call cinfo' output_buf') ->
  run fuel cinfo output_buf = run fuel cinfo' output_buf'.
Proof.
  intros Hsame. destruct fuel as [|fuel]; [reflexivity|]. rewrite !run_step.
  destruct (stalling_call cinfo output_buf) as [[r1 c1] o1].
  destruct (stalling_call cinfo' output_buf') as [[r2 c2] o2].
  destruct Hsame as (Hr & Ho & Hc). simpl in *. subst r2 o2.
  destruct r1; try (rewrite (Hc ltac:(discriminate))); reflexivity.
Qed.

Lemma advance_position_with_schedule sched
    (cinfo : jpeg_decompress_struct (E * list bool)) :
  advance_position (with_schedule sched cinfo)
  = with_schedule sched (advance_position cinfo).
Proof. unfold advance_position. simpl. by destruct (_ <? _). Qed.

Lemma advance_position_resumable (cinfo : jpeg_decompress_struct (E * list bool)) :
  resumable (advance_position cinfo).
Proof.
  unfold resumable, advance_position.
  destruct (Z.ltb_spec (MCU_ctr (coef cinfo)) (JDIM (MCUs_per_row cinfo - 1)));
    simpl; [lia | apply JDIM_nonneg].
Qed.

(** Stalls are absorbed: if the scan decodes to [rows] with no stall in
    [fuel] calls, it decodes to the same [rows] under the schedule [sched]
    in as many calls more as the schedule has stalls. *)
Lemma stalls_absorbed (k : nat) :
  forall (sched : list bool) (fuel : nat)
    (cinfo : jpeg_decompress_struct (E * list bool))
    (output_buf : JSAMPIMAGE) (rows : list JSAMPIMAGE),
    (fuel + length sched <= k)%nat ->
    resumable cinfo ->
    run fuel (with_schedule [] cinfo) output_buf = Some rows ->
    run (fuel + stalls sched) (with_schedule sched cinfo) output_buf = Some rows.
Proof.
  induction k as [|k IH]; intros sched fuel cinfo output_buf rows Hk Hcol Hrun.
  { destruct fuel; [discriminate | lia]. }
  destruct sched as [|b sched]; [by rewrite Nat.add_0_r|].
  destruct fuel as [|fuel]; [discriminate|].
  simpl in Hk.
  destruct (Z.lt_ge_cases (MCU_vert_offset (coef cinfo))
              (MCU_rows_per_iMCU_row (coef cinfo))) as [Hrow|Hrow].
  2: { (* no MCU row left: neither call reaches the decoder *)
    change (S fuel + stalls (b :: sched))%nat with (S (fuel + stalls (b :: sched))).
    rewrite run_step in Hrun |- *.
    rewrite (onepass_enter_done _ _ _ (with_schedule [] cinfo)) in Hrun by exact Hrow.
    rewrite (onepass_enter_done _ _ _ (with_schedule (b :: sched) cinfo)) by exact Hrow.
    unfold onepass_complete in *. simpl in *.
    destruct (_ <? _); [|exact Hrun].
    set (next := start_iMCU_row
                   (set_input_iMCU_row (JDIM (input_iMCU_row cinfo + 1))
                      (set_output_iMCU_row (JDIM (output_iMCU_row cinfo + 1)) cinfo))).
    change (match run fuel (with_schedule [] next) output_buf with
            | Some rows0 => Some (output_buf :: rows0)
            | None => None
            end = Some rows) in Hrun.
    change (match run (fuel + stalls (b :: sched)) (with_schedule (b :: sched) next)
                    output_buf with
            | Some rows0 => Some (output_buf :: rows0)
            | None => None
            end = Some rows).
    destruct (run fuel (with_schedule [] next) output_buf) as [rows'|] eqn:Hnext;
      [|discriminate].
    rewrite (IH (b :: sched) fuel next output_buf rows'); [exact Hrun | simpl; lia | | exact Hnext].
    unfold resumable. simpl. apply JDIM_nonneg. }
  destruct b.
  - (* a stall: the call suspends where it was entered *)
    change (S fuel + stalls (true :: sched))%nat with (S (fuel + S (stalls sched))).
    rewrite run_step.
    rewrite (onepass_suspend_at_entry _ _ _ (with_schedule (true :: sched) cinfo)
               output_buf _ Hrow Hcol
               (onepass_MCU_stall _ _ sched cinfo output_buf)).
    assert (Hpos :
      reposition (MCU_vert_offset (coef (with_schedule (true :: sched) cinfo)))
        (MCU_ctr (coef (with_schedule (true :: sched) cinfo)))
        (with_schedule sched (zeroed cinfo))
      = with_schedule sched (zeroed cinfo))
      by exact (reposition_same (with_schedule sched (zeroed cinfo))).
    rewrite Hpos. clear Hpos.
    rewrite Nat.add_succ_r.
    apply (IH sched (S fuel) (zeroed cinfo)); [lia | exact Hcol |].
    rewrite <- Hrun. apply run_same_outcome.
    rewrite (onepass_call_zeroed _ _ _ (with_schedule [] cinfo) output_buf Hrow Hcol).
    apply same_outcome_refl.
  - (* no stall: the decoder is called *)
    change (S fuel + stalls (false :: sched))%nat with (S fuel + stalls sched)%nat.
    pose proof (onepass_MCU_pass (MCU_vert_offset (coef cinfo)) (MCU_ctr (coef cinfo))
                  [] cinfo output_buf (or_introl eq_refl)) as Href.
    pose proof (onepass_MCU_pass (MCU_vert_offset (coef cinfo)) (MCU_ctr (coef cinfo))
                  (false :: sched) cinfo output_buf
                  (or_intror (ex_intro _ sched eq_refl))) as Hstall.
    destruct (decode_mcu (fst (entropy cinfo))
                (jzero_far (blocks_in_MCU cinfo) (MCU_buffer (coef cinfo))))
      as [[ok e] blocks].
    destruct ok; cbv beta iota in Href, Hstall.
    + pose proof (onepass_resume_after_MCU (stalling decode_mcu) inverse_DCT
                    finish_input_pass (with_schedule [] cinfo) _ _ _
                    Hrow Hcol Href) as Hsame_ref.
      pose proof (onepass_resume_after_MCU (stalling decode_mcu) inverse_DCT
                    finish_input_pass (with_schedule (false :: sched) cinfo)
                    _ _ _ Hrow Hcol Hstall) as Hsame_stall.
      rewrite advance_position_with_schedule in Hsame_ref, Hsame_stall.
      rewrite (run_same_outcome _ _ _ _ _ Hsame_ref) in Hrun.
      rewrite (run_same_outcome _ _ _ _ _ Hsame_stall).
      apply (IH sched (S fuel) (advance_position (decoded e blocks cinfo)));
        [lia | apply advance_position_resumable | exact Hrun].
    + change (S fuel + stalls sched)%nat with (S (fuel + stalls sched)).
      rewrite run_step in Hrun |- *.
      rewrite (onepass_suspend_at_entry _ _ _ (with_schedule [] cinfo)
                 output_buf _ Hrow Hcol Href) in Hrun.
      rewrite (onepass_suspend_at_entry _ _ _ (with_schedule (false :: sched) cinfo)
                 output_buf _ Hrow Hcol Hstall).
      apply (IH sched fuel
               (reposition (MCU_vert_offset (coef cinfo)) (MCU_ctr (coef cinfo))
                  (decoded e blocks cinfo)));
        [lia | exact Hcol | exact Hrun].
Qed.

(** *** A scan with no stall completes one iMCU row per call *)

Hypothesis decode_mcu_succeeds :
  forall (e : E) (blocks : list JBLOCK), fst (fst (decode_mcu e blocks)) = true.

Lemma onepass_MCU_unstalled c0 yoffset MCU_col_num
    (st : jpeg_decompress_struct (E * list bool) * JSAMPIMAGE) :
  snd (entropy (fst st)) = [] /\ same_scan c0 (fst st) ->
  match stalling_MCU yoffset MCU_col_num st with
  | inl st' => snd (entropy (fst st')) = [] /\ same_scan c0 (fst st')
  | inr _ => False
  end.
Proof.
  destruct st as [c out]. simpl. intros [Hsched Hscan].
  unfold onepass_MCU, stalling. simpl. rewrite Hsched.
  pose proof (decode_mcu_succeeds (fst (entropy c))
                (jzero_far (blocks_in_MCU c) (MCU_buffer (coef c)))) as Hok.
  destruct (decode_mcu _ _) as [[ok e] blocks]. simpl in Hok. subst ok. simpl.
  split; [reflexivity | exact Hscan].
Qed.

Lemma onepass_MCU_row_unstalled c0 last_MCU_col yoffset
    (st : jpeg_decompress_struct (E * list bool) * JSAMPIMAGE) :
  snd (entropy (fst st)) = [] /\ same_scan c0 (fst st) ->
  match onepass_MCU_row (stalling decode_mcu) inverse_DCT last_MCU_col yoffset st with
  | inl st' => snd (entropy (fst st')) = [] /\ same_scan c0 (fst st')
  | inr _ => False
  end.
Proof.
  intros Hst. unfold onepass_MCU_row.
  pose proof (for_until_invariant
    (fun st : jpeg_decompress_struct (E * list bool) * JSAMPIMAGE =>
       snd (entropy (fst st)) = [] /\ same_scan c0 (fst st))
    (fun _ : jpeg_code * jpeg_decompress_struct (E * list bool) * JSAMPIMAGE => False)
    (stalling_MCU yoffset)
    (fun i s => onepass_MCU_unstalled c0 yoffset i s)
    (Z.to_nat (last_MCU_col + 1 - MCU_ctr (coef (fst st))))
    (MCU_ctr (coef (fst st))) st Hst) as Hloop.
  destruct (for_until _ _ _ st) as [[c out]|r]; exact Hloop.
Qed.

(** With no stall scheduled and a decoder that delivers, a call completes
    its iMCU row. *)
Lemma onepass_call_unstalled (cinfo : jpeg_decompress_struct (E * list bool))
    (output_buf : JSAMPIMAGE) :
  snd (entropy cinfo) = [] ->
  0 <= input_iMCU_row cinfo < total_iMCU_rows cinfo ->
  total_iMCU_rows cinfo < 2 ^ 32 ->
  exists cinfo' output_buf',
    stalling_call cinfo output_buf
    = (if input_iMCU_row cinfo + 1 <? total_iMCU_rows cinfo
       then JPEG_ROW_COMPLETED else JPEG_SCAN_COMPLETED, cinfo', output_buf')
    /\ (input_iMCU_row cinfo + 1 < total_iMCU_rows cinfo ->
        input_iMCU_row cinfo' = input_iMCU_row cinfo + 1
        /\ total_iMCU_rows cinfo' = total_iMCU_rows cinfo
        /\ snd (entropy cinfo') = []).
Proof.
  intros Hsched Hin Htot. unfold decompress_onepass.
  pose proof (for_until_invariant
    (fun st : jpeg_decompress_struct (E * list bool) * JSAMPIMAGE =>
       snd (entropy (fst st)) = [] /\ same_scan cinfo (fst st))
    (fun _ : jpeg_code * jpeg_decompress_struct (E * list bool) * JSAMPIMAGE => False)
    (onepass_MCU_row (stalling decode_mcu) inverse_DCT (JDIM (MCUs_per_row cinfo - 1)))
    (fun i s => onepass_MCU_row_unstalled cinfo _ i s)
    (Z.to_nat (MCU_rows_per_iMCU_row (coef cinfo) - MCU_vert_offset (coef cinfo)))
    (MCU_vert_offset (coef cinfo)) (cinfo, output_buf)
    (conj Hsched (same_scan_refl cinfo))) as Hloop.
  destruct (for_until _ _ _ (cinfo, output_buf)) as [[c out]|r]; [|contradiction].
  simpl in Hloop. destruct Hloop as (Hs & Hi & Ho & Ht & _).
  simpl. rewrite Hi, Ht.
  rewrite (JDIM_small (input_iMCU_row cinfo + 1)) by lia.
  destruct (Z.ltb_spec (input_iMCU_row cinfo + 1) (total_iMCU_rows cinfo)).
  - eexists _, _. split; [reflexivity|]. intros _. simpl. by repeat split.
  - eexists _, _. split; [reflexivity|]. lia.
Qed.

Lemma run_unstalled (n : nat) :
  forall (cinfo : jpeg_decompress_struct (E * list bool)) (output_buf : JSAMPIMAGE),
    snd (entropy cinfo) = [] ->
    0 <= input_iMCU_row cinfo ->
    input_iMCU_row cinfo + Z.of_nat (S n) = total_iMCU_rows cinfo ->
    total_iMCU_rows cinfo < 2 ^ 32 ->
    exists rows, run (S n) cinfo output_buf = Some rows /\ length rows = S n.
Proof.
  induction n as [|n IH]; intros cinfo output_buf Hsched Hin Hleft Htot.
  - destruct (onepass_call_unstalled cinfo output_buf Hsched ltac:(lia) Htot)
      as (c' & out' & Hcall & _).
    rewrite run_step, Hcall.
    destruct (Z.ltb_spec (input_iMCU_row cinfo + 1) (total_iMCU_rows cinfo)); [lia|].
    by exists [out'].
  - destruct (onepass_call_unstalled cinfo output_buf Hsched ltac:(lia) Htot)
      as (c' & out' & Hcall & Hnext).
    rewrite run_step, Hcall.
    destruct (Z.ltb_spec (input_iMCU_row cinfo + 1) (total_iMCU_rows cinfo)); [|lia].
    destruct (Hnext ltac:(lia)) as (Hi & Ht & Hs).
    destruct (IH c' out' Hs ltac:(lia) ltac:(lia) ltac:(lia)) as (rows & Hrun & Hlen).
    rewrite Hrun. exists (out' :: rows). split; [reflexivity|]. simpl. by rewrite Hlen.
Qed.

End Stalls.

(** C1.  Suspension is transparent.  Whenever decode_mcu fails in the MCU
    loop, the loop variables yoffset and MCU_col_num are saved in
    MCU_vert_offset and MCU_ctr, JPEG_SUSPENDED is returned and the sample
    planes and iMCU row counters are as they were; a stall at the position
    a call is entered at returns the state it was entered with (the scratch
    buffer zeroed), and a call is the continuation of the loops from the
    saved position.  And for a decoder that delivers every MCU when it is
    not stalled, a scan decoded under any schedule of stalls, the caller
    retrying after each JPEG_SUSPENDED, yields row-group by row-group the
    sample planes of the scan decoded with no stall, whatever the inverse
    DCT: every block is decoded and transformed once, in the same order. *)
Theorem suspension_is_transparent :
  forall (E JSAMPIMAGE : Type)
    (decode_mcu : E -> list JBLOCK -> bool * E * list JBLOCK)
    (inverse_DCT : Z -> jpeg_component_info -> JBLOCK -> JSAMPIMAGE -> Z -> Z -> JSAMPIMAGE)
    (finish_input_pass :
       jpeg_decompress_struct (E * list bool) -> jpeg_decompress_struct (E * list bool))
    (cinfo : jpeg_decompress_struct (E * list bool)) (sched : list bool)
    (output_buf : JSAMPIMAGE),
    (forall (e : E) (blocks : list JBLOCK), fst (fst (decode_mcu e blocks)) = true) ->
    resumable cinfo ->
    0 <= input_iMCU_row cinfo < total_iMCU_rows cinfo ->
    total_iMCU_rows cinfo < 2 ^ 32 ->
    (forall yoffset MCU_col_num c c' planes planes' r,
        onepass_MCU (stalling decode_mcu) inverse_DCT yoffset MCU_col_num (c, planes)
          = inr (r, c', planes') ->
        r = JPEG_SUSPENDED /\ planes' = planes
        /\ MCU_vert_offset (coef c') = yoffset /\ MCU_ctr (coef c') = MCU_col_num
        /\ input_iMCU_row c' = input_iMCU_row c
        /\ output_iMCU_row c' = output_iMCU_row c)
    /\ (MCU_vert_offset (coef cinfo) < MCU_rows_per_iMCU_row (coef cinfo) ->
        decompress_onepass (stalling decode_mcu) inverse_DCT finish_input_pass
          (with_schedule (true :: sched) cinfo) output_buf
        = (JPEG_SUSPENDED, with_schedule sched (zeroed cinfo), output_buf)
        /\ decompress_onepass (stalling decode_mcu) inverse_DCT finish_input_pass
             (with_schedule sched cinfo) output_buf
           = onepass_from (stalling decode_mcu) inverse_DCT finish_input_pass
               (JDIM (MCUs_per_row cinfo - 1)) (MCU_rows_per_iMCU_row (coef cinfo))
               (MCU_vert_offset (coef cinfo)) (MCU_ctr (coef cinfo))
               (with_schedule sched cinfo, output_buf))
    /\ exists rows : list JSAMPIMAGE,
         decode_onepass (stalling decode_mcu) inverse_DCT finish_input_pass
           (Z.to_nat (total_iMCU_rows cinfo - input_iMCU_row cinfo))
           (with_schedule [] cinfo) output_buf
         = Some rows
         /\ decode_onepass (stalling decode_mcu) inverse_DCT finish_input_pass
              (Z.to_nat (total_iMCU_rows cinfo - input_iMCU_row cinfo) + stalls sched)
              (with_schedule sched cinfo) output_buf
            = Some rows
         /\ length rows = Z.to_nat (total_iMCU_rows cinfo - input_iMCU_row cinfo).
Proof.
  intros E JSAMPIMAGE decode_mcu inverse_DCT finish_input_pass cinfo sched output_buf
    Hdecode Hcol Hin Htot.
  split; [|split].
  - intros yoffset MCU_col_num c c' planes planes' r.
    apply onepass_MCU_inr_position.
  - intros Hrow. split.
    2: { exact (onepass_enter (stalling decode_mcu) inverse_DCT finish_input_pass
                  (with_schedule sched cinfo) output_buf Hrow). }
    rewrite (onepass_suspend_at_entry (stalling decode_mcu) inverse_DCT finish_input_pass
               (with_schedule (true :: sched) cinfo) output_buf _ Hrow Hcol
               (onepass_MCU_stall decode_mcu inverse_DCT _ _ sched cinfo output_buf)).
    assert (Hpos :
      reposition (MCU_vert_offset (coef (with_schedule (true :: sched) cinfo)))
        (MCU_ctr (coef (with_schedule (true :: sched) cinfo)))
        (with_schedule sched (zeroed cinfo))
      = with_schedule sched (zeroed cinfo))
      by exact (reposition_same (with_schedule sched (zeroed cinfo))).
    by rewrite Hpos.
  - destruct (Z.to_nat (total_iMCU_rows cinfo - input_iMCU_row cinfo)) as [|n] eqn:Hn;
      [lia|].
    destruct (run_unstalled decode_mcu inverse_DCT finish_input_pass Hdecode n
                (with_schedule [] cinfo) output_buf eq_refl ltac:(simpl; lia)
                ltac:(simpl; lia) Htot) as (rows & Hrun & Hlen).
    exists rows. split; [exact Hrun|]. split; [|exact Hlen].
    eapply stalls_absorbed; [reflexivity | exact Hcol | exact Hrun].
Qed.

(** The 16x16 image under the schedule pass, stall, stall, pass, stall:
    five calls instead of two, the same two row-groups. *)
Lemma suspension_is_transparent_witness :
  exists rows : list (list idct_call),
    decode_onepass (stalling (decode_given (fun k => [dc_block (Z.of_nat k)])))
      recording_inverse_DCT finish_input_pass_upstream 2
      (with_schedule [] (gray16_onepass (0%nat, []))) []
    = Some rows
    /\ decode_onepass (stalling (decode_given (fun k => [dc_block (Z.of_nat k)])))
         recording_inverse_DCT finish_input_pass_upstream 5
         (with_schedule [false; true; true; false; true] (gray16_onepass (0%nat, []))) []
       = Some rows
    /\ length rows = 2%nat.
Proof.
  refine (proj2 (proj2 (suspension_is_transparent nat (list idct_call)
            (decode_given (fun k => [dc_block (Z.of_nat k)]))
            recording_inverse_DCT finish_input_pass_upstream
            (gray16_onepass (0%nat, [])) [false; true; true; false; true] []
            (fun e blocks => eq_refl) _ _ _))).
  - vm_compute. discriminate.
  - simpl. lia.
  - reflexivity.
Defined.

(** * Further properties *)

(** ** smoothing_ok: when smoothing applies, and what it latches *)

Lemma latch_coef_bits_useful ci coef_bits latch useful :
  snd (latch_coef_bits ci coef_bits (latch, useful)) = true
  <-> useful = true \/ exists coefi, 1 <= coefi <= 5 /\ int_at coef_bits coefi <> 0.
Proof.
  unfold latch_coef_bits, for_range. simpl.
  change (1 + 1 + 1 + 1 + 1) with 5; change (1 + 1 + 1 + 1) with 4;
  change (1 + 1 + 1) with 3; change (1 + 1) with 2.
  destruct (Z.eqb_spec (int_at coef_bits 1) 0) as [H1|H1];
  destruct (Z.eqb_spec (int_at coef_bits 2) 0) as [H2|H2];
  destruct (Z.eqb_spec (int_at coef_bits 3) 0) as [H3|H3];
  destruct (Z.eqb_spec (int_at coef_bits 4) 0) as [H4|H4];
  destruct (Z.eqb_spec (int_at coef_bits 5) 0) as [H5|H5]; simpl;
  try (split; [intros _; right|reflexivity];
       first [exists 1; split; [lia|assumption] | exists 2; split; [lia|assumption]
             | exists 3; split; [lia|assumption] | exists 4; split; [lia|assumption]
             | exists 5; split; [lia|assumption]]).
  split; [by left|]. intros [Hu|[coefi [Hr Hnz]]]; [exact Hu|].
  assert (coefi = 1 \/ coefi = 2 \/ coefi = 3 \/ coefi = 4 \/ coefi = 5) as Hc by lia.
  destruct Hc as [->|[->|[->|[->| ->]]]]; congruence.
Qed.

Lemma latch_coef_bits_latch ci coef_bits latch useful :
  0 <= ci ->
  length (fst (latch_coef_bits ci coef_bits (latch, useful))) = length latch
  /\ (forall idx : nat,
        (idx < Z.to_nat (ci * SAVED_COEFS + 1))%nat ->
        fst (latch_coef_bits ci coef_bits (latch, useful)) !! idx = latch !! idx)
  /\ (forall coefi : Z,
        1 <= coefi <= 5 ->
        (Z.to_nat (ci * SAVED_COEFS + coefi) < length latch)%nat ->
        fst (latch_coef_bits ci coef_bits (latch, useful))
          !! Z.to_nat (ci * SAVED_COEFS + coefi)
        = Some (int_at coef_bits coefi)).
Proof.
  intros Hci. unfold latch_coef_bits, for_range, SAVED_COEFS. simpl.
  change (1 + 1 + 1 + 1 + 1) with 5; change (1 + 1 + 1 + 1) with 4;
  change (1 + 1 + 1) with 3; change (1 + 1) with 2.
  split; [by rewrite !length_insert|]. split.
  - intros idx Hidx. rewrite !list_lookup_insert_ne by lia. reflexivity.
  - intros coefi Hr Hlen.
    assert (coefi = 1 \/ coefi = 2 \/ coefi = 3 \/ coefi = 4 \/ coefi = 5) as Hc by lia.
    destruct Hc as [->|[->|[->|[->| ->]]]];
      repeat first
        [ rewrite list_lookup_insert_eq by (rewrite ?length_insert; exact Hlen);
          reflexivity
        | rewrite list_lookup_insert_ne by lia ].
Qed.

Section SmoothingScan.
Context {C : Type}.
Variable all_coef_bits : list (list Z).
Variable latched : list Z -> C.

Lemma smoothing_ok_scan (l : list jpeg_component_info) :
  forall (i : Z) (latch : list Z) (useful : bool),
    0 <= i ->
    match
      foreach_until l i
        (fun ci compptr '(latch, smoothing_useful) =>
           match quant_table compptr with
           | None => inr (false, latched latch)
           | Some qtable =>
               if (default 0 (quantval qtable !! 0%nat) =? 0)
                  || (default 0 (quantval qtable !! Q01_POS) =? 0)
                  || (default 0 (quantval qtable !! Q10_POS) =? 0)
                  || (default 0 (quantval qtable !! Q20_POS) =? 0)
                  || (default 0 (quantval qtable !! Q11_POS) =? 0)
                  || (default 0 (quantval qtable !! Q02_POS) =? 0)
               then inr (false, latched latch)
               else
                 let coef_bits :=
                   default [] (all_coef_bits !! Z.to_nat ci) in
                 if int_at coef_bits 0 <? 0 then inr (false, latched latch)
                 else inl (latch_coef_bits ci coef_bits (latch, smoothing_useful))
           end)
        (latch, useful)
    with
    | inl (latch', useful') =>
        (forall (k : nat) (compptr : jpeg_component_info),
           l !! k = Some compptr ->
           smoothing_safe all_coef_bits (i + Z.of_nat k) compptr)
        /\ (useful' = true
            <-> useful = true
                \/ exists k : nat,
                     (k < length l)%nat
                     /\ smoothing_helps all_coef_bits (i + Z.of_nat k))
        /\ length latch' = length latch
        /\ (forall idx : nat,
              (idx < Z.to_nat (i * SAVED_COEFS + 1))%nat -> latch' !! idx = latch !! idx)
        /\ (forall (k : nat) (coefi : Z),
              (k < length l)%nat -> 1 <= coefi <= 5 ->
              (Z.to_nat ((i + Z.of_nat k) * SAVED_COEFS + coefi) < length latch)%nat ->
              latch' !! Z.to_nat ((i + Z.of_nat k) * SAVED_COEFS + coefi)
              = Some (int_at (default [] (all_coef_bits !! Z.to_nat (i + Z.of_nat k)))
                        coefi))
    | inr (ok, _) =>
        ok = false
        /\ exists (k : nat) (compptr : jpeg_component_info),
             l !! k = Some compptr
             /\ ~ smoothing_safe all_coef_bits (i + Z.of_nat k) compptr
    end.
Proof.
  induction l as [|compptr l IH]; intros i latch useful Hi.
  - simpl. split; [intros k c Hk; discriminate|].
    split; [split; [by left|intros [Hu|[k [Hk _]]]; [exact Hu|simpl in Hk; lia]]|].
    split; [reflexivity|]. split; [reflexivity|].
    intros k coefi Hk. simpl in Hk. lia.
  - cbn [foreach_until].
    assert (Hbad : forall c0 : C,
              ~ smoothing_safe all_coef_bits (i + Z.of_nat 0) compptr ->
              false = false
              /\ exists (k : nat) (c : jpeg_component_info),
                   (compptr :: l) !! k = Some c
                   /\ ~ smoothing_safe all_coef_bits (i + Z.of_nat k) c).
    { intros _ Hns. split; [reflexivity|]. by exists 0%nat, compptr. }
    destruct (quant_table compptr) as [qtable|] eqn:Hqt.
    2:{ apply Hbad; [exact (latched latch)|].
        intros [[qtable [Hq _]] _]. congruence. }
    destruct ((default 0 (quantval qtable !! 0%nat) =? 0)
              || (default 0 (quantval qtable !! Q01_POS) =? 0)
              || (default 0 (quantval qtable !! Q10_POS) =? 0)
              || (default 0 (quantval qtable !! Q20_POS) =? 0)
              || (default 0 (quantval qtable !! Q11_POS) =? 0)
              || (default 0 (quantval qtable !! Q02_POS) =? 0)) eqn:Hzero.
    { apply Hbad; [exact (latched latch)|].
      intros [[qtable' [Hq Hnz]] _]. apply Hnz.
      assert (qtable' = qtable) as -> by congruence.
      unfold has_zero_smoothing_quantizer, quant_at.
      repeat (apply orb_prop in Hzero; destruct Hzero as [Hzero|Hzero]);
        apply Z.eqb_eq in Hzero; tauto. }
    cbv zeta. replace (Z.to_nat i) with (Z.to_nat (i + Z.of_nat 0)) by (f_equal; lia).
    destruct (Z.ltb_spec
                (int_at (default [] (all_coef_bits !! Z.to_nat (i + Z.of_nat 0))) 0) 0)
      as [Hneg|Hdc].
    { apply Hbad; [exact (latched latch)|]. intros [_ Hge]. lia. }
    assert (Hsafe : smoothing_safe all_coef_bits (i + Z.of_nat 0) compptr).
    { split; [|exact Hdc]. exists qtable. split; [exact Hqt|].
      unfold has_zero_smoothing_quantizer, quant_at. intros Hz.
      repeat (apply orb_false_elim in Hzero; destruct Hzero as [Hzero ?]).
      repeat match goal with H : (_ =? _) = false |- _ => apply Z.eqb_neq in H end.
      tauto. }
    replace (i + Z.of_nat 0) with i in * by lia.
    pose proof (latch_coef_bits_useful i (default [] (all_coef_bits !! Z.to_nat i))
                  latch useful) as Huse.
    pose proof (latch_coef_bits_latch i (default [] (all_coef_bits !! Z.to_nat i))
                  latch useful Hi) as (Hlen & Hlow & Hnew).
    destruct (latch_coef_bits i (default [] (all_coef_bits !! Z.to_nat i))
                (latch, useful)) as [latch1 useful1].
    simpl in Huse, Hlen, Hlow, Hnew.
    specialize (IH (i + 1) latch1 useful1 ltac:(lia)).
    destruct (foreach_until l (i + 1) _ (latch1, useful1)) as [[latch' useful']|[ok c']].
    + destruct IH as (IHsafe & IHuse & IHlen & IHlow & IHnew).
      split; [|split; [|split; [|split]]].
      * intros [|k] c Hk; simpl in Hk.
        -- injection Hk as <-. replace (i + Z.of_nat 0) with i by lia. exact Hsafe.
        -- replace (i + Z.of_nat (S k)) with (i + 1 + Z.of_nat k) by lia.
           by apply IHsafe.
      * rewrite IHuse, Huse. split.
        -- intros [[Hu|Hh]|[k [Hk Hh]]].
           ++ by left.
           ++ right. exists 0%nat. split; [simpl; lia|].
              replace (i + Z.of_nat 0) with i by lia. exact Hh.
           ++ right. exists (S k). split; [simpl; lia|].
              replace (i + Z.of_nat (S k)) with (i + 1 + Z.of_nat k) by lia. exact Hh.
        -- intros [Hu|[[|k] [Hk Hh]]].
           ++ by left; left.
           ++ left; right. replace (i + Z.of_nat 0) with i in Hh by lia. exact Hh.
           ++ right. exists k. split; [simpl in Hk; lia|].
              replace (i + Z.of_nat (S k)) with (i + 1 + Z.of_nat k) in Hh by lia.
              exact Hh.
      * congruence.
      * intros idx Hidx. rewrite IHlow, Hlow; [reflexivity|exact Hidx|].
        unfold SAVED_COEFS in *. lia.
      * intros [|k] coefi Hk Hr Hidx.
        -- replace (i + Z.of_nat 0) with i in * by lia.
           rewrite IHlow; [by apply Hnew|]. unfold SAVED_COEFS in *. lia.
        -- replace (i + Z.of_nat (S k)) with (i + 1 + Z.of_nat k) in * by lia.
           apply IHnew; [simpl in Hk; lia|exact Hr|congruence].
    + destruct IH as (-> & k & c & Hk & Hns). split; [reflexivity|].
      exists (S k), c. split; [exact Hk|].
      replace (i + Z.of_nat (S k)) with (i + 1 + Z.of_nat k) by lia. exact Hns.
Qed.
End SmoothingScan.

(** X1.  smoothing_ok answers TRUE exactly when the image is progressive,
    coef_bits is set, every component has a quantization table whose DC
    and first five AC quantizers are nonzero and a DC coefficient at least
    partly known, and for some component one of the first five AC
    coefficients is not yet known to full precision. *)
Theorem smoothing_ok_applicable :
  forall (E : Type) (cinfo : jpeg_decompress_struct E),
    fst (smoothing_ok cinfo) = true
    <-> progressive_mode cinfo = true
        /\ exists all_coef_bits : list (list Z),
             coef_bits cinfo = Some all_coef_bits
             /\ (forall (ci : nat) (compptr : jpeg_component_info),
                   components cinfo !! ci = Some compptr ->
                   smoothing_safe all_coef_bits (Z.of_nat ci) compptr)
             /\ exists ci : nat,
                  (ci < length (components cinfo))%nat
                  /\ smoothing_helps all_coef_bits (Z.of_nat ci).
Proof.
  intros E cinfo. unfold smoothing_ok.
  destruct (progressive_mode cinfo); [|simpl; intuition discriminate].
  destruct (coef_bits cinfo) as [all_coef_bits|].
  2:{ simpl. split; [discriminate|]. intros [_ [b [Hb _]]]. discriminate. }
  pose proof (smoothing_ok_scan all_coef_bits
                (fun latch => on_coef (set_coef_bits_latch (Some latch)) cinfo)
                (components cinfo) 0
                (match coef_bits_latch (coef cinfo) with
                 | Some latch => latch
                 | None => alloc_latch cinfo
                 end)
                false ltac:(lia)) as Hscan.
  cbv zeta.
  destruct (foreach_until (components cinfo) 0 _ _) as [[latch' useful']|[ok c']].
  - destruct Hscan as (Hsafe & Huse & _). simpl. rewrite Huse. split.
    + intros [Hu|[k [Hk Hh]]]; [discriminate|]. split; [reflexivity|].
      exists all_coef_bits. split; [reflexivity|]. split; [exact Hsafe|]. by exists k.
    + intros [_ [b [Hb [_ [k [Hk Hh]]]]]]. injection Hb as <-. right. by exists k.
  - destruct Hscan as (-> & k & c & Hk & Hns). simpl. split; [discriminate|].
    intros [_ [b [Hb [Hsafe _]]]]. injection Hb as <-. destruct Hns. by apply Hsafe.
Qed.

(** X2.  When smoothing_ok answers TRUE it has latched, for every component,
    the coef_bits entries of the first five AC coefficients, and the latch
    is the only part of the state it changed.  A latch area found allocated
    has room for SAVED_COEFS entries per component. *)
Theorem smoothing_ok_latches_coef_bits :
  forall (E : Type) (cinfo : jpeg_decompress_struct E)
    (all_coef_bits : list (list Z)) (ci : nat) (coefi : Z),
    coef_bits cinfo = Some all_coef_bits ->
    fst (smoothing_ok cinfo) = true ->
    (forall latch : list Z,
       coef_bits_latch (coef cinfo) = Some latch ->
       num_components cinfo * SAVED_COEFS <= Z.of_nat (length latch)) ->
    (ci < length (components cinfo))%nat ->
    1 <= coefi <= 5 ->
    int_at (latched_coef_bits (snd (smoothing_ok cinfo)) (Z.of_nat ci)) coefi
    = int_at (default [] (all_coef_bits !! ci)) coefi
    /\ exists latch : list Z,
         snd (smoothing_ok cinfo) = on_coef (set_coef_bits_latch (Some latch)) cinfo.
Proof.
  intros E cinfo all_coef_bits ci coefi Hbits Hok Hroom Hci Hcoefi.
  unfold smoothing_ok in *. rewrite Hbits in *.
  destruct (progressive_mode cinfo); [|discriminate].
  pose proof (smoothing_ok_scan all_coef_bits
                (fun latch => on_coef (set_coef_bits_latch (Some latch)) cinfo)
                (components cinfo) 0
                (match coef_bits_latch (coef cinfo) with
                 | Some latch => latch
                 | None => alloc_latch cinfo
                 end)
                false ltac:(lia)) as Hscan.
  cbv zeta in *.
  destruct (foreach_until (components cinfo) 0 _ _) as [[latch' useful']|[ok c']].
  2:{ destruct Hscan as (-> & _). discriminate. }
  destruct Hscan as (_ & _ & Hlen & _ & Hnew). simpl.
  split; [|by exists latch'].
  assert (Hn : (ci < Z.to_nat (num_components cinfo))%nat).
  { unfold components in Hci. rewrite length_take in Hci. lia. }
  assert (Hlatch : (Z.to_nat (num_components cinfo * SAVED_COEFS)
                    <= length (match coef_bits_latch (coef cinfo) with
                               | Some latch => latch
                               | None => alloc_latch cinfo
                               end))%nat).
  { destruct (coef_bits_latch (coef cinfo)) as [latch|] eqn:Hl.
    - specialize (Hroom latch eq_refl). lia.
    - unfold alloc_latch. rewrite length_replicate. lia. }
  unfold SAVED_COEFS in *.
  specialize (Hnew ci coefi Hci Hcoefi ltac:(lia)).
  replace (0 + Z.of_nat ci) with (Z.of_nat ci) in Hnew by lia.
  rewrite Nat2Z.id in Hnew.
  unfold latched_coef_bits, SAVED_COEFS. unfold int_at at 1. simpl.
  destruct (Z.ltb_spec coefi 0) as [?|_]; [lia|].
  rewrite lookup_drop.
  replace (Z.to_nat (Z.of_nat ci * 6) + Z.to_nat coefi)%nat
    with (Z.to_nat (Z.of_nat ci * 6 + coefi)) by lia.
  rewrite Hnew. reflexivity.
Qed.

Lemma smoothing_ok_latches_coef_bits_witness :
  int_at (latched_coef_bits (snd (smoothing_ok (after_dc_scan luminance_table)))
            (Z.of_nat 0)) 1
  = -1.
Proof.
  refine (proj1 (smoothing_ok_latches_coef_bits unit (after_dc_scan luminance_table)
                   [dc_only_coef_bits] 0 1 _ _ _ _ _)).
  - reflexivity.
  - vm_compute. reflexivity.
  - intros latch Hlatch. discriminate.
  - simpl. lia.
  - lia.
Defined.

(** ** decompress_smooth_data: forcing the input *)

Section SmoothingInput.
Context {E JSAMPIMAGE : Type}.
Variable inverse_DCT :
  Z -> jpeg_component_info -> JBLOCK -> JSAMPIMAGE -> Z -> Z -> JSAMPIMAGE.
Variable consume_input :
  jpeg_decompress_struct E -> jpeg_code * jpeg_decompress_struct E.

Lemma smooth_force_input_ahead fuel (cinfo : jpeg_decompress_struct E) :
  input_ahead_for_smoothing cinfo ->
  smooth_force_input consume_input fuel cinfo = Some (inl cinfo).
Proof.
  intros Hahead. destruct fuel; simpl;
    (destruct (Z.leb_spec (input_scan_number cinfo) (output_scan_number cinfo)) as [Hle|Hgt];
     [|reflexivity]);
    (destruct (eoi_reached cinfo) eqn:Heoi; [reflexivity|]); simpl;
    (destruct (Z.eqb_spec (input_scan_number cinfo) (output_scan_number cinfo)) as [Heq|Hne];
     [destruct (Z.ltb_spec (JDIM (output_iMCU_row cinfo + (if Ss cinfo =? 0 then 1 else 0)))
                  (input_iMCU_row cinfo)) as [Hlt|Hge]; [reflexivity|]|]);
    simpl; exfalso; destruct Hahead as [Ha|[Ha|[Ha Hb]]]; try congruence; lia.
Qed.

Lemma smooth_force_input_result fuel (cinfo : jpeg_decompress_struct E) :
  match smooth_force_input consume_input fuel cinfo with
  | Some (inl fed) => input_ahead_for_smoothing fed
  | Some (inr (r, cinfo')) =>
      r = JPEG_SUSPENDED
      /\ exists waiting,
           ~ input_ahead_for_smoothing waiting
           /\ consume_input waiting = (JPEG_SUSPENDED, cinfo')
  | None => True
  end.
Proof.
  revert cinfo. induction fuel as [|fuel IH]; intros cinfo; simpl.
  - destruct (Z.leb_spec (input_scan_number cinfo) (output_scan_number cinfo)) as [Hle|Hgt];
      [|right; left; exact Hgt].
    destruct (eoi_reached cinfo) eqn:Heoi; [by left|]. simpl.
    destruct (Z.eqb_spec (input_scan_number cinfo) (output_scan_number cinfo)) as [Heq|Hne];
      [|exact I].
    destruct (Z.ltb_spec (JDIM (output_iMCU_row cinfo + (if Ss cinfo =? 0 then 1 else 0)))
                (input_iMCU_row cinfo)) as [Hlt|Hge]; simpl; [|exact I].
    right; right. by split.
  - destruct (Z.leb_spec (input_scan_number cinfo) (output_scan_number cinfo)) as [Hle|Hgt];
      [|right; left; exact Hgt].
    destruct (eoi_reached cinfo) eqn:Heoi; [by left|]. simpl.
    assert (Hwait :
              ~ input_ahead_for_smoothing cinfo ->
              match
                (let '(r, cinfo0) := consume_input cinfo in
                 if is_suspended r then Some (inr (JPEG_SUSPENDED, cinfo0))
                 else smooth_force_input consume_input fuel cinfo0)
              with
              | Some (inl fed) => input_ahead_for_smoothing fed
              | Some (inr (r, cinfo')) =>
                  r = JPEG_SUSPENDED
                  /\ exists waiting,
                       ~ input_ahead_for_smoothing waiting
                       /\ consume_input waiting = (JPEG_SUSPENDED, cinfo')
              | None => True
              end).
    { intros Hnot. destruct (consume_input cinfo) as [r c1] eqn:Hc.
      destruct (is_suspended r) eqn:Hs; [|apply IH].
      split; [reflexivity|]. exists cinfo. split; [exact Hnot|].
      by destruct r. }
    destruct (Z.eqb_spec (input_scan_number cinfo) (output_scan_number cinfo)) as [Heq|Hne].
    + destruct (Z.ltb_spec (JDIM (output_iMCU_row cinfo + (if Ss cinfo =? 0 then 1 else 0)))
                  (input_iMCU_row cinfo)) as [Hlt|Hge]; simpl.
      * right; right. by split.
      * apply Hwait. intros [Ha|[Ha|[Ha Hb]]]; [congruence|lia|lia].
    + simpl. apply Hwait. intros [Ha|[Ha|[Ha Hb]]]; [congruence|lia|lia].
Qed.

(** X3.  decompress_smooth_data outputs an iMCU row only from a state in
    which the end of the image was read, or the input is in a later scan
    than the output, or it is in the same scan and past iMCU row
    output_iMCU_row + delta, where delta is 1 while a DC scan (Ss = 0) is
    read: the input then stays one iMCU row further ahead.  Otherwise it
    calls consume_input; when that suspends, it returns JPEG_SUSPENDED with
    the sample planes untouched.  From a state far enough ahead it calls
    consume_input not at all. *)
Theorem decompress_smooth_data_waits_for_input :
  forall (fuel : nat) (cinfo : jpeg_decompress_struct E) (output_buf : JSAMPIMAGE),
    match decompress_smooth_data inverse_DCT consume_input fuel cinfo output_buf with
    | Some (r, cinfo', output_buf') =>
        (r = JPEG_SUSPENDED /\ output_buf' = output_buf
         /\ exists waiting,
              ~ input_ahead_for_smoothing waiting
              /\ consume_input waiting = (JPEG_SUSPENDED, cinfo'))
        \/ (exists fed,
              smooth_force_input consume_input fuel cinfo = Some (inl fed)
              /\ input_ahead_for_smoothing fed
              /\ (Ss fed = 0 -> eoi_reached fed = false ->
                  input_scan_number fed <= output_scan_number fed ->
                  JDIM (output_iMCU_row fed + 1) < input_iMCU_row fed)
              /\ output_buf' = snd (smooth_output inverse_DCT fed output_buf)
              /\ (r, cinfo') = advance_output (fst (smooth_output inverse_DCT fed output_buf))
              /\ r <> JPEG_SUSPENDED)
    | None => smooth_force_input consume_input fuel cinfo = None
    end
    /\ (input_ahead_for_smoothing cinfo ->
        decompress_smooth_data inverse_DCT consume_input fuel cinfo output_buf
        = Some (fst (advance_output (fst (smooth_output inverse_DCT cinfo output_buf))),
                snd (advance_output (fst (smooth_output inverse_DCT cinfo output_buf))),
                snd (smooth_output inverse_DCT cinfo output_buf))).
Proof.
  intros fuel cinfo output_buf. split.
  - unfold decompress_smooth_data.
    pose proof (smooth_force_input_result fuel cinfo) as Hres.
    destruct (smooth_force_input consume_input fuel cinfo) as [[fed|[r cinfo']]|];
      [|left|reflexivity].
    + destruct (smooth_output inverse_DCT fed output_buf) as [c1 out1] eqn:Hout.
      destruct (advance_output c1) as [r c2] eqn:Hadv.
      right. exists fed. rewrite Hout. simpl. rewrite Hadv.
      split; [reflexivity|]. split; [exact Hres|].
      split.
      { intros HSs Heoi Hscan. destruct Hres as [Ha|[Ha|[Ha Hb]]]; [congruence|lia|].
        rewrite HSs in Hb. exact Hb. }
      split; [reflexivity|]. split; [reflexivity|].
      unfold advance_output in Hadv.
      destruct (_ <? _) in Hadv; injection Hadv as <- _; discriminate.
    + destruct Hres as [-> Hw]. by repeat split.
  - intros Hahead. unfold decompress_smooth_data.
    rewrite (smooth_force_input_ahead fuel cinfo Hahead).
    destruct (smooth_output inverse_DCT cinfo output_buf) as [c1 out1]. simpl.
    destruct (advance_output c1) as [r c2]. reflexivity.
Qed.

End SmoothingInput.

(** ** The dead zone of the estimates *)

Lemma smooth_pred_dead_zone Q Al num :
  0 < Q -> Z.abs num < 128 * Q -> smooth_pred Q Al num = 0.
Proof.
  intros HQ Hnum. unfold smooth_pred. rewrite (Z.shiftl_mul_pow2 Q 7), (Z.shiftl_mul_pow2 Q 8) by lia.
  change (2 ^ 7) with 128. change (2 ^ 8) with 256.
  assert (Hclamp : forall p, p = 0 ->
            (if (0 <? Al) && (Z.shiftl 1 Al <=? p) then Z.shiftl 1 Al - 1 else p) = 0).
  { intros p ->. destruct (Z.ltb_spec 0 Al) as [HAl|HAl]; [|reflexivity]. simpl.
    rewrite Z.shiftl_mul_pow2 by lia.
    destruct (Z.leb_spec (1 * 2 ^ Al) 0) as [Hle|Hgt]; [|reflexivity].
    pose proof (Z.pow_pos_nonneg 2 Al). lia. }
  destruct (Z.leb_spec 0 num) as [Hpos|Hneg]; cbv zeta.
  - apply Hclamp. apply Z.quot_small. lia.
  - rewrite Hclamp; [reflexivity|]. apply Z.quot_small. lia.
Qed.

Lemma estimate_coef_dead_zone Al pos Q num (workspace : JBLOCK) :
  0 < Q -> Z.abs num < 128 * Q -> estimate_coef Al pos Q num workspace = workspace.
Proof.
  intros HQ Hnum. unfold estimate_coef.
  destruct (negb (Al =? 0)); [|reflexivity]. simpl.
  destruct (Z.eqb_spec (coef_at workspace pos) 0) as [Hz|Hnz]; [|reflexivity].
  rewrite smooth_pred_dead_zone by assumption. change (to_JCOEF 0) with 0.
  unfold coef_at in Hz. destruct (workspace !! pos) as [x|] eqn:Hx; simpl in Hz.
  - subst x. by apply list_insert_id.
  - apply list_insert_ge. by apply lookup_ge_None.
Qed.

(** X4.  Smoothing has a dead zone: with positive quantizers, a block whose
    five numerators are each below half a quantization step of their
    coefficient (|num| < 128 * Q, the products being scaled by 256) comes
    out of the estimation as it went in; in particular a block in a
    neighbourhood of nine equal DC values is never altered, whatever the
    latched coef_bits entries are. *)
Theorem smoothing_dead_zone :
  forall (coef_bits : list Z) (q : smoothing_quantizers) (dc : dc_window)
    (workspace : JBLOCK),
    0 < Q01 q -> 0 < Q10 q -> 0 < Q20 q -> 0 < Q11 q -> 0 < Q02 q ->
    (Z.abs (num_AC01 (Q00 q) dc) < 128 * Q01 q ->
     Z.abs (num_AC10 (Q00 q) dc) < 128 * Q10 q ->
     Z.abs (num_AC20 (Q00 q) dc) < 128 * Q20 q ->
     Z.abs (num_AC11 (Q00 q) dc) < 128 * Q11 q ->
     Z.abs (num_AC02 (Q00 q) dc) < 128 * Q02 q ->
     smooth_workspace coef_bits q dc workspace = workspace)
    /\ (flat_window dc -> smooth_workspace coef_bits q dc workspace = workspace).
Proof.
  intros coef_bits q dc workspace H01 H10 H20 H11 H02.
  assert (Hzone :
            Z.abs (num_AC01 (Q00 q) dc) < 128 * Q01 q ->
            Z.abs (num_AC10 (Q00 q) dc) < 128 * Q10 q ->
            Z.abs (num_AC20 (Q00 q) dc) < 128 * Q20 q ->
            Z.abs (num_AC11 (Q00 q) dc) < 128 * Q11 q ->
            Z.abs (num_AC02 (Q00 q) dc) < 128 * Q02 q ->
            smooth_workspace coef_bits q dc workspace = workspace).
  { intros N01 N10 N20 N11 N02. unfold smooth_workspace. cbv zeta.
    rewrite (estimate_coef_dead_zone _ 1%nat (Q01 q)) by assumption.
    rewrite (estimate_coef_dead_zone _ 8%nat (Q10 q)) by assumption.
    rewrite (estimate_coef_dead_zone _ 16%nat (Q20 q)) by assumption.
    rewrite (estimate_coef_dead_zone _ 9%nat (Q11 q)) by assumption.
    by rewrite (estimate_coef_dead_zone _ 2%nat (Q02 q)) by assumption. }
  split; [exact Hzone|].
  intros (E1 & E2 & E3 & E4 & E6 & E7 & E8 & E9).
  apply Hzone; unfold num_AC01, num_AC10, num_AC20, num_AC11, num_AC02;
    rewrite ?E1, ?E2, ?E3, ?E4, ?E6, ?E7, ?E8, ?E9;
    match goal with
    | |- Z.abs ?n < _ => replace n with 0 by ring
    end; simpl; lia.
Qed.

Lemma smoothing_dead_zone_witness :
  smooth_workspace dc_only_coef_bits (fetch_quantizers gray16_component)
    {| DC1 := 100; DC2 := 100; DC3 := 100; DC4 := 100; DC5 := 100; DC6 := 100;
       DC7 := 100; DC8 := 100; DC9 := 100 |}
    (dc_block 100)
  = dc_block 100.
Proof.
  refine (proj2 (smoothing_dead_zone dc_only_coef_bits (fetch_quantizers gray16_component)
                   {| DC1 := 100; DC2 := 100; DC3 := 100; DC4 := 100; DC5 := 100;
                      DC6 := 100; DC7 := 100; DC8 := 100; DC9 := 100 |}
                   (dc_block 100) _ _ _ _ _) _).
  - vm_compute. reflexivity.
  - vm_compute. reflexivity.
  - vm_compute. reflexivity.
  - vm_compute. reflexivity.
  - vm_compute. reflexivity.
  - repeat split.
Defined.

(** ** decompress_data: the blocks handed to the inverse DCT *)

Section StoredCalls.
Context {E : Type}.
Variable cinfo : jpeg_decompress_struct E.
Variable calls : list idct_call.

(** X5.  In an output pass over an image whose iMCU rows cover each needed
    component, decompress_data hands the inverse DCT nothing but stored
    blocks of needed components, as stored: each call made for iMCU row
    output_iMCU_row is for a block in one of the component's v_samp_factor
    block rows of that iMCU row, in a row below height_in_blocks and a
    column below width_in_blocks, with output_ptr and output_col at the
    block's place in the sample planes.  Components not needed and the
    padding rows of the last iMCU row are never transformed. *)
Theorem data_output_reads_stored_rows :
  0 <= output_iMCU_row cinfo < total_iMCU_rows cinfo ->
  (forall compptr : jpeg_component_info,
     compptr ∈ components cinfo -> component_needed compptr = true ->
     rows_cover_component cinfo compptr) ->
  extends_with (stored_block_call cinfo) calls
    (data_output recording_inverse_DCT cinfo calls).
Proof.
  intros Hrow Hcover. unfold data_output.
  apply (foreach_indexed_invariant (extends_with (stored_block_call cinfo) calls));
    [|apply extends_with_refl].
  intros k compptr log Hk Hlog.
  destruct (component_needed compptr) eqn:Hneeded; simpl; [|exact Hlog].
  assert (Hgeo : rows_cover_component cinfo compptr).
  { apply Hcover; [|exact Hneeded]. by eapply list_elem_of_lookup_2. }
  destruct (output_block_rows_within cinfo compptr Hgeo Hrow) as (Hrows & Hheight & _).
  destruct Hgeo as (Hv & _ & _ & Hmax).
  unfold for_range at 1.
  pose proof (for_loop_indexed_invariant
                (fun block_row st =>
                   extends_with (stored_block_call cinfo) calls (fst st)
                   /\ snd st = block_row * DCT_scaled_size compptr)) as Houter.
  match goal with
  | |- extends_with _ _ (fst (for_loop ?n ?lo ?body ?s)) =>
      specialize (Houter body n lo s)
  end.
  apply Houter; [|by split].
  clear Houter. intros block_row [log1 output_ptr] Hbr [Hlog1 Hptr]. simpl in Hlog1, Hptr.
  subst output_ptr. split; [|simpl; ring].
  cbn [fst]. unfold for_range.
  pose proof (for_loop_indexed_invariant
                (fun block_num st =>
                   extends_with (stored_block_call cinfo) calls (fst st)
                   /\ snd st = JDIM (block_num * DCT_scaled_size compptr))) as Hinner.
  match goal with
  | |- extends_with _ _ (fst (for_loop ?n ?lo ?body ?s)) =>
      specialize (Hinner body n lo s)
  end.
  apply Hinner; [|by split].
  clear Hinner. intros block_num [log2 output_col] Hbn [Hlog2 Hcol]. simpl in Hlog2, Hcol.
  subst output_col. split; [|simpl; rewrite JDIM_add_l; f_equal; ring].
  cbn [fst]. apply extends_with_record; [exact Hlog2|].
  exists compptr, block_row, block_num. simpl.
  split; [lia|]. split; [by replace (Z.to_nat (0 + Z.of_nat k)) with k by lia|].
  split; [exact Hneeded|]. split; [lia|]. split; [lia|]. split; [lia|].
  split; [|by split].
  f_equal. rewrite JDIM_small by nia. apply buffer_row_window; [nia|lia].
Qed.

End StoredCalls.

Lemma data_output_reads_stored_rows_witness :
  extends_with (stored_block_call (start_output_pass (gray16_buffered 0%nat))) []
    (data_output recording_inverse_DCT (start_output_pass (gray16_buffered 0%nat)) []).
Proof.
  apply (data_output_reads_stored_rows (start_output_pass (gray16_buffered 0%nat)) []).
  - simpl. lia.
  - intros compptr Hin _. apply list_elem_of_singleton in Hin. subst compptr.
    unfold rows_cover_component. simpl. lia.
Defined.

(** ** consume_data: where it writes *)

Lemma map_alter_same {A B : Type} (g : A -> B) (f : A -> A) (l : list A) :
  (forall x, g (f x) = g x) -> forall i : nat, map g (alter f i l) = map g l.
Proof.
  intros Hgf. induction l as [|a l IH]; intros [|i]; simpl; try reflexivity.
  - by rewrite Hgf.
  - f_equal. apply IH.
Qed.

Lemma store_block_shape img p b : store_shape (store_block img p b) = store_shape img.
Proof.
  unfold store_block, store_shape.
  destruct ((bp_array p <? 0) || (bp_row p <? 0) || (bp_col p <? 0)); [reflexivity|].
  apply map_alter_same. intros arr. apply map_alter_same.
  intros row. apply length_insert.
Qed.

Lemma store_block_other_row img p b ci row :
  bp_array p <> ci \/ bp_row p <> row ->
  buffer_row (array_at (store_block img p b) ci) row = buffer_row (array_at img ci) row.
Proof.
  intros Hother. unfold store_block.
  destruct (Z.ltb_spec (bp_array p) 0) as [?|Ha]; [reflexivity|].
  destruct (Z.ltb_spec (bp_row p) 0) as [?|Hr]; [reflexivity|].
  destruct (Z.ltb_spec (bp_col p) 0) as [?|Hc]; [reflexivity|]. simpl.
  unfold array_at. destruct (Z.ltb_spec ci 0) as [?|Hci]; [reflexivity|].
  destruct (decide (bp_array p = ci)) as [Heq|Hne].
  - subst ci. rewrite list_lookup_alter_eq.
    destruct (img !! Z.to_nat (bp_array p)) as [arr|]; simpl; [|reflexivity].
    unfold buffer_row. destruct (Z.ltb_spec row 0) as [?|Hrow]; [reflexivity|].
    rewrite list_lookup_alter_ne by lia. reflexivity.
  - rewrite list_lookup_alter_ne by lia. reflexivity.
Qed.

Lemma store_blocks_shape ps : forall img bs,
  store_shape (store_blocks img ps bs) = store_shape img.
Proof.
  induction ps as [|p ps IH]; intros img [|b bs]; simpl; try reflexivity.
  by rewrite IH, store_block_shape.
Qed.

Lemma store_blocks_other_row ci row ps : forall img bs,
  Forall (fun p => bp_array p <> ci \/ bp_row p <> row) ps ->
  buffer_row (array_at (store_blocks img ps bs) ci) row = buffer_row (array_at img ci) row.
Proof.
  induction ps as [|p ps IH]; intros img [|b bs] Hps; simpl; try reflexivity.
  inversion Hps as [|? ? Hp Hps']; subst.
  rewrite IH by exact Hps'. by apply store_block_other_row.
Qed.

(** The pointers built for an MCU point into the rows of the iMCU row. *)
Lemma MCU_block_pointers_rows {E : Type} (cinfo : jpeg_decompress_struct E)
    (yoffset MCU_col_num : Z) :
  0 <= yoffset < MCU_rows_per_iMCU_row (coef cinfo) ->
  Forall
    (fun p =>
       exists compptr : jpeg_component_info,
         compptr ∈ scan_components cinfo
         /\ bp_array p = component_index compptr
         /\ JDIM (input_iMCU_row cinfo * v_samp_factor compptr) <= bp_row p
         /\ bp_row p
            < JDIM (input_iMCU_row cinfo * v_samp_factor compptr)
              + (MCU_rows_per_iMCU_row (coef cinfo) + MCU_height compptr - 1))
    (MCU_block_pointers cinfo yoffset MCU_col_num).
Proof.
  intros Hy. unfold MCU_block_pointers.
  apply (foreach_indexed_invariant
           (Forall (fun p =>
              exists compptr : jpeg_component_info,
                compptr ∈ scan_components cinfo
                /\ bp_array p = component_index compptr
                /\ JDIM (input_iMCU_row cinfo * v_samp_factor compptr) <= bp_row p
                /\ bp_row p
                   < JDIM (input_iMCU_row cinfo * v_samp_factor compptr)
                     + (MCU_rows_per_iMCU_row (coef cinfo) + MCU_height compptr - 1))));
    [|constructor].
  intros k compptr ps Hk Hps. cbv zeta. unfold for_range at 1.
  match goal with
  | |- Forall ?good (for_loop ?n ?lo ?body ?s) =>
      apply (for_loop_indexed_invariant (fun _ ps => Forall good ps) body n lo s);
        [|exact Hps]
  end.
  intros yindex ps1 Hyi Hps1. unfold for_range.
  apply for_loop_invariant; [|exact Hps1].
  intros xindex ps2 Hps2. apply Forall_app_2; [exact Hps2|].
  constructor; [|constructor]. exists compptr. simpl.
  split; [by eapply list_elem_of_lookup_2|]. split; [reflexivity|]. lia.
Qed.

Section ConsumeFrame.
Context {E : Type}.
Variable decode_mcu : E -> list JBLOCK -> bool * E * list JBLOCK.
Variable finish_input_pass : jpeg_decompress_struct E -> jpeg_decompress_struct E.

Lemma consume_frame_refl (c : jpeg_decompress_struct E) : consume_frame c c.
Proof. by repeat split. Qed.

Lemma consume_MCU_frame c0 yoffset MCU_col_num c :
  0 <= yoffset < MCU_rows_per_iMCU_row (coef c0) ->
  consume_frame c0 c ->
  match consume_MCU decode_mcu yoffset MCU_col_num c with
  | inl c' => consume_frame c0 c'
  | inr (_, c') => consume_frame c0 c'
  end.
Proof.
  intros Hy (Hscan & Hin & Hrows & Hshape & Hout).
  assert (Hstore : forall blocks,
            store_shape (store_blocks (whole_image (coef c))
                           (MCU_block_pointers c yoffset MCU_col_num) blocks)
            = store_shape (whole_image (coef c0))
            /\ forall ci row : Z,
                 outside_input_rows c0 ci row ->
                 buffer_row
                   (array_at (store_blocks (whole_image (coef c))
                                (MCU_block_pointers c yoffset MCU_col_num) blocks) ci) row
                 = buffer_row (array_at (whole_image (coef c0)) ci) row).
  { intros blocks. split; [by rewrite store_blocks_shape|].
    intros ci row Houtside. rewrite <- (Hout ci row Houtside).
    apply store_blocks_other_row.
    pose proof (MCU_block_pointers_rows c yoffset MCU_col_num ltac:(lia)) as Hptrs.
    eapply Forall_impl; [exact Hptrs|]. simpl.
    intros p (compptr & Hc & Harr & Hlo & Hhi).
    destruct (decide (bp_array p = ci)) as [Heq|Hne]; [right|by left].
    rewrite Hscan in Hc. rewrite Hin, Hrows in *.
    destruct (Houtside compptr Hc ltac:(congruence)); lia. }
  unfold consume_MCU. cbv zeta.
  destruct (decode_mcu _ _) as [[ok e] blocks].
  destruct (Hstore blocks) as [Hshape' Hout'].
  destruct ok; simpl; by repeat split.
Qed.

Lemma consume_MCU_row_frame c0 yoffset c :
  0 <= yoffset < MCU_rows_per_iMCU_row (coef c0) ->
  consume_frame c0 c ->
  match consume_MCU_row decode_mcu yoffset c with
  | inl c' => consume_frame c0 c'
  | inr (_, c') => consume_frame c0 c'
  end.
Proof.
  intros Hy Hc. unfold consume_MCU_row.
  pose proof (for_until_invariant (consume_frame c0)
                (fun r : jpeg_code * jpeg_decompress_struct E => consume_frame c0 (snd r))
                (consume_MCU decode_mcu yoffset)) as Hloop.
  specialize (Hloop
    ltac:(intros i s Hs;
          pose proof (consume_MCU_frame c0 yoffset i s Hy Hs) as H;
          destruct (consume_MCU decode_mcu yoffset i s) as [?|[? ?]]; exact H)
    (Z.to_nat (MCUs_per_row c - MCU_ctr (coef c))) (MCU_ctr (coef c)) c Hc).
  destruct (for_until _ _ _ c) as [c'|[r c']]; [|exact Hloop].
  destruct Hloop as (H1 & H2 & H3 & H4 & H5). by repeat split.
Qed.

Lemma consume_rows_frame c :
  0 <= MCU_vert_offset (coef c) ->
  match
    for_until (Z.to_nat (MCU_rows_per_iMCU_row (coef c) - MCU_vert_offset (coef c)))
      (MCU_vert_offset (coef c)) (consume_MCU_row decode_mcu) c
  with
  | inl c' => consume_frame c c'
  | inr (_, c') => consume_frame c c'
  end.
Proof.
  intros Hoff.
  pose proof (for_until_indexed_invariant (consume_frame c)
                (fun r : jpeg_code * jpeg_decompress_struct E => consume_frame c (snd r))
                (consume_MCU_row decode_mcu)
                (Z.to_nat (MCU_rows_per_iMCU_row (coef c) - MCU_vert_offset (coef c)))
                (MCU_vert_offset (coef c)) c) as Hloop.
  specialize (Hloop
    ltac:(intros i s Hi Hs;
          pose proof (consume_MCU_row_frame c i s ltac:(lia) Hs) as H;
          destruct (consume_MCU_row decode_mcu i s) as [?|[? ?]]; exact H)
    (consume_frame_refl c)).
  destruct (for_until _ _ _ c) as [c'|[r c']]; exact Hloop.
Qed.

(** X6.  consume_data writes into the coefficient store only within the
    iMCU row it is reading: whatever the entropy decoder does with the
    blocks it is handed, and whether the call completes or suspends, every
    block row of a virtual array that is not among the rows of row-group
    input_iMCU_row of a component of the scan is afterwards as it was (the
    arrays of components outside the scan entirely), and no array or row
    changes its size.  finish_input_pass belongs to the input controller
    and is taken to leave the store alone. *)
Theorem consume_data_writes_current_rows :
  forall (cinfo cinfo' : jpeg_decompress_struct E) (r : jpeg_code),
    (forall c, whole_image (coef (finish_input_pass c)) = whole_image (coef c)) ->
    0 <= MCU_vert_offset (coef cinfo) ->
    consume_data decode_mcu finish_input_pass cinfo = (r, cinfo') ->
    store_shape (whole_image (coef cinfo')) = store_shape (whole_image (coef cinfo))
    /\ forall ci row : Z,
         outside_input_rows cinfo ci row ->
         buffer_row (array_at (whole_image (coef cinfo')) ci) row
         = buffer_row (array_at (whole_image (coef cinfo)) ci) row.
Proof.
  intros cinfo cinfo' r Hfinish Hoff Hcall. unfold consume_data in Hcall.
  pose proof (consume_rows_frame cinfo Hoff) as Hloops. cbv zeta in Hcall.
  destruct (for_until _ _ _ cinfo) as [c|[r1 c]].
  - destruct Hloops as (_ & _ & _ & Hshape & Hout).
    assert (Himg : whole_image (coef cinfo') = whole_image (coef c)).
    { destruct (_ <? _) in Hcall; injection Hcall as _ <-;
        [reflexivity|by rewrite Hfinish]. }
    rewrite Himg. by split.
  - injection Hcall as _ <-. destruct Hloops as (_ & _ & _ & Hshape & Hout). by split.
Qed.

End ConsumeFrame.

Lemma consume_data_writes_current_rows_witness :
  store_shape
    (whole_image
       (coef (snd (consume_data (decode_given (fun _ => [dc_block 7]))
                     finish_input_pass_upstream (gray16_buffered 0%nat)))))
  = store_shape (whole_image (coef (gray16_buffered 0%nat)))
  /\ buffer_row
       (array_at
          (whole_image
             (coef (snd (consume_data (decode_given (fun _ => [dc_block 7]))
                           finish_input_pass_upstream (gray16_buffered 0%nat))))) 0) 1
     = buffer_row (array_at (whole_image (coef (gray16_buffered 0%nat))) 0) 1.
Proof.
  destruct (consume_data_writes_current_rows (decode_given (fun _ => [dc_block 7]))
              finish_input_pass_upstream (gray16_buffered 0%nat)
              (snd (consume_data (decode_given (fun _ => [dc_block 7]))
                      finish_input_pass_upstream (gray16_buffered 0%nat)))
              (fst (consume_data (decode_given (fun _ => [dc_block 7]))
                      finish_input_pass_upstream (gray16_buffered 0%nat))))
    as [Hshape Hrows].
  - reflexivity.
  - vm_compute. discriminate.
  - apply surjective_pairing.
  - split; [exact Hshape|].
    apply Hrows. intros compptr Hin _. right.
    apply list_elem_of_singleton in Hin. subst compptr. vm_compute. discriminate.
Defined.

(** ** consume_data: suspension and resumption *)

Lemma same_consumed_refl {E : Type} (r : jpeg_code * jpeg_decompress_struct E) :
  same_consumed r r.
Proof. by repeat split. Qed.

Lemma same_consumed_trans {E : Type} (r1 r2 r3 : jpeg_code * jpeg_decompress_struct E) :
  same_consumed r1 r2 -> same_consumed r2 r3 -> same_consumed r1 r3.
Proof.
  intros (Hc & Ho & Hs) (Hc' & Ho' & Hs'). repeat split; [congruence.. |].
  intros Hne. rewrite Hs by exact Hne. apply Hs'. congruence.
Qed.

Lemma same_consumed_sym {E : Type} (r1 r2 : jpeg_code * jpeg_decompress_struct E) :
  same_consumed r1 r2 -> same_consumed r2 r1.
Proof.
  intros (Hc & Ho & Hs). repeat split; [congruence.. |].
  intros Hne. symmetry. apply Hs. congruence.
Qed.

(** Writing a block back where it was read changes nothing. *)
Lemma alter_lookup_id {A : Type} (f : A -> A) (l : list A) (i : nat) :
  (forall x, l !! i = Some x -> f x = x) -> alter f i l = l.
Proof.
  revert i. induction l as [|a l IH]; intros [|i] Hf; simpl; try reflexivity.
  - f_equal. by apply Hf.
  - f_equal. apply IH. intros x Hx. by apply Hf.
Qed.

Lemma store_block_load img p : store_block img p (load_block img p) = img.
Proof.
  unfold store_block, load_block.
  destruct (Z.ltb_spec (bp_array p) 0) as [?|Ha]; [reflexivity|].
  destruct (Z.ltb_spec (bp_row p) 0) as [?|Hr]; [reflexivity|].
  destruct (Z.ltb_spec (bp_col p) 0) as [?|Hc]; [reflexivity|]. simpl.
  apply alter_lookup_id. intros arr Harr.
  apply alter_lookup_id. intros row Hrow.
  unfold array_at, buffer_row, block_at.
  destruct (Z.ltb_spec (bp_array p) 0) as [?|_]; [lia|].
  destruct (Z.ltb_spec (bp_row p) 0) as [?|_]; [lia|].
  destruct (Z.ltb_spec (bp_col p) 0) as [?|_]; [lia|].
  rewrite Harr. simpl. rewrite Hrow. simpl.
  destruct (row !! Z.to_nat (bp_col p)) as [b|] eqn:Hb; simpl.
  - by apply list_insert_id.
  - apply list_insert_ge. by apply lookup_ge_None.
Qed.

Lemma store_blocks_load img ps : store_blocks img ps (map (load_block img) ps) = img.
Proof.
  induction ps as [|p ps IH]; simpl; [reflexivity|].
  by rewrite store_block_load.
Qed.

Lemma set_whole_image_same {E : Type} (cinfo : jpeg_decompress_struct E) :
  on_coef (set_whole_image (whole_image (coef cinfo))) cinfo = cinfo.
Proof. destruct cinfo as [? ? ? ? ? ? ? ? ? ? ? ? ? ? ? ? c ?]. by destruct c. Qed.

Section ConsumeResumption.
Context {E : Type}.
Variable decode_mcu : E -> list JBLOCK -> bool * E * list JBLOCK.
Variable finish_input_pass : jpeg_decompress_struct E -> jpeg_decompress_struct E.
Hypothesis finish_keeps_store :
  forall c, whole_image (coef (finish_input_pass c)) = whole_image (coef c).

Abbreviation ccall := (consume_data decode_mcu finish_input_pass).
Abbreviation cfrom := (consume_from decode_mcu finish_input_pass).
Abbreviation ccolumns_from := (consume_columns_from decode_mcu).
Abbreviation cMCU_row := (consume_MCU_row decode_mcu).
Abbreviation cMCU := (consume_MCU decode_mcu).
Abbreviation ccomplete := (consume_complete finish_input_pass).

Lemma consume_MCU_row_columns yoffset (cinfo : jpeg_decompress_struct E) :
  cMCU_row yoffset cinfo
  = ccolumns_from (Z.to_nat (MCUs_per_row cinfo - MCU_ctr (coef cinfo))) yoffset
      (MCU_ctr (coef cinfo)) cinfo.
Proof. reflexivity. Qed.

(** Entering consume_data is continuing from the saved position. *)
Lemma consume_enter (cinfo : jpeg_decompress_struct E) :
  MCU_vert_offset (coef cinfo) < MCU_rows_per_iMCU_row (coef cinfo) ->
  ccall cinfo
  = cfrom (MCUs_per_row cinfo) (MCU_rows_per_iMCU_row (coef cinfo))
      (MCU_vert_offset (coef cinfo)) (MCU_ctr (coef cinfo)) cinfo.
Proof.
  intros Hrow. unfold consume_data, consume_from.
  replace (Z.to_nat (MCU_rows_per_iMCU_row (coef cinfo) - MCU_vert_offset (coef cinfo)))
    with (S (Z.to_nat (MCU_rows_per_iMCU_row (coef cinfo)
                       - (MCU_vert_offset (coef cinfo) + 1)))) by lia.
  reflexivity.
Qed.

(** With no MCU row left, the call goes straight to the part after the loops. *)
Lemma consume_enter_done (cinfo : jpeg_decompress_struct E) :
  MCU_rows_per_iMCU_row (coef cinfo) <= MCU_vert_offset (coef cinfo) ->
  ccall cinfo = ccomplete (inl cinfo).
Proof.
  intros Hrow. unfold consume_data.
  replace (Z.to_nat (MCU_rows_per_iMCU_row (coef cinfo) - MCU_vert_offset (coef cinfo)))
    with O by lia.
  reflexivity.
Qed.

(** One MCU of the continued call. *)
Lemma consume_from_step per_row rows yoffset MCU_col_num
    (cinfo : jpeg_decompress_struct E) :
  MCU_col_num < per_row ->
  cfrom per_row rows yoffset MCU_col_num cinfo
  = match cMCU yoffset MCU_col_num cinfo with
    | inl cinfo' => cfrom per_row rows yoffset (MCU_col_num + 1) cinfo'
    | inr r => r
    end.
Proof.
  intros Hcol. unfold consume_from, consume_columns_from.
  replace (Z.to_nat (per_row - MCU_col_num))
    with (S (Z.to_nat (per_row - (MCU_col_num + 1)))) by lia.
  simpl. by destruct (cMCU yoffset MCU_col_num cinfo).
Qed.

(** The continued call at the end of an MCU row. *)
Lemma consume_from_row_end per_row rows yoffset MCU_col_num
    (cinfo : jpeg_decompress_struct E) :
  per_row <= MCU_col_num ->
  MCUs_per_row cinfo = per_row ->
  cfrom per_row rows yoffset MCU_col_num cinfo
  = if yoffset + 1 <? rows
    then cfrom per_row rows (yoffset + 1) 0 (on_coef (set_MCU_ctr 0) cinfo)
    else ccomplete (inl (on_coef (set_MCU_ctr 0) cinfo)).
Proof.
  intros Hcol Hper. unfold consume_from at 1, consume_columns_from.
  replace (Z.to_nat (per_row - MCU_col_num)) with O by lia. simpl.
  destruct (Z.ltb_spec (yoffset + 1) rows) as [Hrow|Hrow].
  - replace (Z.to_nat (rows - (yoffset + 1)))
      with (S (Z.to_nat (rows - (yoffset + 1 + 1)))) by lia.
    simpl. rewrite consume_MCU_row_columns. simpl. rewrite Hper.
    unfold consume_from. replace (per_row - 0) with per_row by lia. reflexivity.
  - replace (Z.to_nat (rows - (yoffset + 1))) with O by lia. reflexivity.
Qed.

(** The MCU loops do not read the saved position. *)
Lemma consume_MCU_reposition v k yoffset MCU_col_num (cinfo : jpeg_decompress_struct E) :
  cMCU yoffset MCU_col_num (reposition v k cinfo)
  = match cMCU yoffset MCU_col_num cinfo with
    | inl cinfo' => inl (reposition v k cinfo')
    | inr r => inr r
    end.
Proof.
  unfold consume_MCU. simpl.
  change (MCU_block_pointers (reposition v k cinfo) yoffset MCU_col_num)
    with (MCU_block_pointers cinfo yoffset MCU_col_num).
  destruct (decode_mcu _ _) as [[ok e] blocks]. by destruct ok.
Qed.

Lemma consume_columns_reposition v k m yoffset MCU_col_num
    (cinfo : jpeg_decompress_struct E) :
  ccolumns_from m yoffset MCU_col_num (reposition v k cinfo)
  = match ccolumns_from m yoffset MCU_col_num cinfo with
    | inl cinfo' => inl (on_coef (set_MCU_vert_offset v) cinfo')
    | inr r => inr r
    end.
Proof.
  unfold consume_columns_from.
  rewrite (for_until_map (reposition v k) (cMCU yoffset)
             (consume_MCU_reposition v k yoffset)).
  by destruct (for_until m MCU_col_num (cMCU yoffset) cinfo) as [c|r].
Qed.

Lemma set_offset_reposition v (cinfo : jpeg_decompress_struct E) :
  on_coef (set_MCU_vert_offset v) cinfo = reposition v (MCU_ctr (coef cinfo)) cinfo.
Proof. destruct cinfo as [? ? ? ? ? ? ? ? ? ? ? ? ? ? ? ? c ?]. by destruct c. Qed.

Lemma consume_MCU_row_set_offset v yoffset (cinfo : jpeg_decompress_struct E) :
  cMCU_row yoffset (on_coef (set_MCU_vert_offset v) cinfo)
  = match cMCU_row yoffset cinfo with
    | inl cinfo' => inl (on_coef (set_MCU_vert_offset v) cinfo')
    | inr r => inr r
    end.
Proof.
  rewrite !consume_MCU_row_columns. simpl.
  rewrite set_offset_reposition. apply consume_columns_reposition.
Qed.

Lemma consume_rows_set_offset v n yoffset (cinfo : jpeg_decompress_struct E) :
  for_until n yoffset cMCU_row (on_coef (set_MCU_vert_offset v) cinfo)
  = match for_until n yoffset cMCU_row cinfo with
    | inl cinfo' => inl (on_coef (set_MCU_vert_offset v) cinfo')
    | inr r => inr r
    end.
Proof.
  apply (for_until_map (on_coef (set_MCU_vert_offset v)) cMCU_row).
  intros i s. apply consume_MCU_row_set_offset.
Qed.

(** The part after the loops does not depend on the saved row, except in
    the state handed to finish_input_pass. *)
Lemma consume_complete_set_offset v (cinfo : jpeg_decompress_struct E) :
  same_consumed (ccomplete (inl (on_coef (set_MCU_vert_offset v) cinfo)))
    (ccomplete (inl cinfo)).
Proof.
  unfold consume_complete. simpl.
  destruct (_ <? _); repeat split; simpl; try congruence.
  by rewrite !finish_keeps_store.
Qed.

(** The continued call does not depend on the saved position. *)
Lemma consume_from_reposition v k per_row rows yoffset MCU_col_num
    (cinfo : jpeg_decompress_struct E) :
  same_consumed (cfrom per_row rows yoffset MCU_col_num (reposition v k cinfo))
    (cfrom per_row rows yoffset MCU_col_num cinfo).
Proof.
  unfold consume_from. rewrite consume_columns_reposition.
  destruct (ccolumns_from _ yoffset MCU_col_num cinfo) as [c|r];
    [|apply same_consumed_refl].
  rewrite consume_rows_set_offset.
  destruct (for_until _ _ _ c) as [c'|r]; [|apply same_consumed_refl].
  apply consume_complete_set_offset.
Qed.

Lemma consume_MCU_inl_position yoffset MCU_col_num
    (cinfo cinfo' : jpeg_decompress_struct E) :
  cMCU yoffset MCU_col_num cinfo = inl cinfo' ->
  MCU_vert_offset (coef cinfo') = MCU_vert_offset (coef cinfo)
  /\ MCU_ctr (coef cinfo') = MCU_ctr (coef cinfo)
  /\ MCUs_per_row cinfo' = MCUs_per_row cinfo
  /\ MCU_rows_per_iMCU_row (coef cinfo') = MCU_rows_per_iMCU_row (coef cinfo).
Proof.
  unfold consume_MCU. cbv zeta.
  destruct (decode_mcu _ _) as [[ok e] blocks].
  destruct ok; simpl; intros Heq; inversion Heq; subst; by repeat split.
Qed.

(** When the loop body leaves the function, it is with JPEG_SUSPENDED and
    the loop variables saved; the iMCU row counter is as it was. *)
Lemma consume_MCU_inr_position yoffset MCU_col_num
    (cinfo cinfo' : jpeg_decompress_struct E) r :
  cMCU yoffset MCU_col_num cinfo = inr (r, cinfo') ->
  r = JPEG_SUSPENDED
  /\ MCU_vert_offset (coef cinfo') = yoffset /\ MCU_ctr (coef cinfo') = MCU_col_num
  /\ input_iMCU_row cinfo' = input_iMCU_row cinfo.
Proof.
  unfold consume_MCU. cbv zeta.
  destruct (decode_mcu _ _) as [[ok e] blocks].
  destruct ok; simpl; intros Heq; inversion Heq; subst; by repeat split.
Qed.

(** Resuming after one more MCU: a call entered at a position where the
    decoder delivers an MCU is a call entered at the next position, in the
    state that MCU leaves. *)
Lemma consume_resume_after_MCU (cinfo cinfo' : jpeg_decompress_struct E) :
  MCU_vert_offset (coef cinfo) < MCU_rows_per_iMCU_row (coef cinfo) ->
  input_resumable cinfo ->
  cMCU (MCU_vert_offset (coef cinfo)) (MCU_ctr (coef cinfo)) cinfo = inl cinfo' ->
  same_consumed (ccall cinfo) (ccall (advance_input_position cinfo')).
Proof.
  intros Hrow Hcol Hmcu.
  destruct (consume_MCU_inl_position _ _ _ _ Hmcu) as (Hv & Hk & Hper & Hrows).
  rewrite (consume_enter cinfo Hrow).
  rewrite consume_from_step by apply Hcol. rewrite Hmcu.
  unfold advance_input_position. rewrite Hv, Hk, Hper.
  set (P := MCUs_per_row cinfo) in *.
  set (R := MCU_rows_per_iMCU_row (coef cinfo)) in *.
  set (y := MCU_vert_offset (coef cinfo)) in *.
  set (k := MCU_ctr (coef cinfo)) in *.
  unfold input_resumable in Hcol. fold P k in Hcol.
  destruct (Z.ltb_spec (k + 1) P) as [Hlt|Hge].
  - rewrite consume_enter by (simpl; rewrite Hrows; exact Hrow).
    simpl. rewrite Hper, Hrows. fold P R.
    apply same_consumed_sym. apply consume_from_reposition.
  - rewrite consume_from_row_end by (first [lia | exact Hper]).
    assert (Hzero : on_coef (set_MCU_ctr 0) cinfo' = reposition y 0 cinfo').
    { rewrite <- Hv.
      destruct cinfo' as [? ? ? ? ? ? ? ? ? ? ? ? ? ? ? ? c ?]. by destruct c. }
    destruct (Z.ltb_spec (y + 1) R) as [Hnext|Hlast].
    + rewrite consume_enter by (simpl; rewrite Hrows; exact Hnext).
      simpl. rewrite Hper, Hrows. fold P R. rewrite Hzero.
      eapply same_consumed_trans; [apply consume_from_reposition|].
      apply same_consumed_sym. apply consume_from_reposition.
    + rewrite consume_enter_done by (simpl; rewrite Hrows; exact Hlast).
      apply same_consumed_sym.
      exact (consume_complete_set_offset (y + 1) (on_coef (set_MCU_ctr 0) cinfo')).
Qed.

(** A call entered at a position where the decoder fails returns at once. *)
Lemma consume_suspend_at_entry (cinfo : jpeg_decompress_struct E) r :
  MCU_vert_offset (coef cinfo) < MCU_rows_per_iMCU_row (coef cinfo) ->
  input_resumable cinfo ->
  cMCU (MCU_vert_offset (coef cinfo)) (MCU_ctr (coef cinfo)) cinfo = inr r ->
  ccall cinfo = r.
Proof.
  intros Hrow Hcol Hmcu. rewrite (consume_enter cinfo Hrow).
  rewrite consume_from_step by apply Hcol. by rewrite Hmcu.
Qed.

End ConsumeResumption.

Section ConsumeStalls.
Context {E : Type}.
Variable decode_mcu : E -> list JBLOCK -> bool * E * list JBLOCK.
Variable finish_input_pass :
  jpeg_decompress_struct (E * list bool) -> jpeg_decompress_struct (E * list bool).
Hypothesis finish_keeps_store :
  forall c, whole_image (coef (finish_input_pass c)) = whole_image (coef c).

Abbreviation stalling_consume := (consume_data (stalling decode_mcu) finish_input_pass).
Abbreviation stalling_cMCU := (consume_MCU (stalling decode_mcu)).
Abbreviation pass := (consumed_store (consume_data (stalling decode_mcu) finish_input_pass)).

(** A scheduled stall: the decoder fails, the position is saved, and the
    store is as it was. *)
Lemma consume_MCU_stall yoffset MCU_col_num sched
    (cinfo : jpeg_decompress_struct (E * list bool)) :
  stalling_cMCU yoffset MCU_col_num (with_schedule (true :: sched) cinfo)
  = inr (JPEG_SUSPENDED, reposition yoffset MCU_col_num (with_schedule sched cinfo)).
Proof.
  unfold consume_MCU, stalling. simpl.
  change (MCU_block_pointers (with_schedule (true :: sched) cinfo) yoffset MCU_col_num)
    with (MCU_block_pointers cinfo yoffset MCU_col_num).
  rewrite store_blocks_load.
  rewrite <- (set_whole_image_same cinfo) at 3. reflexivity.
Qed.

(** No stall scheduled: the call is passed on to the decoder. *)
Lemma consume_MCU_pass yoffset MCU_col_num sched
    (cinfo : jpeg_decompress_struct (E * list bool)) :
  sched = [] \/ (exists rest, sched = false :: rest) ->
  stalling_cMCU yoffset MCU_col_num (with_schedule sched cinfo)
  = match
      decode_mcu (fst (entropy cinfo))
        (map (load_block (whole_image (coef cinfo)))
           (MCU_block_pointers cinfo yoffset MCU_col_num))
    with
    | (true, e, blocks) =>
        inl (with_schedule (tail sched) (consumed e blocks yoffset MCU_col_num cinfo))
    | (false, e, blocks) =>
        inr (JPEG_SUSPENDED,
             reposition yoffset MCU_col_num
               (with_schedule (tail sched)
                  (consumed e blocks yoffset MCU_col_num cinfo)))
    end.
Proof.
  intros [->|[rest ->]]; unfold consume_MCU, stalling; simpl;
    change (MCU_block_pointers (with_schedule _ cinfo) yoffset MCU_col_num)
      with (MCU_block_pointers cinfo yoffset MCU_col_num);
    destruct (decode_mcu _ _) as [[ok e] blocks]; by destruct ok.
Qed.

Lemma pass_step fuel (cinfo : jpeg_decompress_struct (E * list bool)) :
  pass (S fuel) cinfo
  = match stalling_consume cinfo with
    | (JPEG_SCAN_COMPLETED, cinfo') => Some (whole_image (coef cinfo'))
    | (_, cinfo') => pass fuel cinfo'
    end.
Proof.
  unfold consumed_store. simpl.
  destruct (stalling_consume cinfo) as [r c]. by destruct r.
Qed.

(** The driver cannot tell two calls with the same outcome apart. *)
Lemma pass_same_consumed fuel (cinfo cinfo' : jpeg_decompress_struct (E * list bool)) :
  same_consumed (stalling_consume cinfo) (stalling_consume cinfo') ->
  pass fuel cinfo = pass fuel cinfo'.
Proof.
  intros Hsame. destruct fuel as [|fuel]; [reflexivity|]. rewrite !pass_step.
  destruct (stalling_consume cinfo) as [r1 c1].
  destruct (stalling_consume cinfo') as [r2 c2].
  destruct Hsame as (Hr & Ho & Hc). simpl in *. subst r2.
  destruct r1; try (rewrite (Hc ltac:(discriminate))); try reflexivity.
  by rewrite Ho.
Qed.

Lemma advance_input_position_with_schedule sched
    (cinfo : jpeg_decompress_struct (E * list bool)) :
  advance_input_position (with_schedule sched cinfo)
  = with_schedule sched (advance_input_position cinfo).
Proof. unfold advance_input_position. simpl. by destruct (_ <? _). Qed.

Lemma advance_input_position_resumable (cinfo : jpeg_decompress_struct (E * list bool)) :
  input_resumable cinfo -> input_resumable (advance_input_position cinfo).
Proof.
  unfold input_resumable, advance_input_position. intros Hcol.
  destruct (Z.ltb_spec (MCU_ctr (coef cinfo) + 1) (MCUs_per_row cinfo)); simpl; lia.
Qed.

Lemma consumed_resumable e blocks yoffset MCU_col_num
    (cinfo : jpeg_decompress_struct (E * list bool)) :
  input_resumable cinfo -> input_resumable (consumed e blocks yoffset MCU_col_num cinfo).
Proof. exact (fun H => H). Qed.

(** Stalls are absorbed: if the input pass leaves the store [store] with
    no stall in [fuel] calls, it leaves the same store under the schedule
    [sched] in as many calls more as the schedule has stalls. *)
Lemma consume_stalls_absorbed (k : nat) :
  forall (sched : list bool) (fuel : nat)
    (cinfo : jpeg_decompress_struct (E * list bool)) (store : list jvirt_barray),
    (fuel + length sched <= k)%nat ->
    input_resumable cinfo ->
    pass fuel (with_schedule [] cinfo) = Some store ->
    pass (fuel + stalls sched) (with_schedule sched cinfo) = Some store.
Proof.
  induction k as [|k IH]; intros sched fuel cinfo store Hk Hcol Hrun.
  { destruct fuel; [discriminate | lia]. }
  destruct sched as [|b sched]; [by rewrite Nat.add_0_r|].
  destruct fuel as [|fuel]; [discriminate|].
  simpl in Hk.
  destruct (Z.lt_ge_cases (MCU_vert_offset (coef cinfo))
              (MCU_rows_per_iMCU_row (coef cinfo))) as [Hrow|Hrow].
  2: { (* no MCU row left: neither call reaches the decoder *)
    change (S fuel + stalls (b :: sched))%nat with (S (fuel + stalls (b :: sched))).
    rewrite pass_step in Hrun |- *.
    rewrite (consume_enter_done _ _ (with_schedule [] cinfo)) in Hrun by exact Hrow.
    rewrite (consume_enter_done _ _ (with_schedule (b :: sched) cinfo)) by exact Hrow.
    unfold consume_complete in *. simpl in *.
    destruct (_ <? _).
    - set (next := start_iMCU_row
                     (set_input_iMCU_row (JDIM (input_iMCU_row cinfo + 1)) cinfo)).
      change (pass fuel (with_schedule [] next) = Some store) in Hrun.
      change (pass (fuel + stalls (b :: sched)) (with_schedule (b :: sched) next)
              = Some store).
      apply (IH (b :: sched) fuel next store); [simpl; lia | | exact Hrun].
      unfold input_resumable in *. simpl. lia.
    - rewrite finish_keeps_store in Hrun |- *. exact Hrun. }
  destruct b.
  - (* a stall: the call suspends where it was entered *)
    change (S fuel + stalls (true :: sched))%nat with (S (fuel + S (stalls sched))).
    rewrite pass_step.
    rewrite (consume_suspend_at_entry _ _ (with_schedule (true :: sched) cinfo)
               _ Hrow Hcol (consume_MCU_stall _ _ sched cinfo)).
    assert (Hpos :
      reposition (MCU_vert_offset (coef (with_schedule (true :: sched) cinfo)))
        (MCU_ctr (coef (with_schedule (true :: sched) cinfo)))
        (with_schedule sched cinfo)
      = with_schedule sched cinfo)
      by exact (reposition_same (with_schedule sched cinfo)).
    rewrite Hpos. clear Hpos.
    rewrite Nat.add_succ_r.
    apply (IH sched (S fuel) cinfo); [lia | exact Hcol | exact Hrun].
  - (* no stall: the decoder is called *)
    change (S fuel + stalls (false :: sched))%nat with (S fuel + stalls sched)%nat.
    pose proof (consume_MCU_pass (MCU_vert_offset (coef cinfo)) (MCU_ctr (coef cinfo))
                  [] cinfo (or_introl eq_refl)) as Href.
    pose proof (consume_MCU_pass (MCU_vert_offset (coef cinfo)) (MCU_ctr (coef cinfo))
                  (false :: sched) cinfo
                  (or_intror (ex_intro _ sched eq_refl))) as Hstall.
    destruct (decode_mcu (fst (entropy cinfo))
                (map (load_block (whole_image (coef cinfo)))
                   (MCU_block_pointers cinfo (MCU_vert_offset (coef cinfo))
                      (MCU_ctr (coef cinfo)))))
      as [[ok e] blocks].
    destruct ok; cbv beta iota in Href, Hstall.
    + pose proof (consume_resume_after_MCU (stalling decode_mcu) finish_input_pass
                    finish_keeps_store (with_schedule [] cinfo) _
                    Hrow Hcol Href) as Hsame_ref.
      pose proof (consume_resume_after_MCU (stalling decode_mcu) finish_input_pass
                    finish_keeps_store (with_schedule (false :: sched) cinfo) _
                    Hrow Hcol Hstall) as Hsame_stall.
      rewrite advance_input_position_with_schedule in Hsame_ref, Hsame_stall.
      rewrite (pass_same_consumed _ _ _ Hsame_ref) in Hrun.
      rewrite (pass_same_consumed _ _ _ Hsame_stall).
      apply (IH sched (S fuel)
               (advance_input_position
                  (consumed e blocks (MCU_vert_offset (coef cinfo))
                     (MCU_ctr (coef cinfo)) cinfo)));
        [lia | by apply advance_input_position_resumable | exact Hrun].
    + change (S fuel + stalls sched)%nat with (S (fuel + stalls sched)).
      rewrite pass_step in Hrun |- *.
      rewrite (consume_suspend_at_entry _ _ (with_schedule [] cinfo)
                 _ Hrow Hcol Href) in Hrun.
      rewrite (consume_suspend_at_entry _ _ (with_schedule (false :: sched) cinfo)
                 _ Hrow Hcol Hstall).
      apply (IH sched fuel
               (reposition (MCU_vert_offset (coef cinfo)) (MCU_ctr (coef cinfo))
                  (consumed e blocks (MCU_vert_offset (coef cinfo))
                     (MCU_ctr (coef cinfo)) cinfo)));
        [lia | exact Hcol | exact Hrun].
Qed.

(** *** An input pass with no stall completes one iMCU row per call *)

Hypothesis decode_mcu_succeeds :
  forall (e : E) (blocks : list JBLOCK), fst (fst (decode_mcu e blocks)) = true.

Lemma consume_MCU_unstalled c0 yoffset MCU_col_num
    (c : jpeg_decompress_struct (E * list bool)) :
  snd (entropy c) = [] /\ same_scan c0 c ->
  match stalling_cMCU yoffset MCU_col_num c with
  | inl c' => snd (entropy c') = [] /\ same_scan c0 c'
  | inr _ => False
  end.
Proof.
  intros [Hsched Hscan]. unfold consume_MCU, stalling. simpl. rewrite Hsched.
  pose proof (decode_mcu_succeeds (fst (entropy c))
                (map (load_block (whole_image (coef c)))
                   (MCU_block_pointers c yoffset MCU_col_num))) as Hok.
  destruct (decode_mcu _ _) as [[ok e] blocks]. simpl in Hok. subst ok. simpl.
  split; [reflexivity | exact Hscan].
Qed.

Lemma consume_MCU_row_unstalled c0 yoffset
    (c : jpeg_decompress_struct (E * list bool)) :
  snd (entropy c) = [] /\ same_scan c0 c ->
  match consume_MCU_row (stalling decode_mcu) yoffset c with
  | inl c' => snd (entropy c') = [] /\ same_scan c0 c'
  | inr _ => False
  end.
Proof.
  intros Hc. unfold consume_MCU_row.
  pose proof (for_until_invariant
    (fun c : jpeg_decompress_struct (E * list bool) =>
       snd (entropy c) = [] /\ same_scan c0 c)
    (fun _ : jpeg_code * jpeg_decompress_struct (E * list bool) => False)
    (stalling_cMCU yoffset)
    (fun i s => consume_MCU_unstalled c0 yoffset i s)
    (Z.to_nat (MCUs_per_row c - MCU_ctr (coef c)))
    (MCU_ctr (coef c)) c Hc) as Hloop.
  destruct (for_until _ _ _ c) as [c'|r]; exact Hloop.
Qed.

(** With no stall scheduled and a decoder that delivers, a call completes
    its iMCU row. *)
Lemma consume_call_unstalled (cinfo : jpeg_decompress_struct (E * list bool)) :
  snd (entropy cinfo) = [] ->
  0 <= input_iMCU_row cinfo < total_iMCU_rows cinfo ->
  total_iMCU_rows cinfo < 2 ^ 32 ->
  exists cinfo',
    stalling_consume cinfo
    = (if input_iMCU_row cinfo + 1 <? total_iMCU_rows cinfo
       then JPEG_ROW_COMPLETED else JPEG_SCAN_COMPLETED, cinfo')
    /\ (input_iMCU_row cinfo + 1 < total_iMCU_rows cinfo ->
        input_iMCU_row cinfo' = input_iMCU_row cinfo + 1
        /\ total_iMCU_rows cinfo' = total_iMCU_rows cinfo
        /\ snd (entropy cinfo') = []).
Proof.
  intros Hsched Hin Htot. unfold consume_data.
  pose proof (for_until_invariant
    (fun c : jpeg_decompress_struct (E * list bool) =>
       snd (entropy c) = [] /\ same_scan cinfo c)
    (fun _ : jpeg_code * jpeg_decompress_struct (E * list bool) => False)
    (consume_MCU_row (stalling decode_mcu))
    (fun i s => consume_MCU_row_unstalled cinfo i s)
    (Z.to_nat (MCU_rows_per_iMCU_row (coef cinfo) - MCU_vert_offset (coef cinfo)))
    (MCU_vert_offset (coef cinfo)) cinfo
    (conj Hsched (same_scan_refl cinfo))) as Hloop.
  destruct (for_until _ _ _ cinfo) as [c|r]; [|contradiction].
  destruct Hloop as (Hs & Hi & Ho & Ht & _).
  simpl. rewrite Hi, Ht.
  rewrite (JDIM_small (input_iMCU_row cinfo + 1)) by lia.
  destruct (Z.ltb_spec (input_iMCU_row cinfo + 1) (total_iMCU_rows cinfo)).
  - eexists. split; [reflexivity|]. intros _. simpl. by repeat split.
  - eexists. split; [reflexivity|]. lia.
Qed.

Lemma pass_unstalled (n : nat) :
  forall cinfo : jpeg_decompress_struct (E * list bool),
    snd (entropy cinfo) = [] ->
    0 <= input_iMCU_row cinfo ->
    input_iMCU_row cinfo + Z.of_nat (S n) = total_iMCU_rows cinfo ->
    total_iMCU_rows cinfo < 2 ^ 32 ->
    exists store, pass (S n) cinfo = Some store.
Proof.
  induction n as [|n IH]; intros cinfo Hsched Hin Hleft Htot.
  - destruct (consume_call_unstalled cinfo Hsched ltac:(lia) Htot) as (c' & Hcall & _).
    rewrite pass_step, Hcall.
    destruct (Z.ltb_spec (input_iMCU_row cinfo + 1) (total_iMCU_rows cinfo)); [lia|].
    by eexists.
  - destruct (consume_call_unstalled cinfo Hsched ltac:(lia) Htot)
      as (c' & Hcall & Hnext).
    rewrite pass_step, Hcall.
    destruct (Z.ltb_spec (input_iMCU_row cinfo + 1) (total_iMCU_rows cinfo)); [|lia].
    destruct (Hnext ltac:(lia)) as (Hi & Ht & Hs).
    exact (IH c' Hs ltac:(lia) ltac:(lia) ltac:(lia)).
Qed.

End ConsumeStalls.

(** X7.  Suspension of the multi-pass consumer is transparent.  Whenever
    decode_mcu fails in the MCU loop of consume_data, the loop variables
    are saved in MCU_vert_offset and MCU_ctr and JPEG_SUSPENDED is
    returned with the iMCU row counter as it was; a stall at the position
    a call is entered at returns the state it was entered with, the
    coefficient store included.  And for a decoder that delivers every MCU
    when it is not stalled, an input pass under any schedule of stalls, the
    caller retrying after each JPEG_SUSPENDED, leaves the coefficient store
    of the pass with no stall: no block is written twice or skipped.
    finish_input_pass belongs to the input controller and is taken to
    leave the store alone. *)
Theorem consume_suspension_is_transparent :
  forall (E : Type)
    (decode_mcu : E -> list JBLOCK -> bool * E * list JBLOCK)
    (finish_input_pass :
       jpeg_decompress_struct (E * list bool) -> jpeg_decompress_struct (E * list bool))
    (cinfo : jpeg_decompress_struct (E * list bool)) (sched : list bool),
    (forall (e : E) (blocks : list JBLOCK), fst (fst (decode_mcu e blocks)) = true) ->
    (forall c, whole_image (coef (finish_input_pass c)) = whole_image (coef c)) ->
    input_resumable cinfo ->
    0 <= input_iMCU_row cinfo < total_iMCU_rows cinfo ->
    total_iMCU_rows cinfo < 2 ^ 32 ->
    (forall yoffset MCU_col_num c c' r,
        consume_MCU (stalling decode_mcu) yoffset MCU_col_num c = inr (r, c') ->
        r = JPEG_SUSPENDED
        /\ MCU_vert_offset (coef c') = yoffset /\ MCU_ctr (coef c') = MCU_col_num
        /\ input_iMCU_row c' = input_iMCU_row c)
    /\ (MCU_vert_offset (coef cinfo) < MCU_rows_per_iMCU_row (coef cinfo) ->
        consume_data (stalling decode_mcu) finish_input_pass
          (with_schedule (true :: sched) cinfo)
        = (JPEG_SUSPENDED, with_schedule sched cinfo))
    /\ exists store : list jvirt_barray,
         consumed_store (consume_data (stalling decode_mcu) finish_input_pass)
           (Z.to_nat (total_iMCU_rows cinfo - input_iMCU_row cinfo))
           (with_schedule [] cinfo)
         = Some store
         /\ consumed_store (consume_data (stalling decode_mcu) finish_input_pass)
              (Z.to_nat (total_iMCU_rows cinfo - input_iMCU_row cinfo) + stalls sched)
              (with_schedule sched cinfo)
            = Some store.
Proof.
  intros E decode_mcu finish_input_pass cinfo sched Hdecode Hfinish Hcol Hin Htot.
  split; [|split].
  - intros yoffset MCU_col_num c c' r. apply consume_MCU_inr_position.
  - intros Hrow.
    rewrite (consume_suspend_at_entry (stalling decode_mcu) finish_input_pass
               (with_schedule (true :: sched) cinfo) _ Hrow Hcol
               (consume_MCU_stall decode_mcu _ _ sched cinfo)).
    assert (Hpos :
      reposition (MCU_vert_offset (coef (with_schedule (true :: sched) cinfo)))
        (MCU_ctr (coef (with_schedule (true :: sched) cinfo)))
        (with_schedule sched cinfo)
      = with_schedule sched cinfo)
      by exact (reposition_same (with_schedule sched cinfo)).
    by rewrite Hpos.
  - destruct (Z.to_nat (total_iMCU_rows cinfo - input_iMCU_row cinfo)) as [|n] eqn:Hn;
      [lia|].
    destruct (pass_unstalled decode_mcu finish_input_pass Hdecode n
                (with_schedule [] cinfo) eq_refl ltac:(simpl; lia)
                ltac:(simpl; lia) Htot) as (store & Hrun).
    exists store. split; [exact Hrun|].
    eapply consume_stalls_absorbed; [exact Hfinish | reflexivity | exact Hcol | exact Hrun].
Qed.

(** The 16x16 image read under the schedule pass, stall, stall, pass,
    stall: five calls instead of two, the same store. *)
Lemma consume_suspension_is_transparent_witness :
  exists store : list jvirt_barray,
    consumed_store
      (consume_data (stalling (decode_given (fun k => [dc_block (Z.of_nat k)])))
         finish_input_pass_upstream)
      2 (with_schedule [] (gray16_buffered (0%nat, [])))
    = Some store
    /\ consumed_store
         (consume_data (stalling (decode_given (fun k => [dc_block (Z.of_nat k)])))
            finish_input_pass_upstream)
         5 (with_schedule [false; true; true; false; true] (gray16_buffered (0%nat, [])))
       = Some store.
Proof.
  refine (proj2 (proj2 (consume_suspension_is_transparent nat
            (decode_given (fun k => [dc_block (Z.of_nat k)]))
            finish_input_pass_upstream
            (gray16_buffered (0%nat, [])) [false; true; true; false; true]
            (fun e blocks => eq_refl) (fun c => eq_refl) _ _ _))).
  - vm_compute. split; [discriminate | reflexivity].
  - simpl. lia.
  - reflexivity.
Defined.

(** ** decompress_data: a whole output pass *)

Lemma set_output_iMCU_row_same {E : Type} (cinfo : jpeg_decompress_struct E) :
  set_output_iMCU_row (output_iMCU_row cinfo) cinfo = cinfo.
Proof. by destruct cinfo. Qed.

Section OutputPass.
Context {E JSAMPIMAGE : Type}.
Variable inverse_DCT :
  Z -> jpeg_component_info -> JBLOCK -> JSAMPIMAGE -> Z -> Z -> JSAMPIMAGE.
Variable consume_input :
  jpeg_decompress_struct E -> jpeg_code * jpeg_decompress_struct E.

Lemma data_force_input_later_scan fuel (cinfo : jpeg_decompress_struct E) :
  output_scan_number cinfo < input_scan_number cinfo ->
  data_force_input consume_input fuel cinfo = Some (inl cinfo).
Proof.
  intros Hscan.
  assert (Hahead : output_ahead_of_input cinfo = false).
  { unfold output_ahead_of_input.
    destruct (Z.ltb_spec (input_scan_number cinfo) (output_scan_number cinfo)); [lia|].
    destruct (Z.eqb_spec (input_scan_number cinfo) (output_scan_number cinfo)); [lia|].
    reflexivity. }
  destruct fuel; simpl; by rewrite Hahead.
Qed.

Lemma decompress_data_later_scan fuel (row : Z) (cinfo : jpeg_decompress_struct E)
    (output_buf : JSAMPIMAGE) :
  output_scan_number cinfo < input_scan_number cinfo ->
  0 <= row -> row + 1 <= total_iMCU_rows cinfo -> total_iMCU_rows cinfo < 2 ^ 32 ->
  decompress_data inverse_DCT consume_input fuel (set_output_iMCU_row row cinfo) output_buf
  = Some (if row + 1 <? total_iMCU_rows cinfo
          then JPEG_ROW_COMPLETED else JPEG_SCAN_COMPLETED,
          set_output_iMCU_row (row + 1) cinfo,
          data_output inverse_DCT (set_output_iMCU_row row cinfo) output_buf).
Proof.
  intros Hscan Hrow Hleft Htot. unfold decompress_data.
  rewrite data_force_input_later_scan by exact Hscan.
  unfold advance_output. cbn [set_output_iMCU_row output_iMCU_row total_iMCU_rows].
  rewrite JDIM_small by lia.
  by destruct (row + 1 <? total_iMCU_rows cinfo).
Qed.

Lemma output_pass_step
    (producer : jpeg_decompress_struct E -> JSAMPIMAGE ->
                option (jpeg_code * jpeg_decompress_struct E * JSAMPIMAGE))
    fuel (cinfo : jpeg_decompress_struct E) (output_buf : JSAMPIMAGE) :
  output_pass producer (S fuel) cinfo output_buf
  = match producer cinfo output_buf with
    | None => None
    | Some (JPEG_SUSPENDED, cinfo, output_buf) =>
        output_pass producer fuel cinfo output_buf
    | Some (JPEG_SCAN_COMPLETED, cinfo, output_buf) => Some [output_buf]
    | Some (_, cinfo, output_buf) =>
        match output_pass producer fuel cinfo output_buf with
        | Some rows => Some (output_buf :: rows)
        | None => None
        end
    end.
Proof. reflexivity. Qed.

Lemma output_pass_rows (n : nat) :
  forall (fuel : nat) (row : Z) (cinfo : jpeg_decompress_struct E)
    (output_buf : JSAMPIMAGE),
    output_scan_number cinfo < input_scan_number cinfo ->
    0 <= row ->
    row + Z.of_nat (S n) = total_iMCU_rows cinfo ->
    total_iMCU_rows cinfo < 2 ^ 32 ->
    output_pass (decompress_data inverse_DCT consume_input fuel) (S n)
      (set_output_iMCU_row row cinfo) output_buf
    = Some (output_rows inverse_DCT (S n) row cinfo output_buf).
Proof.
  induction n as [|n IH]; intros fuel row cinfo output_buf Hscan Hrow Hleft Htot;
    rewrite output_pass_step, decompress_data_later_scan by (first [exact Hscan | lia]).
  - destruct (Z.ltb_spec (row + 1) (total_iMCU_rows cinfo)); [lia|]. reflexivity.
  - destruct (Z.ltb_spec (row + 1) (total_iMCU_rows cinfo)); [|lia].
    rewrite (IH fuel (row + 1) cinfo) by (first [exact Hscan | lia]).
    reflexivity.
Qed.

Lemma output_pass_short (fewer : nat) :
  forall (fuel : nat) (row : Z) (cinfo : jpeg_decompress_struct E)
    (output_buf : JSAMPIMAGE),
    output_scan_number cinfo < input_scan_number cinfo ->
    0 <= row ->
    row + Z.of_nat fewer < total_iMCU_rows cinfo ->
    total_iMCU_rows cinfo < 2 ^ 32 ->
    output_pass (decompress_data inverse_DCT consume_input fuel) fewer
      (set_output_iMCU_row row cinfo) output_buf
    = None.
Proof.
  induction fewer as [|fewer IH]; intros fuel row cinfo output_buf Hscan Hrow Hleft Htot;
    [reflexivity|].
  rewrite output_pass_step, decompress_data_later_scan by (first [exact Hscan | lia]).
  destruct (Z.ltb_spec (row + 1) (total_iMCU_rows cinfo)); [|lia].
  rewrite (IH fuel (row + 1) cinfo) by (first [exact Hscan | lia]).
  reflexivity.
Qed.

Lemma length_output_rows (n : nat) :
  forall (row : Z) (cinfo : jpeg_decompress_struct E) (output_buf : JSAMPIMAGE),
    length (output_rows inverse_DCT n row cinfo output_buf) = n.
Proof.
  induction n as [|n IH]; intros row cinfo output_buf; simpl; [reflexivity|].
  by rewrite IH.
Qed.

(** X8.  Once the input has moved on to a later scan, an output pass of
    decompress_data from iMCU row output_iMCU_row on takes exactly
    total_iMCU_rows - output_iMCU_row calls, none of which suspends or
    calls consume_input (the bound on such calls may be 0): the calls hand
    the driver the sample planes of one iMCU row after the other, each
    transformed out of the same store, and only the last one returns
    JPEG_SCAN_COMPLETED. *)
Theorem decompress_data_output_pass :
  forall (fuel : nat) (cinfo : jpeg_decompress_struct E) (output_buf : JSAMPIMAGE),
    output_scan_number cinfo < input_scan_number cinfo ->
    0 <= output_iMCU_row cinfo < total_iMCU_rows cinfo ->
    total_iMCU_rows cinfo < 2 ^ 32 ->
    let n := Z.to_nat (total_iMCU_rows cinfo - output_iMCU_row cinfo) in
    output_pass (decompress_data inverse_DCT consume_input fuel) n cinfo output_buf
    = Some (output_rows inverse_DCT n (output_iMCU_row cinfo) cinfo output_buf)
    /\ length (output_rows inverse_DCT n (output_iMCU_row cinfo) cinfo output_buf) = n
    /\ forall fewer : nat,
         (fewer < n)%nat ->
         output_pass (decompress_data inverse_DCT consume_input fuel) fewer cinfo output_buf
         = None.
Proof.
  intros fuel cinfo output_buf Hscan Hrow Htot n.
  split; [|split].
  - destruct n as [|m] eqn:Hn; [subst n; lia|].
    rewrite <- (set_output_iMCU_row_same cinfo) at 1.
    apply output_pass_rows; [exact Hscan | lia | lia | exact Htot].
  - apply length_output_rows.
  - intros fewer Hfewer. rewrite <- (set_output_iMCU_row_same cinfo) at 1.
    apply output_pass_short; [exact Hscan | lia | subst n; lia | exact Htot].
Qed.

End OutputPass.

Lemma decompress_data_output_pass_witness :
  length
    (output_rows recording_inverse_DCT
       (Z.to_nat (total_iMCU_rows (after_dc_scan luminance_table)
                  - output_iMCU_row (after_dc_scan luminance_table)))
       (output_iMCU_row (after_dc_scan luminance_table))
       (after_dc_scan luminance_table) [])
  = Z.to_nat (total_iMCU_rows (after_dc_scan luminance_table)
              - output_iMCU_row (after_dc_scan luminance_table)).
Proof.
  refine (proj1 (proj2 (decompress_data_output_pass recording_inverse_DCT
                          (fun cinfo => (JPEG_SUSPENDED, cinfo)) 0
                          (after_dc_scan luminance_table) [] _ _ _))).
  - simpl. lia.
  - simpl. lia.
  - reflexivity.
Defined.

(** ** decompress_onepass: the blocks handed to the inverse DCT *)

Lemma foreach_counted_invariant {A St : Type} (P : nat -> St -> Prop)
    (body : Z -> A -> St -> St) :
  forall (l : list A) (done : list A) (i0 : Z) (s : St),
    (forall (k : nat) a s,
       l !! k = Some a -> P (length done + k)%nat s ->
       P (S (length done + k)) (body (i0 + Z.of_nat k) a s)) ->
    P (length done) s -> P (length done + length l)%nat (foreach l i0 body s).
Proof.
  induction l as [|a l IH]; intros done i0 s Hbody Hs; simpl.
  - by rewrite Nat.add_0_r.
  - replace (length done + S (length l))%nat with (length (done ++ [a]) + length l)%nat
      by (rewrite length_app; simpl; lia).
    apply IH.
    + intros k b t Hk Ht.
      replace (i0 + 1 + Z.of_nat k) with (i0 + Z.of_nat (S k)) by lia.
      rewrite length_app in *. simpl in *.
      replace (length done + 1 + k)%nat with (length done + S k)%nat in * by lia.
      by apply Hbody.
    + rewrite length_app. simpl.
      replace (length done + 1)%nat with (S (length done + 0)) by lia.
      replace i0 with (i0 + Z.of_nat 0) at 1 by lia.
      apply Hbody; [reflexivity|]. by rewrite Nat.add_0_r.
Qed.

Lemma blocks_of_components_snoc comps compptr :
  blocks_of_components (comps ++ [compptr])
  = blocks_of_components comps + MCU_blocks compptr.
Proof.
  unfold blocks_of_components. induction comps as [|c comps IH]; simpl; [lia|].
  rewrite IH. lia.
Qed.

Section MCUCalls.
Context {E : Type}.
Variable cinfo : jpeg_decompress_struct E.
Variable calls : list idct_call.
Variables yoffset MCU_col_num : Z.

(** X9.  In a scan whose components have MCU_width * MCU_height blocks per
    MCU, every inverse DCT call decompress_onepass makes for an MCU is for
    a needed component of the scan and gets the block decode_mcu left at
    the component's place in the MCU, row yindex and column xindex; dummy
    blocks are skipped: at the last MCU column only last_col_width
    columns, in the last iMCU row only the block rows below
    last_row_height are transformed; output_ptr and output_col are the
    block's place in the sample planes. *)
Theorem onepass_output_MCU_blocks :
  (forall compptr : jpeg_component_info,
     compptr ∈ scan_components cinfo ->
     0 <= MCU_height compptr
     /\ MCU_blocks compptr = MCU_width compptr * MCU_height compptr) ->
  extends_with (MCU_block_call cinfo yoffset MCU_col_num) calls
    (onepass_output_MCU recording_inverse_DCT cinfo yoffset MCU_col_num calls).
Proof.
  intros Hgeo. unfold onepass_output_MCU. cbv zeta.
  pose proof (foreach_counted_invariant (A := jpeg_component_info)
                (fun k (st : Z * list idct_call) =>
                   fst st = blocks_of_components (take k (scan_components cinfo))
                   /\ extends_with (MCU_block_call cinfo yoffset MCU_col_num) calls
                        (snd st))) as Hloop.
  match goal with
  | |- extends_with _ _ (snd (foreach ?l ?i0 ?body ?s)) =>
      specialize (Hloop body l [] i0 s)
  end.
  apply Hloop; [|split; [reflexivity|apply extends_with_refl]].
  clear Hloop. intros k compptr [blkn log] Hk [Hblkn Hlog]. simpl in Hblkn, Hlog.
  simpl length. rewrite !Nat.add_0_l in *.
  assert (Htake : take (S k) (scan_components cinfo)
                  = take k (scan_components cinfo) ++ [compptr])
    by (by apply take_S_r).
  destruct (Hgeo compptr ltac:(by eapply list_elem_of_lookup_2)) as [Hheight Hblocks].
  destruct (component_needed compptr) eqn:Hneeded; simpl.
  2:{ split; [|exact Hlog]. rewrite Htake, blocks_of_components_snoc. lia. }
  pose proof (for_loop_indexed_invariant
                (fun yindex (st : Z * list idct_call * Z) =>
                   fst (fst st) = blkn + yindex * MCU_width compptr
                   /\ extends_with (MCU_block_call cinfo yoffset MCU_col_num) calls
                        (snd (fst st))
                   /\ snd st = (yoffset + yindex) * DCT_scaled_size compptr)) as Hrows.
  match goal with
  | |- context [for_range 0 (MCU_height compptr) ?body ?s] =>
      change (for_range 0 (MCU_height compptr) body s)
        with (for_loop (Z.to_nat (MCU_height compptr - 0)) 0 body s);
      specialize (Hrows body (Z.to_nat (MCU_height compptr - 0)) 0 s)
  end.
  match type of Hrows with
  | ?A -> ?B -> ?C =>
      assert (Hstep : A); [|assert (Hinit : B); [|specialize (Hrows Hstep Hinit)]]
  end.
  3:{ destruct (for_loop _ _ _ _) as [[blkn' log'] ptr']. simpl in Hrows |- *.
      destruct Hrows as (Hb & Hl & _). split; [|exact Hl].
      rewrite Htake, blocks_of_components_snoc, Hb, <- Hblkn, Hblocks.
      rewrite Z2Nat.id by lia. ring. }
  2:{ simpl. split; [ring|]. split; [exact Hlog|ring]. }
  intros yindex [[blkn1 log1] ptr1] Hyi (Hb1 & Hl1 & Hp1). simpl in Hb1, Hl1, Hp1.
  simpl. split; [subst blkn1; ring|]. split; [|subst ptr1; ring].
  destruct ((input_iMCU_row cinfo <? JDIM (total_iMCU_rows cinfo - 1))
            || (yoffset + yindex <? last_row_height compptr)) eqn:Hrow; [|exact Hl1].
  unfold for_range.
  pose proof (for_loop_indexed_invariant
                (fun xindex (st : list idct_call * Z) =>
                   extends_with (MCU_block_call cinfo yoffset MCU_col_num) calls (fst st)
                   /\ snd st
                      = JDIM (MCU_col_num * MCU_sample_width compptr
                              + xindex * DCT_scaled_size compptr))) as Hcols.
  match goal with
  | |- context [for_loop ?n ?lo ?body ?s] => specialize (Hcols body n lo s)
  end.
  apply Hcols; [|split; [exact Hl1|simpl; f_equal; ring]].
  clear Hcols. intros xindex [log2 col2] Hxi [Hl2 Hc2]. simpl in Hl2, Hc2.
  simpl. split; [|subst col2; rewrite JDIM_add_l; f_equal; ring].
  apply extends_with_record; [exact Hl2|].
  exists k, compptr, yindex, xindex. simpl.
  split; [exact Hk|]. split; [exact Hneeded|]. split; [reflexivity|].
  split; [lia|]. split; [lia|]. split; [lia|].
  split.
  { apply orb_prop in Hrow. destruct Hrow as [Hr|Hr]; apply Z.ltb_lt in Hr; tauto. }
  split; [|split; [subst ptr1; reflexivity|subst col2; reflexivity]].
  f_equal. subst blkn1 blkn. ring.
Qed.

End MCUCalls.

Lemma onepass_output_MCU_blocks_witness :
  extends_with (MCU_block_call (gray16_onepass 0%nat) 0 1) []
    (onepass_output_MCU recording_inverse_DCT (gray16_onepass 0%nat) 0 1 []).
Proof.
  apply (onepass_output_MCU_blocks (gray16_onepass 0%nat) [] 0 1).
  intros compptr Hin. apply list_elem_of_singleton in Hin. subst compptr.
  simpl. lia.
Defined.

(** ** The Java binding: what a native method does to the outside *)

Ltac native_reduce :=
  cbv beta iota zeta
    delta [native_bind when _throw bailif0 pin record_event set_srcbuf set_dstbuf
           set_size set_sfjava gethandle goto_bailout native_ret release_at_bailout
           entry_frame events srcbuf dstbuf size sfjava the_handle the_cls the_fid
           fst snd app thrown negb].

Ltac native_eval :=
  native_reduce;
  repeat (progress (change (0 =? 0) with true; native_reduce)).

(** Conditions already decided. *)
Ltac native_known :=
  repeat match goal with
  | H : ?c = true |- context [if ?c then _ else _] => rewrite H; native_eval
  | H : ?c = false |- context [if ?c then _ else _] => rewrite H; native_eval
  end.

Ltac native_step := native_eval; native_known.

Lemma invalid_compress_arguments_test NUMPFOPT width pitch height pf :
  invalid_compress_arguments NUMPFOPT width pitch height pf ->
  (pf <? 0) || (NUMPFOPT <=? pf) || (width <? 1) || (height <? 1) || (pitch <? 0) = true.
Proof.
  unfold invalid_compress_arguments. intros H.
  destruct (Z.ltb_spec pf 0), (Z.leb_spec NUMPFOPT pf), (Z.ltb_spec width 1),
    (Z.ltb_spec height 1), (Z.ltb_spec pitch 0); simpl; try reflexivity; lia.
Qed.

Ltac bool_hyps :=
  repeat match goal with
  | H : (_ || _) = false |- _ => apply orb_false_elim in H; destruct H
  | H : (_ || _) = true |- _ => apply orb_prop in H; destruct H
  | H : (_ && _) = true |- _ => apply andb_prop in H; destruct H
  | H : negb _ = true |- _ => apply negb_true_iff in H
  | H : negb _ = false |- _ => apply negb_false_iff in H
  | H : (_ <? _) = true |- _ => apply Z.ltb_lt in H
  | H : (_ <? _) = false |- _ => apply Z.ltb_ge in H
  | H : (_ <=? _) = true |- _ => apply Z.leb_le in H
  | H : (_ <=? _) = false |- _ => apply Z.leb_gt in H
  | H : (_ =? _) = true |- _ => apply Z.eqb_eq in H
  | H : (_ =? _) = false |- _ => apply Z.eqb_neq in H
  end.

(** Membership of an event in a list of events written out. *)
Ltac event_in H :=
  repeat (apply elem_of_cons in H; destruct H as [H|H]);
  try (apply elem_of_nil in H; contradiction);
  try discriminate H.

(** A path on which the library is not called: none of the events is a
    call, and a test has gone against the conditions of a call. *)
Ltac not_called :=
  bool_hyps;
  (split;
   [ intros [Hin Hlib]; event_in Hin; subst; discriminate Hlib
   | intros Hconds; exfalso; intuition (first [lia | congruence]) ]).

(** A path on which the library is called. *)
Ltac called :=
  bool_hyps;
  (split;
   [ intros [Hin Hlib]; event_in Hin; subst; try discriminate Hlib;
     intuition (first [lia | congruence])
   | intros Hconds;
     repeat match goal with H : _ /\ _ |- _ => destruct H end; subst;
     split; [in_list | reflexivity] ]).

(** Counting the pins, the releases and the failed calls of a path. *)
Ltac counted :=
  unfold released_once_more_on_failure, releases_of, pins_of, failed_calls;
  repeat (cbn [count_events is_release_of is_pin_of is_library_call library_status
               andb negb fst Nat.add];
          rewrite ?Z.eqb_refl;
          repeat match goal with
          | H : ?c = _ |- context [?c] => rewrite H
          end);
  by split.

(** A product that fits in an int is the product. *)
Lemma int_mul_exact a b : - 2 ^ 31 <= a * b < 2 ^ 31 -> int_mul a b = a * b.
Proof.
  intros Hfit. unfold int_mul, to_jint.
  rewrite Z.mod_small by lia. lia.
Qed.

(** A product of 2^32 wraps to 0: no array is too short for it. *)
Lemma int_mul_wraps : int_mul (int_mul 65536 4) 65536 = 0.
Proof. reflexivity. Qed.

(** The 32-bit pixel formats are those numbered 2 to 5. *)
Lemma pixelsize_32bit pf : 0 <= pf -> _pixelsize pf = sizeof_jint <-> 2 <= pf <= 5.
Proof.
  intros Hpf. unfold _pixelsize, sizeof_jint, int_at.
  destruct (Z.ltb_spec pf 0) as [?|_]; [lia|].
  assert (Hcases : pf = 0 \/ pf = 1 \/ pf = 2 \/ pf = 3 \/ pf = 4 \/ pf = 5 \/ pf = 6
                   \/ 7 <= pf) by lia.
  destruct Hcases as [->|[->|[->|[->|[->|[->|[->|Hbig]]]]]]]; simpl; try lia.
  rewrite (proj2 (lookup_ge_None _ _)) by (simpl; lia). simpl. lia.
Qed.

Section BindingProperties.
Variables TJ_BGR TJ_ALPHAFIRST NUMPFOPT : Z.
Variable env : JNIEnv.
Variable tj : turbojpeg.

Abbreviation compress_bytes :=
  (Java_org_libjpegturbo_turbojpeg_TJCompressor_compress___3BIIII_3BIII
     TJ_BGR TJ_ALPHAFIRST NUMPFOPT env tj).
Abbreviation compress_ints :=
  (Java_org_libjpegturbo_turbojpeg_TJCompressor_compress___3IIIII_3BIII
     TJ_BGR TJ_ALPHAFIRST NUMPFOPT env tj).
Abbreviation encodeYUV_bytes :=
  (Java_org_libjpegturbo_turbojpeg_TJCompressor_encodeYUV___3BIIII_3BII
     TJ_BGR TJ_ALPHAFIRST NUMPFOPT env tj).
Abbreviation encodeYUV_ints :=
  (Java_org_libjpegturbo_turbojpeg_TJCompressor_encodeYUV___3IIIII_3BII
     TJ_BGR TJ_ALPHAFIRST NUMPFOPT env tj).

(** X10.  The four compressing methods validate their arguments before
    they touch an array or the library: with pf outside [0, NUMPFOPT), a
    width or a height below 1 or a negative pitch, the method does nothing
    but throw a java.lang.Exception saying "Invalid argument in
    compress()" (encodeYUV from a byte array: "... in encodeYUV()"), and
    compress returns 0.  encodeYUV from an int array uses the message of
    compress. *)
Theorem compress_rejects_invalid_arguments :
  forall obj src width pitch height pf dst jpegsubsamp jpegqual flags : Z,
    handle_found env obj ->
    invalid_compress_arguments NUMPFOPT width pitch height pf ->
    compress_bytes obj src width pitch height pf dst jpegsubsamp jpegqual flags
    = (0, thrown env "Invalid argument in compress()")
    /\ compress_ints obj src width pitch height pf dst jpegsubsamp jpegqual flags
       = (0, thrown env "Invalid argument in compress()")
    /\ encodeYUV_bytes obj src width pitch height pf dst jpegsubsamp flags
       = thrown env "Invalid argument in encodeYUV()"
    /\ encodeYUV_ints obj src width pitch height pf dst jpegsubsamp flags
       = thrown env "Invalid argument in compress()".
Proof.
  intros obj src width pitch height pf dst jpegsubsamp jpegqual flags [Hcls Hfid] Hbad.
  apply invalid_compress_arguments_test in Hbad.
  apply Z.eqb_neq in Hcls, Hfid.
  repeat split.
  - unfold Java_org_libjpegturbo_turbojpeg_TJCompressor_compress___3BIIII_3BIII.
    native_eval. rewrite Hcls, Hfid, Hbad. native_eval.
    by destruct (FindClass env "java/lang/Exception" =? 0).
  - unfold Java_org_libjpegturbo_turbojpeg_TJCompressor_compress___3IIIII_3BIII.
    native_eval. rewrite Hcls, Hfid, Hbad. native_eval.
    by destruct (FindClass env "java/lang/Exception" =? 0).
  - unfold Java_org_libjpegturbo_turbojpeg_TJCompressor_encodeYUV___3BIIII_3BII.
    native_eval. rewrite Hcls, Hfid, Hbad. native_eval.
    by destruct (FindClass env "java/lang/Exception" =? 0).
  - unfold Java_org_libjpegturbo_turbojpeg_TJCompressor_encodeYUV___3IIIII_3BII.
    native_eval. rewrite Hcls, Hfid, Hbad. native_eval.
    by destruct (FindClass env "java/lang/Exception" =? 0).
Qed.

(** X11.  compress calls the library exactly when the object's handle is
    found, the arguments are valid, the source array has at least
    width * pixelsize * height elements (pitch * height for a pitch other
    than 0), the products being computed in int and wrapping around, the
    destination array at least (jsize)TJBUFSIZE(width, height), and both
    arrays could be pinned; the call is the one of tjCompress with the
    pixel size and the flag bits of the format.  From an int array the
    format must be one of the 32-bit ones (2 to 5), the source length is
    counted in pixels, and the library is given the pitch in bytes and
    pixel size 4. *)
Theorem tjCompress_called_after_checks :
  forall (obj src width pitch height pf dst jpegsubsamp jpegqual flags : Z)
    (ev : jni_event),
    (ev ∈ snd (compress_bytes obj src width pitch height pf dst jpegsubsamp jpegqual
                 flags)
     /\ is_library_call ev = true
     <-> handle_found env obj
         /\ ~ invalid_compress_arguments NUMPFOPT width pitch height pf
         /\ (if pitch =? 0 then int_mul (int_mul width (_pixelsize pf)) height
             else int_mul pitch height)
            <= GetArrayLength env src
         /\ to_jint (TJBUFSIZE tj width height) <= GetArrayLength env dst
         /\ GetPrimitiveArrayCritical env src <> 0
         /\ GetPrimitiveArrayCritical env dst <> 0
         /\ ev = Called_tjCompress (handle_of env obj)
                   (GetPrimitiveArrayCritical env src) width pitch height
                   (_pixelsize pf) (GetPrimitiveArrayCritical env dst)
                   jpegsubsamp jpegqual (Z.lor flags (_flags TJ_BGR TJ_ALPHAFIRST pf)))
    /\ (ev ∈ snd (compress_ints obj src width pitch height pf dst jpegsubsamp jpegqual
                    flags)
        /\ is_library_call ev = true
        <-> handle_found env obj
            /\ ~ invalid_compress_arguments NUMPFOPT width pitch height pf
            /\ 2 <= pf <= 5
            /\ (if pitch =? 0 then int_mul width height else int_mul pitch height)
               <= GetArrayLength env src
            /\ to_jint (TJBUFSIZE tj width height) <= GetArrayLength env dst
            /\ GetPrimitiveArrayCritical env src <> 0
            /\ GetPrimitiveArrayCritical env dst <> 0
            /\ ev = Called_tjCompress (handle_of env obj)
                      (GetPrimitiveArrayCritical env src) width
                      (to_jint (pitch * sizeof_jint)) height sizeof_jint
                      (GetPrimitiveArrayCritical env dst)
                      jpegsubsamp jpegqual
                      (Z.lor flags (_flags TJ_BGR TJ_ALPHAFIRST pf))).
Proof.
  intros obj src width pitch height pf dst jpegsubsamp jpegqual flags ev.
  unfold handle_found, handle_of, invalid_compress_arguments.
  split.
  - unfold Java_org_libjpegturbo_turbojpeg_TJCompressor_compress___3BIIII_3BIII.
    native_eval.
    destruct (GetObjectClass env obj =? 0) eqn:Hcls; native_step; [not_called|].
    destruct (GetFieldID _ _ _ _ =? 0) eqn:Hfid; native_step; [not_called|].
    destruct (_ || _) eqn:Hval; native_step;
      [destruct (FindClass _ _ =? 0); native_step; not_called|].
    destruct (GetArrayLength env src <? _) eqn:Hsrc; native_step;
      [destruct (FindClass _ _ =? 0); native_step; not_called|].
    destruct (GetArrayLength env dst <? _) eqn:Hdst; native_step;
      [destruct (FindClass _ _ =? 0); native_step; not_called|].
    destruct (GetPrimitiveArrayCritical env src =? 0) eqn:Hps; native_step;
      [not_called|].
    destruct (GetPrimitiveArrayCritical env dst =? 0) eqn:Hpd; native_step;
      [not_called|].
    destruct (tjCompress _ _ _ _ _ _ _ _ _ _ _) as [status size'] eqn:Hcall; native_step.
    destruct (status =? -1) eqn:Hstatus; native_step;
      [destruct (FindClass _ _ =? 0); native_step|]; called.
  - unfold Java_org_libjpegturbo_turbojpeg_TJCompressor_compress___3IIIII_3BIII.
    native_eval.
    destruct (GetObjectClass env obj =? 0) eqn:Hcls; native_step; [not_called|].
    destruct (GetFieldID _ _ _ _ =? 0) eqn:Hfid; native_step; [not_called|].
    destruct (_ || _) eqn:Hval; native_step;
      [destruct (FindClass _ _ =? 0); native_step; not_called|].
    assert (Hpf : 0 <= pf) by (bool_hyps; lia).
    pose proof (pixelsize_32bit pf Hpf) as H32.
    destruct (_pixelsize pf =? sizeof_jint) eqn:Hpix; native_step.
    2:{ destruct (FindClass _ _ =? 0); native_step; not_called. }
    destruct (GetArrayLength env src <? _) eqn:Hsrc; native_step;
      [destruct (FindClass _ _ =? 0); native_step; not_called|].
    destruct (GetArrayLength env dst <? _) eqn:Hdst; native_step;
      [destruct (FindClass _ _ =? 0); native_step; not_called|].
    destruct (GetPrimitiveArrayCritical env src =? 0) eqn:Hps; native_step;
      [not_called|].
    destruct (GetPrimitiveArrayCritical env dst =? 0) eqn:Hpd; native_step;
      [not_called|].
    destruct (tjCompress _ _ _ _ _ _ _ _ _ _ _) as [status size'] eqn:Hcall; native_step.
    destruct (status =? -1) eqn:Hstatus; native_step;
      [destruct (FindClass _ _ =? 0); native_step|]; called.
Qed.


Abbreviation decompress_bytes :=
  (Java_org_libjpegturbo_turbojpeg_TJDecompressor_decompress___3BI_3BIIIII
     TJ_BGR TJ_ALPHAFIRST NUMPFOPT env tj).
Abbreviation decompress_ints :=
  (Java_org_libjpegturbo_turbojpeg_TJDecompressor_decompress___3BI_3IIIIII
     TJ_BGR TJ_ALPHAFIRST NUMPFOPT env tj).
Abbreviation decompressToYUV :=
  (Java_org_libjpegturbo_turbojpeg_TJDecompressor_decompressToYUV env tj).

(** X12.  encodeYUV calls the library exactly when the object's handle is
    found, the arguments are valid, the source array has at least
    width * pixelsize * height elements (pitch * height for a pitch other
    than 0), the products being computed in int and wrapping around, the
    destination array at least (jsize)TJBUFSIZEYUV(width, height, subsamp),
    and both arrays could be pinned; the call is the one of tjEncodeYUV
    with the pixel size and the flag bits of the format.  From an int
    array the format must be one of the 32-bit ones (2 to 5), the source
    length is counted in pixels, and the library is given the pitch in
    bytes and pixel size 4. *)
Theorem tjEncodeYUV_called_after_checks :
  forall (obj src width pitch height pf dst subsamp flags : Z) (ev : jni_event),
    (ev ∈ (encodeYUV_bytes obj src width pitch height pf dst subsamp flags)
     /\ is_library_call ev = true
     <-> handle_found env obj
        /\ ~ invalid_compress_arguments NUMPFOPT width pitch height pf
        /\ (if pitch =? 0 then int_mul (int_mul width (_pixelsize pf)) height
            else int_mul pitch height)
            <= GetArrayLength env src
        /\ to_jint (TJBUFSIZEYUV tj width height subsamp) <= GetArrayLength env dst
        /\ GetPrimitiveArrayCritical env src <> 0
        /\ GetPrimitiveArrayCritical env dst <> 0
        /\ ev = Called_tjEncodeYUV (handle_of env obj)
               (GetPrimitiveArrayCritical env src) width pitch height
               (_pixelsize pf) (GetPrimitiveArrayCritical env dst) subsamp
               (Z.lor flags (_flags TJ_BGR TJ_ALPHAFIRST pf)))
    /\ (ev ∈ (encodeYUV_ints obj src width pitch height pf dst subsamp flags)
        /\ is_library_call ev = true
        <-> handle_found env obj
           /\ ~ invalid_compress_arguments NUMPFOPT width pitch height pf
           /\ 2 <= pf <= 5
           /\ (if pitch =? 0 then int_mul width height else int_mul pitch height)
            <= GetArrayLength env src
           /\ to_jint (TJBUFSIZEYUV tj width height subsamp) <= GetArrayLength env dst
           /\ GetPrimitiveArrayCritical env src <> 0
           /\ GetPrimitiveArrayCritical env dst <> 0
           /\ ev = Called_tjEncodeYUV (handle_of env obj)
               (GetPrimitiveArrayCritical env src) width
               (to_jint (pitch * sizeof_jint)) height sizeof_jint
               (GetPrimitiveArrayCritical env dst) subsamp
               (Z.lor flags (_flags TJ_BGR TJ_ALPHAFIRST pf))).
Proof.
  intros obj src width pitch height pf dst subsamp flags ev.
  unfold handle_found, handle_of, invalid_compress_arguments.
  split.
  - unfold Java_org_libjpegturbo_turbojpeg_TJCompressor_encodeYUV___3BIIII_3BII.
    native_eval.
    destruct (GetObjectClass env obj =? 0) eqn:Hcls; native_step; [not_called|].
    destruct (GetFieldID env (GetObjectClass env obj) "handle" "J" =? 0) eqn:Hfid;
      native_step; [not_called|].
    destruct ((pf <? 0) || (NUMPFOPT <=? pf) || (width <? 1) || (height <? 1) || (pitch <? 0)) eqn:Hval;
      native_step; [destruct (FindClass _ _ =? 0); native_step; not_called|].
    destruct (GetArrayLength env src <? _) eqn:Hlen0;
      native_step; [destruct (FindClass _ _ =? 0); native_step; not_called|].
    destruct (GetArrayLength env dst <? to_jint (TJBUFSIZEYUV tj width height subsamp)) eqn:Hlen1;
      native_step; [destruct (FindClass _ _ =? 0); native_step; not_called|].
    destruct (GetPrimitiveArrayCritical env src =? 0) eqn:Hps; native_step; [not_called|].
    destruct (GetPrimitiveArrayCritical env dst =? 0) eqn:Hpd; native_step; [not_called|].
    destruct (tjEncodeYUV _ _ _ _ _ _ _ _ _ _ =? -1) eqn:Hstatus; native_step;
      [destruct (FindClass _ _ =? 0); native_step|]; called.
  - unfold Java_org_libjpegturbo_turbojpeg_TJCompressor_encodeYUV___3IIIII_3BII.
    native_eval.
    destruct (GetObjectClass env obj =? 0) eqn:Hcls; native_step; [not_called|].
    destruct (GetFieldID env (GetObjectClass env obj) "handle" "J" =? 0) eqn:Hfid;
      native_step; [not_called|].
    destruct ((pf <? 0) || (NUMPFOPT <=? pf) || (width <? 1) || (height <? 1) || (pitch <? 0)) eqn:Hval;
      native_step; [destruct (FindClass _ _ =? 0); native_step; not_called|].
    assert (Hpf : 0 <= pf) by (bool_hyps; lia).
    pose proof (pixelsize_32bit pf Hpf) as H32.
    destruct (_pixelsize pf =? sizeof_jint) eqn:Hpix; native_step;
      [|destruct (FindClass _ _ =? 0); native_step; not_called].
    destruct (GetArrayLength env src <? (if pitch =? 0 then int_mul width height
                                         else int_mul pitch height)) eqn:Hlen0;
      native_step; [destruct (FindClass _ _ =? 0); native_step; not_called|].
    destruct (GetArrayLength env dst <? to_jint (TJBUFSIZEYUV tj width height subsamp)) eqn:Hlen1;
      native_step; [destruct (FindClass _ _ =? 0); native_step; not_called|].
    destruct (GetPrimitiveArrayCritical env src =? 0) eqn:Hps; native_step; [not_called|].
    destruct (GetPrimitiveArrayCritical env dst =? 0) eqn:Hpd; native_step; [not_called|].
    destruct (tjEncodeYUV _ _ _ _ _ _ _ _ _ _ =? -1) eqn:Hstatus; native_step;
      [destruct (FindClass _ _ =? 0); native_step|]; called.
Qed.

(** X13.  decompress calls the library exactly when the object's handle is
    found, pf is in [0, NUMPFOPT), the source array has at least size
    elements, the destination array at least width * pixelsize * height
    (pitch * height for a pitch other than 0), the products being computed
    in int and wrapping around, and both arrays could be pinned: width,
    height and pitch are not tested themselves, so that with a product
    that is, or wraps to, 0 or less any destination array is long enough,
    and size reaches the library as an unsigned long.  Into an int array
    the format must be one of the 32-bit ones (2 to 5), the destination
    length is counted in pixels, and the library is given the pitch in
    bytes and pixel size 4. *)
Theorem tjDecompress_called_after_checks :
  forall (obj src size dst width pitch height pf flags : Z) (ev : jni_event),
    (ev ∈ (decompress_bytes obj src size dst width pitch height pf flags)
     /\ is_library_call ev = true
     <-> handle_found env obj
        /\ 0 <= pf < NUMPFOPT
        /\ size <= GetArrayLength env src
        /\ (if pitch =? 0 then int_mul (int_mul width (_pixelsize pf)) height
            else int_mul pitch height)
            <= GetArrayLength env dst
        /\ GetPrimitiveArrayCritical env src <> 0
        /\ GetPrimitiveArrayCritical env dst <> 0
        /\ ev = Called_tjDecompress (handle_of env obj)
               (GetPrimitiveArrayCritical env src) (to_ulong size)
               (GetPrimitiveArrayCritical env dst) width pitch height
               (_pixelsize pf) (Z.lor flags (_flags TJ_BGR TJ_ALPHAFIRST pf)))
    /\ (ev ∈ (decompress_ints obj src size dst width pitch height pf flags)
        /\ is_library_call ev = true
        <-> handle_found env obj
           /\ 0 <= pf < NUMPFOPT
           /\ 2 <= pf <= 5
           /\ size <= GetArrayLength env src
           /\ (if pitch =? 0 then int_mul width height else int_mul pitch height)
            <= GetArrayLength env dst
           /\ GetPrimitiveArrayCritical env src <> 0
           /\ GetPrimitiveArrayCritical env dst <> 0
           /\ ev = Called_tjDecompress (handle_of env obj)
               (GetPrimitiveArrayCritical env src) (to_ulong size)
               (GetPrimitiveArrayCritical env dst) width
               (to_jint (pitch * sizeof_jint)) height sizeof_jint
               (Z.lor flags (_flags TJ_BGR TJ_ALPHAFIRST pf))).
Proof.
  intros obj src size dst width pitch height pf flags ev.
  unfold handle_found, handle_of.
  split.
  - unfold Java_org_libjpegturbo_turbojpeg_TJDecompressor_decompress___3BI_3BIIIII.
    native_eval.
    destruct (GetObjectClass env obj =? 0) eqn:Hcls; native_step; [not_called|].
    destruct (GetFieldID env (GetObjectClass env obj) "handle" "J" =? 0) eqn:Hfid;
      native_step; [not_called|].
    destruct ((pf <? 0) || (NUMPFOPT <=? pf)) eqn:Hval;
      native_step; [destruct (FindClass _ _ =? 0); native_step; not_called|].
    destruct (GetArrayLength env src <? size) eqn:Hlen0;
      native_step; [destruct (FindClass _ _ =? 0); native_step; not_called|].
    destruct (GetArrayLength env dst <? _) eqn:Hlen1;
      native_step; [destruct (FindClass _ _ =? 0); native_step; not_called|].
    destruct (GetPrimitiveArrayCritical env src =? 0) eqn:Hps; native_step; [not_called|].
    destruct (GetPrimitiveArrayCritical env dst =? 0) eqn:Hpd; native_step; [not_called|].
    destruct (tjDecompress _ _ _ _ _ _ _ _ _ _ =? -1) eqn:Hstatus; native_step;
      [destruct (FindClass _ _ =? 0); native_step|]; called.
  - unfold Java_org_libjpegturbo_turbojpeg_TJDecompressor_decompress___3BI_3IIIIII.
    native_eval.
    destruct (GetObjectClass env obj =? 0) eqn:Hcls; native_step; [not_called|].
    destruct (GetFieldID env (GetObjectClass env obj) "handle" "J" =? 0) eqn:Hfid;
      native_step; [not_called|].
    destruct ((pf <? 0) || (NUMPFOPT <=? pf)) eqn:Hval;
      native_step; [destruct (FindClass _ _ =? 0); native_step; not_called|].
    assert (Hpf : 0 <= pf) by (bool_hyps; lia).
    pose proof (pixelsize_32bit pf Hpf) as H32.
    destruct (_pixelsize pf =? sizeof_jint) eqn:Hpix; native_step;
      [|destruct (FindClass _ _ =? 0); native_step; not_called].
    destruct (GetArrayLength env src <? size) eqn:Hlen0;
      native_step; [destruct (FindClass _ _ =? 0); native_step; not_called|].
    destruct (GetArrayLength env dst <? (if pitch =? 0 then int_mul width height
                                         else int_mul pitch height)) eqn:Hlen1;
      native_step; [destruct (FindClass _ _ =? 0); native_step; not_called|].
    destruct (GetPrimitiveArrayCritical env src =? 0) eqn:Hps; native_step; [not_called|].
    destruct (GetPrimitiveArrayCritical env dst =? 0) eqn:Hpd; native_step; [not_called|].
    destruct (tjDecompress _ _ _ _ _ _ _ _ _ _ =? -1) eqn:Hstatus; native_step;
      [destruct (FindClass _ _ =? 0); native_step|]; called.
Qed.

Lemma compress_bytes_released obj src dst width pitch height pf jpegsubsamp jpegqual flags :
  src <> dst ->
  released_once_more_on_failure tj src dst
    (snd (compress_bytes obj src width pitch height pf dst jpegsubsamp jpegqual flags)).
Proof.
  intros Hne.
  assert (Hsd : (src =? dst) = false) by (by apply Z.eqb_neq).
  assert (Hds : (dst =? src) = false) by (apply Z.eqb_neq; congruence).
  unfold Java_org_libjpegturbo_turbojpeg_TJCompressor_compress___3BIIII_3BIII.
  native_eval.
  destruct (GetObjectClass env obj =? 0) eqn:Hcls; native_step; [counted|].
  destruct (GetFieldID env (GetObjectClass env obj) "handle" "J" =? 0) eqn:Hfid;
    native_step; [counted|].
  destruct ((pf <? 0) || (NUMPFOPT <=? pf) || (width <? 1) || (height <? 1) || (pitch <? 0)) eqn:Hval;
    native_step; [destruct (FindClass _ _ =? 0); native_step; counted|].
  destruct (GetArrayLength env src <? _) eqn:Hlen0;
    native_step; [destruct (FindClass _ _ =? 0); native_step; counted|].
  destruct (GetArrayLength env dst <? to_jint (TJBUFSIZE tj width height)) eqn:Hlen1;
    native_step; [destruct (FindClass _ _ =? 0); native_step; counted|].
  destruct (GetPrimitiveArrayCritical env src =? 0) eqn:Hps; native_step; [counted|].
  destruct (GetPrimitiveArrayCritical env dst =? 0) eqn:Hpd; native_step; [counted|].
  destruct (tjCompress _ _ _ _ _ _ _ _ _ _ _) as [status size'] eqn:Hcall; native_step.
  destruct (status =? -1) eqn:Hstatus; native_step;
    [destruct (FindClass _ _ =? 0); native_step|]; counted.
Qed.

Lemma compress_ints_released obj src dst width pitch height pf jpegsubsamp jpegqual flags :
  src <> dst ->
  released_once_more_on_failure tj src dst
    (snd (compress_ints obj src width pitch height pf dst jpegsubsamp jpegqual flags)).
Proof.
  intros Hne.
  assert (Hsd : (src =? dst) = false) by (by apply Z.eqb_neq).
  assert (Hds : (dst =? src) = false) by (apply Z.eqb_neq; congruence).
  unfold Java_org_libjpegturbo_turbojpeg_TJCompressor_compress___3IIIII_3BIII.
  native_eval.
  destruct (GetObjectClass env obj =? 0) eqn:Hcls; native_step; [counted|].
  destruct (GetFieldID env (GetObjectClass env obj) "handle" "J" =? 0) eqn:Hfid;
    native_step; [counted|].
  destruct ((pf <? 0) || (NUMPFOPT <=? pf) || (width <? 1) || (height <? 1) || (pitch <? 0)) eqn:Hval;
    native_step; [destruct (FindClass _ _ =? 0); native_step; counted|].
  destruct (_pixelsize pf =? sizeof_jint) eqn:Hpix; native_step;
    [|destruct (FindClass _ _ =? 0); native_step; counted].
  destruct (GetArrayLength env src <? (if pitch =? 0 then int_mul width height
                                       else int_mul pitch height)) eqn:Hlen0;
    native_step; [destruct (FindClass _ _ =? 0); native_step; counted|].
  destruct (GetArrayLength env dst <? to_jint (TJBUFSIZE tj width height)) eqn:Hlen1;
    native_step; [destruct (FindClass _ _ =? 0); native_step; counted|].
  destruct (GetPrimitiveArrayCritical env src =? 0) eqn:Hps; native_step; [counted|].
  destruct (GetPrimitiveArrayCritical env dst =? 0) eqn:Hpd; native_step; [counted|].
  destruct (tjCompress _ _ _ _ _ _ _ _ _ _ _) as [status size'] eqn:Hcall; native_step.
  destruct (status =? -1) eqn:Hstatus; native_step;
    [destruct (FindClass _ _ =? 0); native_step|]; counted.
Qed.

Lemma encodeYUV_bytes_released obj src dst width pitch height pf subsamp flags :
  src <> dst ->
  released_once_more_on_failure tj src dst
    ((encodeYUV_bytes obj src width pitch height pf dst subsamp flags)).
Proof.
  intros Hne.
  assert (Hsd : (src =? dst) = false) by (by apply Z.eqb_neq).
  assert (Hds : (dst =? src) = false) by (apply Z.eqb_neq; congruence).
  unfold Java_org_libjpegturbo_turbojpeg_TJCompressor_encodeYUV___3BIIII_3BII.
  native_eval.
  destruct (GetObjectClass env obj =? 0) eqn:Hcls; native_step; [counted|].
  destruct (GetFieldID env (GetObjectClass env obj) "handle" "J" =? 0) eqn:Hfid;
    native_step; [counted|].
  destruct ((pf <? 0) || (NUMPFOPT <=? pf) || (width <? 1) || (height <? 1) || (pitch <? 0)) eqn:Hval;
    native_step; [destruct (FindClass _ _ =? 0); native_step; counted|].
  destruct (GetArrayLength env src <? _) eqn:Hlen0;
    native_step; [destruct (FindClass _ _ =? 0); native_step; counted|].
  destruct (GetArrayLength env dst <? to_jint (TJBUFSIZEYUV tj width height subsamp)) eqn:Hlen1;
    native_step; [destruct (FindClass _ _ =? 0); native_step; counted|].
  destruct (GetPrimitiveArrayCritical env src =? 0) eqn:Hps; native_step; [counted|].
  destruct (GetPrimitiveArrayCritical env dst =? 0) eqn:Hpd; native_step; [counted|].
  destruct (tjEncodeYUV _ _ _ _ _ _ _ _ _ _ =? -1) eqn:Hstatus; native_step;
    [destruct (FindClass _ _ =? 0); native_step|]; counted.
Qed.

Lemma encodeYUV_ints_released obj src dst width pitch height pf subsamp flags :
  src <> dst ->
  released_once_more_on_failure tj src dst
    ((encodeYUV_ints obj src width pitch height pf dst subsamp flags)).
Proof.
  intros Hne.
  assert (Hsd : (src =? dst) = false) by (by apply Z.eqb_neq).
  assert (Hds : (dst =? src) = false) by (apply Z.eqb_neq; congruence).
  unfold Java_org_libjpegturbo_turbojpeg_TJCompressor_encodeYUV___3IIIII_3BII.
  native_eval.
  destruct (GetObjectClass env obj =? 0) eqn:Hcls; native_step; [counted|].
  destruct (GetFieldID env (GetObjectClass env obj) "handle" "J" =? 0) eqn:Hfid;
    native_step; [counted|].
  destruct ((pf <? 0) || (NUMPFOPT <=? pf) || (width <? 1) || (height <? 1) || (pitch <? 0)) eqn:Hval;
    native_step; [destruct (FindClass _ _ =? 0); native_step; counted|].
  destruct (_pixelsize pf =? sizeof_jint) eqn:Hpix; native_step;
    [|destruct (FindClass _ _ =? 0); native_step; counted].
  destruct (GetArrayLength env src <? (if pitch =? 0 then int_mul width height
                                       else int_mul pitch height)) eqn:Hlen0;
    native_step; [destruct (FindClass _ _ =? 0); native_step; counted|].
  destruct (GetArrayLength env dst <? to_jint (TJBUFSIZEYUV tj width height subsamp)) eqn:Hlen1;
    native_step; [destruct (FindClass _ _ =? 0); native_step; counted|].
  destruct (GetPrimitiveArrayCritical env src =? 0) eqn:Hps; native_step; [counted|].
  destruct (GetPrimitiveArrayCritical env dst =? 0) eqn:Hpd; native_step; [counted|].
  destruct (tjEncodeYUV _ _ _ _ _ _ _ _ _ _ =? -1) eqn:Hstatus; native_step;
    [destruct (FindClass _ _ =? 0); native_step|]; counted.
Qed.

Lemma decompress_bytes_released obj src dst size width pitch height pf flags :
  src <> dst ->
  released_once_more_on_failure tj src dst
    ((decompress_bytes obj src size dst width pitch height pf flags)).
Proof.
  intros Hne.
  assert (Hsd : (src =? dst) = false) by (by apply Z.eqb_neq).
  assert (Hds : (dst =? src) = false) by (apply Z.eqb_neq; congruence).
  unfold Java_org_libjpegturbo_turbojpeg_TJDecompressor_decompress___3BI_3BIIIII.
  native_eval.
  destruct (GetObjectClass env obj =? 0) eqn:Hcls; native_step; [counted|].
  destruct (GetFieldID env (GetObjectClass env obj) "handle" "J" =? 0) eqn:Hfid;
    native_step; [counted|].
  destruct ((pf <? 0) || (NUMPFOPT <=? pf)) eqn:Hval;
    native_step; [destruct (FindClass _ _ =? 0); native_step; counted|].
  destruct (GetArrayLength env src <? size) eqn:Hlen0;
    native_step; [destruct (FindClass _ _ =? 0); native_step; counted|].
  destruct (GetArrayLength env dst <? _) eqn:Hlen1;
    native_step; [destruct (FindClass _ _ =? 0); native_step; counted|].
  destruct (GetPrimitiveArrayCritical env src =? 0) eqn:Hps; native_step; [counted|].
  destruct (GetPrimitiveArrayCritical env dst =? 0) eqn:Hpd; native_step; [counted|].
  destruct (tjDecompress _ _ _ _ _ _ _ _ _ _ =? -1) eqn:Hstatus; native_step;
    [destruct (FindClass _ _ =? 0); native_step|]; counted.
Qed.

Lemma decompress_ints_released obj src dst size width pitch height pf flags :
  src <> dst ->
  released_once_more_on_failure tj src dst
    ((decompress_ints obj src size dst width pitch height pf flags)).
Proof.
  intros Hne.
  assert (Hsd : (src =? dst) = false) by (by apply Z.eqb_neq).
  assert (Hds : (dst =? src) = false) by (apply Z.eqb_neq; congruence).
  unfold Java_org_libjpegturbo_turbojpeg_TJDecompressor_decompress___3BI_3IIIIII.
  native_eval.
  destruct (GetObjectClass env obj =? 0) eqn:Hcls; native_step; [counted|].
  destruct (GetFieldID env (GetObjectClass env obj) "handle" "J" =? 0) eqn:Hfid;
    native_step; [counted|].
  destruct ((pf <? 0) || (NUMPFOPT <=? pf)) eqn:Hval;
    native_step; [destruct (FindClass _ _ =? 0); native_step; counted|].
  destruct (_pixelsize pf =? sizeof_jint) eqn:Hpix; native_step;
    [|destruct (FindClass _ _ =? 0); native_step; counted].
  destruct (GetArrayLength env src <? size) eqn:Hlen0;
    native_step; [destruct (FindClass _ _ =? 0); native_step; counted|].
  destruct (GetArrayLength env dst <? (if pitch =? 0 then int_mul width height
                                       else int_mul pitch height)) eqn:Hlen1;
    native_step; [destruct (FindClass _ _ =? 0); native_step; counted|].
  destruct (GetPrimitiveArrayCritical env src =? 0) eqn:Hps; native_step; [counted|].
  destruct (GetPrimitiveArrayCritical env dst =? 0) eqn:Hpd; native_step; [counted|].
  destruct (tjDecompress _ _ _ _ _ _ _ _ _ _ =? -1) eqn:Hstatus; native_step;
    [destruct (FindClass _ _ =? 0); native_step|]; counted.
Qed.

Lemma decompressToYUV_released obj src dst size flags :
  src <> dst ->
  released_once_more_on_failure tj src dst (decompressToYUV obj src size dst flags).
Proof.
  intros Hne.
  assert (Hsd : (src =? dst) = false) by (by apply Z.eqb_neq).
  assert (Hds : (dst =? src) = false) by (apply Z.eqb_neq; congruence).
  unfold Java_org_libjpegturbo_turbojpeg_TJDecompressor_decompressToYUV.
  native_eval.
  destruct (GetObjectClass env obj =? 0) eqn:Hcls; native_step; [counted|].
  destruct (GetFieldID env (GetObjectClass env obj) "handle" "J" =? 0) eqn:Hfid;
    native_step; [counted|].
  destruct (GetArrayLength env src <? size) eqn:Hlen0;
    native_step; [destruct (FindClass _ _ =? 0); native_step; counted|].
  destruct (GetFieldID env (GetObjectClass env obj) "jpegSubsamp" "I" =? 0) eqn:Hf1;
    native_step; [counted|].
  destruct (GetFieldID env (GetObjectClass env obj) "jpegWidth" "I" =? 0) eqn:Hf2;
    native_step; [counted|].
  destruct (GetFieldID env (GetObjectClass env obj) "jpegHeight" "I" =? 0) eqn:Hf3;
    native_step; [counted|].
  destruct (GetArrayLength env dst <? _) eqn:Hlen1;
    native_step; [destruct (FindClass _ _ =? 0); native_step; counted|].
  destruct (GetPrimitiveArrayCritical env src =? 0) eqn:Hps; native_step; [counted|].
  destruct (GetPrimitiveArrayCritical env dst =? 0) eqn:Hpd; native_step; [counted|].
  destruct (tjDecompressToYUV _ _ _ _ _ _ =? -1) eqn:Hstatus; native_step;
    [destruct (FindClass _ _ =? 0); native_step|]; counted.
Qed.

(** X14.  The methods that pin a source and a destination array release
    each of them once on every path on which it was pinned, and once more
    when the call of the library returned -1: the branch for that case
    releases both arrays and leaves srcbuf and dstbuf set, so that the
    statements after the label bailout release them a second time. *)
Theorem pinned_arrays_released :
  forall obj src size dst width pitch height pf jpegsubsamp jpegqual subsamp flags : Z,
    src <> dst ->
    released_once_more_on_failure tj src dst
      (snd (compress_bytes obj src width pitch height pf dst jpegsubsamp jpegqual flags))
    /\ released_once_more_on_failure tj src dst
      (snd (compress_ints obj src width pitch height pf dst jpegsubsamp jpegqual flags))
    /\ released_once_more_on_failure tj src dst
      ((encodeYUV_bytes obj src width pitch height pf dst subsamp flags))
    /\ released_once_more_on_failure tj src dst
      ((encodeYUV_ints obj src width pitch height pf dst subsamp flags))
    /\ released_once_more_on_failure tj src dst
      ((decompress_bytes obj src size dst width pitch height pf flags))
    /\ released_once_more_on_failure tj src dst
      ((decompress_ints obj src size dst width pitch height pf flags))
    /\ released_once_more_on_failure tj src dst (decompressToYUV obj src size dst flags).
Proof.
  intros obj src size dst width pitch height pf jpegsubsamp jpegqual subsamp flags Hne.
  split; [by apply compress_bytes_released|].
  split; [by apply compress_ints_released|].
  split; [by apply encodeYUV_bytes_released|].
  split; [by apply encodeYUV_ints_released|].
  split; [by apply decompress_bytes_released|].
  split; [by apply decompress_ints_released|].
  by apply decompressToYUV_released.
Qed.

Abbreviation decompressHeader :=
  (Java_org_libjpegturbo_turbojpeg_TJDecompressor_decompressHeader env tj).

(** X15.  decompressHeader releases the source array exactly once on every
    path on which it was pinned, also when tjDecompressHeader2 fails; it
    sets a field of the object only after that call succeeded; and when
    the handle and the three fields are found, the array is long enough
    and could be pinned, it does nothing but pin the array, call
    tjDecompressHeader2 and release the array, and then either throw the
    error of the library or set jpegSubsamp, jpegWidth and jpegHeight, in
    this order, to what the library stored. *)
Theorem decompressHeader_sets_fields :
  forall obj src size : Z,
    let status :=
      fst (tjDecompressHeader2 tj (handle_of env obj)
             (GetPrimitiveArrayCritical env src) (to_ulong size)) in
    let header :=
      snd (tjDecompressHeader2 tj (handle_of env obj)
             (GetPrimitiveArrayCritical env src) (to_ulong size)) in
    let cls := GetObjectClass env obj in
    releases_of src (decompressHeader obj src size)
    = pins_of src (decompressHeader obj src size)
    /\ (forall o f v : Z,
          SetIntField o f v ∈ decompressHeader obj src size -> status <> -1)
    /\ (handle_found env obj ->
        size <= GetArrayLength env src ->
        GetPrimitiveArrayCritical env src <> 0 ->
        GetFieldID env cls "jpegSubsamp" "I" <> 0 ->
        GetFieldID env cls "jpegWidth" "I" <> 0 ->
        GetFieldID env cls "jpegHeight" "I" <> 0 ->
        decompressHeader obj src size
        = [Pinned src (GetPrimitiveArrayCritical env src);
           Called_tjDecompressHeader2 (handle_of env obj)
             (GetPrimitiveArrayCritical env src) (to_ulong size);
           ReleasePrimitiveArrayCritical src (GetPrimitiveArrayCritical env src) 0]
          ++ (if status =? -1 then thrown env (tjGetErrorStr tj)
              else [SetIntField obj (GetFieldID env cls "jpegSubsamp" "I")
                      (snd header);
                    SetIntField obj (GetFieldID env cls "jpegWidth" "I")
                      (fst (fst header));
                    SetIntField obj (GetFieldID env cls "jpegHeight" "I")
                      (snd (fst header))])).
Proof.
  intros obj src size. cbv zeta. unfold handle_found, handle_of.
  unfold Java_org_libjpegturbo_turbojpeg_TJDecompressor_decompressHeader.
  native_eval.
  destruct (GetObjectClass env obj =? 0) eqn:Hcls; native_step.
  { bool_hyps. split; [reflexivity|]. split; [intros o f v Hin; event_in Hin|tauto]. }
  destruct (GetFieldID env (GetObjectClass env obj) "handle" "J" =? 0) eqn:Hfid;
    native_step.
  { bool_hyps. split; [reflexivity|]. split; [intros o f v Hin; event_in Hin|tauto]. }
  destruct (GetArrayLength env src <? size) eqn:Hlen; native_step.
  { bool_hyps.
    destruct (FindClass _ _ =? 0); native_step;
      (split; [reflexivity|]; split; [intros o f v Hin; event_in Hin|lia]). }
  destruct (GetPrimitiveArrayCritical env src =? 0) eqn:Hps; native_step.
  { split; [unfold releases_of, pins_of; simpl; by rewrite Z.eqb_refl, Hps|].
    bool_hyps. split; [intros o f v Hin; event_in Hin|tauto]. }
  destruct (tjDecompressHeader2 _ _ _ _) as [status [[width height] jpegsubsamp]]
    eqn:Hcall; native_step.
  destruct (status =? -1) eqn:Hstatus; native_step.
  { destruct (FindClass _ _ =? 0) eqn:Hexc; native_step;
      (split; [unfold releases_of, pins_of; simpl; by rewrite Z.eqb_refl, Hps|]);
      (split; [intros o f v Hin; event_in Hin|reflexivity]). }
  assert (Hok : status <> -1) by (by apply Z.eqb_neq).
  destruct (GetFieldID env (GetObjectClass env obj) "jpegSubsamp" "I" =? 0) eqn:Hf1;
    native_step.
  { split; [unfold releases_of, pins_of; simpl; by rewrite Z.eqb_refl, Hps|].
    bool_hyps. split; [intros; exact Hok|tauto]. }
  destruct (GetFieldID env (GetObjectClass env obj) "jpegWidth" "I" =? 0) eqn:Hf2;
    native_step.
  { split; [unfold releases_of, pins_of; simpl; by rewrite Z.eqb_refl, Hps|].
    bool_hyps. split; [intros; exact Hok|tauto]. }
  destruct (GetFieldID env (GetObjectClass env obj) "jpegHeight" "I" =? 0) eqn:Hf3;
    native_step.
  { split; [unfold releases_of, pins_of; simpl; by rewrite Z.eqb_refl, Hps|].
    bool_hyps. split; [intros; exact Hok|tauto]. }
  split; [unfold releases_of, pins_of; simpl; by rewrite Z.eqb_refl, Hps|].
  split; [intros; exact Hok|reflexivity].
Qed.

Abbreviation compressor_init :=
  (Java_org_libjpegturbo_turbojpeg_TJCompressor_init env tj).
Abbreviation decompressor_init :=
  (Java_org_libjpegturbo_turbojpeg_TJDecompressor_init env tj).
Abbreviation compressor_destroy :=
  (Java_org_libjpegturbo_turbojpeg_TJCompressor_destroy env tj).
Abbreviation decompressor_destroy :=
  (Java_org_libjpegturbo_turbojpeg_TJDecompressor_destroy env tj).

(** X16.  The field handle of the object is written by init only with a
    handle the library returned, and exactly when that handle is not NULL
    and the class and the field are found; a handle created while they are
    not found is stored nowhere.  destroy calls tjDestroy on the handle of
    the object exactly when the field is found, and sets the field to 0
    exactly when that call did not fail; destroy of a decompressor is
    destroy of a compressor. *)
Theorem handle_field_written :
  forall obj o f v : Z,
    (SetLongField o f v ∈ compressor_init obj
     <-> tjInitCompress tj <> 0 /\ handle_found env obj /\ o = obj
         /\ f = GetFieldID env (GetObjectClass env obj) "handle" "J"
         /\ v = tjInitCompress tj)
    /\ (SetLongField o f v ∈ decompressor_init obj
        <-> tjInitDecompress tj <> 0 /\ handle_found env obj /\ o = obj
            /\ f = GetFieldID env (GetObjectClass env obj) "handle" "J"
            /\ v = tjInitDecompress tj)
    /\ (Called_tjDestroy v ∈ compressor_destroy obj
        <-> handle_found env obj /\ v = handle_of env obj)
    /\ (SetLongField o f v ∈ compressor_destroy obj
        <-> handle_found env obj /\ tjDestroy tj (handle_of env obj) <> -1
            /\ o = obj
            /\ f = GetFieldID env (GetObjectClass env obj) "handle" "J"
            /\ v = 0)
    /\ decompressor_destroy obj = compressor_destroy obj.
Proof.
  intros obj o f v. unfold handle_found, handle_of.
  split; [|split; [|split; [|split; [|reflexivity]]]].
  - unfold Java_org_libjpegturbo_turbojpeg_TJCompressor_init. native_eval.
    destruct (tjInitCompress tj =? 0) eqn:Hh; native_step.
    { bool_hyps. destruct (FindClass _ _ =? 0); native_step;
        (split; [intros Hin; event_in Hin|tauto]). }
    destruct (GetObjectClass env obj =? 0) eqn:Hcls; native_step.
    { bool_hyps. split; [intros Hin; event_in Hin|tauto]. }
    destruct (GetFieldID env (GetObjectClass env obj) "handle" "J" =? 0) eqn:Hfid;
      native_step.
    { bool_hyps. split; [intros Hin; event_in Hin|tauto]. }
    bool_hyps. split.
    + intros Hin. event_in Hin. injection Hin as -> -> ->. by repeat split.
    + intros (_ & _ & -> & -> & ->). in_list.
  - unfold Java_org_libjpegturbo_turbojpeg_TJDecompressor_init. native_eval.
    destruct (tjInitDecompress tj =? 0) eqn:Hh; native_step.
    { bool_hyps. destruct (FindClass _ _ =? 0); native_step;
        (split; [intros Hin; event_in Hin|tauto]). }
    destruct (GetObjectClass env obj =? 0) eqn:Hcls; native_step.
    { bool_hyps. split; [intros Hin; event_in Hin|tauto]. }
    destruct (GetFieldID env (GetObjectClass env obj) "handle" "J" =? 0) eqn:Hfid;
      native_step.
    { bool_hyps. split; [intros Hin; event_in Hin|tauto]. }
    bool_hyps. split.
    + intros Hin. event_in Hin. injection Hin as -> -> ->. by repeat split.
    + intros (_ & _ & -> & -> & ->). in_list.
  - unfold Java_org_libjpegturbo_turbojpeg_TJCompressor_destroy. native_eval.
    destruct (GetObjectClass env obj =? 0) eqn:Hcls; native_step.
    { bool_hyps. split; [intros Hin; event_in Hin|tauto]. }
    destruct (GetFieldID env (GetObjectClass env obj) "handle" "J" =? 0) eqn:Hfid;
      native_step.
    { bool_hyps. split; [intros Hin; event_in Hin|tauto]. }
    bool_hyps.
    destruct (tjDestroy _ _ =? -1) eqn:Hd; native_step;
      [destruct (FindClass _ _ =? 0); native_step|];
      (split;
       [ intros Hin; event_in Hin; injection Hin as ->; by repeat split
       | intros (_ & ->); in_list ]).
  - unfold Java_org_libjpegturbo_turbojpeg_TJCompressor_destroy. native_eval.
    destruct (GetObjectClass env obj =? 0) eqn:Hcls; native_step.
    { bool_hyps. split; [intros Hin; event_in Hin|tauto]. }
    destruct (GetFieldID env (GetObjectClass env obj) "handle" "J" =? 0) eqn:Hfid;
      native_step.
    { bool_hyps. split; [intros Hin; event_in Hin|tauto]. }
    bool_hyps.
    destruct (tjDestroy _ _ =? -1) eqn:Hd; native_step.
    { bool_hyps. destruct (FindClass _ _ =? 0); native_step;
        (split; [intros Hin; event_in Hin|tauto]). }
    bool_hyps. split.
    + intros Hin. event_in Hin. injection Hin as -> -> ->. by repeat split.
    + intros (_ & _ & -> & -> & ->). in_list.
Qed.

(** X18.  decompressToYUV calls the library exactly when the object's
    handle and its fields jpegSubsamp, jpegWidth and jpegHeight are found,
    the source array has at least size elements, the destination array at
    least (jsize)TJBUFSIZEYUV of the width, the height and the subsampling
    the object holds in these fields at the call, and both arrays could be
    pinned; size reaches the library as an unsigned long. *)
Theorem tjDecompressToYUV_called_after_checks :
  forall (obj src size dst flags : Z) (ev : jni_event),
    let cls := GetObjectClass env obj in
    let field := fun name => GetIntField env obj (GetFieldID env cls name "I") in
    ev ∈ decompressToYUV obj src size dst flags /\ is_library_call ev = true
    <-> handle_found env obj
        /\ size <= GetArrayLength env src
        /\ GetFieldID env cls "jpegSubsamp" "I" <> 0
        /\ GetFieldID env cls "jpegWidth" "I" <> 0
        /\ GetFieldID env cls "jpegHeight" "I" <> 0
        /\ to_jint (TJBUFSIZEYUV tj (field "jpegWidth") (field "jpegHeight")
                      (field "jpegSubsamp"))
           <= GetArrayLength env dst
        /\ GetPrimitiveArrayCritical env src <> 0
        /\ GetPrimitiveArrayCritical env dst <> 0
        /\ ev = Called_tjDecompressToYUV (handle_of env obj)
                  (GetPrimitiveArrayCritical env src) (to_ulong size)
                  (GetPrimitiveArrayCritical env dst) flags.
Proof.
  intros obj src size dst flags ev. cbv zeta beta.
  unfold handle_found, handle_of.
  unfold Java_org_libjpegturbo_turbojpeg_TJDecompressor_decompressToYUV.
  native_eval.
  destruct (GetObjectClass env obj =? 0) eqn:Hcls; native_step; [not_called|].
  destruct (GetFieldID env (GetObjectClass env obj) "handle" "J" =? 0) eqn:Hfid;
    native_step; [not_called|].
  destruct (GetArrayLength env src <? size) eqn:Hlen0;
    native_step; [destruct (FindClass _ _ =? 0); native_step; not_called|].
  destruct (GetFieldID env (GetObjectClass env obj) "jpegSubsamp" "I" =? 0) eqn:Hf1;
    native_step; [not_called|].
  destruct (GetFieldID env (GetObjectClass env obj) "jpegWidth" "I" =? 0) eqn:Hf2;
    native_step; [not_called|].
  destruct (GetFieldID env (GetObjectClass env obj) "jpegHeight" "I" =? 0) eqn:Hf3;
    native_step; [not_called|].
  destruct (GetArrayLength env dst <? _) eqn:Hlen1;
    native_step; [destruct (FindClass _ _ =? 0); native_step; not_called|].
  destruct (GetPrimitiveArrayCritical env src =? 0) eqn:Hps; native_step; [not_called|].
  destruct (GetPrimitiveArrayCritical env dst =? 0) eqn:Hpd; native_step; [not_called|].
  destruct (tjDecompressToYUV _ _ _ _ _ _ =? -1) eqn:Hstatus; native_step;
    [destruct (FindClass _ _ =? 0); native_step|]; called.
Qed.

Abbreviation getScalingFactors :=
  (Java_org_libjpegturbo_turbojpeg_TJ_getScalingFactors env tj).

Lemma set_scaling_factor_sfjava sf sfcls array i fr :
  sfjava (snd (set_scaling_factor env sf sfcls array i fr)) = sfjava fr.
Proof.
  unfold set_scaling_factor. native_eval.
  destruct (AllocObject env sfcls i =? 0); native_step; [reflexivity|].
  destruct (GetFieldID env sfcls "num" "I" =? 0); native_step; [reflexivity|].
  destruct (GetFieldID env sfcls "denom" "I" =? 0); native_step; reflexivity.
Qed.

Lemma native_for_scaling_sfjava sf sfcls array m i fr :
  sfjava (snd (native_for m i (set_scaling_factor env sf sfcls array) fr))
  = sfjava fr.
Proof.
  revert i fr. induction m as [|m IH]; intros i fr; [reflexivity|].
  cbn [native_for]. unfold native_bind at 1.
  pose proof (set_scaling_factor_sfjava sf sfcls array i fr) as Hbody.
  destruct (set_scaling_factor env sf sfcls array i fr) as [[[]|] fr'];
    simpl in Hbody |- *; [by rewrite IH|done].
Qed.

Lemma native_for_scaling_factors sf sfcls array m i fr :
  (forall k : nat, (i <= k < i + m)%nat -> AllocObject env sfcls (Z.of_nat k) <> 0) ->
  GetFieldID env sfcls "num" "I" <> 0 ->
  GetFieldID env sfcls "denom" "I" <> 0 ->
  native_for m (Z.of_nat i) (set_scaling_factor env sf sfcls array) fr
  = (Some tt,
     {| events :=
          events fr ++ flat_map (scaling_factor_events env sf sfcls array) (seq i m);
        srcbuf := srcbuf fr; dstbuf := dstbuf fr; size := size fr;
        sfjava := sfjava fr |}).
Proof.
  intros Halloc Hnum Hdenom. revert i fr Halloc.
  induction m as [|m IH]; intros i fr Halloc.
  - simpl. rewrite app_nil_r. by destruct fr.
  - cbn [native_for seq flat_map]. unfold native_bind at 1.
    unfold set_scaling_factor at 1. native_eval.
    apply Z.eqb_neq in Hnum, Hdenom.
    assert (Hobj : (AllocObject env sfcls (Z.of_nat i) =? 0) = false)
      by (apply Z.eqb_neq, Halloc; lia).
    rewrite Hobj. native_eval. rewrite Hnum. native_eval.
    rewrite Hdenom. native_eval.
    replace (Z.of_nat i + 1) with (Z.of_nat (S i)) by lia.
    rewrite IH by (intros k Hk; apply Halloc; lia).
    cbn [events srcbuf dstbuf size sfjava]. f_equal. f_equal.
    unfold scaling_factor_events at 2. rewrite Nat2Z.id.
    by rewrite <- !app_assoc.
Qed.

(** X17.  getScalingFactors calls tjGetScalingFactors once; when that fails
    or reports no factor it throws the error of the library and returns
    NULL.  Once the array is created it is what the method returns, also
    when filling it stops early.  When the library reports the length of
    its array of factors and every JNI function answers, the method fills
    the array in index order: for each factor it sets num and denom of a
    new object to the factor's and stores the object at the factor's
    index. *)
Theorem getScalingFactors_fills_array :
  forall (cls : Z) (sf : option (list tjscalingfactor)) (n : Z),
    tjGetScalingFactors tj = (sf, n) ->
    let sfcls := FindClass env "org/libjpegturbo/turbojpeg/TJ$ScalingFactor" in
    let array := NewObjectArray env n sfcls 0 in
    (sf = None \/ n = 0 ->
     getScalingFactors cls
     = (0, Called_tjGetScalingFactors :: thrown env (tjGetErrorStr tj)))
    /\ (sf <> None -> n <> 0 -> sfcls <> 0 -> fst (getScalingFactors cls) = array)
    /\ (forall factors : list tjscalingfactor,
          sf = Some factors ->
          n = Z.of_nat (length factors) ->
          n <> 0 ->
          sfcls <> 0 ->
          array <> 0 ->
          (forall i : Z, 0 <= i < n -> AllocObject env sfcls i <> 0) ->
          GetFieldID env sfcls "num" "I" <> 0 ->
          GetFieldID env sfcls "denom" "I" <> 0 ->
          getScalingFactors cls
          = (array,
             Called_tjGetScalingFactors
             :: flat_map (scaling_factor_events env factors sfcls array)
                  (seq 0 (length factors)))).
Proof.
  intros cls sf n Hcall. cbv zeta.
  unfold Java_org_libjpegturbo_turbojpeg_TJ_getScalingFactors.
  split; [|split].
  - intros Hfail. native_eval. rewrite Hcall.
    assert (Htest : (match sf with None => true | Some _ => false end || (n =? 0))
                    = true).
    { destruct Hfail as [->| ->]; [reflexivity|]. by destruct sf. }
    rewrite Htest. native_eval.
    destruct (FindClass env "java/lang/Exception" =? 0); native_eval; reflexivity.
  - intros Hsf Hn Hcls. native_eval. rewrite Hcall.
    destruct sf as [factors|]; [|done].
    apply Z.eqb_neq in Hn, Hcls. rewrite Hn. cbn [orb]. native_eval.
    rewrite Hcls. native_eval.
    destruct (NewObjectArray env n _ 0 =? 0) eqn:Harr; native_eval.
    + reflexivity.
    + match goal with
      | |- context [native_for ?m ?i (set_scaling_factor env ?s ?c ?a) ?fr] =>
          pose proof (native_for_scaling_sfjava s c a m i fr) as Hkeep;
          destruct (native_for m i (set_scaling_factor env s c a) fr) as [r fr']
      end.
      simpl in Hkeep |- *. exact Hkeep.
  - intros factors -> -> Hn Hcls Harr Halloc Hnum Hdenom. native_eval.
    rewrite Hcall.
    apply Z.eqb_neq in Hn, Hcls, Harr. rewrite Hn. cbn [orb]. native_eval.
    rewrite Hcls. native_eval. rewrite Harr. native_eval.
    rewrite Nat2Z.id.
    match goal with
    | |- context [native_for ?m 0 ?body] =>
        change (native_for m 0 body) with (native_for m (Z.of_nat 0) body)
    end.
    rewrite native_for_scaling_factors;
      [reflexivity| |assumption|assumption].
    intros k Hk. apply Halloc. lia.
Qed.

End BindingProperties.

Lemma compress_rejects_invalid_arguments_witness :
  handle_found answering_env 7
  /\ invalid_compress_arguments 7 0 0 1 0
  /\ Java_org_libjpegturbo_turbojpeg_TJCompressor_compress___3BIIII_3BIII
       0 1 7 answering_env failing_library 7 8 0 0 1 0 9 0 75 0
     = (0, thrown answering_env "Invalid argument in compress()").
Proof.
  assert (Hhandle : handle_found answering_env 7)
    by (unfold handle_found; simpl; lia).
  assert (Hbad : invalid_compress_arguments 7 0 0 1 0)
    by (unfold invalid_compress_arguments; lia).
  split; [exact Hhandle|]. split; [exact Hbad|].
  exact (proj1 (compress_rejects_invalid_arguments 0 1 7 answering_env
                  failing_library 7 8 0 0 1 0 9 0 75 0 Hhandle Hbad)).
Defined.

Lemma pinned_arrays_released_witness :
  8 <> 9
  /\ released_once_more_on_failure failing_library 8 9
       (snd (Java_org_libjpegturbo_turbojpeg_TJCompressor_compress___3BIIII_3BIII
               0 1 7 answering_env failing_library 7 8 2 0 2 0 9 0 75 0)).
Proof.
  assert (Hne : 8 <> 9) by lia.
  split; [exact Hne|].
  exact (proj1 (pinned_arrays_released 0 1 7 answering_env failing_library
                  7 8 0 9 2 0 2 0 0 75 0 0 Hne)).
Defined.

Lemma getScalingFactors_fills_array_witness :
  tjGetScalingFactors failing_library
  = (Some [{| num := 1; denom := 1 |}; {| num := 1; denom := 2 |}], 2)
  /\ Java_org_libjpegturbo_turbojpeg_TJ_getScalingFactors
       answering_env failing_library 0
     = (5, [Called_tjGetScalingFactors;
            SetIntField 6 3 1; SetIntField 6 3 1; SetObjectArrayElement 5 0 6;
            SetIntField 7 3 1; SetIntField 7 3 2; SetObjectArrayElement 5 1 7]).
Proof.
  split; [reflexivity|].
  apply (proj2 (proj2 (getScalingFactors_fills_array answering_env
                         failing_library 0 _ 2 eq_refl))
           [{| num := 1; denom := 1 |}; {| num := 1; denom := 2 |}]);
    try reflexivity; simpl; lia.
Defined.
